(** * univer-file-import: the import and extraction pipeline of [fileImport.ts]

    A shallow embedding of the parts of [src/fileImport.ts] that the
    specification makes claims about, followed by the theorems that settle
    those claims; then of the helpers around them (A1 references, the CSV
    reader, rich text, colours, lookup tables), with their properties in
    Part III.

    Conventions of the embedding.
    - A JavaScript string is a Rocq [string], that is the sequence of the
      bytes of its UTF-8 encoding.  The source only ever inspects ASCII
      characters and a handful of CJK and currency glyphs, which are matched
      as their byte sequences.
    - A JavaScript number that holds an integer is a [Z].  Up to [2 ^ 53]
      in absolute value every integer is a double, and a sum, a difference
      or a product of integers that stays in that range is exact.  The
      letter loops, which the properties follow beyond that range, round
      every operation as the source does ([Js.toDouble], [Js.floorDiv]).
      [Js.parseInt] and [Js.numberToString] are exact on every integer,
      which is what the source computes up to [2 ^ 53]; a property that
      depends on their values bounds the numbers it is about.  The special
      values [NaN] and [Infinity] are written out where the source tests
      for them.
    - A plain object with optional keys is a record of [option] fields; a
      dictionary indexed by computed keys is a [gmap].
    - A regular expression literal of the source is a value of [Regex.regex],
      run by a backtracking matcher that follows the ECMAScript rules
      (leftmost match, greedy and lazy quantifiers, capture groups).  Where
      a comment quotes a regular expression of the source, the double quote
      is written [\q] and a blank separates a star from a closing
      parenthesis. *)

From Stdlib Require Import ZArith List String Ascii Lia Bool.
From Stdlib Require Import DecimalString.
From Stdlib Require DecimalPos.
From stdpp Require Import base option list gmap strings.
Import ListNotations.

Local Open Scope string_scope.
Local Open Scope Z_scope.
Local Open Scope list_scope.

(* ================================================================== *)
(** * Part I: the embedding                                            *)
(* ================================================================== *)

(** ** JavaScript strings and numbers *)

Module Js.

(** [s.charCodeAt(i)] of a single character. *)
Definition charCode (c : ascii) : Z := Z.of_N (N_of_ascii c).

(** [String.fromCharCode(n)] for a code below 256. *)
Definition fromCharCode (n : Z) : ascii := ascii_of_N (Z.to_N n).

(** The string with the given bytes, and the double quote. *)
Definition ofBytes (l : list Z) : string :=
  fold_right (fun b s => String (fromCharCode b) s) EmptyString l.

Definition dquote : ascii := fromCharCode 34.

(** [s.startsWith(p)] *)
Fixpoint startsWith (s p : string) : bool :=
  match p, s with
  | EmptyString, _ => true
  | String c p', String d s' => Ascii.eqb c d && startsWith s' p'
  | String _ _, EmptyString => false
  end.

(** [s.includes(sub)] *)
Fixpoint includes (s sub : string) : bool :=
  startsWith s sub ||
  match s with
  | EmptyString => false
  | String _ s' => includes s' sub
  end.

Definition isDigit (c : ascii) : bool :=
  (48 <=? charCode c) && (charCode c <=? 57).

Definition isUpper (c : ascii) : bool :=
  (65 <=? charCode c) && (charCode c <=? 90).

Definition isLower (c : ascii) : bool :=
  (97 <=? charCode c) && (charCode c <=? 122).

Definition lowerChar (c : ascii) : ascii :=
  if isUpper c then fromCharCode (charCode c + 32) else c.

Definition upperChar (c : ascii) : ascii :=
  if isLower c then fromCharCode (charCode c - 32) else c.

Fixpoint mapChars (f : ascii -> ascii) (s : string) : string :=
  match s with
  | EmptyString => EmptyString
  | String c s' => String (f c) (mapChars f s')
  end.

(** [s.toLowerCase()] and [s.toUpperCase()]; only the ASCII letters change,
    which is all the probes of the source can observe. *)
Definition toLowerCase : string -> string := mapChars lowerChar.
Definition toUpperCase : string -> string := mapChars upperChar.

(** *** Numbers

    The nearest integer to [n / d] for [0 < d], a tie going to the even
    one. *)
Definition nearestEven (n d : Z) : Z :=
  let q := n / d in
  let r := n mod d in
  if 2 * r <? d then q
  else if d <? 2 * r then q + 1
  else if Z.even q then q else q + 1.

(** The double that an operation of the source returns when its exact
    result is the integer [z]: [z] itself when it has at most 53
    significant bits, else the nearest multiple of [2 ^ e] that has, where
    [e] is the number of bits beyond 53.  (From [2 ^ 1024] on the source
    has [Infinity], which is left out: it takes a column name of more than
    217 letters to get there.) *)
Definition toDouble (z : Z) : Z :=
  let e := Z.log2 (Z.abs z) - 52 in
  if e <=? 0 then z
  else Z.sgn z * (nearestEven (Z.abs z) (2 ^ e) * 2 ^ e).

(** [Math.floor(x / d)] for a double [x >= 0] that holds an integer and a
    small divisor [d > 0]: the quotient is rounded to 53 significant bits
    before [Math.floor] sees it. *)
Definition floorDiv (x d : Z) : Z :=
  let q := x / d in
  if q =? 0 then 0
  else
    let e := Z.log2 q - 52 in
    if 0 <=? e then nearestEven x (d * 2 ^ e) * 2 ^ e
    else nearestEven (x * 2 ^ (- e)) d / 2 ^ (- e).

(** The digits at the front of [s], accumulated in base ten. *)
Fixpoint digitsValue (acc : Z) (seen : bool) (s : string) : option Z :=
  match s with
  | String c s' =>
      if isDigit c then digitsValue (acc * 10 + (charCode c - 48)) true s'
      else if seen then Some acc else None
  | EmptyString => if seen then Some acc else None
  end.

(** [parseInt(s, 10)] on a string without leading white space: an optional
    sign, then the longest run of digits; [None] is [NaN].  The value is
    the exact one, which is the number of the source as long as it does not
    exceed [2 ^ 53]; beyond, the source has the nearest double. *)
Definition parseInt (s : string) : option Z :=
  match s with
  | String "-" s' => Z.opp <$> digitsValue 0 false s'
  | String "+" s' => digitsValue 0 false s'
  | _ => digitsValue 0 false s
  end.

(** [String(n)] and the template literal [`${n}`] of an integer: its
    decimal digits, which is what the source writes for a double that holds
    an integer below [10 ^ 21] in absolute value. *)
Definition numberToString (n : Z) : string :=
  NilZero.string_of_int (Z.to_int n).

Fixpoint repeatChar (c : ascii) (n : nat) : string :=
  match n with
  | O => EmptyString
  | S n' => String c (repeatChar c n')
  end.

(** [s.padStart(len, c)] with a one-character filler. *)
Definition padStart (len : nat) (c : ascii) (s : string) : string :=
  repeatChar c (len - String.length s) +:+ s.

(** [s.slice(-n)]: the last [n] characters. *)
Definition sliceLast (n : nat) (s : string) : string :=
  substring (String.length s - n) n s.

(** [a || b] on optional strings: the empty string and [undefined] are falsy. *)
Definition orElse (a b : option string) : option string :=
  match a with
  | Some EmptyString | None => b
  | Some _ => a
  end.

Definition truthy (a : option string) : bool :=
  match a with
  | Some EmptyString | None => false
  | Some _ => true
  end.

(** Every character of [s] passes the test [P]. *)
Fixpoint allChars (P : ascii -> bool) (s : string) : bool :=
  match s with
  | EmptyString => true
  | String c s' => P c && allChars P s'
  end.

(** The characters of the decimal spelling of an integer. *)
Definition decimalChar (c : ascii) : bool := isDigit c || Ascii.eqb c "-".

(** The white space that [trim] removes, as UTF-8 byte sequences:
    U+0009..U+000D, U+0020, U+00A0, U+1680, U+2000..U+200A, U+2028, U+2029,
    U+202F, U+205F, U+3000 and U+FEFF. *)
Definition whiteSpace1 (c : ascii) : bool :=
  ((9 <=? charCode c) && (charCode c <=? 13)) || (charCode c =? 32).

Definition whiteSpaceWidth (s : string) : nat :=
  match s with
  | String a r =>
      if whiteSpace1 a then 1%nat
      else match r with
      | String b r' =>
          if (charCode a =? 194) && (charCode b =? 160) then 2%nat
          else match r' with
          | String c _ =>
              let x := charCode a in let y := charCode b in let z := charCode c in
              if (x =? 225) && (y =? 154) && (z =? 128) then 3%nat
              else if (x =? 226) && (y =? 128) &&
                      (((128 <=? z) && (z <=? 138)) || (z =? 168) || (z =? 169) || (z =? 175))
              then 3%nat
              else if (x =? 226) && (y =? 129) && (z =? 159) then 3%nat
              else if (x =? 227) && (y =? 128) && (z =? 128) then 3%nat
              else if (x =? 239) && (y =? 187) && (z =? 191) then 3%nat
              else 0%nat
          | EmptyString => 0%nat
          end
      | EmptyString => 0%nat
      end
  | EmptyString => 0%nat
  end.

Fixpoint dropChars (n : nat) (s : string) : string :=
  match n, s with
  | S n', String _ s' => dropChars n' s'
  | _, _ => s
  end.

Fixpoint trimStartFuel (fuel : nat) (s : string) : string :=
  match fuel with
  | O => s
  | S f =>
      match whiteSpaceWidth s with
      | O => s
      | w => trimStartFuel f (dropChars w s)
      end
  end.

Definition trimStart (s : string) : string :=
  trimStartFuel (String.length s) s.

Definition allWhiteSpace (s : string) : bool :=
  match trimStart s with
  | EmptyString => true
  | String _ _ => false
  end.

(** The shortest prefix of [s] whose remainder is white space only. *)
Fixpoint trimEnd (s : string) : string :=
  match s with
  | EmptyString => EmptyString
  | String c s' => if allWhiteSpace s then EmptyString else String c (trimEnd s')
  end.

(** [s.trim()] *)
Definition trim (s : string) : string := trimEnd (trimStart s).

End Js.

(** ** Regular expressions

    The matcher is written in continuation-passing style: [run r s c k]
    matches [r] at the front of [s] and hands the rest of the input, with the
    captures made so far, to [k]; when [k] fails the matcher backtracks into
    [r].  This is the ECMAScript matching rule, so alternatives are tried left
    to right, a greedy quantifier tries one more iteration first, and a lazy
    one tries the continuation first. *)

Module Regex.

Inductive regex : Type :=
| Empty                              (* the empty pattern *)
| Char (p : ascii -> bool)           (* one character, a class or a literal *)
| Seq (r1 r2 : regex)                (* r1 r2 *)
| Alt (r1 r2 : regex)                (* r1 | r2 *)
| Star (greedy : bool) (r : regex)   (* r* and r*? *)
| Group (i : nat) (r : regex)        (* the i-th capturing group *)
| Bol                                (* ^ *)
| Eol                                (* $ *)
| NotAhead (r : regex).              (* (?!r) *)

(** Captures: the most recent binding of a group comes first. *)
Definition captures := list (nat * string).

Fixpoint run (r : regex) {R : Type} (whole : nat) (s : string) (c : captures)
    (k : string -> captures -> option R) {struct r} : option R :=
  match r with
  | Empty => k s c
  | Char p =>
      match s with
      | String a s' => if p a then k s' c else None
      | EmptyString => None
      end
  | Seq r1 r2 => run r1 whole s c (fun s' c' => run r2 whole s' c' k)
  | Alt r1 r2 =>
      match run r1 whole s c k with
      | Some x => Some x
      | None => run r2 whole s c k
      end
  | Star greedy r1 =>
      (fix star (fuel : nat) (s : string) (c : captures) {struct fuel} : option R :=
         let again (_ : unit) :=
           match fuel with
           | O => None
           | S fuel' =>
               (* an iteration that consumes nothing is not taken *)
               run r1 whole s c (fun s' c' =>
                 if (String.length s' <? String.length s)%nat
                 then star fuel' s' c' else None)
           end in
         if greedy then
           match again tt with
           | Some x => Some x
           | None => k s c
           end
         else
           match k s c with
           | Some x => Some x
           | None => again tt
           end) (String.length s) s c
  | Group i r1 =>
      run r1 whole s c (fun s' c' =>
        k s' ((i, substring 0 (String.length s - String.length s') s) :: c'))
  | Bol => if (String.length s =? whole)%nat then k s c else None
  | Eol =>
      match s with
      | EmptyString => k s c
      | String _ _ => None
      end
  | NotAhead r1 =>
      match run r1 whole s c (fun _ _ => Some tt) with
      | Some _ => None
      | None => k s c
      end
  end.

(** The result of [exec]: where the match starts, the matched text, what
    follows it, and the captures. *)
Record result := {
  index : nat;
  matched : string;
  rest : string;
  caps : captures
}.

(** Group [i] of a match; [None] is [undefined]. *)
Definition group (m : result) (i : nat) : option string :=
  snd <$> List.find (fun p => Nat.eqb (fst p) i) (caps m).

Definition matchAt (r : regex) (whole : nat) (s : string) : option result :=
  run r whole s [] (fun s' c =>
    Some {| index := (whole - String.length s)%nat;
            matched := substring 0 (String.length s - String.length s') s;
            rest := s';
            caps := c |}).

(** The leftmost match at or after the front of [s], where [s] is a suffix
    of an input of length [whole]. *)
Fixpoint searchFrom (r : regex) (whole : nat) (s : string) : option result :=
  match matchAt r whole s with
  | Some m => Some m
  | None =>
      match s with
      | EmptyString => None
      | String _ s' => searchFrom r whole s'
      end
  end.

(** [s.match(r)] for a regular expression without the [g] flag. *)
Definition exec (r : regex) (s : string) : option result :=
  searchFrom r (String.length s) s.

(** [r.test(s)] *)
Definition test (r : regex) (s : string) : bool :=
  match exec r s with Some _ => true | None => false end.

(** The successive matches of a [g] regular expression: [s.matchAll(r)] and
    the loop [while ((m = r.exec(s)) !== null)].  After an empty match the
    search resumes one character further. *)
Fixpoint allFrom (fuel : nat) (r : regex) (whole : nat) (s : string) : list result :=
  match fuel with
  | O => []
  | S fuel' =>
      match searchFrom r whole s with
      | None => []
      | Some m =>
          m :: match matched m, rest m with
               | EmptyString, EmptyString => []
               | EmptyString, String _ s' => allFrom fuel' r whole s'
               | String _ _, s' => allFrom fuel' r whole s'
               end
      end
  end.

Definition matchAll (r : regex) (s : string) : list result :=
  allFrom (S (String.length s)) r (String.length s) s.

(** [s.replace(r, by)] for a [g] regular expression and a fixed replacement. *)
Fixpoint replaceFrom (fuel : nat) (r : regex) (whole : nat) (by_ : string) (s : string) : string :=
  match fuel with
  | O => s
  | S fuel' =>
      match searchFrom r whole s with
      | None => s
      | Some m =>
          let before := substring 0 (String.length s - String.length (matched m)
                                     - String.length (rest m)) s in
          before +:+ by_ +:+
          match matched m, rest m with
          | EmptyString, EmptyString => EmptyString
          | EmptyString, String a s' => String a (replaceFrom fuel' r whole by_ s')
          | String _ _, s' => replaceFrom fuel' r whole by_ s'
          end
      end
  end.

Definition replaceAll (r : regex) (by_ : string) (s : string) : string :=
  replaceFrom (S (String.length s)) r (String.length s) by_ s.

(** Derived forms. *)
Definition chr (a : ascii) : regex := Char (Ascii.eqb a).

(** A literal, character by character. *)
Fixpoint lit (s : string) : regex :=
  match s with
  | EmptyString => Empty
  | String a EmptyString => chr a
  | String a s' => Seq (chr a) (lit s')
  end.

Definition plus (r : regex) : regex := Seq r (Star true r).        (* r+ *)
Definition plusLazy (r : regex) : regex := Seq r (Star false r).   (* r+? *)
Definition opt (r : regex) : regex := Alt r Empty.                 (* r? *)
Definition star (r : regex) : regex := Star true r.                (* r* *)
Definition starLazy (r : regex) : regex := Star false r.           (* r*? *)

Fixpoint seqs (rs : list regex) : regex :=
  match rs with
  | [] => Empty
  | [r] => r
  | r :: rs' => Seq r (seqs rs')
  end.

Definition digit : regex := Char Js.isDigit.                        (* \d *)
Definition upper : regex := Char Js.isUpper.                        (* [A-Z] *)
Definition notChr (a : ascii) : regex := Char (fun b => negb (Ascii.eqb a b)). (* [^a] *)
Definition anyChar : regex := Char (fun _ => true).                 (* [\s\S] *)

(** A letter under the [i] flag. *)
Definition chrI (a : ascii) : regex :=
  Char (fun b => Ascii.eqb (Js.lowerChar a) (Js.lowerChar b)).

(** The dot: any character but the line terminators LF, CR, U+2028 and
    U+2029. *)
Definition dot : regex :=
  Seq (NotAhead (Alt (lit (Js.ofBytes [226; 128; 168])) (lit (Js.ofBytes [226; 128; 169]))))
      (Char (fun b => negb (Ascii.eqb b "010" || Ascii.eqb b "013"))).

(** r{1,2} and r{4} *)
Definition oneOrTwo (r : regex) : regex := Seq r (opt r).
Definition four (r : regex) : regex := seqs [r; r; r; r].

End Regex.

(** ** Column letters *)

Module Columns.

(** [colToNum] (0-based): A -> 0, B -> 1, Z -> 25, AA -> 26.  The loop
    [for (i = 0; i < col.length; i++) num = num * 26 + (col.charCodeAt(i) - 64)]
    is a left fold over the characters; the product and the sum are
    doubles. *)
Fixpoint lettersValue (num : Z) (col : string) : Z :=
  match col with
  | EmptyString => num
  | String c col' =>
      lettersValue (Js.toDouble (Js.toDouble (num * 26) + (Js.charCode c - 64))) col'
  end.

(** [return num - 1] *)
Definition colToNum (col : string) : Z := Js.toDouble (lettersValue 0 col - 1).

(** [columnLetterToIndex], the same loop under another name. *)
Definition columnLetterToIndex (letter : string) : Z :=
  Js.toDouble (lettersValue 0 letter - 1).

(** The closure [colToNum] inside [parseExcelRange] and [colToNum1Based]:
    A -> 1, B -> 2. *)
Definition colToNum1 (col : string) : Z := lettersValue 0 col.

(** [numToCol]: 1 -> A, 2 -> B.
    [while (num > 0) { remainder = (num - 1) % 26;
                       col = String.fromCharCode(65 + remainder) + col;
                       num = Math.floor((num - 1) / 26); }]
    [None] stands for a loop that is still running when the fuel is spent. *)
Fixpoint numToColLoop (fuel : nat) (num : Z) (col : string) : option string :=
  if 0 <? num then
    match fuel with
    | O => None
    | S fuel' =>
        let less := Js.toDouble (num - 1) in
        let remainder := Z.rem less 26 in
        numToColLoop fuel' (Js.floorDiv less 26)
          (String (Js.fromCharCode (65 + remainder)) col)
    end
  else Some col.

(** Every iteration at least halves the counter, so a number of steps equal
    to its binary length is enough. *)
Definition loopFuel (n : Z) : nat := S (Z.to_nat (Z.log2_up (Z.max n 0 + 1))).

Definition numToCol (num : Z) : option string :=
  numToColLoop (loopFuel num) num EmptyString.

(** [columnIndexToLetter]: 0 -> A, 25 -> Z, 26 -> AA.
    [while (temp >= 0) { letter = String.fromCharCode((temp % 26) + 65) + letter;
                         temp = Math.floor(temp / 26) - 1; }] *)
Fixpoint columnIndexToLetterLoop (fuel : nat) (temp : Z) (letter : string) : option string :=
  if 0 <=? temp then
    match fuel with
    | O => None
    | S fuel' =>
        columnIndexToLetterLoop fuel' (Js.toDouble (Js.floorDiv temp 26 - 1))
          (String (Js.fromCharCode (Z.rem temp 26 + 65)) letter)
    end
  else Some letter.

Definition columnIndexToLetter (columnIndex : Z) : option string :=
  columnIndexToLetterLoop (loopFuel (columnIndex + 1)) columnIndex EmptyString.

End Columns.

(** ** Chart data ranges: [parseExcelRange] and [mergeChartDataRanges] *)

Module ChartRange.
Import Regex.

Record ParsedRange := {
  sheetName : string;
  startCol : Z;
  startRow : Z;
  endCol : Z;
  endRow : Z
}.

(** [/^(.+?)!\$?([A-Z]+)\$?(\d+)(?::\$?([A-Z]+)\$?(\d+))?$/] *)
Definition rangeRegex : regex :=
  seqs [Bol; Group 1 (plusLazy dot); chr "!";
        opt (chr "$"); Group 2 (plus upper); opt (chr "$"); Group 3 (plus digit);
        opt (seqs [chr ":"; opt (chr "$"); Group 4 (plus upper);
                   opt (chr "$"); Group 5 (plus digit)]);
        Eol].

(** [/^'|'$/g] *)
Definition quoteRegex : regex :=
  Alt (Seq Bol (chr "'")) (Seq (chr "'") Eol).

(** [parseExcelRange]; [None] is [null].  The groups 3 and 5 are non-empty
    runs of digits, so [parseInt] always gives a number on them and the
    branches without one are never taken. *)
Definition parseExcelRange (range : string) : option ParsedRange :=
  match exec rangeRegex range with
  | None => None
  | Some m =>
      match group m 1, group m 2, group m 3 with
      | Some g1, Some startColStr, Some g3 =>
          let sheetName := replaceAll quoteRegex "" g1 in
          match Js.parseInt g3 with
          | Some startRow =>
              let endColStr := default startColStr (Js.orElse (group m 4) (Some startColStr)) in
              let endRow :=
                if Js.truthy (group m 5)
                then default startRow (group m 5 ≫= Js.parseInt)
                else startRow in
              Some {| sheetName := sheetName;
                      startCol := Columns.colToNum1 startColStr;
                      startRow := startRow;
                      endCol := Columns.colToNum1 endColStr;
                      endRow := endRow |}
          | None => None
          end
      | _, _, _ => None
      end
  end.

(** The accumulators of [mergeChartDataRanges] start at [Infinity] and
    [-Infinity]. *)
Inductive ExtNum := NegInfinity | Finite (n : Z) | PosInfinity.

Definition extMin (a : ExtNum) (b : Z) : ExtNum :=
  match a with
  | NegInfinity => NegInfinity
  | Finite n => Finite (Z.min n b)
  | PosInfinity => Finite b
  end.

Definition extMax (a : ExtNum) (b : Z) : ExtNum :=
  match a with
  | NegInfinity => Finite b
  | Finite n => Finite (Z.max n b)
  | PosInfinity => PosInfinity
  end.

Definition isPosInfinity (a : ExtNum) : bool :=
  match a with PosInfinity => true | _ => false end.

Record Bounds := {
  minCol : ExtNum;
  minRow : ExtNum;
  maxCol : ExtNum;
  maxRow : ExtNum;
  firstSheet : string
}.

Definition initialBounds : Bounds :=
  {| minCol := PosInfinity; minRow := PosInfinity;
     maxCol := NegInfinity; maxRow := NegInfinity; firstSheet := "" |}.

(** One turn of [for (const range of ranges)]. *)
Definition mergeStep (b : Bounds) (range : string) : Bounds :=
  match parseExcelRange range with
  | None => b
  | Some parsed =>
      {| firstSheet := if Js.truthy (Some (firstSheet b)) then firstSheet b
                       else sheetName parsed;
         minCol := extMin (extMin (minCol b) (startCol parsed)) (endCol parsed);
         minRow := extMin (extMin (minRow b) (startRow parsed)) (endRow parsed);
         maxCol := extMax (extMax (maxCol b) (startCol parsed)) (endCol parsed);
         maxRow := extMax (extMax (maxRow b) (startRow parsed)) (endRow parsed) |}
  end.

(** The template literal [`${numToCol(minCol)}${minRow}:${numToCol(maxCol)}${maxRow}`];
    [None] only if [numToCol] ran out of fuel. *)
Definition formatBounds (c1 r1 c2 r2 : Z) : option string :=
  match Columns.numToCol c1, Columns.numToCol c2 with
  | Some a, Some b =>
      Some (a +:+ Js.numberToString r1 +:+ ":" +:+ b +:+ Js.numberToString r2)
  | _, _ => None
  end.

(** [mergeChartDataRanges]; [None] only if [numToCol] ran out of fuel.
    The test for [Infinity] succeeds here when no reference has parsed.
    In the source it also succeeds for a reference that parses with a
    row of more than 308 digits or a column of more than 217 letters,
    numbers that are [Infinity] there and that are left out here. *)
Definition mergeChartDataRanges (ranges : list string) : option string :=
  match ranges with
  | [] => Some ""
  | first :: _ =>
      let b := fold_left mergeStep ranges initialBounds in
      if isPosInfinity (minCol b) || isPosInfinity (minRow b) then
        (* [return ranges[0] || ''] *)
        Some first
      else
        match minCol b, minRow b, maxCol b, maxRow b with
        | Finite c1, Finite r1, Finite c2, Finite r2 => formatBounds c1 r1 c2 r2
        | _, _, _, _ => None
        end
  end.

(** The filter of [parseChartsFromXlsx] on the text of a [<c:f>] element:
    [range.includes('!') && range.includes('$')]. *)
Definition isQualified (range : string) : bool :=
  Js.includes range "!" && Js.includes range "$".

(** The references of a list that [parseExcelRange] accepts. *)
Definition parsedRanges (ranges : list string) : list ParsedRange :=
  omap parseExcelRange ranges.

(** A rectangle of columns [c1..c2] and rows [r1..r2] covers a reference
    when it contains both of its corner cells. *)
Definition covers (c1 r1 c2 r2 : Z) (p : ParsedRange) : Prop :=
  c1 <= startCol p <= c2 /\ c1 <= endCol p <= c2 /\
  r1 <= startRow p <= r2 /\ r1 <= endRow p <= r2.

(** The minimal bounding rectangle of a list of references: it covers all
    of them, and lies inside every rectangle that does. *)
Definition minimalBox (ps : list ParsedRange) (c1 r1 c2 r2 : Z) : Prop :=
  Forall (covers c1 r1 c2 r2) ps /\
  forall c1' r1' c2' r2',
    Forall (covers c1' r1' c2' r2') ps ->
    c1' <= c1 /\ r1' <= r1 /\ c2 <= c2' /\ r2 <= r2'.

(** What the accumulators of [mergeChartDataRanges] hold after the
    references [ps] have been merged. *)
Definition boundsInvariant (ps : list ParsedRange) (b : Bounds) : Prop :=
  match ps with
  | [] =>
      minCol b = PosInfinity /\ minRow b = PosInfinity /\
      maxCol b = NegInfinity /\ maxRow b = NegInfinity
  | _ :: _ =>
      exists c1 r1 c2 r2,
        minCol b = Finite c1 /\ minRow b = Finite r1 /\
        maxCol b = Finite c2 /\ maxRow b = Finite r2 /\
        minimalBox ps c1 r1 c2 r2
  end.

(** The characters of a merged range: column letters, digits, the sign of
    a number and the colon. *)
Definition rangeChar (c : ascii) : bool :=
  Js.isUpper c || Js.decimalChar c || Ascii.eqb c ":".

End ChartRange.

(** ** The chart extractor: the body of the anchor loop of [parseChartsFromXlsx] *)

Module Charts.
Import Regex.

(** The closed set [ImportedChart['chartType']]. *)
Inductive ChartType :=
| column | bar | line | area | pie | doughnut | scatter | radar | bubble
| combo | stackedBar | percentStackedBar | stackedArea | percentStackedArea
| wordCloud | funnel | relationship | waterfall | treemap | sankey | heatmap
| boxPlot | unknown.

Record Position := { row : Z; column_ : Z; rowOffset : Z; columnOffset : Z }.
Record Size := { width : Z; height : Z }.

Record ImportedChart := {
  chartId : string;
  sheetId : string;
  sheetName : string;
  chartType : ChartType;
  dataRange : string;
  position : Position;
  size : Size;
  title : string
}.

Definition q : regex := chr Js.dquote.
Definition notQuote : regex := notChr Js.dquote.
Definition xdr : regex := opt (lit "xdr:").                 (* (?:xdr:)? *)

(** [/<c:chart[^>]*r:id=\q([^\q]* )\q/] *)
Definition chartRefRegex : regex :=
  seqs [lit "<c:chart"; star (notChr ">"); lit "r:id="; q; Group 1 (star notQuote); q].

(** [/<(?:xdr:)?from>[\s\S]*?<(?:xdr:)?TAG>(\d+)<\/(?:xdr:)?TAG>/] *)
Definition fromRegex (tag : string) : regex :=
  seqs [chr "<"; xdr; lit "from>"; starLazy anyChar;
        chr "<"; xdr; lit tag; chr ">"; Group 1 (plus digit);
        lit "</"; xdr; lit tag; chr ">"].

(** [/<(?:xdr:)?ext[^>]*cx=\q(\d+)\q[^>]*cy=\q(\d+)\q/] *)
Definition extRegex : regex :=
  seqs [chr "<"; xdr; lit "ext"; star (notChr ">"); lit "cx="; q; Group 1 (plus digit); q;
        star (notChr ">"); lit "cy="; q; Group 2 (plus digit); q].

(** [/<c:barDir[^>]*val=\q([^\q]* )\q/] and [/<c:grouping[^>]*val=\q([^\q]* )\q/] *)
Definition valRegex (tag : string) : regex :=
  seqs [lit tag; star (notChr ">"); lit "val="; q; Group 1 (star notQuote); q].

(** [/<c:f>([^<]+)<\/c:f>/g] *)
Definition formulaRegex : regex :=
  seqs [lit "<c:f>"; Group 1 (plus (notChr "<")); lit "</c:f>"].

(** [/<c:title>[\s\S]*?<c:t>([^<]+)<\/c:t>/] *)
Definition titleRegex : regex :=
  seqs [lit "<c:title>"; starLazy anyChar; lit "<c:t>"; Group 1 (plus (notChr "<")); lit "</c:t>"].

(** [Math.round(n / d)] for a positive [d]: the nearest integer, halves up. *)
Definition roundDiv (n d : Z) : Z := (2 * n + d) / (2 * d).

(** [m ? parseInt(m[1], 10) : 0] *)
Definition intOfMatch (m : option result) : option Z :=
  m ≫= (fun r => group r 1 ≫= Js.parseInt).

Definition positionOf (anchorContent : string) : Position :=
  let num tag := intOfMatch (exec (fromRegex tag) anchorContent) in
  {| column_ := default 0 (num "col");
     row := default 0 (num "row");
     columnOffset := default 0 ((fun n => roundDiv n 9525) <$> num "colOff");
     rowOffset := default 0 ((fun n => roundDiv n 9525) <$> num "rowOff") |}.

Definition sizeOf (anchorContent : string) : Size :=
  match exec extRegex anchorContent with
  | Some m =>
      {| width := roundDiv (default 0 (group m 1 ≫= Js.parseInt)) 9525;
         height := roundDiv (default 0 (group m 2 ≫= Js.parseInt)) 9525 |}
  | None => {| width := 600; height := 400 |}
  end.

(** The chain [if (chartXml.includes('<c:barChart')) ... else if ...], which
    assigns to a variable initialised with ['column']. *)
Definition chartTypeOf (chartXml : string) : ChartType :=
  if Js.includes chartXml "<c:barChart" then
    let barDirMatch := exec (valRegex "<c:barDir") chartXml in
    let groupingMatch := exec (valRegex "<c:grouping") chartXml in
    let grouping :=
      match groupingMatch with
      | Some m => default "" (group m 1)
      | None => "clustered"
      end in
    if bool_decide ((barDirMatch ≫= fun m => group m 1) = Some "bar") then
      if String.eqb grouping "stacked" then stackedBar
      else if String.eqb grouping "percentStacked" then percentStackedBar
      else bar
    else
      if String.eqb grouping "stacked" then column
      else if String.eqb grouping "percentStacked" then column
      else column
  else if Js.includes chartXml "<c:lineChart" then line
  else if Js.includes chartXml "<c:pieChart" then pie
  else if Js.includes chartXml "<c:doughnutChart" then doughnut
  else if Js.includes chartXml "<c:areaChart" then
    let groupingMatch := exec (valRegex "<c:grouping") chartXml in
    let grouping :=
      match groupingMatch with
      | Some m => default "" (group m 1)
      | None => "standard"
      end in
    if String.eqb grouping "stacked" then stackedArea
    else if String.eqb grouping "percentStacked" then percentStackedArea
    else area
  else if Js.includes chartXml "<c:scatterChart" then scatter
  else if Js.includes chartXml "<c:radarChart" then radar
  else if Js.includes chartXml "<c:bubbleChart" then bubble
  else if Js.includes chartXml "<c:ofPieChart" then pie
  else if Js.includes chartXml "<c:surfaceChart" then scatter
  else if Js.includes chartXml "<c:stockChart" then combo
  else column.

(** The texts of the [<c:f>] elements that denote a qualified range. *)
Definition allRangesOf (chartXml : string) : list string :=
  filter (fun r => Is_true (ChartRange.isQualified r))
         (omap (fun m => group m 1) (matchAll formulaRegex chartXml)).

Definition dataRangeOf (chartXml : string) : string :=
  match allRangesOf chartXml with
  | [] => ""
  | rs => default "" (ChartRange.mergeChartDataRanges rs)
  end.

Definition titleOf (chartXml : string) : string :=
  default "" (exec titleRegex chartXml ≫= fun m => group m 1).

Definition isPivotChart (chartXml : string) : bool :=
  Js.includes chartXml "<c:pivotSource" || Js.includes chartXml "<c15:pivotSource".

(** The chart that an anchor refers to: the relationship id in its
    [<c:chart>] element, looked up in [chartRIdMap].  [None] covers the two
    tests that end the turn with [continue]. *)
Definition chartPathOf (chartRIdMap : gmap string string) (anchorContent : string)
    : option string :=
  match exec chartRefRegex anchorContent with
  | None => None
  | Some chartRefMatch =>
      let chartRId := default "" (group chartRefMatch 1) in
      match chartRIdMap !! chartRId with
      | None | Some EmptyString => None
      | Some chartPath => Some chartPath
      end
  end.

(** One turn of the loop over the anchors of a drawing.  [zip] maps the path
    of an archive entry to its text, [chartRIdMap] the relationship ids of
    the drawing to chart paths, and [nanoid] is the token drawn for this
    chart.  [None] is a [continue]: nothing is pushed. *)
Definition chartFromAnchor (zip chartRIdMap : gmap string string)
    (sheetId sheetName nanoid : string) (anchorContent : string) : option ImportedChart :=
  match chartPathOf chartRIdMap anchorContent with
  | None => None
  | Some chartPath =>
      let position := positionOf anchorContent in
      let size := sizeOf anchorContent in
      let emit chartType dataRange title :=
        Some {| chartId := "chart-" +:+ nanoid;
                sheetId := sheetId; sheetName := sheetName;
                chartType := chartType; dataRange := dataRange;
                position := position; size := size; title := title |} in
      match zip !! ("xl/" +:+ chartPath) with
      | Some chartXml =>
          if isPivotChart chartXml then None
          else emit (chartTypeOf chartXml) (dataRangeOf chartXml) (titleOf chartXml)
      | None => emit column "" ""
      end
  end.

(** The element tags by which the chain of [chartTypeOf] tells the chart
    families apart. *)
Definition familyTags : list string :=
  ["<c:barChart"; "<c:lineChart"; "<c:pieChart"; "<c:doughnutChart"; "<c:areaChart";
   "<c:scatterChart"; "<c:radarChart"; "<c:bubbleChart"; "<c:ofPieChart";
   "<c:surfaceChart"; "<c:stockChart"].

Definition hasFamilyTag (chartXml : string) : bool :=
  existsb (Js.includes chartXml) familyTags.

End Charts.

(** ** The pivot-table extractor: the body of the loop over the pivot-table
    parts of a sheet in [parsePivotTablesFromXlsx] *)

Module Pivot.
Import Regex.

Record Range := {
  startRow : Z;
  startColumn : Z;
  endRow : Z;
  endColumn : Z
}.

(** A value of [pivotCacheMap]. *)
Record CacheInfo := {
  sourceSheetName : string;
  cacheRange : Range
}.

Record SourceRange := {
  srcSheetName : string;
  srcSheetId : option string;
  srcRange : Range
}.

Record AnchorCell := { row : Z; col : Z }.

Record Fields := {
  rowFields : list Z;
  colFields : list Z;
  valueFields : list Z;
  filterFields : list Z
}.

Record ImportedPivotTable := {
  pivotTableId : string;
  sheetId : string;
  sheetName : string;
  sourceRange : SourceRange;
  anchorCell : AnchorCell;
  occupiedRange : option Range;
  fields : Fields;
  name : option string
}.

Definition q : regex := chr Js.dquote.
Definition notQuote : regex := notChr Js.dquote.

(** [/<TAG[^>]*ATTR=\q([^\q]* )\q/] *)
Definition attrRegex (tag attr : string) : regex :=
  seqs [lit tag; star (notChr ">"); lit attr; chr "="; q; Group 1 (star notQuote); q].

(** [/<TAG[^>]*ATTR=\q(\d+)\q/] and, with [signed], [/<TAG[^>]*ATTR=\q(-?\d+)\q/] *)
Definition numAttrRegex (signed : bool) (tag attr : string) : regex :=
  seqs [lit tag; star (notChr ">"); lit attr; chr "="; q;
        Group 1 (if signed then Seq (opt (chr "-")) (plus digit) else plus digit); q].

(** [/([A-Z]+)(\d+):([A-Z]+)(\d+)/] *)
Definition fullRangeRegex : regex :=
  seqs [Group 1 (plus upper); Group 2 (plus digit); chr ":";
        Group 3 (plus upper); Group 4 (plus digit)].

(** [/([A-Z]+)(\d+)/] *)
Definition cellRegex : regex :=
  seqs [Group 1 (plus upper); Group 2 (plus digit)].

(** [/<TAG[^>]*>([\s\S]*?)<\/TAG>/] *)
Definition blockRegex (tag : string) : regex :=
  seqs [chr "<"; lit tag; star (notChr ">"); chr ">"; Group 1 (starLazy anyChar);
        lit "</"; lit tag; chr ">"].

Definition groupInt (m : result) (i : nat) : Z :=
  default 0 (group m i ≫= Js.parseInt).

Definition groupCol (m : result) (i : nat) : Z :=
  Columns.colToNum (default "" (group m i)).

(** What the [<location ref=...>] element gives before the filter rows are
    taken into account: [anchorRow], [anchorCol] and [occupiedRange]. *)
Record Location := {
  anchorRow : Z;
  anchorCol : Z;
  occupied : option Range
}.

Definition locationOf (pivotTableXml : string) : Location :=
  let none := {| anchorRow := 0; anchorCol := 0; occupied := None |} in
  match exec (attrRegex "<location" "ref") pivotTableXml with
  | None => none
  | Some locationMatch =>
      let refRange := default "" (group locationMatch 1) in
      match exec fullRangeRegex refRange with
      | Some m =>
          {| anchorCol := groupCol m 1;
             anchorRow := groupInt m 2 - 1;
             occupied := Some {| startRow := groupInt m 2 - 1;
                                 startColumn := groupCol m 1;
                                 endRow := groupInt m 4 - 1;
                                 endColumn := groupCol m 3 |} |}
      | None =>
          match exec cellRegex refRange with
          | Some m =>
              {| anchorCol := groupCol m 1; anchorRow := groupInt m 2 - 1; occupied := None |}
          | None => none
          end
      end
  end.

(** The indices listed inside [<BLOCK ...> ... </BLOCK>] by elements
    [<ITEM ... ATTR=...>]; with [signed], negative indices are dropped. *)
Definition fieldsOf (signed : bool) (block item attr : string) (pivotTableXml : string)
    : list Z :=
  match exec (blockRegex block) pivotTableXml with
  | None => []
  | Some m =>
      let indices :=
        omap (fun f => group f 1 ≫= Js.parseInt)
             (matchAll (numAttrRegex signed ("<" +:+ item) attr) (default "" (group m 1))) in
      if signed then filter (fun i => 0 <= i) indices else indices
  end.

(** The shift of the anchor by two rows for every filter field:
    [if (filterRowCount > 0) { anchorRow = Math.max(0, anchorRow - filterRowCount); ... }] *)
Definition adjustForFilters (filterFields : list Z) (l : Location) : Location :=
  let filterRowCount := Z.of_nat (length filterFields) * 2 in
  if 0 <? filterRowCount then
    {| anchorRow := Z.max 0 (anchorRow l - filterRowCount);
       anchorCol := anchorCol l;
       occupied :=
         (fun o => {| startRow := Z.max 0 (startRow o - filterRowCount);
                      startColumn := startColumn o;
                      endRow := endRow o;
                      endColumn := endColumn o |}) <$> occupied l |}
  else l.

(** One pivot-table part.  [None] is the [continue] taken when the cache of
    the table is unknown. *)
Definition pivotTableFromXml (pivotCacheMap : gmap string CacheInfo)
    (sheetNameToIdMap : gmap string string)
    (sheetId sheetName nanoid : string) (pivotTableXml : string) : option ImportedPivotTable :=
  let location := locationOf pivotTableXml in
  let name :=
    exec (attrRegex "<pivotTableDefinition" "name") pivotTableXml ≫= fun m => group m 1 in
  let cacheId :=
    match exec (numAttrRegex false "<pivotTableDefinition" "cacheId") pivotTableXml with
    | Some m => default "" (group m 1)
    | None => "1"
    end in
  match pivotCacheMap !! cacheId with
  | None => None
  | Some cacheInfo =>
      let rowFields := fieldsOf true "rowFields" "field" "x" pivotTableXml in
      let colFields := fieldsOf true "colFields" "field" "x" pivotTableXml in
      let valueFields := fieldsOf false "dataFields" "dataField" "fld" pivotTableXml in
      let filterFields := fieldsOf false "pageFields" "pageField" "fld" pivotTableXml in
      let adjusted := adjustForFilters filterFields location in
      Some {| pivotTableId := "pivot-" +:+ nanoid;
              sheetId := sheetId;
              sheetName := sheetName;
              sourceRange :=
                {| srcSheetName := sourceSheetName cacheInfo;
                   srcSheetId := sheetNameToIdMap !! sourceSheetName cacheInfo;
                   srcRange := cacheRange cacheInfo |};
              anchorCell := {| row := anchorRow adjusted; col := anchorCol adjusted |};
              occupiedRange := occupied adjusted;
              fields := {| rowFields := rowFields; colFields := colFields;
                           valueFields := valueFields; filterFields := filterFields |};
              name := name |}
  end.

End Pivot.

(** ** The number-format resolver: [parseNumFormat] and [convertNumFormat] *)

Module NumFmt.
Import Regex.

(** The object built by [parseNumFormat]; a key that was never assigned is
    [None]. *)
Record FormatInfo := {
  type_ : option string;
  decimalPlaces : option Z;
  isPercent : option bool;
  isCurrency : option bool;
  isScientific : option bool;
  hasThousandsSeparator : option bool;
  isDateTime : option bool;
  hasNegativeFormat : option bool;
  currencySymbol : option string
}.

Definition noInfo : FormatInfo :=
  {| type_ := None; decimalPlaces := None; isPercent := None; isCurrency := None;
     isScientific := None; hasThousandsSeparator := None; isDateTime := None;
     hasNegativeFormat := None; currencySymbol := None |}.

(** How a reader sees an optional flag: an absent key is falsy. *)
Definition flag (o : option bool) : bool := default false o.

(** [cond ? true : (key left unset)] *)
Definition setIf (cond : bool) : option bool := if cond then Some true else None.

(** [/\.([0#?]+)/] *)
Definition decimalRegex : regex :=
  Seq (chr ".")
      (Group 1 (plus (Char (fun c => Ascii.eqb c "0" || Ascii.eqb c "#" || Ascii.eqb c "?")))).

Definition dateTimePatterns : list string :=
  ["yyyy"; "yy"; "mm"; "dd"; "hh"; "ss"; "AM/PM"; "am/pm"].

(** The scan of the format string that fills [result]. *)
Definition scan (numFmt : string) : FormatInfo :=
  {| type_ := None;
     currencySymbol := None;
     isPercent := setIf (Js.includes numFmt "%");
     isCurrency := setIf (Js.includes numFmt "$" || Js.includes numFmt "¥" ||
                          Js.includes numFmt "€" || Js.includes numFmt "£");
     isScientific := setIf (Js.includes (Js.toUpperCase numFmt) "E+" ||
                            Js.includes (Js.toUpperCase numFmt) "E-");
     hasThousandsSeparator := setIf (Js.includes numFmt ",");
     decimalPlaces :=
       match exec decimalRegex numFmt with
       | Some m => Some (Z.of_nat (String.length (default "" (group m 1))))
       | None => Some 0
       end;
     isDateTime :=
       setIf (existsb (fun pattern =>
                Js.includes (Js.toLowerCase numFmt) (Js.toLowerCase pattern))
              dateTimePatterns);
     hasNegativeFormat :=
       setIf (Js.includes numFmt "[Red]" ||
              (Js.includes numFmt "(" && Js.includes numFmt ")")) |}.

(** Rows of [builtInFormats]. *)
Definition number (d : Z) (sep : bool) : FormatInfo :=
  {| type_ := Some "number"; decimalPlaces := Some d; isPercent := None;
     isCurrency := None; isScientific := None; hasThousandsSeparator := setIf sep;
     isDateTime := None; hasNegativeFormat := None; currencySymbol := None |}.

Definition percent (d : Z) : FormatInfo :=
  {| type_ := Some "percent"; decimalPlaces := Some d; isPercent := Some true;
     isCurrency := None; isScientific := None; hasThousandsSeparator := None;
     isDateTime := None; hasNegativeFormat := None; currencySymbol := None |}.

Definition scientific (d : Z) : FormatInfo :=
  {| type_ := Some "scientific"; decimalPlaces := Some d; isPercent := None;
     isCurrency := None; isScientific := Some true; hasThousandsSeparator := None;
     isDateTime := None; hasNegativeFormat := None; currencySymbol := None |}.

Definition money (kind : string) (d : Z) (symbol : string) : FormatInfo :=
  {| type_ := Some kind; decimalPlaces := Some d; isPercent := None;
     isCurrency := Some true; isScientific := None; hasThousandsSeparator := None;
     isDateTime := None; hasNegativeFormat := None; currencySymbol := Some symbol |}.

Definition temporal (kind : string) : FormatInfo :=
  {| type_ := Some kind; decimalPlaces := None; isPercent := None;
     isCurrency := None; isScientific := None; hasThousandsSeparator := None;
     isDateTime := Some true; hasNegativeFormat := None; currencySymbol := None |}.

Definition plain (kind : string) : FormatInfo :=
  {| type_ := Some kind; decimalPlaces := None; isPercent := None;
     isCurrency := None; isScientific := None; hasThousandsSeparator := None;
     isDateTime := None; hasNegativeFormat := None; currencySymbol := None |}.

Definition quoted (s : string) : string := String Js.dquote (s +:+ String Js.dquote "").

Definition builtInFormats : list (string * FormatInfo) :=
  [ ("General", plain "general");
    ("0", number 0 false);
    ("0.00", number 2 false);
    ("#,##0", number 0 true);
    ("#,##0.00", number 2 true);
    ("#,##0.0", number 1 true);
    ("#,##0.000", number 3 true);
    ("#,##0.0000", number 4 true);
    ("0.0", number 1 false);
    ("0.000", number 3 false);
    ("0.0000", number 4 false);
    ("0%", percent 0);
    ("0.0%", percent 1);
    ("0.00%", percent 2);
    ("0.000%", percent 3);
    ("0.00E+00", scientific 2);
    ("##0.0E+0", scientific 1);
    ("¥#,##0", money "currency" 0 "¥");
    ("¥#,##0.00", money "currency" 2 "¥");
    (quoted "¥" +:+ "#,##0", money "currency" 0 "¥");
    (quoted "¥" +:+ "#,##0.00", money "currency" 2 "¥");
    ("$#,##0", money "currency" 0 "$");
    ("$#,##0.00", money "currency" 2 "$");
    (quoted "$" +:+ "#,##0", money "currency" 0 "$");
    (quoted "$" +:+ "#,##0.00", money "currency" 2 "$");
    ("_-¥* #,##0_-", money "accounting" 0 "¥");
    ("_-¥* #,##0.00_-", money "accounting" 2 "¥");
    ("yyyy-mm-dd", temporal "date");
    ("yyyy/mm/dd", temporal "date");
    ("yyyy年m月d日", temporal "date");
    ("mm-dd-yy", temporal "date");
    ("m/d/yy", temporal "date");
    ("d-mmm-yy", temporal "date");
    ("d-mmm", temporal "date");
    ("mmm-yy", temporal "date");
    ("h:mm", temporal "time");
    ("h:mm:ss", temporal "time");
    ("h:mm AM/PM", temporal "time");
    ("h:mm:ss AM/PM", temporal "time");
    ("yyyy-mm-dd h:mm", temporal "datetime");
    ("yyyy-mm-dd h:mm:ss", temporal "datetime");
    ("m/d/yy h:mm", temporal "datetime");
    ("@", plain "text") ].

Definition lookupBuiltIn (numFmt : string) : option FormatInfo :=
  snd <$> List.find (fun p => String.eqb (fst p) numFmt) builtInFormats.

(** The spread [{ ...a, ...b }]: a key of [b] wins over the same key of [a]. *)
Definition orKey {A} (b a : option A) : option A :=
  match b with Some _ => b | None => a end.

Definition spread (a b : FormatInfo) : FormatInfo :=
  {| type_ := orKey (type_ b) (type_ a);
     decimalPlaces := orKey (decimalPlaces b) (decimalPlaces a);
     isPercent := orKey (isPercent b) (isPercent a);
     isCurrency := orKey (isCurrency b) (isCurrency a);
     isScientific := orKey (isScientific b) (isScientific a);
     hasThousandsSeparator := orKey (hasThousandsSeparator b) (hasThousandsSeparator a);
     isDateTime := orKey (isDateTime b) (isDateTime a);
     hasNegativeFormat := orKey (hasNegativeFormat b) (hasNegativeFormat a);
     currencySymbol := orKey (currencySymbol b) (currencySymbol a) |}.

Definition present {A} (o : option A) : bool :=
  match o with Some _ => true | None => false end.

(** [Object.keys(result).length > 0] *)
Definition hasKeys (r : FormatInfo) : bool :=
  present (type_ r) || present (decimalPlaces r) || present (isPercent r) ||
  present (isCurrency r) || present (isScientific r) ||
  present (hasThousandsSeparator r) || present (isDateTime r) ||
  present (hasNegativeFormat r) || present (currencySymbol r).

(** [parseNumFormat]; [None] is [undefined].  A name inherited from
    [Object.prototype] also passes the test [builtInFormats[numFmt]], but
    spreading such a value adds no key, and [result] always has the key
    [decimalPlaces], so the outcome is that of the last line. *)
Definition parseNumFormat (numFmt : string) : option FormatInfo :=
  let result := scan numFmt in
  match lookupBuiltIn numFmt with
  | Some builtIn => Some (spread builtIn result)
  | None => if hasKeys result then Some result else None
  end.

(** The object returned by [convertNumFormat]: the key [pattern], and next
    to it the keys of the format information. *)
Record NumFormat := {
  pattern : string;
  info : FormatInfo
}.

Definition convertNumFormat (numFmt : string) : option NumFormat :=
  if String.eqb numFmt "" || String.eqb numFmt "General" then None
  else Some {| pattern := numFmt;
               info := default noInfo (parseNumFormat numFmt) |}.

End NumFmt.

(** ** The date engine *)

Module DateEngine.
Import Regex.

(** *** Time values of ECMAScript

    A [Date] object holds a time value: a number of milliseconds since
    1970-01-01T00:00:00Z, or [NaN] for an invalid date.  Here a time value
    is an [option Z], [None] being [NaN]. *)

Definition msPerDay : Z := 24 * 60 * 60 * 1000.
Definition msPerHour : Z := 3600000.
Definition msPerMinute : Z := 60000.
Definition msPerSecond : Z := 1000.

(** [Day(t)] *)
Definition Day (t : Z) : Z := t / msPerDay.

(** The civil date (year, month 1..12, day 1..31) of a day number in the
    proleptic Gregorian calendar; this is what [YearFromTime],
    [MonthFromTime] and [DateFromTime] compute. *)
Definition civilFromDays (z : Z) : Z * Z * Z :=
  let z := z + 719468 in
  let era := z / 146097 in
  let doe := z - era * 146097 in
  let yoe := (doe - doe / 1460 + doe / 36524 - doe / 146096) / 365 in
  let doy := doe - (365 * yoe + yoe / 4 - yoe / 100) in
  let mp := (5 * doy + 2) / 153 in
  let d := doy - (153 * mp + 2) / 5 + 1 in
  let m := if mp <? 10 then mp + 3 else mp - 9 in
  let y := yoe + era * 400 in
  (if m <=? 2 then y + 1 else y, m, d).

(** The day number of the civil date [y]-[m]-[d], [m] in 1..12. *)
Definition daysFromCivil (y m d : Z) : Z :=
  let y := if m <=? 2 then y - 1 else y in
  let era := y / 400 in
  let yoe := y - era * 400 in
  let doy := (153 * (if 2 <? m then m - 3 else m + 9) + 2) / 5 + d - 1 in
  let doe := yoe * 365 + yoe / 4 - yoe / 100 + doy in
  era * 146097 + doe - 719468.

(** The test that [daysFromCivil] undoes [civilFromDays] on the day
    number [z], with the month in 1..12; it is run over a range of days in
    the proofs. *)
Definition civilRoundTrip (z : Z) : bool :=
  let '(y, m, d) := civilFromDays z in
  (1 <=? m) && (m <=? 12) && (daysFromCivil y m d =? z).

(** The test on the [2 ^ depth] days from [lo] on. *)
Fixpoint civilRoundTripRange (depth : nat) (lo : Z) : bool :=
  match depth with
  | O => civilRoundTrip lo
  | S d => civilRoundTripRange d lo && civilRoundTripRange d (lo + 2 ^ Z.of_nat d)
  end.

(** [MakeDay(year, month, date)], with a 0-based month that may lie outside
    0..11, [MakeDate] and [TimeClip]. *)
Definition MakeDay (year month date : Z) : Z :=
  daysFromCivil (year + month / 12) (month mod 12 + 1) 1 + date - 1.

Definition MakeDate (day time : Z) : Z := day * msPerDay + time.

Definition TimeClip (t : Z) : option Z :=
  if Z.abs t <=? 8640000000000000 then Some t else None.

(** A year from 0 to 99 given to [Date.UTC] or to the [Date] constructor
    means 1900 + year. *)
Definition fullYear (y : Z) : Z :=
  if (0 <=? y) && (y <=? 99) then 1900 + y else y.

(** [Date.UTC(year, month, day)] *)
Definition DateUTC (year month day : Z) : option Z :=
  TimeClip (MakeDate (MakeDay (fullYear year) month day) 0).

(** A JavaScript number as far as the serial conversion needs it: [NaN],
    an infinity, or an integer.  Serials with a fractional part (a time of
    day) are outside the embedding. *)
Inductive JsNumber :=
| NaN
| Infinity (negative : bool)
| Int (z : Z).

Inductive Completion (A : Type) :=
| Return (a : A)
| Throw.
Arguments Return {A} a.
Arguments Throw {A}.

(** [try { body } catch { handler }] *)
Definition tryCatch {A} (body handler : Completion A) : Completion A :=
  match body with
  | Return a => Return a
  | Throw => handler
  end.

Section Runtime.

(** The environment of a run: the local time zone, as the offset from UTC
    in milliseconds in force at a UTC instant and at a local time
    ([LocalTZA(t, true)] and [LocalTZA(t, false)]), the
    implementation-defined [Date.parse], and
    [toLocaleDateString('zh-CN')]. *)
Variable offsetAtUTC : Z -> Z.
Variable offsetAtLocal : Z -> Z.
Variable dateParse : string -> option Z.
Variable toLocaleDateString : Z -> Completion string.

(** [LocalTime(t)] and [UTC(t)] *)
Definition LocalTime (t : Z) : Z := t + offsetAtUTC t.
Definition UTC (t : Z) : Z := t - offsetAtLocal t.

(** The getters of a [Date]; [None] is [NaN]. *)
Definition getFullYear (date : option Z) : option Z :=
  (fun t => fst (fst (civilFromDays (Day (LocalTime t))))) <$> date.
Definition getMonth (date : option Z) : option Z :=
  (fun t => snd (fst (civilFromDays (Day (LocalTime t)))) - 1) <$> date.
Definition getDate (date : option Z) : option Z :=
  (fun t => snd (civilFromDays (Day (LocalTime t)))) <$> date.
Definition getHours (date : option Z) : option Z :=
  (fun t => (LocalTime t / msPerHour) mod 24) <$> date.
Definition getMinutes (date : option Z) : option Z :=
  (fun t => (LocalTime t / msPerMinute) mod 60) <$> date.
Definition getSeconds (date : option Z) : option Z :=
  (fun t => (LocalTime t / msPerSecond) mod 60) <$> date.

Definition getUTCFullYear (date : option Z) : option Z :=
  (fun t => fst (fst (civilFromDays (Day t)))) <$> date.
Definition getUTCMonth (date : option Z) : option Z :=
  (fun t => snd (fst (civilFromDays (Day t))) - 1) <$> date.
Definition getUTCDate (date : option Z) : option Z :=
  (fun t => snd (civilFromDays (Day t))) <$> date.

(** [new Date(year, month, day)]: the fields are read in local time. *)
Definition newDate (year month day : Z) : option Z :=
  TimeClip (UTC (MakeDate (MakeDay (fullYear year) month day) 0)).

(** [new Date(Date.UTC(1899, 11, 30)).getTime()] *)
Definition excelEpoch : option Z := DateUTC 1899 11 30.

(** [dateToExcelSerial].  Both time values are whole days, so the quotient
    [(utcDate - excelEpoch.getTime()) / msPerDay] is an integer. *)
Definition dateToExcelSerial (date : option Z) : JsNumber :=
  match getFullYear date, getMonth date, getDate date with
  | Some y, Some m, Some d =>
      match DateUTC y m d, excelEpoch with
      | Some utcDate, Some epoch => Int ((utcDate - epoch) / msPerDay)
      | _, _ => NaN
      end
  | _, _, _ => NaN
  end.

(** [excelSerialToDate]; [None] is [null]. *)
Definition excelSerialToDate (serial : JsNumber) : option Z :=
  match serial with
  | NaN | Infinity _ => None
  | Int n =>
      match excelEpoch with
      | Some epoch => TimeClip (epoch + n * msPerDay)
      | None => None
      end
  end.

(** *** [parseDateString] *)

Definition num12 : regex := oneOrTwo digit.        (* \d{1,2} *)
Definition num4 : regex := four digit.             (* \d{4} *)

(** [/^(\d{4})\/(\d{1,2})\/(\d{1,2})$/] *)
Definition pattern1 : regex :=
  seqs [Bol; Group 1 num4; chr "/"; Group 2 num12; chr "/"; Group 3 num12; Eol].
(** [/^(\d{4})-(\d{1,2})-(\d{1,2})$/] *)
Definition pattern2 : regex :=
  seqs [Bol; Group 1 num4; chr "-"; Group 2 num12; chr "-"; Group 3 num12; Eol].
(** [/^(\d{4})年(\d{1,2})月(\d{1,2})日$/] *)
Definition pattern3 : regex :=
  seqs [Bol; Group 1 num4; lit "年"; Group 2 num12; lit "月"; Group 3 num12; lit "日"; Eol].
(** [/^(\d{1,2})\/(\d{1,2})\/(\d{4})$/] *)
Definition pattern4 : regex :=
  seqs [Bol; Group 1 num12; chr "/"; Group 2 num12; chr "/"; Group 3 num4; Eol].

(** One of the four blocks [if (matchN) { ... }]: the groups that hold
    the year, the month and the day are parsed, and a valid date is
    returned; [None] means that control falls through to the next block. *)
Definition tryPattern (r : regex) (gy gm gd : nat) (trimmed : string) : option Z :=
  match exec r trimmed with
  | None => None
  | Some m =>
      match group m gy ≫= Js.parseInt,
            group m gm ≫= Js.parseInt,
            group m gd ≫= Js.parseInt with
      | Some year, Some month1, Some day => newDate year (month1 - 1) day
      | _, _, _ => None
      end
  end.

(** The last resort: [new Date(trimmed)], kept when the local year lies
    in 1900..2100. *)
Definition nativeParse (trimmed : string) : Completion (option Z) :=
  tryCatch
    (match dateParse trimmed ≫= TimeClip with
     | Some t =>
         match getFullYear (Some t) with
         | Some year =>
             if (1900 <=? year) && (year <=? 2100) then Return (Some t) else Return None
         | None => Return None
         end
     | None => Return None
     end)
    (Return None).

(** [parseDateString]; the argument is [None] when it is not a string
    (undefined, null, or a value of another type). *)
Definition parseDateString (dateStr : option string) : Completion (option Z) :=
  match dateStr with
  | None | Some EmptyString => Return None
  | Some str =>
      let trimmed := Js.trim str in
      match trimmed with
      | EmptyString => Return None
      | _ =>
          match tryPattern pattern1 1 2 3 trimmed with
          | Some date => Return (Some date)
          | None =>
          match tryPattern pattern2 1 2 3 trimmed with
          | Some date => Return (Some date)
          | None =>
          match tryPattern pattern3 1 2 3 trimmed with
          | Some date => Return (Some date)
          | None =>
          match tryPattern pattern4 3 1 2 trimmed with
          | Some date => Return (Some date)
          | None => nativeParse trimmed
          end end end end
      end
  end.

(** *** [formatDateByPattern] *)

(** The first argument: something that is not a [Date] object (null,
    undefined), or a [Date] with its time value. *)
Inductive DateArg :=
| NotADate
| ADate (time : option Z).

(** The helper [safeFormat] of [formatDateByPattern]. *)
Definition safeFormat (str : string) : string :=
  if String.eqb str "" || Js.includes str "NaN" || Js.includes str "undefined" ||
     Js.includes str "null"
  then "" else str.

Definition str (n : Z) : string := Js.numberToString n.

(** [String(n).padStart(2, '0')] *)
Definition pad2 (n : Z) : string := Js.padStart 2 "0" (str n).

(** [/m+\/d+\/y+/i] and [/d+\/m+\/y+/i] *)
Definition mdyRegex : regex :=
  seqs [plus (chrI "m"); chr "/"; plus (chrI "d"); chr "/"; plus (chrI "y")].
Definition dmyRegex : regex :=
  seqs [plus (chrI "d"); chr "/"; plus (chrI "m"); chr "/"; plus (chrI "y")].

(** The chain of pattern families, for a format that is neither missing
    nor ['General']. *)
Definition formatWith (t : Z) (numFmt : string) (year month day hours minutes seconds : Z)
    : Completion string :=
  let has := Js.includes numFmt in
  if has "yyyy" && has "/" then
    if has "h:mm" || has "hh:mm" then
      let mm := pad2 minutes in
      let ss := pad2 seconds in
      if has "mm/dd" then
        Return (safeFormat (str year +:+ "/" +:+ pad2 month +:+ "/" +:+ pad2 day +:+ " " +:+
                            str hours +:+ ":" +:+ mm +:+ ":" +:+ ss))
      else
        Return (safeFormat (str year +:+ "/" +:+ str month +:+ "/" +:+ str day +:+ " " +:+
                            str hours +:+ ":" +:+ mm +:+ ":" +:+ ss))
    else if has "mm" && has "dd" then
      Return (safeFormat (str year +:+ "/" +:+ pad2 month +:+ "/" +:+ pad2 day))
    else
      Return (safeFormat (str year +:+ "/" +:+ str month +:+ "/" +:+ str day))
  else if has "yyyy" && has "-" then
    if has "mm" && has "dd" then
      Return (safeFormat (str year +:+ "-" +:+ pad2 month +:+ "-" +:+ pad2 day))
    else
      Return (safeFormat (str year +:+ "-" +:+ str month +:+ "-" +:+ str day))
  else if test mdyRegex numFmt then
    let yy := Js.sliceLast 2 (str year) in
    if has "mm" && has "dd" then
      Return (safeFormat (pad2 month +:+ "/" +:+ pad2 day +:+ "/" +:+ yy))
    else
      Return (safeFormat (str month +:+ "/" +:+ str day +:+ "/" +:+ yy))
  else if test dmyRegex numFmt then
    let yy := Js.sliceLast 2 (str year) in
    if has "mm" && has "dd" then
      Return (safeFormat (pad2 day +:+ "/" +:+ pad2 month +:+ "/" +:+ yy))
    else
      Return (safeFormat (str day +:+ "/" +:+ str month +:+ "/" +:+ yy))
  else if has "年" && has "月" && has "日" then
    Return (safeFormat (str year +:+ "年" +:+ str month +:+ "月" +:+ str day +:+ "日"))
  else
    let result := str year +:+ "/" +:+ str month +:+ "/" +:+ str day in
    if Js.includes result "NaN" then
      tryCatch (toLocaleDateString t) (Return "")
    else Return result.

(** The body of the [try] block. *)
Definition formatBody (t : Z) (numFmt : option string) : Completion string :=
  let date := Some t in
  match getFullYear date, getMonth date, getDate date,
        getHours date, getMinutes date, getSeconds date with
  | Some year, Some month0, Some day, Some hours, Some minutes, Some seconds =>
      let month := month0 + 1 in
      if (year <? 1900) || (2100 <? year) || (month <? 1) || (12 <? month) ||
         (day <? 1) || (31 <? day)
      then Return ""
      else
        match numFmt with
        | None => Return (safeFormat (str year +:+ "/" +:+ str month +:+ "/" +:+ str day))
        | Some fmt =>
            if String.eqb fmt "" || String.eqb fmt "General"
            then Return (safeFormat (str year +:+ "/" +:+ str month +:+ "/" +:+ str day))
            else formatWith t fmt year month day hours minutes seconds
        end
  | _, _, _, _, _, _ =>
      (* one of the components is NaN *)
      Return ""
  end.

(** [formatDateByPattern] *)
Definition formatDateByPattern (date : DateArg) (numFmt : option string)
    : Completion string :=
  match date with
  | NotADate | ADate None => Return ""
  | ADate (Some t) =>
      tryCatch (formatBody t numFmt)
               (tryCatch (toLocaleDateString t) (Return ""))
  end.

(** *** What counts as a validation failure

    For [formatDateByPattern]: the argument is no [Date], or an invalid
    one, or its local year lies outside 1900..2100. *)
Definition yearOutOfRange (date : option Z) : Prop :=
  match getFullYear date with
  | Some year => year < 1900 \/ 2100 < year
  | None => True
  end.

Definition formatRejects (date : DateArg) : Prop :=
  match date with
  | NotADate => True
  | ADate time => yearOutOfRange time
  end.

End Runtime.

End DateEngine.

(** ** The cell mapper: the loop over the worksheets in [importExcelWithImages] *)

Module Sheets.
Import Regex.

(** [ExcelJS.ValueType] *)
Inductive ValueType :=
| Null | Merge | Number | String_ | Date | Hyperlink | Formula | SharedString
| RichText | Boolean | Error.

Definition isType (a b : ValueType) : bool :=
  match a, b with
  | Null, Null | Merge, Merge | Number, Number | String_, String_ | Date, Date
  | Hyperlink, Hyperlink | Formula, Formula | SharedString, SharedString
  | RichText, RichText | Boolean, Boolean | Error, Error => true
  | _, _ => false
  end.

(** [ExcelJS.BorderStyle], the keys of [styleMap] in [convertSingleBorder]. *)
Inductive BorderStyle :=
| thin | medium | thick | dotted | dashed | double | hair | mediumDashed
| dashDot | mediumDashDot | dashDotDot | mediumDashDotDot | slantDashDot.

Definition styleMap (st : BorderStyle) : Z :=
  match st with
  | thin => 1 | medium => 2 | thick => 3 | dotted => 4 | dashed => 5
  | double => 6 | hair => 7 | mediumDashed => 8 | dashDot => 9
  | mediumDashDot => 10 | dashDotDot => 11 | mediumDashDotDot => 12
  | slantDashDot => 13
  end.

(** A number held by a cell: the two cases that the mapper tells apart. *)
Inductive JsNum :=
| NotFinite              (* NaN, Infinity or -Infinity *)
| FiniteNum (digits : string).   (* a finite number, by its decimal spelling *)

(** The border record of a Univer style: [{ s, cl: { rgb } }]. *)
Record UBorder := { bs : Z; bcl : string }.

(** [style.bd]: the keys [t], [b], [l] and [r]. *)
Record UBorders := {
  bd_t : option UBorder;
  bd_b : option UBorder;
  bd_l : option UBorder;
  bd_r : option UBorder
}.

Definition noBorders : UBorders :=
  {| bd_t := None; bd_b := None; bd_l := None; bd_r := None |}.

Inductive Edge := top | bottom | left | right.

Definition edgeOf (e : Edge) (bd : UBorders) : option UBorder :=
  match e with
  | top => bd_t bd | bottom => bd_b bd | left => bd_l bd | right => bd_r bd
  end.

(** [bd.t = x], [bd.b = x], [bd.l = x] or [bd.r = x] *)
Definition setEdge (e : Edge) (x : UBorder) (bd : UBorders) : UBorders :=
  match e with
  | top => {| bd_t := Some x; bd_b := bd_b bd; bd_l := bd_l bd; bd_r := bd_r bd |}
  | bottom => {| bd_t := bd_t bd; bd_b := Some x; bd_l := bd_l bd; bd_r := bd_r bd |}
  | left => {| bd_t := bd_t bd; bd_b := bd_b bd; bd_l := Some x; bd_r := bd_r bd |}
  | right => {| bd_t := bd_t bd; bd_b := bd_b bd; bd_l := bd_l bd; bd_r := Some x |}
  end.

Record Link := { url : string; text : string }.

(** [/_?xlfn\.?DISPIMG\s*\(\s*\q([^\q]+)\q/i] and
    [/DISPIMG\s*\(\s*\q([^\q]+)\q/i] *)
Definition litI (s : string) : regex :=
  seqs (map chrI (list_ascii_of_string s)).

Definition space : regex :=
  Alt (Char Js.whiteSpace1)
      (fold_right Alt (lit (Js.ofBytes [239; 187; 191]))
         (map (fun b => lit (Js.ofBytes b))
            ([[194; 160]; [225; 154; 128]; [226; 128; 168]; [226; 128; 169];
              [226; 128; 175]; [226; 129; 159]; [227; 128; 128]]
             ++ map (fun z => [226; 128; z]) (seqZ 128 11)))).

Definition dispImgTail : list regex :=
  [litI "DISPIMG"; star space; chr "("; star space; chr Js.dquote;
   Group 1 (plus (notChr Js.dquote)); chr Js.dquote].

Definition dispImgRegex1 : regex :=
  seqs ([opt (chr "_"); litI "xlfn"; opt (chr ".")] ++ dispImgTail).
Definition dispImgRegex2 : regex := seqs dispImgTail.

Definition isDispImg (formula : string) : bool :=
  test dispImgRegex1 formula || test dispImgRegex2 formula.

(** The defaults of [workbookHelpers.ts]. *)
Definition DEFAULT_ROW_COUNT : Z := 1000.
Definition DEFAULT_COLUMN_COUNT : Z := 26.

Section Mapper.

(** What the claims do not look into is left open: the colours of
    ExcelJS and their resolution ([parseExcelColor]); the font, fill,
    alignment and number format of a style and the keys they give to a
    Univer style ([None]: no such key is set); the content of a cell as
    ExcelJS holds it, with the value extractors [getCellValue] and
    [getOriginalCellValue], [convertRichText] and the two strings of a
    hyperlink; the objects that a cell value may be. *)
Context {Color OtherStyle OtherKeys Content Obj RichDoc : Type}.
Variable parseExcelColor : Color -> option string.
Variable convertOther : OtherStyle -> option OtherKeys.

Inductive JsValue :=
| VUndefined
| VNull
| VBoolean (b : bool)
| VNumber (n : JsNum)
| VString (str : string)
| VObject (o : Obj).

(** [ExcelJS.Border] and [ExcelJS.Borders] *)
Record Border := { style : option BorderStyle; color : option Color }.

Record Borders := {
  btop : option Border;
  bbottom : option Border;
  bleft : option Border;
  bright : option Border
}.

(** [ExcelJS.Style]: the border, and everything else. *)
Record Style := {
  border : option Borders;
  other : OtherStyle
}.

(** A Univer style: the key [bd], and the other keys. *)
Record UStyle := {
  bd : option UBorders;
  otherKeys : option OtherKeys
}.

Definition emptyStyle : UStyle := {| bd := None; otherKeys := None |}.

(** [ICellData]: the keys [v], [t], [f], [p], [link] and [s]. *)
Record CellData := {
  v : option JsValue;
  t : option Z;
  f : option string;
  p : option RichDoc;
  link : option Link;
  s : option UStyle
}.

Definition emptyCell : CellData :=
  {| v := None; t := None; f := None; p := None; link := None; s := None |}.

(** [ExcelJS.Cell] *)
Record Cell := {
  type : ValueType;
  formula : option string;
  cellStyle : option Style;
  content : Content
}.

Variable getCellValue : Cell -> JsValue.
Variable getOriginalCellValue : Cell -> JsValue.
Variable convertRichText : Content -> RichDoc.
Variable hyperlinkOf : Content -> string * string.

(** [convertSingleBorder] *)
Definition convertSingleBorder (b : Border) : UBorder :=
  {| bs := match style b with Some st => styleMap st | None => 1 end;
     bcl := match color b with
            | Some c => default "#000000" (parseExcelColor c)
            | None => "#000000"
            end |}.

(** [convertBorder]; [None] is [undefined]. *)
Definition convertBorder (b : Borders) : option UBorders :=
  let result :=
    {| bd_t := convertSingleBorder <$> btop b;
       bd_b := convertSingleBorder <$> bbottom b;
       bd_l := convertSingleBorder <$> bleft b;
       bd_r := convertSingleBorder <$> bright b |} in
  match bd_t result, bd_b result, bd_l result, bd_r result with
  | None, None, None, None => None
  | _, _, _, _ => Some result
  end.

(** [convertCellStyle]; [None] is [undefined]. *)
Definition convertCellStyle (st : Style) : option UStyle :=
  let univerStyle :=
    {| bd := border st ≫= convertBorder; otherKeys := convertOther (other st) |} in
  match bd univerStyle, otherKeys univerStyle with
  | None, None => None
  | _, _ => Some univerStyle
  end.

(** [x !== null && x !== undefined && x !== ''] *)
Definition nonEmpty (x : JsValue) : bool :=
  match x with
  | VUndefined | VNull | VString EmptyString => false
  | _ => true
  end.

(** [getCellType]; [None] is [null]. *)
Definition getCellType (cell : Cell) (actualValue : JsValue) : option Z :=
  let byType :=
    if isType (type cell) Boolean then Some 3
    else if isType (type cell) Number then Some 2
    else if isType (type cell) Date then Some 1
    else if isType (type cell) String_ || isType (type cell) RichText then Some 1
    else None in
  if nonEmpty actualValue then
    match actualValue with
    | VBoolean _ => Some 3
    | VNumber _ => Some 2
    | VString _ => Some 1
    | _ => byType
    end
  else byType.

(** The final check on the extracted value: a number that is not finite,
    or a string that contains NaN, gives way to the original value. *)
Definition guardNaN (cell : Cell) (rawValue : JsValue) : JsValue :=
  if nonEmpty rawValue then
    match rawValue with
    | VNumber NotFinite => getOriginalCellValue cell
    | VString str =>
        if String.eqb str "NaN" || Js.includes str "NaN"
        then getOriginalCellValue cell else rawValue
    | _ => rawValue
    end
  else rawValue.

(** [Object.keys(cellValue).length > 0] *)
Definition hasKeys (c : CellData) : bool :=
  NumFmt.present (v c) || NumFmt.present (t c) || NumFmt.present (f c) ||
  NumFmt.present (p c) || NumFmt.present (link c) || NumFmt.present (s c).

(** [if (!cellData[rowIndex]) cellData[rowIndex] = {}] *)
Definition ensureRow (rowIndex : Z) (cellData : gmap Z (gmap Z CellData))
    : gmap Z (gmap Z CellData) :=
  match cellData !! rowIndex with
  | Some _ => cellData
  | None => <[rowIndex := ∅]> cellData
  end.

(** [cellData[rowIndex][colIndex] = cell], the row being there. *)
Definition putCell (rowIndex colIndex : Z) (cell : CellData)
    (cellData : gmap Z (gmap Z CellData)) : gmap Z (gmap Z CellData) :=
  <[rowIndex := <[colIndex := cell]> (default ∅ (cellData !! rowIndex))]> cellData.

(** The object [cellValue] built for a cell that has a value or a
    formula.  [cell.formula] is a string for ExcelJS, so of the branches
    on the shape of the formula only the one for a string can be taken. *)
Definition buildCellValue (cell : Cell) (rawValue : JsValue) : CellData :=
  let hasValue := nonEmpty rawValue in
  let isFormula := isType (type cell) Formula in
  let formulaText :=
    if isFormula then
      match formula cell with
      | Some EmptyString | None => None
      | Some text => Some (if Js.startsWith text "=" then text else "=" +:+ text)
      end
    else None in
  let assignsValueAgain :=
    isFormula && Js.truthy (formula cell) &&
    match rawValue with VNull | VUndefined => false | _ => true end in
  {| v := if hasValue || assignsValueAgain then Some rawValue else None;
     t := if hasValue then getCellType cell rawValue else None;
     f := formulaText;
     p := if isType (type cell) RichText then Some (convertRichText (content cell)) else None;
     link :=
       if isType (type cell) Hyperlink then
         let '(hyperlink, txt) := hyperlinkOf (content cell) in
         Some {| url := hyperlink;
                 text := if String.eqb txt "" then hyperlink else txt |}
       else None;
     s := cellStyle cell ≫= convertCellStyle |}.

(** The callback of [row.eachCell]: what it does to [cellData]. *)
Definition processCell (rowIndex colIndex : Z) (cell : Cell)
    (cellData : gmap Z (gmap Z CellData)) : gmap Z (gmap Z CellData) :=
  if isType (type cell) Null then
    match cellStyle cell ≫= convertCellStyle with
    | Some style =>
        putCell rowIndex colIndex
          {| v := None; t := None; f := None; p := None; link := None; s := Some style |}
          (ensureRow rowIndex cellData)
    | None => cellData
    end
  else if isType (type cell) Formula && Js.truthy (formula cell) &&
          isDispImg (default "" (formula cell)) then
    (* a cell image: the cell itself is skipped *)
    cellData
  else
    let rawValue := guardNaN cell (getCellValue cell) in
    let hasValue := nonEmpty rawValue in
    let hasFormula := isType (type cell) Formula && Js.truthy (formula cell) in
    if negb hasValue && negb hasFormula then cellData
    else
      let cellData := ensureRow rowIndex cellData in
      let cellValue := buildCellValue cell rawValue in
      if hasKeys cellValue then putCell rowIndex colIndex cellValue cellData
      else cellData.

(** A row as [eachRow] presents it: its number, and its cells with their
    column numbers, both counted from 1. *)
Record Row := {
  rowNumber : Z;
  cells : list (Z * Cell)
}.

Definition processRow (row : Row) (cellData : gmap Z (gmap Z CellData))
    : gmap Z (gmap Z CellData) :=
  fold_left (fun cd '(colNumber, cell) => processCell (rowNumber row - 1) (colNumber - 1) cell cd)
            (cells row) cellData.

(** A merge of [worksheet.model.merges], by the row and the column (from
    1) of its two corner cells as [worksheet.getCell] decodes them. *)
Record MergeRef := {
  startCellRow : Z;
  startCellCol : Z;
  endCellRow : Z;
  endCellCol : Z
}.

Record MergeRegion := {
  startRow : Z;
  endRow : Z;
  startColumn : Z;
  endColumn : Z
}.

Record Worksheet := {
  name : string;
  rows : list Row;
  merges : list MergeRef
}.

(** [worksheet.getCell(address)], for the style of the cell: a cell that
    the sheet does not hold yet is created without a border. *)
Definition getCell (ws : Worksheet) (r c : Z) : option Cell :=
  match List.find (fun row => rowNumber row =? r) (rows ws) with
  | Some row => snd <$> List.find (fun x => fst x =? c) (cells row)
  | None => None
  end.

Definition masterBorder (ws : Worksheet) (m : MergeRef) : option Borders :=
  (getCell ws (startCellRow m) (startCellCol m) ≫= cellStyle) ≫= border.

(** The five statements that set one edge of the cell at [(r, c)],
    creating the row, the cell, its style and its border record as
    needed. *)
Definition setCellEdge (e : Edge) (x : UBorder) (r c : Z)
    (cellData : gmap Z (gmap Z CellData)) : gmap Z (gmap Z CellData) :=
  let rowMap := default ∅ (cellData !! r) in
  let cell := default emptyCell (rowMap !! c) in
  let st := default emptyStyle (s cell) in
  let borders := default noBorders (bd st) in
  let cell' :=
    {| v := v cell; t := t cell; f := f cell; p := p cell; link := link cell;
       s := Some {| bd := Some (setEdge e x borders); otherKeys := otherKeys st |} |} in
  <[r := <[c := cell']> rowMap]> cellData.

(** [for (let i = from; i <= to; i++)] *)
Definition range (from to : Z) : list Z := seqZ from (to - from + 1).

Definition regionOf (m : MergeRef) : MergeRegion :=
  {| startRow := startCellRow m - 1; endRow := endCellRow m - 1;
     startColumn := startCellCol m - 1; endColumn := endCellCol m - 1 |}.

(** The border part of the callback of [merges.forEach]. *)
Definition applyMergeBorder (border : Borders) (g : MergeRegion)
    (cellData : gmap Z (gmap Z CellData)) : gmap Z (gmap Z CellData) :=
  let cd1 :=
    match btop border with
    | Some b => fold_left (fun cd col => setCellEdge top (convertSingleBorder b) (startRow g) col cd)
                          (range (startColumn g) (endColumn g)) cellData
    | None => cellData
    end in
  let cd2 :=
    match bbottom border with
    | Some b => fold_left (fun cd col => setCellEdge bottom (convertSingleBorder b) (endRow g) col cd)
                          (range (startColumn g) (endColumn g)) cd1
    | None => cd1
    end in
  let cd3 :=
    match bleft border with
    | Some b => fold_left (fun cd row => setCellEdge left (convertSingleBorder b) row (startColumn g) cd)
                          (range (startRow g) (endRow g)) cd2
    | None => cd2
    end in
  match bright border with
  | Some b => fold_left (fun cd row => setCellEdge right (convertSingleBorder b) row (endColumn g) cd)
                        (range (startRow g) (endRow g)) cd3
  | None => cd3
  end.

Definition processMerge (ws : Worksheet) (m : MergeRef)
    (cellData : gmap Z (gmap Z CellData)) : gmap Z (gmap Z CellData) :=
  match masterBorder ws m with
  | Some border => applyMergeBorder border (regionOf m) cellData
  | None => cellData
  end.

(** [IWorksheetData], as far as the mapper fills it from the cells and
    the merges. *)
Record Sheet := {
  id : string;
  sheetName : string;
  rowCount : Z;
  columnCount : Z;
  cellData : gmap Z (gmap Z CellData);
  mergeData : option (list MergeRegion)
}.

(** [escapeSheetName] *)
Definition escapeSheetName (name : string) : string :=
  if String.eqb name "" then "Sheet1" else name.

(** [worksheet.name || `Sheet${sheetIndex + 1}`] *)
Definition nameOrDefault (ws : Worksheet) (sheetIndex : nat) : string :=
  if String.eqb (name ws) "" then "Sheet" +:+ Js.numberToString (Z.of_nat sheetIndex + 1)
  else name ws.

Definition maxRowOf (ws : Worksheet) : Z :=
  fold_left (fun m row => Z.max m (rowNumber row - 1)) (rows ws) 0.

Definition maxColOf (ws : Worksheet) : Z :=
  fold_left (fun m row =>
               fold_left (fun m' x => Z.max m' (fst x - 1)) (cells row) m)
            (rows ws) 0.

(** The sheet made of one worksheet. *)
Definition convertSheet (sheetKey : string) (sheetIndex : nat) (ws : Worksheet) : Sheet :=
  let cellData := fold_left (fun cd row => processRow row cd) (rows ws) ∅ in
  let cellData := fold_left (fun cd m => processMerge ws m cd) (merges ws) cellData in
  let mergeData := map regionOf (merges ws) in
  {| id := sheetKey;
     sheetName := escapeSheetName (nameOrDefault ws sheetIndex);
     rowCount := Z.max DEFAULT_ROW_COUNT (maxRowOf ws + 1);
     columnCount := Z.max DEFAULT_COLUMN_COUNT (maxColOf ws + 1);
     cellData := cellData;
     mergeData := match mergeData with [] => None | _ => Some mergeData end |}.

(** The tokens of a run: [nanoid k] is the k-th token drawn.  After the
    key of a sheet, the image and chart handling of that sheet draws
    [tokensDrawn] more. *)
Variable nanoid : nat -> string.
Variable tokensDrawn : Worksheet -> nat.

(** The state built by the loop: [univerWorkbook.sheetOrder],
    [univerWorkbook.sheets], the two registries, and the number of tokens
    drawn so far. *)
Record Workbook := {
  sheetOrder : list string;
  sheets : gmap string Sheet;
  sheetNameToIdMap : gmap string string;
  sheetIndexToIdMap : gmap nat string;
  drawn : nat
}.

Definition emptyWorkbook : Workbook :=
  {| sheetOrder := []; sheets := ∅; sheetNameToIdMap := ∅;
     sheetIndexToIdMap := ∅; drawn := 0 |}.

(** The callback of [workbook.worksheets.forEach]; an entry that is
    [undefined] is skipped. *)
Definition processWorksheet (wb : Workbook) (sheetIndex : nat) (worksheet : option Worksheet)
    : Workbook :=
  match worksheet with
  | None => wb
  | Some ws =>
      let sheetKey := "sheet-" +:+ nanoid (drawn wb) in
      {| sheetOrder := sheetOrder wb ++ [sheetKey];
         sheets := <[sheetKey := convertSheet sheetKey sheetIndex ws]> (sheets wb);
         sheetNameToIdMap := <[nameOrDefault ws sheetIndex := sheetKey]> (sheetNameToIdMap wb);
         sheetIndexToIdMap := <[sheetIndex := sheetKey]> (sheetIndexToIdMap wb);
         drawn := S (drawn wb + tokensDrawn ws) |}
  end.

Fixpoint forEachFrom (sheetIndex : nat) (worksheets : list (option Worksheet)) (wb : Workbook)
    : Workbook :=
  match worksheets with
  | [] => wb
  | w :: rest => forEachFrom (S sheetIndex) rest (processWorksheet wb sheetIndex w)
  end.

Definition importSheets (worksheets : list (option Worksheet)) : Workbook :=
  forEachFrom 0 worksheets emptyWorkbook.

(** *** Notions used to state the properties of the mapper *)

(** [cellData[r][c]] *)
Definition lookupCell (cellData : gmap Z (gmap Z CellData)) (r c : Z) : option CellData :=
  cellData !! r ≫= fun rowMap => rowMap !! c.

(** A cell record carries a value when its key [v] holds something that the
    mapper counts as a value (not null, not undefined, not the empty
    string), a formula when its key [f] is set, and a style when its key [s]
    is set. *)
Definition hasValue (cell : CellData) : Prop :=
  exists x, v cell = Some x /\ nonEmpty x = true.

Definition carriesContent (cell : CellData) : Prop :=
  hasValue cell \/ is_Some (f cell) \/ is_Some (s cell).

(** The sparsity of [cellData]: every cell record that is there carries
    a value, a formula or a style. *)
Definition sparse (cellData : gmap Z (gmap Z CellData)) : Prop :=
  forall r c cell, lookupCell cellData r c = Some cell -> carriesContent cell.

(** [cellData[r][c].s.bd.t] and the like; [None] when a link of the
    chain is missing. *)
Definition cellEdge (cellData : gmap Z (gmap Z CellData)) (r c : Z) (e : Edge)
    : option UBorder :=
  lookupCell cellData r c ≫= fun cell => s cell ≫= fun st => bd st ≫= edgeOf e.

(** The cells of a region, and the two conditions that ExcelJS keeps on
    the merges of a sheet: the first corner of a merge is its top left
    cell, and no two merges share a cell. *)
Definition inRegion (g : MergeRegion) (r c : Z) : Prop :=
  startRow g <= r <= endRow g /\ startColumn g <= c <= endColumn g.

Definition wellFormed (m : MergeRef) : Prop :=
  startCellRow m <= endCellRow m /\ startCellCol m <= endCellCol m.

Definition apart (m1 m2 : MergeRef) : Prop :=
  forall r c, inRegion (regionOf m1) r c -> inRegion (regionOf m2) r c -> False.

Fixpoint pairwiseApart (ms : list MergeRef) : Prop :=
  match ms with
  | [] => True
  | m :: rest => Forall (apart m) rest /\ pairwiseApart rest
  end.

(** The border of the anchor of a merge is on the perimeter of its
    region [g] in [cellData]: the top border on the cells of the top
    row, the bottom border on those of the bottom row, the left border
    on those of the first column and the right border on those of the
    last column. *)
Definition perimeterBordered (border : Borders) (g : MergeRegion)
    (cellData : gmap Z (gmap Z CellData)) : Prop :=
  (forall b col, btop border = Some b -> startColumn g <= col <= endColumn g ->
     cellEdge cellData (startRow g) col top = Some (convertSingleBorder b)) /\
  (forall b col, bbottom border = Some b -> startColumn g <= col <= endColumn g ->
     cellEdge cellData (endRow g) col bottom = Some (convertSingleBorder b)) /\
  (forall b row, bleft border = Some b -> startRow g <= row <= endRow g ->
     cellEdge cellData row (startColumn g) left = Some (convertSingleBorder b)) /\
  (forall b row, bright border = Some b -> startRow g <= row <= endRow g ->
     cellEdge cellData row (endColumn g) right = Some (convertSingleBorder b)).

(** The worksheets that are there, each with its position in
    [workbook.worksheets]. *)
Fixpoint definedFrom (sheetIndex : nat) (worksheets : list (option Worksheet))
    : list (nat * Worksheet) :=
  match worksheets with
  | [] => []
  | None :: rest => definedFrom (S sheetIndex) rest
  | Some ws :: rest => (sheetIndex, ws) :: definedFrom (S sheetIndex) rest
  end.

(** The keys that those worksheets receive when [drawn] tokens have been
    drawn before the first of them. *)
Fixpoint keysFrom (drawn : nat) (defined : list (nat * Worksheet)) : list string :=
  match defined with
  | [] => []
  | (_, ws) :: rest => ("sheet-" +:+ nanoid drawn) :: keysFrom (S (drawn + tokensDrawn ws)) rest
  end.

End Mapper.

End Sheets.

(** ** Sample inputs, used to run the embedding *)

Module Samples.

(** [attr "r:id" "rId1"] is the text [r:id=], then [rId1] between double
    quotes. *)
Definition attr (name value : string) : string :=
  name +:+ "=" +:+ NumFmt.quoted value.

(** A two-cell anchor that refers to the chart [rId1]. *)
Definition anchor : string :=
  "<xdr:from><xdr:col>3</xdr:col><xdr:colOff>19050</xdr:colOff>" +:+
  "<xdr:row>5</xdr:row><xdr:rowOff>4763</xdr:rowOff></xdr:from>" +:+
  "<xdr:ext " +:+ attr "cx" "4572000" +:+ " " +:+ attr "cy" "2743200" +:+ "/>" +:+
  "<xdr:graphicFrame><c:chart " +:+ attr "xmlns:c" "urn:c" +:+ " " +:+
  attr "r:id" "rId1" +:+ "/></xdr:graphicFrame>".

Definition chartRIdMap : gmap string string := {[ "rId1" := "charts/chart1.xml" ]}.

(** A chart part without any of the family elements. *)
Definition plainChartXml : string :=
  "<c:chartSpace><c:chart><c:plotArea><c:layout/></c:plotArea></c:chart></c:chartSpace>".

Definition plainZip : gmap string string := {[ "xl/charts/chart1.xml" := plainChartXml ]}.

(** A stacked horizontal bar chart over two ranges. *)
Definition barChartXml : string :=
  "<c:chartSpace><c:chart><c:title><c:tx><c:rich><a:t>x</a:t></c:rich></c:tx></c:title>" +:+
  "<c:plotArea><c:barChart><c:barDir " +:+ attr "val" "bar" +:+ "/>" +:+
  "<c:grouping " +:+ attr "val" "stacked" +:+ "/>" +:+
  "<c:ser><c:cat><c:strRef><c:f>Sheet1!$A$1:$A$6</c:f></c:strRef></c:cat>" +:+
  "<c:val><c:numRef><c:f>Sheet1!$B$1:$D$6</c:f></c:numRef></c:val></c:ser>" +:+
  "</c:barChart></c:plotArea></c:chart></c:chartSpace>".

(** A pivot table placed at A11:C20, with two page fields. *)
Definition pivotTableXml : string :=
  "<pivotTableDefinition " +:+ attr "name" "PivotTable1" +:+ " " +:+ attr "cacheId" "6" +:+ ">" +:+
  "<location " +:+ attr "ref" "A11:C20" +:+ " " +:+ attr "firstHeaderRow" "1" +:+ "/>" +:+
  "<rowFields " +:+ attr "count" "1" +:+ "><field " +:+ attr "x" "0" +:+ "/></rowFields>" +:+
  "<dataFields " +:+ attr "count" "1" +:+ "><dataField " +:+ attr "name" "Sum" +:+ " " +:+
  attr "fld" "2" +:+ "/></dataFields>" +:+
  "<pageFields " +:+ attr "count" "2" +:+ "><pageField " +:+ attr "fld" "3" +:+ "/>" +:+
  "<pageField " +:+ attr "fld" "1" +:+ "/></pageFields></pivotTableDefinition>".


Definition pivotCacheMap : gmap string Pivot.CacheInfo :=
  {[ "6" := {| Pivot.sourceSheetName := "Data";
               Pivot.cacheRange := {| Pivot.startRow := 0; Pivot.startColumn := 0;
                                      Pivot.endRow := 5; Pivot.endColumn := 3 |} |} ]}.

Definition sheetNameToIdMap : gmap string string := {[ "Data" := "sheet-a" ]}.

(** The chart references of the example in the specification, and a list
    with a whole-column reference only. *)
Definition chartRanges : list string := ["Sheet1!$A$1:$A$6"; "Sheet1!$B$1:$D$6"].
Definition columnRanges : list string := ["Sheet1!$A:$A"].

(** A runtime five hours west of UTC all year, and the local midnight of
    2024-01-15 there, as [new Date(2024, 0, 15)] gives it. *)
Definition westOfUTC : Z -> Z := fun _ => -18000000.
Definition localMidnight : option Z := DateEngine.newDate westOfUTC 2024 0 15.

(** A worksheet for the cell mapper.  Colours are hexadecimal strings,
    the content of a cell is its value, and a style has nothing but
    borders.  A1 holds a text and has a thin red top border and a thick
    left border; A1:B2 is merged; D3 holds an empty text. *)
Definition Value : Type := @Sheets.JsValue unit.
Definition SourceCell : Type := @Sheets.Cell string unit Value.
Definition SourceSheet : Type := @Sheets.Worksheet string unit Value.

Definition parseExcelColor (c : string) : option string := Some ("#" +:+ c).
Definition convertOther (_ : unit) : option unit := None.
Definition getCellValue (cell : SourceCell) : Value := Sheets.content cell.
Definition convertRichText (_ : Value) : unit := tt.
Definition hyperlinkOf (_ : Value) : string * string := ("", "").
Definition nanoid (k : nat) : string := Js.numberToString (Z.of_nat k).
Definition tokensDrawn (_ : SourceSheet) : nat := 0%nat.

Definition anchorBorders : @Sheets.Borders string :=
  {| Sheets.btop := Some {| Sheets.style := Some Sheets.thin; Sheets.color := Some "FF0000" |};
     Sheets.bbottom := None;
     Sheets.bleft := Some {| Sheets.style := Some Sheets.thick; Sheets.color := None |};
     Sheets.bright := None |}.

Definition anchorCell : SourceCell :=
  {| Sheets.type := Sheets.String_;
     Sheets.formula := None;
     Sheets.cellStyle := Some {| Sheets.border := Some anchorBorders; Sheets.other := tt |};
     Sheets.content := Sheets.VString "Total" |}.

Definition emptyTextCell : SourceCell :=
  {| Sheets.type := Sheets.String_;
     Sheets.formula := None;
     Sheets.cellStyle := None;
     Sheets.content := Sheets.VString "" |}.

Definition merge : Sheets.MergeRef :=
  {| Sheets.startCellRow := 1; Sheets.startCellCol := 1;
     Sheets.endCellRow := 2; Sheets.endCellCol := 2 |}.

Definition worksheet : SourceSheet :=
  {| Sheets.name := "Data";
     Sheets.rows := [ {| Sheets.rowNumber := 1; Sheets.cells := [(1, anchorCell)] |};
                      {| Sheets.rowNumber := 3; Sheets.cells := [(4, emptyTextCell)] |} ];
     Sheets.merges := [merge] |}.

(** A worksheet without a cell. *)
Definition emptyWorksheet : SourceSheet :=
  {| Sheets.name := "Empty"; Sheets.rows := []; Sheets.merges := [] |}.

Definition imported : @Sheets.Workbook unit unit unit :=
  Sheets.importSheets parseExcelColor convertOther getCellValue getCellValue
    convertRichText hyperlinkOf nanoid tokensDrawn [Some worksheet; Some emptyWorksheet].

End Samples.

(** ** Notions used to state facts about the matcher *)

Module Matching.

(** [s'] is what is left of [s] after some of its characters. *)
Inductive suffixOf : string -> string -> Prop :=
| suffix_here (s : string) : suffixOf s s
| suffix_later (s' : string) (a : ascii) (s : string) : suffixOf s' s -> suffixOf s' (String a s).

(** The first character of [b], if any, is outside the class. *)
Definition headFails (p : ascii -> bool) (b : string) : bool :=
  match b with
  | EmptyString => true
  | String x _ => negb (p x)
  end.

(** Every capture of the group [i] in [c] is a run of the class [p] that
    is not empty. *)
Definition classCaptured (i : nat) (p : ascii -> bool) (c : Regex.captures) : Prop :=
  forall s, In (i, s) c -> s <> EmptyString /\ Js.allChars p s = true.

(** In the pattern [r], the group [i] is [(p+)] wherever it stands. *)
Fixpoint groupIsClass (i : nat) (p : ascii -> bool) (r : Regex.regex) : Prop :=
  match r with
  | Regex.Group j r1 =>
      (j = i -> r1 = Regex.plus (Regex.Char p)) /\ (j <> i -> groupIsClass i p r1)
  | Regex.Seq r1 r2 | Regex.Alt r1 r2 => groupIsClass i p r1 /\ groupIsClass i p r2
  | Regex.Star _ r1 | Regex.NotAhead r1 => groupIsClass i p r1
  | _ => True
  end.

End Matching.

(** ** Cell addresses and ranges in A1 notation *)

Module A1.
Import Regex.

(** [s.split(sep)] for a one-character separator. *)
Fixpoint splitChar (sep : ascii) (s : string) : list string :=
  match s with
  | EmptyString => [EmptyString]
  | String c s' =>
      if Ascii.eqb c sep then EmptyString :: splitChar sep s'
      else match splitChar sep s' with
           | cur :: parts => String c cur :: parts
           | [] => [String c EmptyString]
           end
  end.

(** [getCellAddress]: (0, 0) -> A1.  [None] only if the letter loop ran
    out of fuel. *)
Definition getCellAddress (row column : Z) : option string :=
  (fun letter => letter +:+ Js.numberToString (Js.toDouble (row + 1)))
    <$> Columns.columnIndexToLetter column.

(** The argument of [cellRefToA1]: an object whose keys [row] and
    [column] hold a number ([Some]) or something else ([None]). *)
Record CellRef := {
  refRow : option Z;
  refColumn : option Z
}.

(** The letter loop of [cellRefToA1]:
    [while (c > 0) { c--; colStr = String.fromCharCode(65 + (c % 26)) + colStr;
                     c = Math.floor(c / 26); }] *)
Fixpoint cellRefLoop (fuel : nat) (c : Z) (colStr : string) : option string :=
  if 0 <? c then
    match fuel with
    | O => None
    | S fuel' =>
        let c := Js.toDouble (c - 1) in
        cellRefLoop fuel' (Js.floorDiv c 26)
          (String (Js.fromCharCode (65 + Z.rem c 26)) colStr)
    end
  else Some colStr.

(** [cellRefToA1]; the inner [None] is [null], the outer one a loop out
    of fuel. *)
Definition cellRefToA1 (ref : CellRef) : option (option string) :=
  match refRow ref, refColumn ref with
  | Some row, Some col =>
      (fun colStr => Some (colStr +:+ Js.numberToString row))
        <$> cellRefLoop (Columns.loopFuel col) col EmptyString
  | _, _ => Some None
  end.

(** The values of [autoFilter] and of its keys [from] and [to]. *)
Inductive Corner :=
| CornerAbsent
| CornerText (address : string)
| CornerRef (ref : CellRef).

Inductive AutoFilter :=
| FilterAbsent
| FilterText (range : string)
| FilterObject (from to : Corner).

(** [typeof x === 'string' ? x : cellRefToA1(x)] for a truthy [x] *)
Definition cornerToA1 (x : Corner) : option (option string) :=
  match x with
  | CornerAbsent => Some None
  | CornerText address => Some (Some address)
  | CornerRef ref => cellRefToA1 ref
  end.

Definition cornerTruthy (x : Corner) : bool :=
  match x with
  | CornerAbsent | CornerText EmptyString => false
  | _ => true
  end.

(** [parseAutoFilter]; the inner [None] is [null]. *)
Definition parseAutoFilter (autoFilter : AutoFilter) : option (option string) :=
  match autoFilter with
  | FilterAbsent | FilterText EmptyString => Some None
  | FilterText range => Some (Some range)
  | FilterObject from to =>
      if negb (cornerTruthy from) || negb (cornerTruthy to) then Some None
      else
        match cornerToA1 from, cornerToA1 to with
        | Some fromStr, Some toStr =>
            if Js.truthy fromStr && Js.truthy toStr
            then Some (Some (default "" fromStr +:+ ":" +:+ default "" toStr))
            else Some None
        | _, _ => None
        end
  end.

(** [[A-Z]] under the flag [i]. *)
Definition isLetter (c : ascii) : bool := Js.isUpper c || Js.isLower c.
Definition letter : regex := Char isLetter.

(** [/([A-Z]+)(\d+):([A-Z]+)(\d+)/i] and [/([A-Z]+)(\d+)/i] *)
Definition rangePartRegex : regex :=
  seqs [Group 1 (plus letter); Group 2 (plus digit); chr ":";
        Group 3 (plus letter); Group 4 (plus digit)].

Definition cellPartRegex : regex :=
  seqs [Group 1 (plus letter); Group 2 (plus digit)].

Record Range := {
  startRow : Z;
  endRow : Z;
  startColumn : Z;
  endColumn : Z
}.

(** The number in a group that matched [\d+]; such a group always holds
    digits, so the default is never used. *)
Definition groupInt (m : result) (i : nat) : Z :=
  default 0 (group m i ≫= Js.parseInt).

Definition groupText (m : result) (i : nat) : string :=
  default "" (group m i).

(** The callback of [refParts.forEach] in [parseRangeRef]: the ranges
    that one part adds. *)
Definition parseRangePart (part : string) : list Range :=
  match exec rangePartRegex part with
  | Some m =>
      [{| startRow := groupInt m 2 - 1;
          endRow := groupInt m 4 - 1;
          startColumn := Columns.columnLetterToIndex (groupText m 1);
          endColumn := Columns.columnLetterToIndex (groupText m 3) |}]
  | None =>
      match exec cellPartRegex part with
      | Some singleMatch =>
          let column := Columns.columnLetterToIndex (groupText singleMatch 1) in
          let row := groupInt singleMatch 2 - 1 in
          [{| startRow := row; endRow := row; startColumn := column; endColumn := column |}]
      | None => []
      end
  end.

(** [parseRangeRef] *)
Definition parseRangeRef (ref : string) : list Range :=
  flat_map parseRangePart (splitChar " " ref).

(** [/^([A-Z]+)(\d+)(:([A-Z]+)(\d+))?$/i] *)
Definition clipRegex : regex :=
  seqs [Bol; Group 1 (plus letter); Group 2 (plus digit);
        opt (Group 3 (seqs [chr ":"; Group 4 (plus letter); Group 5 (plus digit)]));
        Eol].

(** [Math.max(1, Math.min(x, max))] *)
Definition clamp (x max : Z) : Z := Z.max 1 (Z.min x max).

(** [clipRangeToBounds]; the inner [None] is [null], the outer one a
    letter loop out of fuel.  The warning written to the console when
    the last column is clipped is left out. *)
Definition clipRangeToBounds (rangeStr : string) (maxRows maxCols : Z)
    : option (option string) :=
  if String.eqb rangeStr "" then Some None
  else
    match exec clipRegex rangeStr with
    | None => Some None
    | Some rangeMatch =>
        let startColStr := Js.toUpperCase (groupText rangeMatch 1) in
        let startRow := groupInt rangeMatch 2 in
        let endColStr :=
          Js.toUpperCase
            (default startColStr (Js.orElse (group rangeMatch 4) (Some startColStr))) in
        let endRow :=
          default 0 (Js.orElse (group rangeMatch 5) (group rangeMatch 2) ≫= Js.parseInt) in
        let startCol := Columns.colToNum1 startColStr in
        let endCol := Columns.colToNum1 endColStr in
        let startRow := clamp startRow maxRows in
        let endRow := clamp endRow maxRows in
        let startCol := clamp startCol maxCols in
        let endCol := clamp endCol maxCols in
        if (endRow <? startRow) || (endCol <? startCol) then Some None
        else if (startRow =? endRow) && (startCol =? endCol) then
          (fun a => Some (a +:+ Js.numberToString startRow)) <$> Columns.numToCol startCol
        else
          match Columns.numToCol startCol, Columns.numToCol endCol with
          | Some a, Some b =>
              Some (Some (a +:+ Js.numberToString startRow +:+ ":" +:+
                          b +:+ Js.numberToString endRow))
          | _, _ => None
          end
    end.

(** The text of a cell and of a range, from 1-based column and row
    numbers, as [numToCol] and the template literals spell them. *)
Definition cellText (col row : Z) : option string :=
  (fun a => a +:+ Js.numberToString row) <$> Columns.numToCol col.

Definition rangeText (c1 r1 c2 r2 : Z) : option string :=
  match cellText c1 r1, cellText c2 r2 with
  | Some a, Some b => Some (a +:+ ":" +:+ b)
  | _, _ => None
  end.

(** The text of a range as [clipRangeToBounds] writes it: a range of one
    cell is written as that cell. *)
Definition refText (c1 r1 c2 r2 : Z) : option string :=
  if (r1 =? r2) && (c1 =? c2) then cellText c1 r1 else rangeText c1 r1 c2 r2.

(** The characters of an address: letters and digits. *)
Definition addressChar (c : ascii) : bool := isLetter c || Js.isDigit c.

End A1.

(** ** The CSV reader: [detectDelimiter] and [parseCsvText] *)

Module Csv.

Definition LF : ascii := Js.fromCharCode 10.
Definition CR : ascii := Js.fromCharCode 13.
Definition TAB : ascii := Js.fromCharCode 9.

(** [s + char] *)
Definition addChar (s : string) (char : ascii) : string :=
  s +:+ String char EmptyString.

(** [text.split(/\r?\n/)]: a line ends at a line feed, which takes a
    carriage return just before it along. *)
Definition consHead (c : ascii) (lines : list string) : list string :=
  match lines with
  | cur :: rest => String c cur :: rest
  | [] => [String c EmptyString]
  end.

Fixpoint splitLines (text : string) : list string :=
  match text with
  | EmptyString => [EmptyString]
  | String c rest =>
      if Ascii.eqb c LF then EmptyString :: splitLines rest
      else if Ascii.eqb c CR then
        match rest with
        | String d rest' =>
            if Ascii.eqb d LF then EmptyString :: splitLines rest'
            else consHead c (splitLines rest)
        | EmptyString => consHead c (splitLines rest)
        end
      else consHead c (splitLines rest)
  end.

(** [(line.match(new RegExp(`\\${delimiter}`, 'g')) || []).length] for a
    one-character delimiter: the number of its occurrences. *)
Fixpoint countChar (delimiter : ascii) (line : string) : Z :=
  match line with
  | EmptyString => 0
  | String c rest => (if Ascii.eqb c delimiter then 1 else 0) + countChar delimiter rest
  end.

(** The variables of the callback of [delimiters.forEach]. *)
Record Tally := {
  score : Z;
  consistentCount : bool;
  firstLineCount : Z
}.

(** The callback of [firstLines.forEach] *)
Definition tallyLine (delimiter : ascii) (t : Tally) (line : string) : Tally :=
  if String.eqb (Js.trim line) "" then t
  else
    let count := countChar delimiter line in
    {| firstLineCount := if firstLineCount t =? -1 then count else firstLineCount t;
       consistentCount :=
         if firstLineCount t =? -1 then consistentCount t
         else if negb (firstLineCount t =? count) then false
         else consistentCount t;
       score := score t + count |}.

Definition scoreOf (firstLines : list string) (delimiter : ascii) : Z :=
  let t := fold_left (tallyLine delimiter) firstLines
             {| score := 0; consistentCount := true; firstLineCount := -1 |} in
  if consistentCount t && (0 <? firstLineCount t) then score t + 100 else score t.

Definition delimiters : list ascii := [","; ";"; TAB; "|"; ":"]%char.

(** [detectDelimiter]: the pair is [(maxScore, detectedDelimiter)]. *)
Definition detectDelimiter (text : string) : ascii :=
  let firstLines := take 5 (splitLines text) in
  snd (fold_left
         (fun '(maxScore, detectedDelimiter) delimiter =>
            let score := scoreOf firstLines delimiter in
            if maxScore <? score then (score, delimiter)
            else (maxScore, detectedDelimiter))
         delimiters (0, ","%char)).

(** The variables of [parseCsvText]. *)
Record State := {
  rows : list (list string);
  currentRow : list string;
  currentCell : string;
  inQuotes : bool
}.

Definition initial : State :=
  {| rows := []; currentRow := []; currentCell := ""; inQuotes := false |}.

(** [char === delimiter]: a character is compared with the delimiter
    string, so a delimiter of any other length than one never matches.
    The characters of the text are taken byte by byte, which is how the
    source takes a text as far as the delimiter is an ASCII character: no
    byte of a character outside ASCII is equal to one, to the double
    quote or to a line break.  A delimiter outside ASCII, one code unit
    in the source and several bytes here, is not covered. *)
Definition isDelimiter (delimiter : string) (char : ascii) : bool :=
  String.eqb (String char EmptyString) delimiter.

(** [text[i - 1] === delimiter]; [None] is the [undefined] before the
    first character. *)
Definition prevIsDelimiter (delimiter : string) (prev : option ascii) : bool :=
  match prev with
  | Some char => isDelimiter delimiter char
  | None => false
  end.

(** [currentRow.some((cell) => cell !== '')] *)
Definition someFilled (row : list string) : bool :=
  existsb (fun cell => negb (String.eqb cell "")) row.

(** [currentRow.push(currentCell)], then the row is kept unless it is
    skipped as empty. *)
Definition closeRow (skipEmptyLines : bool) (st : State) : list (list string) :=
  let row := currentRow st ++ [currentCell st] in
  if negb skipEmptyLines || someFilled row then rows st ++ [row] else rows st.

(** The loop [while (i < text.length)]: [text] is what is left from
    index [i] on and [prev] is [text[i - 1]]. *)
Fixpoint scan (delimiter : string) (skipEmptyLines : bool)
    (prev : option ascii) (text : string) (st : State) {struct text} : State :=
  match text with
  | EmptyString => st
  | String char rest =>
      if Ascii.eqb char Js.dquote then
        if inQuotes st then
          match rest with
          | String nextChar rest' =>
              if Ascii.eqb nextChar Js.dquote then
                (* an escaped quote: both characters are consumed *)
                scan delimiter skipEmptyLines (Some nextChar) rest'
                  {| rows := rows st; currentRow := currentRow st;
                     currentCell := addChar (currentCell st) Js.dquote;
                     inQuotes := inQuotes st |}
              else
                scan delimiter skipEmptyLines (Some char) rest
                  {| rows := rows st; currentRow := currentRow st;
                     currentCell := currentCell st; inQuotes := false |}
          | EmptyString =>
              scan delimiter skipEmptyLines (Some char) rest
                {| rows := rows st; currentRow := currentRow st;
                   currentCell := currentCell st; inQuotes := false |}
          end
        else if String.eqb (currentCell st) "" || prevIsDelimiter delimiter prev then
          scan delimiter skipEmptyLines (Some char) rest
            {| rows := rows st; currentRow := currentRow st;
               currentCell := currentCell st; inQuotes := true |}
        else
          scan delimiter skipEmptyLines (Some char) rest
            {| rows := rows st; currentRow := currentRow st;
               currentCell := addChar (currentCell st) char; inQuotes := inQuotes st |}
      else if isDelimiter delimiter char && negb (inQuotes st) then
        scan delimiter skipEmptyLines (Some char) rest
          {| rows := rows st; currentRow := currentRow st ++ [currentCell st];
             currentCell := ""; inQuotes := inQuotes st |}
      else if (Ascii.eqb char LF || Ascii.eqb char CR) && negb (inQuotes st) then
        let st' :=
          {| rows := closeRow skipEmptyLines st; currentRow := [];
             currentCell := ""; inQuotes := inQuotes st |} in
        match rest with
        | String nextChar rest' =>
            if Ascii.eqb char CR && Ascii.eqb nextChar LF
            then scan delimiter skipEmptyLines (Some nextChar) rest' st'
            else scan delimiter skipEmptyLines (Some char) rest st'
        | EmptyString => scan delimiter skipEmptyLines (Some char) rest st'
        end
      else
        scan delimiter skipEmptyLines (Some char) rest
          {| rows := rows st; currentRow := currentRow st;
             currentCell := addChar (currentCell st) char; inQuotes := inQuotes st |}
  end.

(** The last cell and row, after the loop. *)
Definition finish (skipEmptyLines : bool) (st : State) : list (list string) :=
  if negb (String.eqb (currentCell st) "") || (0 <? length (currentRow st))%nat
  then closeRow skipEmptyLines st
  else rows st.

(** [Math.max(...rows.map((row) => row.length))]: the rows are spread into
    the arguments of one call, and an engine throws a RangeError when a
    call has more arguments than it takes.  [argumentLimit] is that
    number, and [None] is the RangeError. *)
Definition maxCols (argumentLimit : nat) (rows : list (list string)) : option nat :=
  if (length rows <=? argumentLimit)%nat
  then Some (fold_right Nat.max 0%nat (map (@length string) rows))
  else None.

(** [while (row.length < maxCols) row.push('')] *)
Definition pad (maxCols : nat) (row : list string) : list string :=
  row ++ repeat "" (maxCols - length row)%nat.

(** [if (rows.length > 0) { ... rows.forEach(...) }] *)
Definition normalize (argumentLimit : nat) (rows : list (list string))
    : option (list (list string)) :=
  match rows with
  | [] => Some []
  | _ :: _ => (fun width => map (pad width) rows) <$> maxCols argumentLimit rows
  end.

(** The rows when the loop and the last row are done, before their
    lengths are made equal. *)
Definition readRows (text delimiter : string) (skipEmptyLines : bool)
    : list (list string) :=
  finish skipEmptyLines (scan delimiter skipEmptyLines None text initial).

(** [parseCsvText]; [None] is the RangeError of [Math.max]. *)
Definition parseCsvText (argumentLimit : nat) (text delimiter : string)
    (skipEmptyLines : bool) : option (list (list string)) :=
  normalize argumentLimit (readRows text delimiter skipEmptyLines).

(** A field between double quotes, every double quote of it doubled. *)
Fixpoint doubleQuotes (field : string) : string :=
  match field with
  | EmptyString => EmptyString
  | String c rest =>
      if Ascii.eqb c Js.dquote then String c (String c (doubleQuotes rest))
      else String c (doubleQuotes rest)
  end.

Definition quoteField (field : string) : string :=
  String Js.dquote (doubleQuotes field) +:+ String Js.dquote EmptyString.

(** A record: its fields quoted and joined by the delimiter; and a text:
    its records, each ended by a line feed. *)
Fixpoint joinWith (sep : string) (parts : list string) : string :=
  match parts with
  | [] => EmptyString
  | [x] => x
  | x :: rest => x +:+ sep +:+ joinWith sep rest
  end.

Definition recordText (delimiter : ascii) (fields : list string) : string :=
  joinWith (String delimiter EmptyString) (map quoteField fields).

Definition tableText (delimiter : ascii) (table : list (list string)) : string :=
  fold_right (fun fields text => recordText delimiter fields +:+ String LF text)
             EmptyString table.

(** What is left after a field starts with a character that is not a
    double quote. *)
Definition afterField (rest : string) : Prop :=
  match rest with
  | EmptyString => True
  | String c _ => Ascii.eqb c Js.dquote = false
  end.

(** The records that the reader keeps. *)
Definition kept (skipEmptyLines : bool) (table : list (list string)) : list (list string) :=
  List.filter (fun row => negb skipEmptyLines || someFilled row) table.

(** A table written without quotes: the fields of a record joined by the
    delimiter and every record ended by a line feed; and the characters
    that a field may hold to be written so. *)
Definition plainChar (delimiter : ascii) (c : ascii) : bool :=
  negb (Ascii.eqb c delimiter) && negb (Ascii.eqb c Js.dquote) &&
  negb (Ascii.eqb c LF) && negb (Ascii.eqb c CR).

Definition plainRecord (delimiter : ascii) (fields : list string) : string :=
  joinWith (String delimiter EmptyString) fields.

Definition plainTable (delimiter : ascii) (table : list (list string)) : string :=
  fold_right (fun fields text => plainRecord delimiter fields +:+ String LF text)
             EmptyString table.

End Csv.

(** ** Rich text: [convertRichText] *)

Module RichText.

(** [s.length]: the number of UTF-16 code units of a string held as UTF-8
    bytes.  A byte that starts a character of up to three bytes counts for
    one unit, a byte that starts a character of four bytes for two (a
    surrogate pair), and a continuation byte for none. *)
Definition unitsOfByte (c : ascii) : Z :=
  let b := Js.charCode c in
  if b <? 128 then 1
  else if b <? 192 then 0
  else if b <? 240 then 1
  else 2.

Fixpoint utf16Length (s : string) : Z :=
  match s with
  | EmptyString => 0
  | String c rest => unitsOfByte c + utf16Length rest
  end.

Section Converter.

(** The colours of ExcelJS with their resolution, and the font sizes with
    their truthiness, are left open. *)
Context {Color Size : Type}.
Variable parseExcelColor : Color -> option string.
Variable sizeTruthy : Size -> bool.

(** [ExcelJS.Font], as far as [convertRichText] reads it; the flags hold
    the truthiness of the keys. *)
Record Font := {
  bold : bool;
  italic : bool;
  underline : bool;
  strike : bool;
  size : option Size;
  name : option string;
  color : option Color
}.

(** [ExcelJS.RichText] *)
Record Piece := {
  text : option string;
  font : option Font
}.

(** [textRun.ts]; the keys [ul] and [st] hold the object [{ s: 1 }],
    written [1] here. *)
Record TextStyle := {
  bl : option Z;
  it : option Z;
  ul : option Z;
  st_ : option Z;
  fs : option Size;
  ff : option string;
  cl : option string
}.

Record TextRun := {
  st : Z;
  ed : Z;
  ts : TextStyle
}.

Record Body := {
  dataStream : string;
  textRuns : list TextRun
}.

Definition styleOf (f : Font) : TextStyle :=
  {| bl := if bold f then Some 1 else None;
     it := if italic f then Some 1 else None;
     ul := if underline f then Some 1 else None;
     st_ := if strike f then Some 1 else None;
     fs := match size f with
           | Some n => if sizeTruthy n then Some n else None
           | None => None
           end;
     ff := Js.orElse (name f) None;
     cl := match color f with
           | Some c => Js.orElse (parseExcelColor c) None
           | None => None
           end |}.

(** [Object.keys(textRun.ts || {}).length > 0] *)
Definition hasKeys (s : TextStyle) : bool :=
  NumFmt.present (bl s) || NumFmt.present (it s) || NumFmt.present (ul s) ||
  NumFmt.present (st_ s) || NumFmt.present (fs s) || NumFmt.present (ff s) ||
  NumFmt.present (cl s).

(** The callback of [richText.forEach]; the state is [body] and
    [currentIndex]. *)
Definition step (acc : Body * Z) (rt : Piece) : Body * Z :=
  let '(body, currentIndex) := acc in
  let text := default "" (text rt) in
  let length := utf16Length text in
  let runs :=
    match font rt with
    | Some f =>
        let textRun := {| st := currentIndex; ed := currentIndex + length; ts := styleOf f |} in
        if hasKeys (ts textRun) then textRuns body ++ [textRun] else textRuns body
    | None => textRuns body
    end in
  ({| dataStream := dataStream body +:+ text; textRuns := runs |}, currentIndex + length).

(** [convertRichText]; [None] is [undefined]. *)
Definition convertRichText (richText : list Piece) : option Body :=
  match richText with
  | [] => None
  | _ =>
      let body := fst (fold_left step richText ({| dataStream := ""; textRuns := [] |}, 0)) in
      match textRuns body with
      | [] => None
      | _ => Some body
      end
  end.

(** [richText.map((rt) => rt.text).join('')], the value that
    [getCellValue] and [getOriginalCellValue] give to a rich-text cell;
    [join] writes nothing for a text that is [undefined]. *)
Definition plainText (richText : list Piece) : string :=
  fold_right (fun rt rest => default "" (text rt) +:+ rest) EmptyString richText.

(** The runs lie inside a stream of [len] units, one after the other from
    [from] on. *)
Fixpoint runsInOrder (from len : Z) (runs : list TextRun) : Prop :=
  match runs with
  | [] => from <= len
  | r :: rest => from <= st r /\ st r <= ed r /\ runsInOrder (ed r) len rest
  end.

End Converter.

End RichText.

(** ** Colours: [hexToRgb] and [rgbToHex] *)

Module Colour.
Import Regex.

(** [[a-f\d]] under the flag [i]. *)
Definition isHex (c : ascii) : bool :=
  Js.isDigit c ||
  ((97 <=? Js.charCode c) && (Js.charCode c <=? 102)) ||
  ((65 <=? Js.charCode c) && (Js.charCode c <=? 70)).

Definition hex2 : regex := Seq (Char isHex) (Char isHex).   (* [a-f\d]{2} *)

(** [/^#?([a-f\d]{2})([a-f\d]{2})([a-f\d]{2})$/i] *)
Definition hexRegex : regex :=
  seqs [Bol; opt (chr "#"); Group 1 hex2; Group 2 hex2; Group 3 hex2; Eol].

(** The value of a hexadecimal digit. *)
Definition hexValue (c : ascii) : option Z :=
  let n := Js.charCode c in
  if Js.isDigit c then Some (n - 48)
  else if (97 <=? n) && (n <=? 102) then Some (n - 87)
  else if (65 <=? n) && (n <=? 70) then Some (n - 55)
  else None.

(** [parseInt(s, 16)] on a string that starts with a hexadecimal digit:
    the longest run of such digits; [None] is [NaN]. *)
Fixpoint hexDigitsValue (acc : Z) (seen : bool) (s : string) : option Z :=
  match s with
  | String c s' =>
      match hexValue c with
      | Some d => hexDigitsValue (acc * 16 + d) true s'
      | None => if seen then Some acc else None
      end
  | EmptyString => if seen then Some acc else None
  end.

Definition parseInt16 (s : string) : option Z := hexDigitsValue 0 false s.

Record Rgb := { r : Z; g : Z; b : Z }.

(** [hexToRgb]; a group of the pattern holds two hexadecimal digits, so
    the default is never used. *)
Definition hexToRgb (hex : string) : Rgb :=
  match exec hexRegex hex with
  | Some result =>
      let channel i := default 0 (group result i ≫= parseInt16) in
      {| r := channel 1%nat; g := channel 2%nat; b := channel 3%nat |}
  | None => {| r := 0; g := 0; b := 0 |}
  end.

(** [n.toString(16)] for an integer from 0 to 255. *)
Definition hexDigit (n : Z) : ascii :=
  if n <? 10 then Js.fromCharCode (48 + n) else Js.fromCharCode (87 + n).

Definition toString16 (n : Z) : string :=
  if n <? 16 then String (hexDigit n) EmptyString
  else String (hexDigit (n / 16)) (String (hexDigit (n mod 16)) EmptyString).

(** The callback of [map] in [rgbToHex], on an integer channel:
    [Math.round(Math.max(0, Math.min(255, x))).toString(16)], with a zero
    in front of a single digit. *)
Definition channelHex (x : Z) : string :=
  let hex := toString16 (Z.max 0 (Z.min 255 x)) in
  if (String.length hex =? 1)%nat then String "0" hex else hex.

(** [rgbToHex] on integer channels. *)
Definition rgbToHex (r g b : Z) : string :=
  String "#" (channelHex r +:+ channelHex g +:+ channelHex b).

End Colour.

(** ** Lookup tables: [getImageMimeType], [mapCfvoType], [convertAlignment]
    and [convertVerticalAlignment]

    Each of these functions reads [table[key] || fallback] from an object
    literal.  A key that the literal does not have is looked up in
    [Object.prototype]; the members found there are truthy, so the function
    then returns that member and not the fallback. *)

Module Tables.

(** The names of the members of [Object.prototype]. *)
Definition inherited : list string :=
  ["constructor"; "hasOwnProperty"; "isPrototypeOf"; "propertyIsEnumerable";
   "toLocaleString"; "toString"; "valueOf"; "__proto__";
   "__defineGetter__"; "__defineSetter__"; "__lookupGetter__"; "__lookupSetter__"].

Definition isInherited (key : string) : bool :=
  existsb (String.eqb key) inherited.

(** What [table[key] || fallback] gives: a value of the table or the
    fallback, or the member of [Object.prototype] of that name. *)
Inductive Looked (A : Type) :=
| Value (a : A)
| Member (key : string).
Arguments Value {A} a.
Arguments Member {A} key.

Definition lookupOr {A : Type} (table : list (string * A)) (key : string) (fallback : A)
    : Looked A :=
  match List.find (fun entry => String.eqb (fst entry) key) table with
  | Some entry => Value (snd entry)
  | None => if isInherited key then Member key else Value fallback
  end.

Definition mimeMap : list (string * string) :=
  [("png", "image/png"); ("jpg", "image/jpeg"); ("jpeg", "image/jpeg");
   ("gif", "image/gif"); ("bmp", "image/bmp"); ("webp", "image/webp");
   ("svg", "image/svg+xml"); ("tiff", "image/tiff"); ("tif", "image/tiff");
   ("ico", "image/x-icon")].

(** [getImageMimeType] *)
Definition getImageMimeType (extension : string) : Looked string :=
  lookupOr mimeMap (Js.toLowerCase extension) "image/png".

Definition typeMap : list (string * string) :=
  [("min", "min"); ("max", "max"); ("num", "num"); ("number", "num");
   ("percent", "percent"); ("percentile", "percentile"); ("formula", "formula")].

(** [mapCfvoType] *)
Definition mapCfvoType (excelType : string) : Looked string :=
  lookupOr typeMap excelType "num".

(** [convertAlignment] and [convertVerticalAlignment] *)
Definition convertAlignment (alignment : string) : Looked Z :=
  lookupOr [("left", 1); ("center", 2); ("right", 3)] alignment 1.

Definition convertVerticalAlignment (alignment : string) : Looked Z :=
  lookupOr [("top", 1); ("middle", 2); ("bottom", 3)] alignment 2.

(** The types of a conditional-format value that Univer knows. *)
Definition univerTypes : list string :=
  ["min"; "max"; "num"; "percent"; "percentile"; "formula"].

End Tables.

(** ** The date-format test: [isDateFormat] *)

Module DateFormat.

Definition dateKeywords : list string :=
  ["yyyy"; "yy"; "mm"; "dd"; "m/d"; "d/m"; "h:mm"; "hh:mm"; "ss";
   "年"; "月"; "日"; "AM/PM"; "am/pm"; "上午"; "下午"; "[$-"].

Definition dateFormatCodes : list Z :=
  [14; 15; 16; 17; 18; 19; 20; 21; 22; 45; 46; 47; 176; 177; 178; 179; 180; 181; 182].

(** [isDateFormat].  [parseInt] skips the white space at the front of its
    argument. *)
Definition isDateFormat (numFmt : string) : bool :=
  if String.eqb numFmt "" || String.eqb numFmt "General" then false
  else
    let lowerFmt := Js.toLowerCase numFmt in
    let hasDateKeyword :=
      existsb (fun keyword => Js.includes lowerFmt (Js.toLowerCase keyword)) dateKeywords in
    match Js.parseInt (Js.trimStart numFmt) with
    | Some formatCode =>
        if existsb (Z.eqb formatCode) dateFormatCodes then true else hasDateKeyword
    | None => hasDateKeyword
    end.

End DateFormat.

(** ** Notions used to state further properties of the cell mapper *)

Module SheetFacts.

Section Notions.

Context {OtherKeys Obj RichDoc : Type}.

(** Every cell record of [cellData] satisfies [P]. *)
Definition allCells (P : @Sheets.CellData OtherKeys Obj RichDoc -> Prop)
    (cellData : gmap Z (gmap Z (@Sheets.CellData OtherKeys Obj RichDoc))) : Prop :=
  forall r c cell, Sheets.lookupCell cellData r c = Some cell -> P cell.

(** The formula of a record, if it has one, starts with the equals sign. *)
Definition formulaMarked (cell : @Sheets.CellData OtherKeys Obj RichDoc) : Prop :=
  forall text, Sheets.f cell = Some text -> Js.startsWith text "=" = true.

(** The type code of a record, if it has one, is 1 (string), 2 (number)
    or 3 (boolean), and the record then carries a value. *)
Definition typedValue (cell : @Sheets.CellData OtherKeys Obj RichDoc) : Prop :=
  forall code, Sheets.t cell = Some code ->
    (code = 1 \/ code = 2 \/ code = 3) /\ Sheets.hasValue cell.

(** The cell records of [cellData] are all at positions of [area]. *)
Definition inside (area : Z -> Z -> Prop)
    (cellData : gmap Z (gmap Z (@Sheets.CellData OtherKeys Obj RichDoc))) : Prop :=
  forall r c cell, Sheets.lookupCell cellData r c = Some cell -> area r c.

End Notions.

End SheetFacts.

(** ** Notions used to state properties of the date functions *)

Module DateFacts.
Import Regex.

(** A byte that starts no white space: [trim] leaves a string of such
    bytes as it is. *)
Definition inkChar (c : ascii) : bool :=
  negb (Js.whiteSpace1 c) &&
  negb (existsb (Z.eqb (Js.charCode c)) [194; 225; 226; 227; 239]).

(** One or two digits, and four digits. *)
Definition oneOrTwoDigits (s : string) : bool :=
  Js.allChars Js.isDigit s &&
  ((String.length s =? 1)%nat || (String.length s =? 2)%nat).
Definition fourDigits (s : string) : bool :=
  Js.allChars Js.isDigit s && (String.length s =? 4)%nat.

(** The three ways in which [parseDateString] wants a year, a month and a
    day written, the year first. *)
Inductive Notation := Slashes | Dashes | Glyphs.

Definition written (n : Notation) (year month day : string) : string :=
  match n with
  | Slashes => year +:+ "/" +:+ month +:+ "/" +:+ day
  | Dashes => year +:+ "-" +:+ month +:+ "-" +:+ day
  | Glyphs => year +:+ "年" +:+ month +:+ "月" +:+ day +:+ "日"
  end.

(** A match of the pattern [r] on [text] with the three groups. *)
Definition reads (r : regex) (text year month day : string) : Prop :=
  exists m,
    exec r text = Some m /\
    group m 1 = Some year /\ group m 2 = Some month /\ group m 3 = Some day.

(** What [formatWith] tests of a format: whether it writes a time of day,
    and whether it writes the last two digits of the year only. *)
Definition writesTime (numFmt : string) : bool :=
  let has := Js.includes numFmt in
  has "yyyy" && has "/" && (has "h:mm" || has "hh:mm").

Definition writesShortYear (numFmt : string) : bool :=
  let has := Js.includes numFmt in
  negb (has "yyyy" && (has "/" || has "-")) &&
  (test DateEngine.mdyRegex numFmt || test DateEngine.dmyRegex numFmt).

End DateFacts.

(** ** More values to run the definitions on *)

Module Ledger.

(** A worksheet with a number in C1 and, in C2, a formula with its
    cached result. *)
Definition amountCell : Samples.SourceCell :=
  {| Sheets.type := Sheets.Number;
     Sheets.formula := None;
     Sheets.cellStyle := None;
     Sheets.content := Sheets.VNumber (Sheets.FiniteNum "12") |}.

Definition totalCell : Samples.SourceCell :=
  {| Sheets.type := Sheets.Formula;
     Sheets.formula := Some "SUM(C1:C1)";
     Sheets.cellStyle := None;
     Sheets.content := Sheets.VNumber (Sheets.FiniteNum "12") |}.

Definition worksheet : Samples.SourceSheet :=
  {| Sheets.name := "Ledger";
     Sheets.rows := [ {| Sheets.rowNumber := 1; Sheets.cells := [(3, amountCell)] |};
                      {| Sheets.rowNumber := 2; Sheets.cells := [(3, totalCell)] |} ];
     Sheets.merges := [] |}.

Definition imported : @Sheets.Workbook unit unit unit :=
  Sheets.importSheets Samples.parseExcelColor Samples.convertOther Samples.getCellValue
    Samples.getCellValue Samples.convertRichText Samples.hyperlinkOf Samples.nanoid
    Samples.tokensDrawn [Some worksheet].

End Ledger.

(** ** Notions used to state properties of the chart references *)

Module ChartFacts.

(** A byte of a sheet name that the dot of the pattern accepts wherever it
    stands: no line feed, no carriage return, and not the byte that
    starts the line separators U+2028 and U+2029; and that is not the
    exclamation mark. *)
Definition nameByte (c : ascii) : bool :=
  negb (Ascii.eqb c "!") && negb (Ascii.eqb c "010") && negb (Ascii.eqb c "013") &&
  negb (Js.charCode c =? 226).

(** The dollar sign of an absolute column or row. *)
Definition mark (absolute : bool) : string := if absolute then "$" else "".

(** A cell in a formula reference: the column letters and the row number,
    each with or without the dollar sign. *)
Definition cellRef (absCol absRow : bool) (col : string) (row : Z) : string :=
  mark absCol +:+ col +:+ mark absRow +:+ Js.numberToString row.

End ChartFacts.

(* ================================================================== *)
(** * Part II: the properties                                          *)
(* ================================================================== *)

(** ** Doubles that hold an integer *)

Lemma nearestEven_bounds (n d : Z) :
  0 < d -> n / d <= Js.nearestEven n d <= n / d + 1.
Proof.
  intros Hd. unfold Js.nearestEven. cbv zeta.
  destruct (2 * (n mod d) <? d); [lia|].
  destruct (d <? 2 * (n mod d)); [lia|].
  destruct (Z.even (n / d)); lia.
Qed.

Lemma nearestEven_below (n d : Z) :
  0 < d -> 2 * Js.nearestEven n d * d <= 2 * n + d.
Proof.
  intros Hd. unfold Js.nearestEven. cbv zeta.
  pose proof (Z.div_mod n d ltac:(lia)) as Hn.
  pose proof (Z.mod_pos_bound n d Hd) as Hr.
  destruct (2 * (n mod d) <? d) eqn:E1; [nia|].
  apply Z.ltb_ge in E1.
  destruct (d <? 2 * (n mod d)) eqn:E2; [apply Z.ltb_lt in E2; nia|].
  apply Z.ltb_ge in E2.
  destruct (Z.even (n / d)); nia.
Qed.

Lemma nearestEven_multiple (q d : Z) : 0 < d -> Js.nearestEven (q * d) d = q.
Proof.
  intros Hd. unfold Js.nearestEven. cbv zeta.
  rewrite Z.mod_mul, Z.div_mul by lia.
  destruct (2 * 0 <? d) eqn:E; [reflexivity|apply Z.ltb_ge in E; lia].
Qed.

(** Up to [2 ^ 53] the integers are doubles. *)
Lemma toDouble_exact (z : Z) : Z.abs z <= 2 ^ 53 -> Js.toDouble z = z.
Proof.
  intros Hz. unfold Js.toDouble. cbv zeta.
  destruct (Z.log2 (Z.abs z) - 52 <=? 0) eqn:E; [reflexivity|].
  apply Z.leb_gt in E.
  assert (Hlog : Z.log2 (Z.abs z) = 53).
  { pose proof (Z.log2_le_mono _ _ Hz) as H. rewrite Z.log2_pow2 in H by lia. lia. }
  assert (Habs : Z.abs z = 2 ^ 53).
  { assert (0 < Z.abs z) by (destruct (Z.abs z) eqn:Ea; [cbn in Hlog; lia|lia|lia]).
    pose proof (Z.log2_spec (Z.abs z) ltac:(lia)) as [Hlo _].
    rewrite Hlog in Hlo. lia. }
  rewrite Hlog, Habs. change (53 - 52) with 1.
  change (2 ^ 53) with (2 ^ 52 * 2 ^ 1) at 1.
  rewrite nearestEven_multiple by lia.
  change (2 ^ 52 * 2 ^ 1) with (2 ^ 53). lia.
Qed.

(** Below [2 ^ 53] the rounding of a quotient by 26 disappears under
    [Math.floor]. *)
Lemma floorDiv_exact (x : Z) : 0 <= x < 2 ^ 53 -> Js.floorDiv x 26 = x / 26.
Proof.
  intros Hx. unfold Js.floorDiv. cbv zeta.
  destruct (x / 26 =? 0) eqn:E0; [apply Z.eqb_eq in E0; lia|].
  apply Z.eqb_neq in E0.
  pose proof (Z.div_pos x 26 ltac:(lia) ltac:(lia)) as Hq0.
  set (q := x / 26) in *.
  assert (Hq : 0 < q < 2 ^ 49).
  { split; [lia|]. subst q. apply Z.div_lt_upper_bound; lia. }
  assert (Hlog : 0 <= Z.log2 q <= 48).
  { split; [apply Z.log2_nonneg|].
    assert (Z.log2 q < 49) by (apply Z.log2_lt_pow2; lia). lia. }
  destruct (0 <=? Z.log2 q - 52) eqn:E; [apply Z.leb_le in E; lia|]. clear E.
  set (k := - (Z.log2 q - 52)).
  assert (Hk : 4 <= k <= 52) by (subst k; lia).
  assert (Hp : 16 <= 2 ^ k).
  { change 16 with (2 ^ 4). apply Z.pow_le_mono_r; lia. }
  pose proof (Z.div_mod x 26 ltac:(lia)) as Hdm. fold q in Hdm.
  pose proof (Z.mod_pos_bound x 26 ltac:(lia)) as Hr.
  pose proof (nearestEven_bounds (x * 2 ^ k) 26 ltac:(lia)) as [Hlo _].
  pose proof (nearestEven_below (x * 2 ^ k) 26 ltac:(lia)) as Hhi.
  set (m := Js.nearestEven (x * 2 ^ k) 26) in *.
  assert (Hlo' : q * 2 ^ k <= m).
  { etransitivity; [|exact Hlo]. apply Z.div_le_lower_bound; [lia|]. nia. }
  symmetry. apply (Z.div_unique_pos m (2 ^ k) q (m - q * 2 ^ k)); [|lia].
  split; [lia|]. nia.
Qed.

(** ** Column letters *)

Lemma charCode_fromCharCode (n : Z) :
  0 <= n < 256 -> Js.charCode (Js.fromCharCode n) = n.
Proof.
  intros Hn. unfold Js.charCode, Js.fromCharCode.
  rewrite N_ascii_embedding; lia.
Qed.

(** One turn of the letter fold on a number that stays within [2 ^ 53]. *)
Lemma lettersValue_step (num : Z) (c : ascii) (col : string) :
  Z.abs (num * 26) <= 2 ^ 53 ->
  Z.abs (num * 26 + (Js.charCode c - 64)) <= 2 ^ 53 ->
  Columns.lettersValue num (String c col)
  = Columns.lettersValue (num * 26 + (Js.charCode c - 64)) col.
Proof.
  intros Hprod Hsum. cbn [Columns.lettersValue].
  rewrite (toDouble_exact (num * 26)) by exact Hprod.
  rewrite toDouble_exact by exact Hsum. reflexivity.
Qed.

(** One turn of each letter loop on a number below [2 ^ 53]. *)
Lemma columnIndexToLetterLoop_step (fuel : nat) (temp : Z) (letter : string) :
  0 <= temp < 2 ^ 53 ->
  Columns.columnIndexToLetterLoop (S fuel) temp letter
  = Columns.columnIndexToLetterLoop fuel (temp / 26 - 1)
      (String (Js.fromCharCode (temp mod 26 + 65)) letter).
Proof.
  intros Ht. cbn [Columns.columnIndexToLetterLoop].
  replace (0 <=? temp) with true by (symmetry; apply Z.leb_le; lia).
  rewrite floorDiv_exact by lia.
  pose proof (Z.div_pos temp 26 ltac:(lia) ltac:(lia)).
  assert (temp / 26 <= temp) by (apply Z.div_le_upper_bound; lia).
  rewrite toDouble_exact by lia.
  rewrite Z.rem_mod_nonneg by lia. reflexivity.
Qed.

Lemma numToColLoop_step (fuel : nat) (num : Z) (col : string) :
  0 < num <= 2 ^ 53 ->
  Columns.numToColLoop (S fuel) num col
  = Columns.numToColLoop fuel ((num - 1) / 26)
      (String (Js.fromCharCode (65 + (num - 1) mod 26)) col).
Proof.
  intros Hn. cbn [Columns.numToColLoop].
  replace (0 <? num) with true by (symmetry; apply Z.ltb_lt; lia).
  cbv zeta. rewrite toDouble_exact by lia.
  rewrite floorDiv_exact by lia.
  rewrite Z.rem_mod_nonneg by lia. reflexivity.
Qed.

(** The letter loop returns a string whose value in bijective base 26 is the
    counter plus one, on top of the letters already written. *)
Lemma columnIndexToLetterLoop_value (fuel : nat) :
  forall (temp : Z) (letter out : string),
    -1 <= temp < 2 ^ 53 ->
    Columns.columnIndexToLetterLoop fuel temp letter = Some out ->
    Columns.lettersValue 0 out = Columns.lettersValue (temp + 1) letter.
Proof.
  induction fuel as [|fuel IH]; intros temp letter out Hlo Hrun.
  - cbn [Columns.columnIndexToLetterLoop] in Hrun.
    destruct (0 <=? temp) eqn:E; [discriminate|].
    apply Z.leb_gt in E. injection Hrun as <-. replace (temp + 1) with 0 by lia. reflexivity.
  - destruct (0 <=? temp) eqn:E.
    + apply Z.leb_le in E.
      rewrite columnIndexToLetterLoop_step in Hrun by lia.
      pose proof (Z.div_pos temp 26 ltac:(lia) ltac:(lia)).
      assert (temp / 26 <= temp) by (apply Z.div_le_upper_bound; lia).
      pose proof (Z.mod_pos_bound temp 26 ltac:(lia)) as Hm.
      pose proof (Z.div_mod temp 26 ltac:(lia)).
      apply IH in Hrun; [|lia].
      rewrite Hrun.
      rewrite lettersValue_step by (rewrite ?charCode_fromCharCode by lia; lia).
      rewrite charCode_fromCharCode by lia.
      f_equal. lia.
    + cbn [Columns.columnIndexToLetterLoop] in Hrun. rewrite E in Hrun.
      apply Z.leb_gt in E. injection Hrun as <-.
      replace (temp + 1) with 0 by lia. reflexivity.
Qed.

(** The loop stops before the fuel is spent. *)
Lemma columnIndexToLetterLoop_stops (n : nat) :
  forall (temp : Z) (letter : string),
    temp < 2 ^ 53 ->
    temp + 2 <= 2 ^ Z.of_nat n ->
    exists out, Columns.columnIndexToLetterLoop (S n) temp letter = Some out.
Proof.
  induction n as [|n IH]; intros temp letter Hsafe Hb.
  - cbn [Columns.columnIndexToLetterLoop].
    destruct (0 <=? temp) eqn:E; [apply Z.leb_le in E; simpl in Hb; lia|eauto].
  - destruct (0 <=? temp) eqn:E.
    2:{ cbn [Columns.columnIndexToLetterLoop]. rewrite E. eauto. }
    apply Z.leb_le in E.
    rewrite columnIndexToLetterLoop_step by lia.
    rewrite Nat2Z.inj_succ, Z.pow_succ_r in Hb by lia.
    assert (temp / 26 <= temp / 2).
    { apply Z.div_le_compat_l; lia. }
    assert (temp / 2 <= 2 ^ Z.of_nat n - 1).
    { apply Z.div_le_upper_bound; lia. }
    assert (temp / 2 <= temp) by (apply Z.div_le_upper_bound; lia).
    apply IH; lia.
Qed.

Lemma loopFuel_enough (n : Z) :
  0 < n -> n + 1 <= 2 ^ Z.of_nat (Init.Nat.pred (Columns.loopFuel n)).
Proof.
  intros Hn. unfold Columns.loopFuel. simpl Init.Nat.pred.
  rewrite Z.max_l by lia.
  rewrite Z2Nat.id by apply Z.log2_up_nonneg.
  apply Z.log2_up_spec. lia.
Qed.

(** C10: for every column index [i] from 0 up to [2 ^ 53 - 1], the
    integers that a number of the source counts one by one,
    [columnIndexToLetter] returns a string of letters, and
    [columnLetterToIndex] maps that string back to [i]. *)
Theorem column_index_letter_roundtrip (i : Z) :
  0 <= i < 2 ^ 53 ->
  exists letters,
    Columns.columnIndexToLetter i = Some letters /\
    Columns.columnLetterToIndex letters = i.
Proof.
  intros Hi. unfold Columns.columnIndexToLetter.
  pose proof (loopFuel_enough (i + 1) ltac:(lia)) as Hf.
  destruct (Columns.loopFuel (i + 1)) as [|n] eqn:Efuel.
  { unfold Columns.loopFuel in Efuel. discriminate. }
  cbn [Init.Nat.pred] in Hf.
  assert (Hb : i + 2 <= 2 ^ Z.of_nat n) by lia.
  destruct (columnIndexToLetterLoop_stops n i "" ltac:(lia) Hb) as [out Hout].
  exists out. split; [exact Hout|].
  unfold Columns.columnLetterToIndex.
  rewrite (columnIndexToLetterLoop_value (S n) i "" out); [|lia|exact Hout].
  cbn [Columns.lettersValue].
  replace (i + 1 - 1) with i by lia. apply toDouble_exact. lia.
Qed.

Lemma column_index_letter_roundtrip_witness :
  0 <= 27 < 2 ^ 53 /\
  exists letters,
    Columns.columnIndexToLetter 27 = Some letters /\
    Columns.columnLetterToIndex letters = 27.
Proof.
  split; [lia|]. apply (column_index_letter_roundtrip 27). lia.
Defined.

(** C10, as the specification words it, fails at the first index that a
    number of the source cannot tell from its successor: the letters
    written for [2 ^ 53] have the value [2 ^ 53 + 1], which the sum of the
    reading loop rounds to [2 ^ 53], and the index read back is
    [2 ^ 53 - 1]. *)
Lemma column_index_letter_roundtrip_counterexample :
  Columns.columnIndexToLetter (2 ^ 53) = Some "BKTXHSOGHKKG" /\
  Columns.columnLetterToIndex "BKTXHSOGHKKG" = 2 ^ 53 - 1 /\
  ~ (forall i : Z,
       0 <= i ->
       exists letters,
         Columns.columnIndexToLetter i = Some letters /\
         Columns.columnLetterToIndex letters = i).
Proof.
  assert (Hwrite : Columns.columnIndexToLetter (2 ^ 53) = Some "BKTXHSOGHKKG")
    by (vm_compute; reflexivity).
  assert (Hread : Columns.columnLetterToIndex "BKTXHSOGHKKG" = 2 ^ 53 - 1)
    by (vm_compute; reflexivity).
  split; [exact Hwrite|]. split; [exact Hread|].
  intros Hclaim. destruct (Hclaim (2 ^ 53) ltac:(lia)) as (letters & Hrun & Hback).
  rewrite Hwrite in Hrun. injection Hrun as <-. rewrite Hread in Hback. lia.
Qed.

(** ** The chart type of an anchored chart *)

Lemma existsb_false_in {A} (test : A -> bool) (l : list A) (x : A) :
  existsb test l = false -> In x l -> test x = false.
Proof.
  intros Hex Hin. destruct (test x) eqn:E; [|reflexivity].
  rewrite <- Hex. symmetry. apply existsb_exists. eauto.
Qed.

(** Without a family element the chain of tests assigns nothing, and the
    variable keeps its initial value. *)
Lemma chartTypeOf_no_family_tag (chartXml : string) :
  Charts.hasFamilyTag chartXml = false ->
  Charts.chartTypeOf chartXml = Charts.column.
Proof.
  intros Hno. unfold Charts.chartTypeOf.
  assert (Htag : forall tag, In tag Charts.familyTags -> Js.includes chartXml tag = false).
  { intros tag. apply (existsb_false_in (Js.includes chartXml)). exact Hno. }
  rewrite !Htag by (simpl; tauto). reflexivity.
Qed.

(** Whatever the chart part holds, the chain never assigns ['unknown']. *)
Lemma chartTypeOf_not_unknown (chartXml : string) :
  Charts.chartTypeOf chartXml <> Charts.unknown.
Proof.
  unfold Charts.chartTypeOf.
  repeat match goal with
         | |- context [if ?b then _ else _] => destruct b
         end; discriminate.
Qed.

(** C1, as the code has it: a chart reached from a drawing anchor whose
    chart part contains none of the family elements is emitted with the
    chart type ['column'], the value the extractor starts from. *)
Theorem chart_without_family_tag_is_column
    (zip chartRIdMap : gmap string string) (sheetId sheetName nanoid anchorContent : string)
    (chartPath chartXml : string) (chart : Charts.ImportedChart) :
  Charts.chartPathOf chartRIdMap anchorContent = Some chartPath ->
  zip !! ("xl/" +:+ chartPath) = Some chartXml ->
  Charts.hasFamilyTag chartXml = false ->
  Charts.chartFromAnchor zip chartRIdMap sheetId sheetName nanoid anchorContent = Some chart ->
  Charts.chartType chart = Charts.column.
Proof.
  intros Hpath Hzip Hno Hchart. unfold Charts.chartFromAnchor in Hchart.
  rewrite Hpath, Hzip in Hchart.
  destruct (Charts.isPivotChart chartXml); [discriminate|].
  injection Hchart as <-. simpl. apply chartTypeOf_no_family_tag, Hno.
Qed.

Lemma chart_without_family_tag_is_column_witness :
  exists chart,
    Charts.chartFromAnchor Samples.plainZip Samples.chartRIdMap
      "sheet-1" "Sheet1" "V1StGXR8" Samples.anchor = Some chart /\
    Charts.chartType chart = Charts.column.
Proof.
  assert (Hrun : exists chart,
    Charts.chartFromAnchor Samples.plainZip Samples.chartRIdMap
      "sheet-1" "Sheet1" "V1StGXR8" Samples.anchor = Some chart).
  { vm_compute. eauto. }
  destruct Hrun as [chart Hrun]. exists chart. split; [exact Hrun|].
  apply (chart_without_family_tag_is_column Samples.plainZip Samples.chartRIdMap
           "sheet-1" "Sheet1" "V1StGXR8" Samples.anchor
           "charts/chart1.xml" Samples.plainChartXml chart).
  - vm_compute. reflexivity.
  - vm_compute. reflexivity.
  - vm_compute. reflexivity.
  - exact Hrun.
Defined.

(** C1, as the specification words it, fails: the sample chart part has none
    of the family elements, its chart is emitted, and its type is not
    ['unknown']. *)
Lemma chart_default_unknown_counterexample :
  ~ (forall (zip chartRIdMap : gmap string string)
            (sheetId sheetName nanoid anchorContent chartPath chartXml : string)
            (chart : Charts.ImportedChart),
        Charts.chartPathOf chartRIdMap anchorContent = Some chartPath ->
        zip !! ("xl/" +:+ chartPath) = Some chartXml ->
        Charts.hasFamilyTag chartXml = false ->
        Charts.chartFromAnchor zip chartRIdMap sheetId sheetName nanoid anchorContent
          = Some chart ->
        Charts.chartType chart = Charts.unknown).
Proof.
  intros Hclaim.
  destruct (Charts.chartFromAnchor Samples.plainZip Samples.chartRIdMap
              "sheet-1" "Sheet1" "V1StGXR8" Samples.anchor) as [chart|] eqn:Hrun;
    [|vm_compute in Hrun; discriminate].
  assert (Hu : Charts.chartType chart = Charts.unknown).
  { apply (Hclaim Samples.plainZip Samples.chartRIdMap "sheet-1" "Sheet1" "V1StGXR8"
             Samples.anchor "charts/chart1.xml" Samples.plainChartXml chart);
      [vm_compute; reflexivity | vm_compute; reflexivity | vm_compute; reflexivity | exact Hrun]. }
  vm_compute in Hrun. injection Hrun as <-. discriminate Hu.
Qed.

(** ** The anchor of a pivot table *)








(** ** Characters of the strings that the extractors build *)

Lemma allChars_app (P : ascii -> bool) (a b : string) :
  Js.allChars P (a +:+ b) = Js.allChars P a && Js.allChars P b.
Proof.
  induction a as [|c a IH]; simpl; [reflexivity|].
  rewrite IH. apply andb_assoc.
Qed.

Lemma allChars_weaken (P Q : ascii -> bool) (s : string) :
  (forall c, P c = true -> Q c = true) ->
  Js.allChars P s = true -> Js.allChars Q s = true.
Proof.
  intros HPQ. induction s as [|c s IH]; simpl; [reflexivity|].
  intros [Hc Hs]%andb_prop. rewrite (HPQ _ Hc). simpl. auto.
Qed.

(** A string all of whose characters pass a test that [c] fails does not
    include any string that starts with [c]. *)
Lemma includes_excluded (P : ascii -> bool) (s : string) (c : ascii) (sub : string) :
  Js.allChars P s = true -> P c = false -> Js.includes s (String c sub) = false.
Proof.
  intros Hall Hc. induction s as [|d s IH]; simpl; [reflexivity|].
  simpl in Hall. apply andb_prop in Hall as [Hd Hs].
  rewrite (IH Hs), orb_false_r.
  destruct (Ascii.eqb c d) eqn:E; [|reflexivity].
  apply Ascii.eqb_eq in E. subst d. congruence.
Qed.

Lemma string_of_uint_digits (d : Decimal.uint) :
  Js.allChars Js.isDigit (NilEmpty.string_of_uint d) = true.
Proof. induction d; simpl; auto. Qed.

Lemma numberToString_chars (n : Z) :
  Js.allChars Js.decimalChar (Js.numberToString n) = true.
Proof.
  unfold Js.numberToString, NilZero.string_of_int.
  assert (Hu : forall d, Js.allChars Js.decimalChar (NilZero.string_of_uint d) = true).
  { intros d. unfold NilZero.string_of_uint.
    destruct d; try reflexivity;
      apply (allChars_weaken Js.isDigit);
      try apply string_of_uint_digits;
      intros c Hc; unfold Js.decimalChar; rewrite Hc; reflexivity. }
  destruct (Z.to_int n); simpl; auto.
Qed.

(** ** [numToCol] *)

Lemma toDouble_nonneg (z : Z) : 0 <= z -> 0 <= Js.toDouble z.
Proof.
  intros Hz. unfold Js.toDouble. cbv zeta.
  destruct (Z.log2 (Z.abs z) - 52 <=? 0) eqn:E; [exact Hz|].
  apply Z.leb_gt in E.
  pose proof (Z.pow_pos_nonneg 2 (Z.log2 (Z.abs z) - 52) ltac:(lia) ltac:(lia)) as Hp.
  pose proof (nearestEven_bounds (Z.abs z) _ Hp) as [Hlo _].
  pose proof (Z.div_pos (Z.abs z) _ ltac:(lia) Hp).
  destruct z as [|p|p]; cbn [Z.sgn]; nia.
Qed.

Lemma numToColLoop_stops (n : nat) :
  forall (num : Z) (col : string),
    num <= 2 ^ 53 ->
    num + 1 <= 2 ^ Z.of_nat n ->
    exists out, Columns.numToColLoop (S n) num col = Some out.
Proof.
  induction n as [|n IH]; intros num col Hsafe Hb.
  - cbn [Columns.numToColLoop].
    destruct (0 <? num) eqn:E; [apply Z.ltb_lt in E; simpl in Hb; lia|eauto].
  - destruct (0 <? num) eqn:E.
    2:{ cbn [Columns.numToColLoop]. rewrite E. eauto. }
    apply Z.ltb_lt in E.
    rewrite numToColLoop_step by lia.
    rewrite Nat2Z.inj_succ, Z.pow_succ_r in Hb by lia.
    assert ((num - 1) / 26 <= (num - 1) / 2).
    { apply Z.div_le_compat_l; lia. }
    assert ((num - 1) / 2 <= 2 ^ Z.of_nat n - 1).
    { apply Z.div_le_upper_bound; lia. }
    assert ((num - 1) / 2 <= num - 1) by (apply Z.div_le_upper_bound; lia).
    apply IH; lia.
Qed.

(** [numToCol] returns for every number up to [2 ^ 53]. *)
Lemma numToCol_returns (num : Z) :
  num <= 2 ^ 53 -> exists col, Columns.numToCol num = Some col.
Proof.
  intros Hsafe. unfold Columns.numToCol.
  destruct (Z.lt_ge_cases 0 num) as [Hpos|Hneg].
  - pose proof (loopFuel_enough num Hpos) as Hf.
    destruct (Columns.loopFuel num) as [|n] eqn:Efuel.
    { unfold Columns.loopFuel in Efuel. discriminate. }
    cbn [Init.Nat.pred] in Hf. apply numToColLoop_stops; assumption.
  - destruct (Columns.loopFuel num); cbn [Columns.numToColLoop];
      (destruct (0 <? num) eqn:E; [apply Z.ltb_lt in E; lia|eauto]).
Qed.

Lemma numToColLoop_chars (fuel : nat) :
  forall (num : Z) (col out : string),
    Js.allChars Js.isUpper col = true ->
    Columns.numToColLoop fuel num col = Some out ->
    Js.allChars Js.isUpper out = true.
Proof.
  induction fuel as [|fuel IH]; intros num col out Hcol Hrun;
    cbn [Columns.numToColLoop] in Hrun.
  - destruct (0 <? num); [discriminate|]. congruence.
  - destruct (0 <? num) eqn:E; [|congruence].
    apply Z.ltb_lt in E. cbv zeta in Hrun. apply IH in Hrun; [exact Hrun|].
    cbn [Js.allChars]. rewrite Hcol, andb_true_r.
    pose proof (toDouble_nonneg (num - 1) ltac:(lia)) as Hless.
    rewrite Z.rem_mod_nonneg by lia.
    pose proof (Z.mod_pos_bound (Js.toDouble (num - 1)) 26 ltac:(lia)) as Hm.
    unfold Js.isUpper. rewrite charCode_fromCharCode by lia.
    apply andb_true_intro. split; apply Z.leb_le; lia.
Qed.

Lemma numToCol_chars (num : Z) (col : string) :
  Columns.numToCol num = Some col -> Js.allChars Js.isUpper col = true.
Proof. apply numToColLoop_chars. reflexivity. Qed.

(** ** The merged data range of a chart *)

(** C5: on the list that holds nothing but the whole-column reference
    [Sheet1!$A:$A], which is qualified and which [parseExcelRange] does
    not accept, [mergeChartDataRanges] returns the reference as it came,
    sheet name included, where the comment above the function and the
    specification have a range without a sheet name. *)
Theorem merged_chart_range_keeps_sheet_name :
  Forall (fun range => ChartRange.isQualified range = true) Samples.columnRanges /\
  ChartRange.parsedRanges Samples.columnRanges = [] /\
  ChartRange.mergeChartDataRanges Samples.columnRanges = Some "Sheet1!$A:$A" /\
  Js.includes "Sheet1!$A:$A" "!" = true.
Proof.
  split; [repeat constructor|].
  repeat split; vm_compute; reflexivity.
Qed.

(** ** Serial numbers and calendar dates *)

(** Days whose year lies in 1900..2100 fall in the eras 4 and 5 of the
    400-year cycle. *)
Lemma civilFromDays_year_range (z : Z) :
  1900 <= fst (fst (DateEngine.civilFromDays z)) <= 2100 ->
  -135080 <= z < 157114.
Proof.
  unfold DateEngine.civilFromDays. cbv zeta.
  set (era := (z + 719468) / 146097).
  set (doe := z + 719468 - era * 146097).
  set (yoe := (doe - doe / 1460 + doe / 36524 - doe / 146096) / 365).
  assert (Hdoe : 0 <= doe <= 146096).
  { subst doe era. pose proof (Z.div_mod (z + 719468) 146097 ltac:(lia)).
    pose proof (Z.mod_pos_bound (z + 719468) 146097 ltac:(lia)). lia. }
  assert (Hyoe : 0 <= yoe <= 399).
  { subst yoe. split.
    - apply Z.div_pos; [|lia].
      assert (doe / 1460 <= doe) by (apply Z.div_le_upper_bound; lia).
      assert (0 <= doe / 36524) by (apply Z.div_pos; lia).
      assert (doe / 146096 <= 1) by (apply Z.div_le_upper_bound; lia).
      assert (doe / 146096 <= doe / 36524).
      { apply Z.div_le_compat_l; lia. }
      lia.
    - apply Z.lt_succ_r. apply Z.div_lt_upper_bound; [lia|].
      pose proof (Z.div_mod doe 1460 ltac:(lia)).
      pose proof (Z.mod_pos_bound doe 1460 ltac:(lia)).
      pose proof (Z.div_mod doe 36524 ltac:(lia)).
      pose proof (Z.mod_pos_bound doe 36524 ltac:(lia)).
      pose proof (Z.div_mod doe 146096 ltac:(lia)).
      pose proof (Z.mod_pos_bound doe 146096 ltac:(lia)).
      lia. }
  match goal with
  | |- context [if ?c then _ else _] => destruct c
  end; simpl fst; intros Hy;
    assert (Hera : 4 <= era <= 5) by lia;
    subst doe; lia.
Qed.

Lemma civilRoundTripRange_spec (depth : nat) :
  forall lo z,
    DateEngine.civilRoundTripRange depth lo = true ->
    lo <= z < lo + 2 ^ Z.of_nat depth ->
    DateEngine.civilRoundTrip z = true.
Proof.
  induction depth as [|d IH]; intros lo z Hrun Hz.
  - simpl in *. replace z with lo by lia. exact Hrun.
  - cbn [DateEngine.civilRoundTripRange] in Hrun.
    apply andb_prop in Hrun as [Hl Hr].
    rewrite Nat2Z.inj_succ, Z.pow_succ_r in Hz by lia.
    destruct (Z.lt_ge_cases z (lo + 2 ^ Z.of_nat d)).
    + apply (IH lo); [exact Hl|lia].
    + apply (IH (lo + 2 ^ Z.of_nat d)); [exact Hr|lia].
Qed.

(** Over those two eras [daysFromCivil] undoes [civilFromDays]: the test is
    run on each of the days. *)
Lemma civilRoundTrip_eras :
  DateEngine.civilRoundTripRange 18 (-135080) &&
  DateEngine.civilRoundTripRange 15 (-135080 + 2 ^ 18) = true.
Proof. vm_cast_no_check (eq_refl true). Qed.

Lemma civilRoundTrip_in_range (z : Z) :
  1900 <= fst (fst (DateEngine.civilFromDays z)) <= 2100 ->
  DateEngine.civilRoundTrip z = true.
Proof.
  intros Hy. apply civilFromDays_year_range in Hy.
  pose proof civilRoundTrip_eras as Hrun. apply andb_prop in Hrun as [H18 H15].
  destruct (Z.lt_ge_cases z (-135080 + 2 ^ 18)).
  - apply (civilRoundTripRange_spec 18 (-135080)); [exact H18|].
    change (Z.of_nat 18) with 18. lia.
  - apply (civilRoundTripRange_spec 15 (-135080 + 2 ^ 18)); [exact H15|].
    change (Z.of_nat 15) with 15. lia.
Qed.

Lemma excelEpoch_value : DateEngine.excelEpoch = Some (-2209161600000).
Proof. reflexivity. Qed.

Lemma dateToExcelSerial_day (offsetAtUTC : Z -> Z) (t : Z) :
  let z := DateEngine.Day (DateEngine.LocalTime offsetAtUTC t) in
  1900 <= fst (fst (DateEngine.civilFromDays z)) <= 2100 ->
  DateEngine.dateToExcelSerial offsetAtUTC (Some t) = DateEngine.Int (z + 25569).
Proof.
  intros z Hy.
  pose proof (civilRoundTrip_in_range z Hy) as Hrt.
  pose proof (civilFromDays_year_range z Hy) as Hz.
  unfold DateEngine.dateToExcelSerial, DateEngine.getFullYear, DateEngine.getMonth,
    DateEngine.getDate.
  cbn [fmap option_fmap option_map]. fold z.
  unfold DateEngine.civilRoundTrip in Hrt.
  destruct (DateEngine.civilFromDays z) as [[y m] d] eqn:Ecivil.
  cbn [fst snd] in Hy |- *.
  apply andb_prop in Hrt as [Hm Hback]. apply andb_prop in Hm as [Hm1 Hm12].
  apply Z.leb_le in Hm1, Hm12. apply Z.eqb_eq in Hback.
  assert (Hday : DateEngine.MakeDay (DateEngine.fullYear y) (m - 1) d = z).
  { unfold DateEngine.fullYear.
    replace ((0 <=? y) && (y <=? 99)) with false
      by (symmetry; apply andb_false_intro2, Z.leb_gt; lia).
    unfold DateEngine.MakeDay.
    rewrite Z.div_small, Z.mod_small by lia.
    replace (y + 0) with y by lia. replace (m - 1 + 1) with m by lia.
    rewrite <- Hback. unfold DateEngine.daysFromCivil. lia. }
  unfold DateEngine.DateUTC. rewrite Hday.
  unfold DateEngine.MakeDate, DateEngine.TimeClip, DateEngine.msPerDay.
  replace (Z.abs (z * (24 * 60 * 60 * 1000) + 0) <=? 8640000000000000) with true
    by (symmetry; apply Z.leb_le; lia).
  rewrite excelEpoch_value. f_equal.
  replace (z * (24 * 60 * 60 * 1000) + 0 - -2209161600000)
    with ((z + 25569) * (24 * 60 * 60 * 1000)) by lia.
  apply Z.div_mul. lia.
Qed.

Lemma excelSerialToDate_day (z : Z) :
  -135080 <= z < 157114 ->
  DateEngine.excelSerialToDate (DateEngine.Int (z + 25569)) = Some (z * DateEngine.msPerDay).
Proof.
  intros Hz. unfold DateEngine.excelSerialToDate. rewrite excelEpoch_value.
  unfold DateEngine.TimeClip, DateEngine.msPerDay.
  replace (-2209161600000 + (z + 25569) * (24 * 60 * 60 * 1000))
    with (z * (24 * 60 * 60 * 1000)) by lia.
  replace (Z.abs (z * (24 * 60 * 60 * 1000)) <=? 8640000000000000) with true
    by (symmetry; apply Z.leb_le; lia).
  reflexivity.
Qed.

Lemma excel_serial_roundtrip (offsetAtUTC : Z -> Z) (t : Z) :
  let d := Some t in
  (exists y, DateEngine.getFullYear offsetAtUTC d = Some y /\ 1900 <= y <= 2100) ->
  exists t',
    DateEngine.excelSerialToDate (DateEngine.dateToExcelSerial offsetAtUTC d) = Some t' /\
    DateEngine.getUTCFullYear (Some t') = DateEngine.getFullYear offsetAtUTC d /\
    DateEngine.getUTCMonth (Some t') = DateEngine.getMonth offsetAtUTC d /\
    DateEngine.getUTCDate (Some t') = DateEngine.getDate offsetAtUTC d /\
    (0 <= offsetAtUTC t' < DateEngine.msPerDay ->
     DateEngine.getFullYear offsetAtUTC (Some t') = DateEngine.getFullYear offsetAtUTC d /\
     DateEngine.getMonth offsetAtUTC (Some t') = DateEngine.getMonth offsetAtUTC d /\
     DateEngine.getDate offsetAtUTC (Some t') = DateEngine.getDate offsetAtUTC d).
Proof.
  intros d (y & Hy & Hrange). subst d.
  unfold DateEngine.getFullYear in Hy. cbn [fmap option_fmap option_map] in Hy.
  apply (inj Some) in Hy.
  set (z := DateEngine.Day (DateEngine.LocalTime offsetAtUTC t)) in *.
  assert (Hyear : 1900 <= fst (fst (DateEngine.civilFromDays z)) <= 2100) by lia.
  pose proof (civilFromDays_year_range z Hyear) as Hz.
  exists (z * DateEngine.msPerDay).
  rewrite (dateToExcelSerial_day offsetAtUTC t Hyear). fold z.
  rewrite (excelSerialToDate_day z Hz).
  assert (Hutc : DateEngine.Day (z * DateEngine.msPerDay) = z).
  { unfold DateEngine.Day. apply Z.div_mul. unfold DateEngine.msPerDay. lia. }
  unfold DateEngine.getUTCFullYear, DateEngine.getUTCMonth, DateEngine.getUTCDate,
    DateEngine.getFullYear, DateEngine.getMonth, DateEngine.getDate.
  cbn [fmap option_fmap option_map].
  rewrite Hutc. fold z. repeat (split; [reflexivity|]).
  intros Hoff.
  assert (Hloc : DateEngine.Day (DateEngine.LocalTime offsetAtUTC (z * DateEngine.msPerDay)) = z).
  { unfold DateEngine.Day, DateEngine.LocalTime.
    rewrite Z.add_comm, Z.div_add by (unfold DateEngine.msPerDay; lia).
    rewrite Z.div_small by exact Hoff. reflexivity. }
  rewrite Hloc. repeat split.
Qed.

Theorem excel_serial_roundtrip_west_of_utc :
  let d := Samples.localMidnight in
  let back := DateEngine.excelSerialToDate (DateEngine.dateToExcelSerial Samples.westOfUTC d) in
  d = Some 1705294800000 /\
  (DateEngine.getFullYear Samples.westOfUTC d, DateEngine.getMonth Samples.westOfUTC d,
   DateEngine.getDate Samples.westOfUTC d) = (Some 2024, Some 0, Some 15) /\
  DateEngine.dateToExcelSerial Samples.westOfUTC d = DateEngine.Int 45306 /\
  back = Some 1705276800000 /\
  (DateEngine.getFullYear Samples.westOfUTC back, DateEngine.getMonth Samples.westOfUTC back,
   DateEngine.getDate Samples.westOfUTC back) = (Some 2024, Some 0, Some 14).
Proof. vm_compute. repeat split. Qed.

(** ** The number format with a thousands separator and two decimals *)

(** C6: for the format string [#,##0.00] the resolver reports two decimal
    places and a thousands separator, and does not report a percentage: the
    key [isPercent] is not set on the object, which is how the resolver says
    no.  [convertNumFormat] hands out the same information next to the
    pattern. *)
Theorem number_format_thousands_two_decimals :
  exists info,
    NumFmt.parseNumFormat "#,##0.00" = Some info /\
    NumFmt.decimalPlaces info = Some 2 /\
    NumFmt.flag (NumFmt.hasThousandsSeparator info) = true /\
    NumFmt.flag (NumFmt.isPercent info) = false /\
    NumFmt.convertNumFormat "#,##0.00"
    = Some {| NumFmt.pattern := "#,##0.00"; NumFmt.info := info |}.
Proof. eexists. vm_compute. repeat split. Qed.

(** The keys of that object, one by one. *)
Lemma number_format_thousands_two_decimals_keys :
  NumFmt.parseNumFormat "#,##0.00"
  = Some {| NumFmt.type_ := Some "number";
            NumFmt.decimalPlaces := Some 2;
            NumFmt.isPercent := None;
            NumFmt.isCurrency := None;
            NumFmt.isScientific := None;
            NumFmt.hasThousandsSeparator := Some true;
            NumFmt.isDateTime := None;
            NumFmt.hasNegativeFormat := None;
            NumFmt.currencySymbol := None |}.
Proof. vm_compute. reflexivity. Qed.

(** ** Formatting and parsing dates *)

Lemma safeFormat_clean (str : string) :
  Js.includes (DateEngine.safeFormat str) "NaN" = false.
Proof.
  unfold DateEngine.safeFormat.
  destruct (String.eqb str "") eqn:E1; cbn [orb]; [reflexivity|].
  destruct (Js.includes str "NaN") eqn:E2; cbn [orb]; [reflexivity|].
  destruct (Js.includes str "undefined"); cbn [orb]; [reflexivity|].
  destruct (Js.includes str "null"); [reflexivity|exact E2].
Qed.

(** The default rendering holds digits, a sign and slashes only. *)
Lemma default_rendering_clean (year month day : Z) :
  Js.includes (DateEngine.str year +:+ "/" +:+ DateEngine.str month +:+ "/" +:+
               DateEngine.str day) "NaN" = false.
Proof.
  apply (includes_excluded (fun c => Js.decimalChar c || Ascii.eqb c "/")); [|reflexivity].
  assert (Hnum : forall n, Js.allChars (fun c => Js.decimalChar c || Ascii.eqb c "/")
                             (DateEngine.str n) = true).
  { intros n. apply (allChars_weaken Js.decimalChar); [|apply numberToString_chars].
    intros c Hc. rewrite Hc. reflexivity. }
  rewrite !allChars_app, !Hnum. reflexivity.
Qed.

Lemma formatWith_clean (toLocaleDateString : Z -> DateEngine.Completion string)
    (t : Z) (numFmt : string) (year month day hours minutes seconds : Z) :
  exists out,
    DateEngine.formatWith toLocaleDateString t numFmt year month day hours minutes seconds
    = DateEngine.Return out /\
    Js.includes out "NaN" = false.
Proof.
  unfold DateEngine.formatWith. cbv zeta.
  repeat match goal with
         | |- context [if ?b then _ else _] =>
             lazymatch b with
             | Js.includes (_ +:+ _) "NaN" => fail
             | _ => destruct b
             end
         end;
    try (eexists; split; [reflexivity|apply safeFormat_clean]).
  rewrite default_rendering_clean.
  eexists; split; [reflexivity|apply default_rendering_clean].
Qed.

Lemma formatBody_clean (offsetAtUTC : Z -> Z)
    (toLocaleDateString : Z -> DateEngine.Completion string)
    (t : Z) (numFmt : option string) :
  exists out,
    DateEngine.formatBody offsetAtUTC toLocaleDateString t numFmt = DateEngine.Return out /\
    Js.includes out "NaN" = false.
Proof.
  unfold DateEngine.formatBody. cbv zeta.
  unfold DateEngine.getFullYear, DateEngine.getMonth, DateEngine.getDate,
    DateEngine.getHours, DateEngine.getMinutes, DateEngine.getSeconds.
  cbn [fmap option_fmap option_map].
  match goal with
  | |- context [if ?b then _ else _] => destruct b
  end; [eexists; split; reflexivity|].
  destruct numFmt as [fmt|].
  - match goal with
    | |- context [if ?b then _ else _] => destruct b
    end.
    + eexists; split; [reflexivity|apply safeFormat_clean].
    + apply formatWith_clean.
  - eexists; split; [reflexivity|apply safeFormat_clean].
Qed.

(** [formatDateByPattern] and [parseDateString] return for every argument
    and never throw; the string that formatting returns does not contain
    NaN; formatting returns the empty string when its argument is no
    [Date], an invalid one, or a date whose local year lies outside
    1900..2100; parsing returns null when its argument is not a string or
    is blank. *)
Lemma date_formatting_is_safe
    (offsetAtUTC offsetAtLocal : Z -> Z) (dateParse : string -> option Z)
    (toLocaleDateString : Z -> DateEngine.Completion string)
    (date : DateEngine.DateArg) (numFmt : option string) (dateStr : option string) :
  (exists out,
     DateEngine.formatDateByPattern offsetAtUTC toLocaleDateString date numFmt
     = DateEngine.Return out /\
     Js.includes out "NaN" = false) /\
  (DateEngine.formatRejects offsetAtUTC date ->
   DateEngine.formatDateByPattern offsetAtUTC toLocaleDateString date numFmt
   = DateEngine.Return "") /\
  (exists result,
     DateEngine.parseDateString offsetAtUTC offsetAtLocal dateParse dateStr
     = DateEngine.Return result) /\
  (match dateStr with Some str => Js.trim str = "" | None => True end ->
   DateEngine.parseDateString offsetAtUTC offsetAtLocal dateParse dateStr
   = DateEngine.Return None).
Proof.
  split; [|split; [|split]].
  - destruct date as [|[t|]]; try (exists ""; split; reflexivity).
    destruct (formatBody_clean offsetAtUTC toLocaleDateString t numFmt) as (out & Hrun & Hclean).
    exists out. split; [|exact Hclean].
    unfold DateEngine.formatDateByPattern. rewrite Hrun. reflexivity.
  - destruct date as [|[t|]]; try reflexivity.
    unfold DateEngine.formatRejects, DateEngine.yearOutOfRange.
    unfold DateEngine.formatDateByPattern, DateEngine.formatBody. cbv zeta.
    unfold DateEngine.getFullYear, DateEngine.getMonth, DateEngine.getDate,
      DateEngine.getHours, DateEngine.getMinutes, DateEngine.getSeconds.
    cbn [fmap option_fmap option_map].
    intros Hyear.
    match goal with
    | |- context [(?y <? 1900) || (2100 <? ?y)] =>
        replace ((y <? 1900) || (2100 <? y)) with true
    end; [reflexivity|].
    symmetry. apply orb_true_iff.
    destruct Hyear; [left; apply Z.ltb_lt|right; apply Z.ltb_lt]; assumption.
  - unfold DateEngine.parseDateString, DateEngine.nativeParse.
    destruct dateStr as [[|c str]|]; try (eexists; reflexivity).
    destruct (Js.trim (String c str)); [eexists; reflexivity|].
    repeat match goal with
           | |- context [match ?x with _ => _ end] => destruct x
           end; eexists; reflexivity.
  - intros Hblank.
    destruct dateStr as [[|c str]|]; try reflexivity.
    unfold DateEngine.parseDateString.
    rewrite Hblank. reflexivity.
Qed.

(** C3: on the text [2024-13-45], whose month and day are out of range,
    [parseDateString] does not return null.  The second pattern reads the
    three numbers, none of which is [NaN], and the date constructor
    carries the surplus of months and days over: the result is the 14th
    of February 2025, read here in a zone five hours west of UTC, whatever
    the native parser of the runtime does. *)
Theorem parseDateString_accepts_month_13
    (offsetAtUTC : Z -> Z) (dateParse : string -> option Z) :
  exists t,
    DateEngine.parseDateString offsetAtUTC Samples.westOfUTC dateParse (Some "2024-13-45")
    = DateEngine.Return (Some t) /\
    DateEngine.getFullYear Samples.westOfUTC (Some t) = Some 2025 /\
    DateEngine.getMonth Samples.westOfUTC (Some t) = Some 1 /\
    DateEngine.getDate Samples.westOfUTC (Some t) = Some 14.
Proof.
  eexists. split; [vm_compute; reflexivity|].
  repeat split; vm_compute; reflexivity.
Qed.

(** ** The cell mapper *)

Section SheetProperties.

Context {Color OtherStyle OtherKeys Content Obj RichDoc : Type}.
Variable parseExcelColor : Color -> option string.
Variable convertOther : OtherStyle -> option OtherKeys.
Variable getCellValue : @Sheets.Cell Color OtherStyle Content -> @Sheets.JsValue Obj.
Variable getOriginalCellValue : @Sheets.Cell Color OtherStyle Content -> @Sheets.JsValue Obj.
Variable convertRichText : Content -> RichDoc.
Variable hyperlinkOf : Content -> string * string.
Variable nanoid : nat -> string.
Variable tokensDrawn : @Sheets.Worksheet Color OtherStyle Content -> nat.

Local Abbreviation CellMap := (gmap Z (gmap Z (@Sheets.CellData OtherKeys Obj RichDoc))).
Local Abbreviation processCell :=
  (Sheets.processCell parseExcelColor convertOther getCellValue getOriginalCellValue
     convertRichText hyperlinkOf).
Local Abbreviation processRow :=
  (Sheets.processRow parseExcelColor convertOther getCellValue getOriginalCellValue
     convertRichText hyperlinkOf).
Local Abbreviation buildCellValue :=
  (Sheets.buildCellValue parseExcelColor convertOther convertRichText hyperlinkOf).
Local Abbreviation convertSingleBorder := (Sheets.convertSingleBorder parseExcelColor).
Local Abbreviation applyMergeBorder :=
  (Sheets.applyMergeBorder (OtherKeys:=OtherKeys) (Obj:=Obj) (RichDoc:=RichDoc) parseExcelColor).
Local Abbreviation processMerge :=
  (Sheets.processMerge (OtherKeys:=OtherKeys) (Obj:=Obj) (RichDoc:=RichDoc) parseExcelColor).
Local Abbreviation convertSheet :=
  (Sheets.convertSheet parseExcelColor convertOther getCellValue getOriginalCellValue
     convertRichText hyperlinkOf).
Local Abbreviation processWorksheet :=
  (Sheets.processWorksheet parseExcelColor convertOther getCellValue getOriginalCellValue
     convertRichText hyperlinkOf nanoid tokensDrawn).
Local Abbreviation forEachFrom :=
  (Sheets.forEachFrom parseExcelColor convertOther getCellValue getOriginalCellValue
     convertRichText hyperlinkOf nanoid tokensDrawn).
Local Abbreviation importSheets :=
  (Sheets.importSheets parseExcelColor convertOther getCellValue getOriginalCellValue
     convertRichText hyperlinkOf nanoid tokensDrawn).

(** *** Reading [cellData] after a write *)

Lemma lookupCell_ensureRow (cd : CellMap) (row r c : Z) :
  Sheets.lookupCell (Sheets.ensureRow row cd) r c = Sheets.lookupCell cd r c.
Proof.
  unfold Sheets.lookupCell, Sheets.ensureRow.
  destruct (cd !! row) eqn:E; [reflexivity|].
  destruct (decide (row = r)) as [->|Hne].
  - rewrite lookup_insert_eq, E. reflexivity.
  - rewrite lookup_insert_ne by exact Hne. reflexivity.
Qed.

Lemma lookupCell_putCell (cd : CellMap) (row col r c : Z)
    (cell : @Sheets.CellData OtherKeys Obj RichDoc) :
  Sheets.lookupCell (Sheets.putCell row col cell cd) r c
  = if decide (row = r /\ col = c) then Some cell else Sheets.lookupCell cd r c.
Proof.
  unfold Sheets.lookupCell, Sheets.putCell.
  destruct (decide (row = r)) as [->|Hr].
  - rewrite lookup_insert_eq. simpl.
    destruct (decide (col = c)) as [->|Hc].
    + rewrite lookup_insert_eq. rewrite decide_True by tauto. reflexivity.
    + rewrite lookup_insert_ne by exact Hc. rewrite decide_False by tauto.
      destruct (cd !! r); reflexivity.
  - rewrite lookup_insert_ne by exact Hr. rewrite decide_False by tauto. reflexivity.
Qed.

Lemma lookupCell_setCellEdge (cd : CellMap) (e : Sheets.Edge) (x : Sheets.UBorder)
    (row col r c : Z) :
  Sheets.lookupCell (Sheets.setCellEdge e x row col cd) r c
  = if decide (row = r /\ col = c)
    then
      let cell := default Sheets.emptyCell (Sheets.lookupCell cd row col) in
      let st := default Sheets.emptyStyle (Sheets.s cell) in
      Some {| Sheets.v := Sheets.v cell; Sheets.t := Sheets.t cell; Sheets.f := Sheets.f cell;
              Sheets.p := Sheets.p cell; Sheets.link := Sheets.link cell;
              Sheets.s := Some {| Sheets.bd := Some (Sheets.setEdge e x
                                               (default Sheets.noBorders (Sheets.bd st)));
                                  Sheets.otherKeys := Sheets.otherKeys st |} |}
    else Sheets.lookupCell cd r c.
Proof.
  unfold Sheets.setCellEdge. cbv zeta.
  pose proof (lookupCell_putCell cd row col r c) as Hput.
  unfold Sheets.putCell in Hput. rewrite Hput.
  unfold Sheets.lookupCell. destruct (cd !! row); reflexivity.
Qed.

(** *** No cell record without a value, a formula or a style *)

Lemma sparse_empty : Sheets.sparse (∅ : CellMap).
Proof. intros r c cell. unfold Sheets.lookupCell. rewrite lookup_empty. discriminate. Qed.

Lemma sparse_putCell (cd : CellMap) (row col : Z) (cell : @Sheets.CellData OtherKeys Obj RichDoc) :
  Sheets.sparse cd -> Sheets.carriesContent cell ->
  Sheets.sparse (Sheets.putCell row col cell (Sheets.ensureRow row cd)).
Proof.
  intros Hcd Hcell r c cell'. rewrite lookupCell_putCell, lookupCell_ensureRow.
  case_decide; [intros [= <-]; exact Hcell|apply Hcd].
Qed.

(** The record built for a cell with a value or a formula has the key [v]
    or the key [f]. *)
Lemma buildCellValue_content (cell : @Sheets.Cell Color OtherStyle Content) (rawValue : @Sheets.JsValue Obj) :
  Sheets.nonEmpty rawValue = true \/
  (Sheets.isType (Sheets.type cell) Sheets.Formula && Js.truthy (Sheets.formula cell)) = true ->
  Sheets.carriesContent (buildCellValue cell rawValue).
Proof.
  intros [Hv|Hf]; unfold Sheets.carriesContent, Sheets.hasValue, Sheets.buildCellValue; cbn.
  - left. rewrite Hv. eauto.
  - right. left. apply andb_prop in Hf as [Ht Hform]. rewrite Ht.
    destruct (Sheets.formula cell) as [[|c text]|]; try discriminate. eauto.
Qed.

Lemma sparse_processCell (cd : CellMap) (row col : Z) (cell : Sheets.Cell) :
  Sheets.sparse cd -> Sheets.sparse (processCell row col cell cd).
Proof.
  intros Hcd. unfold Sheets.processCell.
  destruct (Sheets.isType (Sheets.type cell) Sheets.Null).
  { destruct (Sheets.cellStyle cell ≫= _) as [style|]; [|exact Hcd].
    apply sparse_putCell; [exact Hcd|]. right. right. simpl. eauto. }
  destruct (_ && Sheets.isDispImg _); [exact Hcd|]. cbv zeta.
  set (rawValue := Sheets.guardNaN getOriginalCellValue cell (getCellValue cell)).
  destruct (Sheets.nonEmpty rawValue) eqn:Ev;
    destruct (Sheets.isType (Sheets.type cell) Sheets.Formula && Js.truthy (Sheets.formula cell))
      eqn:Ef; cbn [negb andb]; try exact Hcd;
    (destruct (Sheets.hasKeys _);
     [apply sparse_putCell; [exact Hcd|apply buildCellValue_content; auto]
     |intros r c cell'; rewrite lookupCell_ensureRow; apply Hcd]).
Qed.

Lemma sparse_processRow (row : Sheets.Row) (cd : CellMap) :
  Sheets.sparse cd -> Sheets.sparse (processRow row cd).
Proof.
  unfold Sheets.processRow. generalize (Sheets.cells row). intros cells.
  revert cd. induction cells as [|[colNumber cell] cells IH]; intros cd Hcd; simpl.
  - exact Hcd.
  - apply IH, sparse_processCell, Hcd.
Qed.

Lemma sparse_setCellEdge (cd : CellMap) (e : Sheets.Edge) (x : Sheets.UBorder) (row col : Z) :
  Sheets.sparse cd -> Sheets.sparse (Sheets.setCellEdge e x row col cd).
Proof.
  intros Hcd r c cell. rewrite lookupCell_setCellEdge.
  case_decide; [|apply Hcd].
  intros [= <-]. right. right. simpl. eauto.
Qed.

Lemma sparse_row_loop (e : Sheets.Edge) (x : Sheets.UBorder) (row : Z) (cols : list Z)
    (cd : CellMap) :
  Sheets.sparse cd ->
  Sheets.sparse (fold_left (fun cd col => Sheets.setCellEdge e x row col cd) cols cd).
Proof.
  revert cd. induction cols as [|i cols IH]; intros cd Hcd; simpl; [exact Hcd|].
  apply IH, sparse_setCellEdge, Hcd.
Qed.

Lemma sparse_col_loop (e : Sheets.Edge) (x : Sheets.UBorder) (col : Z) (rows : list Z)
    (cd : CellMap) :
  Sheets.sparse cd ->
  Sheets.sparse (fold_left (fun cd row => Sheets.setCellEdge e x row col cd) rows cd).
Proof.
  revert cd. induction rows as [|i rows IH]; intros cd Hcd; simpl; [exact Hcd|].
  apply IH, sparse_setCellEdge, Hcd.
Qed.

Lemma sparse_applyMergeBorder (border : @Sheets.Borders Color) (g : Sheets.MergeRegion) (cd : CellMap) :
  Sheets.sparse cd -> Sheets.sparse (applyMergeBorder border g cd).
Proof.
  intros Hcd. unfold Sheets.applyMergeBorder. cbv zeta.
  destruct (Sheets.bright border); [apply sparse_col_loop|];
    (destruct (Sheets.bleft border); [apply sparse_col_loop|]);
    (destruct (Sheets.bbottom border); [apply sparse_row_loop|]);
    (destruct (Sheets.btop border); [apply sparse_row_loop|]);
    exact Hcd.
Qed.

Lemma sparse_convertSheet (sheetKey : string) (sheetIndex : nat) (ws : @Sheets.Worksheet Color OtherStyle Content) :
  Sheets.sparse (Sheets.cellData (convertSheet sheetKey sheetIndex ws)).
Proof.
  unfold Sheets.convertSheet. cbn [Sheets.cellData].
  assert (Hrows : Sheets.sparse (fold_left (fun cd row => processRow row cd) (Sheets.rows ws) ∅)).
  { generalize (Sheets.rows ws). intros rows.
    assert (Hgen : forall cd, Sheets.sparse cd ->
              Sheets.sparse (fold_left (fun cd row => processRow row cd) rows cd)).
    { induction rows as [|row rows IH]; intros cd Hcd; simpl; [exact Hcd|].
      apply IH, sparse_processRow, Hcd. }
    apply Hgen, sparse_empty. }
  revert Hrows. generalize (fold_left (fun cd row => processRow row cd) (Sheets.rows ws) ∅).
  generalize (Sheets.merges ws) at 1. intros merges.
  induction merges as [|m merges IH]; intros cd Hcd; simpl; [exact Hcd|].
  apply IH. unfold Sheets.processMerge.
  destruct (Sheets.masterBorder ws m); [apply sparse_applyMergeBorder|]; exact Hcd.
Qed.

(** *** The loop over the worksheets *)

Lemma forEachFrom_sheetOrder (worksheets : list (option Sheets.Worksheet)) :
  forall (sheetIndex : nat) (wb : @Sheets.Workbook OtherKeys Obj RichDoc),
    Sheets.sheetOrder (forEachFrom sheetIndex worksheets wb)
    = Sheets.sheetOrder wb
      ++ Sheets.keysFrom nanoid tokensDrawn (Sheets.drawn wb)
           (Sheets.definedFrom sheetIndex worksheets).
Proof.
  induction worksheets as [|[ws|] worksheets IH]; intros sheetIndex wb; simpl.
  - rewrite app_nil_r. reflexivity.
  - rewrite IH. simpl. rewrite <- app_assoc. reflexivity.
  - apply IH.
Qed.

Lemma definedFrom_index (worksheets : list (option Sheets.Worksheet)) :
  forall (sheetIndex i : nat) (ws : @Sheets.Worksheet Color OtherStyle Content),
    In (i, ws) (Sheets.definedFrom sheetIndex worksheets) -> (sheetIndex <= i)%nat.
Proof.
  induction worksheets as [|[w|] worksheets IH]; intros sheetIndex i ws Hin; simpl in Hin.
  - contradiction.
  - destruct Hin as [[= -> ->]|Hin]; [lia|]. apply IH in Hin. lia.
  - apply IH in Hin. lia.
Qed.

Lemma keysFrom_token (defined : list (nat * Sheets.Worksheet)) :
  forall (drawn : nat) (key : string),
    In key (Sheets.keysFrom nanoid tokensDrawn drawn defined) ->
    exists k, (drawn <= k)%nat /\ key = "sheet-" +:+ nanoid k.
Proof.
  induction defined as [|[i ws] defined IH]; intros drawn key Hin; simpl in Hin.
  - contradiction.
  - destruct Hin as [<-|Hin]; [exists drawn; split; [lia|reflexivity]|].
    apply IH in Hin as (k & Hk & ->). exists k. split; [lia|reflexivity].
Qed.

Lemma forEachFrom_sheets_other (worksheets : list (option Sheets.Worksheet)) :
  forall (sheetIndex : nat) (wb : @Sheets.Workbook OtherKeys Obj RichDoc) (key : string),
    ~ In key (Sheets.keysFrom nanoid tokensDrawn (Sheets.drawn wb)
                (Sheets.definedFrom sheetIndex worksheets)) ->
    Sheets.sheets (forEachFrom sheetIndex worksheets wb) !! key = Sheets.sheets wb !! key.
Proof.
  induction worksheets as [|[ws|] worksheets IH]; intros sheetIndex wb key Hnot; simpl.
  - reflexivity.
  - simpl in Hnot. rewrite IH by (simpl; tauto). simpl.
    apply lookup_insert_ne. intros Heq. apply Hnot. left. exact Heq.
  - apply IH. exact Hnot.
Qed.

Lemma forEachFrom_index_other (worksheets : list (option Sheets.Worksheet)) :
  forall (sheetIndex : nat) (wb : @Sheets.Workbook OtherKeys Obj RichDoc) (i : nat),
    (i < sheetIndex)%nat ->
    Sheets.sheetIndexToIdMap (forEachFrom sheetIndex worksheets wb) !! i
    = Sheets.sheetIndexToIdMap wb !! i.
Proof.
  induction worksheets as [|[ws|] worksheets IH]; intros sheetIndex wb i Hlt; simpl.
  - reflexivity.
  - rewrite IH by lia. simpl. apply lookup_insert_ne. lia.
  - apply IH. lia.
Qed.

(** Every sheet of the result is the conversion of a worksheet, stored
    under its own key. *)
Lemma forEachFrom_sheets_origin (worksheets : list (option Sheets.Worksheet)) :
  forall (sheetIndex : nat) (wb : @Sheets.Workbook OtherKeys Obj RichDoc)
         (key : string) (sheet : Sheets.Sheet),
    Sheets.sheets (forEachFrom sheetIndex worksheets wb) !! key = Some sheet ->
    Sheets.sheets wb !! key = Some sheet \/
    exists i ws, sheet = convertSheet key i ws.
Proof.
  induction worksheets as [|[ws|] worksheets IH]; intros sheetIndex wb key sheet Hget;
    simpl in Hget.
  - left. exact Hget.
  - apply IH in Hget as [Hget|Hnew]; [|right; exact Hnew].
    simpl in Hget. rewrite lookup_insert in Hget.
    case_decide as Hkey; [|left; exact Hget].
    injection Hget as <-. right. rewrite Hkey. eauto.
  - apply IH in Hget. exact Hget.
Qed.

Lemma sheet_key_inj (a b : string) : "sheet-" +:+ a = "sheet-" +:+ b -> a = b.
Proof. intros Heq. cbv [String.append] in Heq. congruence. Qed.

Lemma forEachFrom_nth (worksheets : list (option Sheets.Worksheet)) :
  forall (sheetIndex : nat) (wb : @Sheets.Workbook OtherKeys Obj RichDoc)
         (n i : nat) (ws : @Sheets.Worksheet Color OtherStyle Content),
    Sheets.definedFrom sheetIndex worksheets !! n = Some (i, ws) ->
    exists key,
      Sheets.keysFrom nanoid tokensDrawn (Sheets.drawn wb)
        (Sheets.definedFrom sheetIndex worksheets) !! n = Some key /\
      Sheets.sheetIndexToIdMap (forEachFrom sheetIndex worksheets wb) !! i = Some key /\
      (Inj (=) (=) nanoid ->
       Sheets.sheets (forEachFrom sheetIndex worksheets wb) !! key
       = Some (convertSheet key i ws)).
Proof.
  induction worksheets as [|[w|] worksheets IH]; intros sheetIndex wb n i ws Hn;
    simpl in Hn.
  - discriminate.
  - destruct n as [|n].
    + injection Hn as -> ->. simpl.
      exists ("sheet-" +:+ nanoid (Sheets.drawn wb)). split; [reflexivity|]. split.
      * rewrite forEachFrom_index_other by lia. simpl. apply lookup_insert_eq.
      * intros Hinj. rewrite forEachFrom_sheets_other.
        { simpl. apply lookup_insert_eq. }
        simpl. intros Hin. apply keysFrom_token in Hin as (k & Hk & Heq).
        apply sheet_key_inj, Hinj in Heq. lia.
    + simpl in Hn.
      exact (IH (S sheetIndex) (processWorksheet wb sheetIndex (Some w)) n i ws Hn).
  - exact (IH (S sheetIndex) wb n i ws Hn).
Qed.

Lemma definedFrom_all (worksheets : list (option Sheets.Worksheet)) :
  forall sheetIndex : nat,
    Forall is_Some worksheets ->
    length (Sheets.definedFrom (Color:=Color) (OtherStyle:=OtherStyle) (Content:=Content)
              sheetIndex worksheets) = length worksheets.
Proof.
  induction worksheets as [|w worksheets IH]; intros sheetIndex Hall; [reflexivity|].
  inversion Hall as [|? ? [ws ->] Hrest]; subst. simpl. f_equal. apply IH, Hrest.
Qed.

Lemma keysFrom_length (defined : list (nat * Sheets.Worksheet)) :
  forall drawn : nat,
    length (Sheets.keysFrom nanoid tokensDrawn drawn defined) = length defined.
Proof.
  induction defined as [|[i ws] defined IH]; intros drawn; simpl; [reflexivity|].
  f_equal. apply IH.
Qed.

(** C8: [sheetOrder] has one entry for each worksheet of the source, empty
    worksheets included, and in the order of the source: the n-th entry is
    the key under which the n-th worksheet is registered and, the tokens
    being distinct, under which its sheet is stored. *)
Theorem sheet_order_matches_worksheets (worksheets : list (option Sheets.Worksheet)) :
  let wb := importSheets worksheets in
  let defined := Sheets.definedFrom 0 worksheets in
  length (Sheets.sheetOrder wb) = length defined /\
  (Forall is_Some worksheets -> length (Sheets.sheetOrder wb) = length worksheets) /\
  (forall n i ws,
      defined !! n = Some (i, ws) ->
      exists key,
        Sheets.sheetOrder wb !! n = Some key /\
        Sheets.sheetIndexToIdMap wb !! i = Some key /\
        (Inj (=) (=) nanoid -> Sheets.sheets wb !! key = Some (convertSheet key i ws))).
Proof.
  intros wb defined. subst wb defined. unfold Sheets.importSheets.
  rewrite forEachFrom_sheetOrder. simpl.
  split; [apply keysFrom_length|]. split.
  - intros Hall. rewrite keysFrom_length. apply definedFrom_all, Hall.
  - intros n i ws Hn.
    destruct (forEachFrom_nth worksheets 0%nat Sheets.emptyWorkbook n i ws Hn)
      as (key & Hkey & Hidx & Hsheet).
    exists key. auto.
Qed.

(** C9: in every sheet that the import produces, a cell record that is
    present in [cellData] carries a value, a formula or a style: its key [v]
    holds a value that is not empty, or its key [f] or its key [s] is set. *)
Theorem cell_records_carry_content (worksheets : list (option Sheets.Worksheet))
    (key : string) (sheet : Sheets.Sheet) (r c : Z)
    (rowMap : gmap Z (@Sheets.CellData OtherKeys Obj RichDoc)) (cell : Sheets.CellData) :
  Sheets.sheets (importSheets worksheets) !! key = Some sheet ->
  Sheets.cellData sheet !! r = Some rowMap ->
  rowMap !! c = Some cell ->
  Sheets.hasValue cell \/ is_Some (Sheets.f cell) \/ is_Some (Sheets.s cell).
Proof.
  intros Hsheet Hrow Hcell.
  apply forEachFrom_sheets_origin in Hsheet as [Hold|(i & ws & ->)].
  { simpl in Hold. rewrite lookup_empty in Hold. discriminate. }
  apply (sparse_convertSheet key i ws r c cell).
  unfold Sheets.lookupCell. rewrite Hrow. exact Hcell.
Qed.

(** *** The border of a merge *)

Lemma cellEdge_setCellEdge_same (cd : CellMap) (e : Sheets.Edge) (x : Sheets.UBorder)
    (r c : Z) :
  Sheets.cellEdge (Sheets.setCellEdge e x r c cd) r c e = Some x.
Proof.
  unfold Sheets.cellEdge. rewrite lookupCell_setCellEdge.
  rewrite decide_True by tauto. destruct e; reflexivity.
Qed.

Lemma cellEdge_setCellEdge_other (cd : CellMap) (e e' : Sheets.Edge) (x : Sheets.UBorder)
    (r c r' c' : Z) :
  e' <> e \/ r' <> r \/ c' <> c ->
  Sheets.cellEdge (Sheets.setCellEdge e x r c cd) r' c' e' = Sheets.cellEdge cd r' c' e'.
Proof.
  intros Hother. unfold Sheets.cellEdge. rewrite lookupCell_setCellEdge.
  case_decide as Hsame; [|reflexivity].
  destruct Hsame as [<- <-].
  destruct Hother as [Hedge|[Hr|Hc]]; [|congruence|congruence].
  destruct (Sheets.lookupCell cd r c) as [cell|]; simpl.
  - destruct (Sheets.s cell) as [st|]; simpl.
    + destruct (Sheets.bd st) as [borders|]; simpl;
        destruct e, e'; try reflexivity; congruence.
    + destruct e, e'; try reflexivity; congruence.
  - destruct e, e'; try reflexivity; congruence.
Qed.

(** A loop that sets one edge along a row. *)
Lemma row_loop_other (e e' : Sheets.Edge) (x : Sheets.UBorder) (r r' c' : Z) (cols : list Z) :
  forall cd : CellMap,
    e' <> e \/ r' <> r \/ ~ In c' cols ->
    Sheets.cellEdge (fold_left (fun cd col => Sheets.setCellEdge e x r col cd) cols cd) r' c' e'
    = Sheets.cellEdge cd r' c' e'.
Proof.
  induction cols as [|i cols IH]; intros cd Hother; simpl; [reflexivity|].
  rewrite IH by (simpl in Hother; tauto).
  apply cellEdge_setCellEdge_other. simpl in Hother.
  destruct (decide (c' = i)) as [->|Hne]; tauto.
Qed.

Lemma row_loop_set (e : Sheets.Edge) (x : Sheets.UBorder) (r col : Z) (cols : list Z) :
  forall cd : CellMap,
    In col cols ->
    Sheets.cellEdge (fold_left (fun cd col => Sheets.setCellEdge e x r col cd) cols cd) r col e
    = Some x.
Proof.
  induction cols as [|i cols IH]; intros cd Hin; simpl; [contradiction|].
  destruct (In_dec Z.eq_dec col cols) as [Hlater|Hnot]; [apply IH, Hlater|].
  destruct Hin as [->|Hin]; [|contradiction].
  rewrite row_loop_other by tauto. apply cellEdge_setCellEdge_same.
Qed.

(** A loop that sets one edge along a column. *)
Lemma col_loop_other (e e' : Sheets.Edge) (x : Sheets.UBorder) (c r' c' : Z) (rows : list Z) :
  forall cd : CellMap,
    e' <> e \/ c' <> c \/ ~ In r' rows ->
    Sheets.cellEdge (fold_left (fun cd row => Sheets.setCellEdge e x row c cd) rows cd) r' c' e'
    = Sheets.cellEdge cd r' c' e'.
Proof.
  induction rows as [|i rows IH]; intros cd Hother; simpl; [reflexivity|].
  rewrite IH by (simpl in Hother; tauto).
  apply cellEdge_setCellEdge_other. simpl in Hother.
  destruct (decide (r' = i)) as [->|Hne]; tauto.
Qed.

Lemma col_loop_set (e : Sheets.Edge) (x : Sheets.UBorder) (c row : Z) (rows : list Z) :
  forall cd : CellMap,
    In row rows ->
    Sheets.cellEdge (fold_left (fun cd row => Sheets.setCellEdge e x row c cd) rows cd) row c e
    = Some x.
Proof.
  induction rows as [|i rows IH]; intros cd Hin; simpl; [contradiction|].
  destruct (In_dec Z.eq_dec row rows) as [Hlater|Hnot]; [apply IH, Hlater|].
  destruct Hin as [->|Hin]; [|contradiction].
  rewrite col_loop_other by tauto. apply cellEdge_setCellEdge_same.
Qed.

Lemma In_range (from to i : Z) : In i (Sheets.range from to) <-> from <= i <= to.
Proof.
  unfold Sheets.range. rewrite <- list_elem_of_In, elem_of_seqZ. lia.
Qed.

Ltac skip_other_edges :=
  repeat first
    [ rewrite row_loop_other by (left; discriminate)
    | rewrite col_loop_other by (left; discriminate) ].

(** After the four loops of one merge, its border is on its perimeter. *)
Lemma applyMergeBorder_perimeter (border : @Sheets.Borders Color) (g : Sheets.MergeRegion)
    (cd : CellMap) :
  Sheets.perimeterBordered parseExcelColor border g (applyMergeBorder border g cd).
Proof.
  unfold Sheets.perimeterBordered, Sheets.applyMergeBorder. cbv zeta.
  repeat split; intros b i Hb Hi; rewrite Hb;
    destruct (Sheets.btop border), (Sheets.bbottom border), (Sheets.bleft border),
      (Sheets.bright border);
    try discriminate; skip_other_edges;
    first [apply row_loop_set | apply col_loop_set]; apply In_range; exact Hi.
Qed.

(** The loops of a merge write inside its region only. *)
Lemma applyMergeBorder_outside (border : @Sheets.Borders Color) (g : Sheets.MergeRegion)
    (cd : CellMap) (r c : Z) (e : Sheets.Edge) :
  Sheets.startRow g <= Sheets.endRow g ->
  Sheets.startColumn g <= Sheets.endColumn g ->
  ~ Sheets.inRegion g r c ->
  Sheets.cellEdge (applyMergeBorder border g cd) r c e = Sheets.cellEdge cd r c e.
Proof.
  intros Hrows Hcols Hout. unfold Sheets.inRegion in Hout.
  unfold Sheets.applyMergeBorder. cbv zeta.
  destruct (Sheets.btop border), (Sheets.bbottom border), (Sheets.bleft border),
    (Sheets.bright border);
    repeat first
      [ reflexivity
      | rewrite row_loop_other by (right; rewrite In_range; lia)
      | rewrite col_loop_other by (right; rewrite In_range; lia) ].
Qed.

Lemma processMerge_outside (ws : @Sheets.Worksheet Color OtherStyle Content) (m : Sheets.MergeRef) (cd : CellMap)
    (r c : Z) (e : Sheets.Edge) :
  Sheets.wellFormed m ->
  ~ Sheets.inRegion (Sheets.regionOf m) r c ->
  Sheets.cellEdge (processMerge ws m cd) r c e = Sheets.cellEdge cd r c e.
Proof.
  intros [Hrows Hcols] Hout. unfold Sheets.processMerge.
  destruct (Sheets.masterBorder ws m); [|reflexivity].
  apply applyMergeBorder_outside; simpl; try lia. exact Hout.
Qed.

Lemma perimeterBordered_kept (border : @Sheets.Borders Color) (g : Sheets.MergeRegion)
    (cd cd' : CellMap) :
  Sheets.startRow g <= Sheets.endRow g ->
  Sheets.startColumn g <= Sheets.endColumn g ->
  (forall r c e, Sheets.inRegion g r c -> Sheets.cellEdge cd' r c e = Sheets.cellEdge cd r c e) ->
  Sheets.perimeterBordered parseExcelColor border g cd ->
  Sheets.perimeterBordered parseExcelColor border g cd'.
Proof.
  intros Hrows Hcols Hsame (Ht & Hb & Hl & Hr). unfold Sheets.inRegion in Hsame.
  repeat split; intros b i Hedge Hi; rewrite Hsame by lia; eauto.
Qed.

(** The merges that follow leave the perimeter of a merge as it is, since
    they share no cell with it. *)
Lemma later_merges_keep_perimeter (ws : @Sheets.Worksheet Color OtherStyle Content) (m : Sheets.MergeRef)
    (border : @Sheets.Borders Color) (later : list Sheets.MergeRef) :
  forall cd : CellMap,
    Sheets.wellFormed m ->
    Forall Sheets.wellFormed later ->
    Forall (Sheets.apart m) later ->
    Sheets.perimeterBordered parseExcelColor border (Sheets.regionOf m) cd ->
    Sheets.perimeterBordered parseExcelColor border (Sheets.regionOf m)
      (fold_left (fun cd m' => processMerge ws m' cd) later cd).
Proof.
  induction later as [|m' later IH]; intros cd Hwf Hwfs Hapart Hcd; simpl; [exact Hcd|].
  inversion Hwfs as [|? ? Hwf' Hwfs']; subst.
  inversion Hapart as [|? ? Hapart' Haparts']; subst.
  apply IH; try assumption.
  destruct Hwf as [Hrows Hcols].
  apply (perimeterBordered_kept border (Sheets.regionOf m) cd); simpl; try lia; [|exact Hcd].
  intros r c e Hin. apply processMerge_outside; [exact Hwf'|].
  intros Hin'. exact (Hapart' r c Hin Hin').
Qed.

Lemma merges_perimeter (ws : @Sheets.Worksheet Color OtherStyle Content) (ms : list Sheets.MergeRef) :
  forall (cd : CellMap) (m : Sheets.MergeRef) (border : @Sheets.Borders Color),
    Forall Sheets.wellFormed ms ->
    Sheets.pairwiseApart ms ->
    In m ms ->
    Sheets.masterBorder ws m = Some border ->
    Sheets.perimeterBordered parseExcelColor border (Sheets.regionOf m)
      (fold_left (fun cd m' => processMerge ws m' cd) ms cd).
Proof.
  induction ms as [|m0 ms IH]; intros cd m border Hwfs Hapart Hin Hborder; [contradiction|].
  inversion Hwfs as [|? ? Hwf0 Hwfs']; subst. destruct Hapart as [Hapart0 Hapart].
  simpl. destruct Hin as [->|Hin].
  - apply later_merges_keep_perimeter; try assumption.
    unfold Sheets.processMerge. rewrite Hborder. apply applyMergeBorder_perimeter.
  - apply IH; assumption.
Qed.

(** C7: when the merges of a worksheet are as ExcelJS keeps them (the
    first corner is the top left cell, no two merges share a cell), then
    in the sheet made of it every border edge of the anchor cell of a
    merge is on the matching outer edge of the perimeter of the region:
    top on the top row, bottom on the bottom row, left on the first
    column, right on the last column. *)
Theorem merge_border_on_perimeter (sheetKey : string) (sheetIndex : nat)
    (ws : @Sheets.Worksheet Color OtherStyle Content) (m : Sheets.MergeRef) (border : @Sheets.Borders Color) :
  Forall Sheets.wellFormed (Sheets.merges ws) ->
  Sheets.pairwiseApart (Sheets.merges ws) ->
  In m (Sheets.merges ws) ->
  Sheets.masterBorder ws m = Some border ->
  let g := Sheets.regionOf m in
  let cellData := Sheets.cellData (convertSheet sheetKey sheetIndex ws) in
  (forall b col, Sheets.btop border = Some b ->
     Sheets.startColumn g <= col <= Sheets.endColumn g ->
     Sheets.cellEdge cellData (Sheets.startRow g) col Sheets.top
     = Some (convertSingleBorder b)) /\
  (forall b col, Sheets.bbottom border = Some b ->
     Sheets.startColumn g <= col <= Sheets.endColumn g ->
     Sheets.cellEdge cellData (Sheets.endRow g) col Sheets.bottom
     = Some (convertSingleBorder b)) /\
  (forall b row, Sheets.bleft border = Some b ->
     Sheets.startRow g <= row <= Sheets.endRow g ->
     Sheets.cellEdge cellData row (Sheets.startColumn g) Sheets.left
     = Some (convertSingleBorder b)) /\
  (forall b row, Sheets.bright border = Some b ->
     Sheets.startRow g <= row <= Sheets.endRow g ->
     Sheets.cellEdge cellData row (Sheets.endColumn g) Sheets.right
     = Some (convertSingleBorder b)).
Proof.
  intros Hwfs Hapart Hin Hborder g cellData. subst g cellData.
  unfold Sheets.convertSheet. cbn [Sheets.cellData].
  apply (merges_perimeter ws (Sheets.merges ws)); assumption.
Qed.

End SheetProperties.

(** ** The mapper on the sample worksheet *)

Lemma sheet_order_matches_worksheets_witness :
  Sheets.sheetOrder Samples.imported = ["sheet-0"; "sheet-1"] /\
  length (Sheets.sheetOrder Samples.imported) = 2%nat /\
  exists key,
    Sheets.sheetOrder Samples.imported !! 1%nat = Some key /\
    Sheets.sheetIndexToIdMap Samples.imported !! 1%nat = Some key.
Proof.
  split; [vm_compute; reflexivity|].
  pose proof (sheet_order_matches_worksheets Samples.parseExcelColor Samples.convertOther
                Samples.getCellValue Samples.getCellValue Samples.convertRichText
                Samples.hyperlinkOf Samples.nanoid Samples.tokensDrawn
                [Some Samples.worksheet; Some Samples.emptyWorksheet]) as (_ & Hlen & Hnth).
  split.
  - apply Hlen. repeat constructor; eauto.
  - destruct (Hnth 1%nat 1%nat Samples.emptyWorksheet eq_refl) as (key & Horder & Hindex & _).
    exists key. split; assumption.
Defined.

Lemma cell_records_carry_content_witness :
  exists sheet rowMap cell,
    Sheets.sheets Samples.imported !! "sheet-0" = Some sheet /\
    Sheets.cellData sheet !! 1 = Some rowMap /\
    rowMap !! 0 = Some cell /\
    (Sheets.hasValue cell \/ is_Some (Sheets.f cell) \/ is_Some (Sheets.s cell)).
Proof.
  destruct (Sheets.sheets Samples.imported !! "sheet-0") as [sheet|] eqn:Hsheet;
    [|vm_compute in Hsheet; discriminate].
  destruct (Sheets.cellData sheet !! 1) as [rowMap|] eqn:Hrow.
  2: { exfalso. revert Hrow. vm_compute in Hsheet. injection Hsheet as <-.
       vm_compute. discriminate. }
  destruct (rowMap !! 0) as [cell|] eqn:Hcell.
  2: { exfalso. revert Hcell. vm_compute in Hsheet. injection Hsheet as <-.
       vm_compute in Hrow. injection Hrow as <-. vm_compute. discriminate. }
  exists sheet, rowMap, cell.
  split; [reflexivity|]. split; [exact Hrow|]. split; [exact Hcell|].
  exact (cell_records_carry_content Samples.parseExcelColor Samples.convertOther
           Samples.getCellValue Samples.getCellValue Samples.convertRichText
           Samples.hyperlinkOf Samples.nanoid Samples.tokensDrawn
           [Some Samples.worksheet; Some Samples.emptyWorksheet]
           "sheet-0" sheet 1 0 rowMap cell Hsheet Hrow Hcell).
Defined.

Lemma merge_border_on_perimeter_witness :
  let cellData :=
    Sheets.cellData
      (Sheets.convertSheet Samples.parseExcelColor Samples.convertOther Samples.getCellValue
         Samples.getCellValue Samples.convertRichText Samples.hyperlinkOf
         "sheet-0" 0 Samples.worksheet) in
  Sheets.cellEdge cellData 0 1 Sheets.top
  = Some {| Sheets.bs := 1; Sheets.bcl := "#FF0000" |} /\
  Sheets.cellEdge cellData 1 0 Sheets.left
  = Some {| Sheets.bs := 3; Sheets.bcl := "#000000" |}.
Proof.
  intros cellData.
  destruct (merge_border_on_perimeter Samples.parseExcelColor Samples.convertOther
              Samples.getCellValue Samples.getCellValue Samples.convertRichText
              Samples.hyperlinkOf "sheet-0" 0 Samples.worksheet Samples.merge
              Samples.anchorBorders)
    as (Htop & _ & Hleft & _).
  - repeat constructor; simpl; lia.
  - simpl. split; constructor.
  - left. reflexivity.
  - reflexivity.
  - split.
    + apply (Htop _ 1 eq_refl). simpl. lia.
    + apply (Hleft _ 1 eq_refl). simpl. lia.
Defined.

(* ================================================================== *)
(** * Part III: further properties of the code                         *)
(* ================================================================== *)

(** ** The matcher on character classes *)

Lemma suffixOf_trans (s1 s2 s3 : string) :
  Matching.suffixOf s1 s2 -> Matching.suffixOf s2 s3 -> Matching.suffixOf s1 s3.
Proof.
  intros H12 H23. induction H23 as [|s2 a s3 H23 IH].
  - exact H12.
  - apply Matching.suffix_later, IH, H12.
Qed.

Lemma suffixOf_tail (s' : string) (a : ascii) (s : string) :
  Matching.suffixOf (String a s') s -> Matching.suffixOf s' s.
Proof.
  intros H. eapply suffixOf_trans; [|exact H]. apply Matching.suffix_later, Matching.suffix_here.
Qed.

(** The matcher hands to its continuation nothing but suffixes of the
    input: when the continuation fails on all of them, so does the
    matcher. *)
Lemma run_fails (r : Regex.regex) :
  forall (R : Type) (whole : nat) (s : string) (c : Regex.captures)
         (k : string -> Regex.captures -> option R),
    (forall s' c', Matching.suffixOf s' s -> k s' c' = None) ->
    Regex.run r whole s c k = None.
Proof.
  induction r as [|p|r1 IH1 r2 IH2|r1 IH1 r2 IH2|g r1 IH1|i r1 IH1| | |r1 IH1];
    intros R whole s c k Hk.
  - apply Hk, Matching.suffix_here.
  - destruct s as [|a s]; [reflexivity|]. cbn.
    destruct (p a); [|reflexivity]. apply Hk, Matching.suffix_later, Matching.suffix_here.
  - cbn [Regex.run]. apply IH1. intros s' c' Hs'. apply IH2. intros s'' c'' Hs''.
    apply Hk. eapply suffixOf_trans; eassumption.
  - cbn [Regex.run]. rewrite IH1 by exact Hk. apply IH2, Hk.
  - cbn [Regex.run].
    match goal with
    | |- ?F (String.length s) s c = None =>
        assert (HF : forall fuel s c,
                   (forall s' c', Matching.suffixOf s' s -> k s' c' = None) -> F fuel s c = None)
    end.
    { induction fuel as [|fuel IHf]; intros s0 c0 Hk0.
      - cbn -[Nat.ltb]. rewrite (Hk0 s0 c0 (Matching.suffix_here s0)). destruct g; reflexivity.
      - cbn -[Nat.ltb]. rewrite (Hk0 s0 c0 (Matching.suffix_here s0)).
        rewrite IH1; [destruct g; reflexivity|].
        intros s' c' Hs'.
        destruct (String.length s' <? String.length s0)%nat; [|reflexivity].
        apply IHf. intros s'' c'' Hs''. apply Hk0. eapply suffixOf_trans; eassumption. }
    apply HF, Hk.
  - cbn [Regex.run]. apply IH1. intros s' c' Hs'. apply Hk, Hs'.
  - cbn [Regex.run]. destruct (String.length s =? whole)%nat; [apply Hk, Matching.suffix_here|reflexivity].
  - cbn [Regex.run]. destruct s; [apply Hk, Matching.suffix_here|reflexivity].
  - cbn [Regex.run]. destruct (Regex.run r1 whole s c (fun _ _ => Some ())); [reflexivity|].
    apply Hk, Matching.suffix_here.
Qed.

(** One step of a star over a character class. *)
Lemma run_star_class (g : bool) (p : ascii -> bool) {R : Type} (whole : nat)
    (a : ascii) (s : string) (c : Regex.captures) (k : string -> Regex.captures -> option R) :
  Regex.run (Regex.Star g (Regex.Char p)) whole (String a s) c k =
  if g then
    match (if p a then Regex.run (Regex.Star g (Regex.Char p)) whole s c k else None) with
    | Some x => Some x
    | None => k (String a s) c
    end
  else
    match k (String a s) c with
    | Some x => Some x
    | None => if p a then Regex.run (Regex.Star g (Regex.Char p)) whole s c k else None
    end.
Proof.
  cbn [Regex.run String.length].
  assert (Hlt : (String.length s <? S (String.length s))%nat = true)
    by (apply Nat.ltb_lt; lia).
  rewrite Hlt. reflexivity.
Qed.

Lemma run_star_class_nil (g : bool) (p : ascii -> bool) {R : Type} (whole : nat)
    (c : Regex.captures) (k : string -> Regex.captures -> option R) :
  Regex.run (Regex.Star g (Regex.Char p)) whole EmptyString c k = k EmptyString c.
Proof.
  cbn. destruct g; destruct (k EmptyString c); reflexivity.
Qed.

(** A greedy star over a class takes the whole run of the class when the
    rest of the pattern matches after it. *)
Lemma star_greedy_max (p : ascii -> bool) {R : Type} (whole : nat) (a b : string)
    (c : Regex.captures) (k : string -> Regex.captures -> option R) (x : R) :
  Js.allChars p a = true -> Matching.headFails p b = true -> k b c = Some x ->
  Regex.run (Regex.Star true (Regex.Char p)) whole (a +:+ b) c k = Some x.
Proof.
  intros Ha Hb Hk. induction a as [|a0 a IH].
  - change (EmptyString +:+ b) with b. destruct b as [|b0 b].
    + rewrite run_star_class_nil. exact Hk.
    + rewrite run_star_class. cbn in Hb. apply negb_true_iff in Hb. rewrite Hb. exact Hk.
  - change (String a0 a +:+ b) with (String a0 (a +:+ b)).
    cbn in Ha. apply andb_true_iff in Ha as [Ha0 Ha].
    rewrite run_star_class, Ha0, (IH Ha). reflexivity.
Qed.

Lemma append_cons (x : ascii) (a b : string) : String x a +:+ b = String x (a +:+ b).
Proof. reflexivity. Qed.

Lemma append_nil_l (b : string) : EmptyString +:+ b = b.
Proof. reflexivity. Qed.

Lemma length_append (a b : string) :
  String.length (a +:+ b) = (String.length a + String.length b)%nat.
Proof.
  induction a as [|x a IH]; [reflexivity|].
  rewrite append_cons. cbn [String.length]. rewrite IH. reflexivity.
Qed.

Lemma substring_prefix (a b : string) :
  substring 0 (String.length (a +:+ b) - String.length b) (a +:+ b) = a.
Proof.
  rewrite length_append. replace (String.length a + String.length b - String.length b)%nat
    with (String.length a) by lia.
  induction a as [|x a IH].
  - rewrite append_nil_l. destruct b; reflexivity.
  - rewrite append_cons. cbn [String.length substring]. rewrite IH. reflexivity.
Qed.

(** A capturing group over [p+] takes the whole run of the class, which
    is not empty, when the rest of the pattern matches after it. *)
Lemma group_plus_max (i : nat) (p : ascii -> bool) {R : Type} (whole : nat) (a b : string)
    (c : Regex.captures) (k : string -> Regex.captures -> option R) (x : R) :
  a <> EmptyString -> Js.allChars p a = true -> Matching.headFails p b = true ->
  k b ((i, a) :: c) = Some x ->
  Regex.run (Regex.Group i (Regex.plus (Regex.Char p))) whole (a +:+ b) c k = Some x.
Proof.
  intros Hne Ha Hb Hk. destruct a as [|a0 a]; [congruence|].
  cbn in Ha. apply andb_true_iff in Ha as [Ha0 Ha].
  change (String a0 a +:+ b) with (String a0 (a +:+ b)).
  unfold Regex.plus. cbn [Regex.run]. rewrite Ha0.
  change (Regex.run (Regex.Star true (Regex.Char p)) whole (a +:+ b) c
            (fun s' c' => k s' ((i, substring 0 (String.length (String a0 (a +:+ b)) - String.length s')
                                      (String a0 (a +:+ b))) :: c')) = Some x).
  apply star_greedy_max; [exact Ha|exact Hb|].
  change (String a0 (a +:+ b)) with (String a0 a +:+ b).
  rewrite substring_prefix. exact Hk.
Qed.

(** ** Numbers and their decimal spelling *)

Lemma digitsValue_uint_acc (d : Decimal.uint) :
  forall acc : positive,
    Js.digitsValue (Z.pos acc) true (NilEmpty.string_of_uint d) =
    Some (Z.pos (Pos.of_uint_acc d acc)).
Proof.
  induction d as [|d IH|d IH|d IH|d IH|d IH|d IH|d IH|d IH|d IH|d IH]; intros acc;
    [reflexivity|..];
    cbn [NilEmpty.string_of_uint Js.digitsValue Pos.of_uint_acc];
    (match goal with
     | |- (if Js.isDigit ?c then _ else _) = _ =>
         change (Js.isDigit c) with true; cbv iota;
         match goal with
         | |- Js.digitsValue ?v true _ = Some (Z.pos (Pos.of_uint_acc _ ?acc')) =>
             replace v with (Z.pos acc') by (unfold Js.charCode; cbn; lia)
         end
     end; apply IH).
Qed.

Lemma digitsValue_uint (d : Decimal.uint) :
  Js.digitsValue 0 true (NilEmpty.string_of_uint d) = Some (Z.of_N (Pos.of_uint d)).
Proof.
  induction d as [|d IH|d IH|d IH|d IH|d IH|d IH|d IH|d IH|d IH|d IH];
    [reflexivity|exact IH|..];
    cbn [NilEmpty.string_of_uint Js.digitsValue Pos.of_uint];
    (match goal with
     | |- (if Js.isDigit ?c then _ else _) = _ => change (Js.isDigit c) with true; cbv iota
     end; apply digitsValue_uint_acc).
Qed.

Lemma digitsValue_uint_unseen (d : Decimal.uint) :
  d <> Decimal.Nil ->
  Js.digitsValue 0 false (NilEmpty.string_of_uint d) = Some (Z.of_N (Pos.of_uint d)).
Proof.
  intros Hd. destruct d; [congruence|..];
    match goal with
    | |- Js.digitsValue 0 false (NilEmpty.string_of_uint ?x) = _ => exact (digitsValue_uint x)
    end.
Qed.

Lemma parseInt_uint (d : Decimal.uint) :
  Js.parseInt (NilEmpty.string_of_uint d) = Js.digitsValue 0 false (NilEmpty.string_of_uint d).
Proof. destruct d; reflexivity. Qed.

Lemma string_of_uint_nonnil (d : Decimal.uint) :
  d <> Decimal.Nil -> NilZero.string_of_uint d = NilEmpty.string_of_uint d.
Proof. destruct d; [congruence|reflexivity..]. Qed.

(** [parseInt] reads back the spelling of every integer. *)
Lemma parseInt_numberToString (n : Z) : Js.parseInt (Js.numberToString n) = Some n.
Proof.
  unfold Js.numberToString. destruct n as [|p|p]; [reflexivity|..]; cbn [Z.to_int NilZero.string_of_int].
  - pose proof (DecimalPos.Unsigned.to_uint_nonnil p) as Hn.
    rewrite string_of_uint_nonnil by exact Hn.
    rewrite parseInt_uint, digitsValue_uint_unseen by exact Hn.
    rewrite DecimalPos.Unsigned.of_to. reflexivity.
  - pose proof (DecimalPos.Unsigned.to_uint_nonnil p) as Hn.
    rewrite string_of_uint_nonnil by exact Hn.
    cbn [Js.parseInt].
    rewrite digitsValue_uint_unseen by exact Hn.
    rewrite DecimalPos.Unsigned.of_to. reflexivity.
Qed.

(** The spelling of a number that is not negative is a run of digits, and
    it is not empty. *)
Lemma numberToString_digits (n : Z) :
  0 <= n -> Js.allChars Js.isDigit (Js.numberToString n) = true.
Proof.
  intros Hn. unfold Js.numberToString. destruct n as [|p|p]; [reflexivity| |lia].
  cbn [Z.to_int NilZero.string_of_int].
  rewrite string_of_uint_nonnil by apply DecimalPos.Unsigned.to_uint_nonnil.
  apply string_of_uint_digits.
Qed.

Lemma numberToString_nonempty (n : Z) : Js.numberToString n <> EmptyString.
Proof.
  unfold Js.numberToString.
  assert (Hu : forall d, NilZero.string_of_uint d <> EmptyString) by (intros []; discriminate).
  destruct n as [|p|p]; cbn [Z.to_int NilZero.string_of_int]; [discriminate|apply Hu|discriminate].
Qed.

(** The number that [parseInt] reads from a run of digits. *)
Lemma digitsValue_bounds (s : string) :
  Js.allChars Js.isDigit s = true ->
  forall acc, 0 <= acc ->
    exists v, Js.digitsValue acc true s = Some v /\
              acc * 10 ^ Z.of_nat (String.length s) <= v <
              (acc + 1) * 10 ^ Z.of_nat (String.length s).
Proof.
  induction s as [|c s IH]; intros Hall acc Hacc.
  - exists acc. split; [reflexivity|]. cbn [String.length]. change (10 ^ Z.of_nat 0) with 1. lia.
  - cbn [Js.allChars] in Hall. apply andb_prop in Hall as [Hc Hs].
    cbn [Js.digitsValue]. rewrite Hc.
    assert (Hk : 0 <= Js.charCode c - 48 <= 9).
    { unfold Js.isDigit in Hc. apply andb_prop in Hc as [H1 H2].
      apply Z.leb_le in H1, H2. lia. }
    destruct (IH Hs (acc * 10 + (Js.charCode c - 48)) ltac:(lia)) as (v & Hv & Hlo & Hhi).
    exists v. split; [exact Hv|].
    cbn [String.length]. rewrite Nat2Z.inj_succ, Z.pow_succ_r by lia.
    assert (0 < 10 ^ Z.of_nat (String.length s)) by (apply Z.pow_pos_nonneg; lia).
    nia.
Qed.

Lemma parseInt_digit_first (c : ascii) (s : string) :
  Js.isDigit c = true -> Js.parseInt (String c s) = Js.digitsValue 0 false (String c s).
Proof.
  intros Hc.
  destruct c as [[] [] [] [] [] [] [] []]; try discriminate Hc; reflexivity.
Qed.

Lemma parseInt_digits (s : string) :
  s <> EmptyString -> Js.allChars Js.isDigit s = true ->
  exists v, Js.parseInt s = Some v /\ 0 <= v < 10 ^ Z.of_nat (String.length s).
Proof.
  intros Hne Hall. destruct s as [|c s]; [congruence|].
  pose proof Hall as Hall'. cbn [Js.allChars] in Hall'. apply andb_prop in Hall' as [Hc Hs].
  rewrite parseInt_digit_first by exact Hc.
  cbn [Js.digitsValue]. rewrite Hc.
  assert (Hk : 0 <= Js.charCode c - 48 <= 9).
  { unfold Js.isDigit in Hc. apply andb_prop in Hc as [H1 H2].
    apply Z.leb_le in H1, H2. lia. }
  destruct (digitsValue_bounds s Hs (0 * 10 + (Js.charCode c - 48)) ltac:(lia))
    as (v & Hv & Hlo & Hhi).
  exists v. split; [exact Hv|].
  cbn [String.length]. rewrite Nat2Z.inj_succ, Z.pow_succ_r by lia.
  assert (0 < 10 ^ Z.of_nat (String.length s)) by (apply Z.pow_pos_nonneg; lia).
  nia.
Qed.

(** ** The letter loops *)

Lemma append_assoc (a b c : string) : (a +:+ b) +:+ c = a +:+ (b +:+ c).
Proof.
  induction a as [|x a IH]; [reflexivity|].
  rewrite !append_cons, IH. reflexivity.
Qed.

Lemma append_nil_r (a : string) : a +:+ EmptyString = a.
Proof.
  induction a as [|x a IH]; [reflexivity|].
  rewrite append_cons, IH. reflexivity.
Qed.

(** A string that is not empty ends with a character. *)
Lemma string_last (c : ascii) (s : string) :
  exists s' c', String c s = s' +:+ String c' EmptyString /\ String.length s' = String.length s.
Proof.
  revert c. induction s as [|d s IH]; intros c.
  - exists EmptyString, c. split; reflexivity.
  - destruct (IH d) as (s' & c' & Heq & Hlen).
    exists (String c s'), c'. rewrite append_cons, <- Heq. cbn [String.length].
    split; [reflexivity|]. rewrite Hlen. reflexivity.
Qed.

Lemma string_rev_ind (P : string -> Prop) :
  P EmptyString ->
  (forall s c, P s -> P (s +:+ String c EmptyString)) ->
  forall s, P s.
Proof.
  intros Hnil Hsnoc s.
  remember (String.length s) as n eqn:Hn. revert s Hn.
  induction n as [|n IH]; intros s Hn.
  - destruct s; [exact Hnil|discriminate].
  - destruct s as [|c s]; [discriminate|].
    destruct (string_last c s) as (s' & c' & Heq & Hlen).
    rewrite Heq. apply Hsnoc, IH. cbn in Hn. lia.
Qed.

Lemma lettersValue_snoc (s : string) :
  forall (acc : Z) (c : ascii),
    Columns.lettersValue acc (s +:+ String c EmptyString) =
    Js.toDouble (Js.toDouble (Columns.lettersValue acc s * 26) + (Js.charCode c - 64)).
Proof.
  induction s as [|d s IH]; intros acc c; [reflexivity|].
  rewrite append_cons. cbn [Columns.lettersValue]. apply IH.
Qed.

Lemma length_snoc (s : string) (c : ascii) :
  String.length (s +:+ String c EmptyString) = S (String.length s).
Proof.
  induction s as [|d s IH]; [reflexivity|].
  rewrite append_cons. cbn [String.length]. rewrite IH. reflexivity.
Qed.

(** The value of at most eleven capital letters stays below [27 ^ 11],
    which is below [2 ^ 53]: no step of the fold rounds. *)
Lemma lettersValue_small (s : string) :
  Js.allChars Js.isUpper s = true -> (String.length s <= 11)%nat ->
  0 <= Columns.lettersValue 0 s < 27 ^ Z.of_nat (String.length s).
Proof.
  induction s as [|s c IH] using string_rev_ind; intros Hs Hlen.
  - cbn. lia.
  - rewrite allChars_app in Hs. apply andb_prop in Hs as [Hs Hc].
    cbn in Hc. rewrite andb_true_r in Hc.
    unfold Js.isUpper in Hc. apply andb_prop in Hc as [Hlo Hhi].
    apply Z.leb_le in Hlo, Hhi.
    rewrite length_snoc in Hlen |- *.
    specialize (IH Hs ltac:(lia)).
    rewrite lettersValue_snoc.
    rewrite Nat2Z.inj_succ, Z.pow_succ_r by lia.
    assert (Hpow : 27 ^ Z.of_nat (String.length s) <= 27 ^ 10).
    { apply Z.pow_le_mono_r; lia. }
    change (27 ^ 10) with 205891132094649 in Hpow.
    rewrite (toDouble_exact (_ * 26)) by lia.
    rewrite toDouble_exact by lia. lia.
Qed.

Lemma fromCharCode_charCode (c : ascii) : Js.fromCharCode (Js.charCode c) = c.
Proof.
  unfold Js.fromCharCode, Js.charCode. rewrite N2Z.id. apply ascii_N_embedding.
Qed.

(** Below [2 ^ 53] the loop of [columnIndexToLetter] on [temp] is the loop
    of [numToCol] on [temp + 1]. *)
Lemma columnIndexToLetterLoop_numToColLoop (fuel : nat) :
  forall (temp : Z) (letter : string),
    temp < 2 ^ 53 ->
    Columns.columnIndexToLetterLoop fuel temp letter =
    Columns.numToColLoop fuel (temp + 1) letter.
Proof.
  induction fuel as [|fuel IH]; intros temp letter Hsafe.
  - cbn [Columns.columnIndexToLetterLoop Columns.numToColLoop].
    destruct (0 <=? temp) eqn:E1, (0 <? temp + 1) eqn:E2; try reflexivity;
      [apply Z.leb_le in E1; apply Z.ltb_ge in E2|apply Z.leb_gt in E1; apply Z.ltb_lt in E2]; lia.
  - destruct (Z.lt_ge_cases temp 0) as [Hneg|Hpos].
    + cbn [Columns.columnIndexToLetterLoop Columns.numToColLoop].
      replace (0 <=? temp) with false by (symmetry; apply Z.leb_gt; lia).
      replace (0 <? temp + 1) with false by (symmetry; apply Z.ltb_ge; lia).
      reflexivity.
    + rewrite columnIndexToLetterLoop_step, numToColLoop_step by lia.
      pose proof (Z.div_pos temp 26 ltac:(lia) ltac:(lia)).
      assert (temp / 26 <= temp) by (apply Z.div_le_upper_bound; lia).
      rewrite IH by lia.
      replace (temp + 1 - 1) with temp by lia.
      replace (temp / 26 - 1 + 1) with (temp / 26) by lia.
      rewrite (Z.add_comm (temp mod 26) 65). reflexivity.
Qed.

(** The loop of [cellRefToA1] is the loop of [numToCol]. *)
Lemma cellRefLoop_numToColLoop (fuel : nat) :
  forall (c : Z) (colStr : string),
    A1.cellRefLoop fuel c colStr = Columns.numToColLoop fuel c colStr.
Proof.
  induction fuel as [|fuel IH]; intros c colStr;
    cbn [A1.cellRefLoop Columns.numToColLoop]; [reflexivity|].
  destruct (0 <? c); [|reflexivity]. apply IH.
Qed.

(** What [numToCol] writes has the number as its value. *)
Lemma numToColLoop_value (fuel : nat) (num : Z) (col out : string) :
  0 <= num <= 2 ^ 53 ->
  Columns.numToColLoop fuel num col = Some out ->
  Columns.lettersValue 0 out = Columns.lettersValue num col.
Proof.
  intros Hnum Hrun.
  replace num with (num - 1 + 1) in * by lia.
  rewrite <- columnIndexToLetterLoop_numToColLoop in Hrun by lia.
  apply columnIndexToLetterLoop_value in Hrun; [exact Hrun|lia].
Qed.

(** On the value of a string of at most eleven capital letters, the loop
    of [numToCol] writes that string. *)
Lemma numToColLoop_letters (s : string) :
  forall (fuel : nat) (col out : string),
    Js.allChars Js.isUpper s = true -> (String.length s <= 11)%nat ->
    Columns.numToColLoop fuel (Columns.lettersValue 0 s) col = Some out ->
    out = s +:+ col.
Proof.
  induction s as [|s c IH] using string_rev_ind; intros fuel col out Hs Hlen Hrun.
  - destruct fuel; cbn in Hrun; injection Hrun as <-; reflexivity.
  - rewrite allChars_app in Hs. apply andb_prop in Hs as [Hs Hc].
    cbn in Hc. rewrite andb_true_r in Hc.
    rewrite length_snoc in Hlen.
    pose proof (lettersValue_small s Hs ltac:(lia)) as Hv.
    assert (Hpow : 27 ^ Z.of_nat (String.length s) <= 27 ^ 10).
    { apply Z.pow_le_mono_r; lia. }
    change (27 ^ 10) with 205891132094649 in Hpow.
    unfold Js.isUpper in Hc. apply andb_prop in Hc as [Hlo Hhi].
    apply Z.leb_le in Hlo, Hhi.
    rewrite lettersValue_snoc in Hrun.
    set (v := Columns.lettersValue 0 s) in *.
    set (k := Js.charCode c) in *.
    rewrite (toDouble_exact (v * 26)) in Hrun by lia.
    rewrite toDouble_exact in Hrun by lia.
    destruct fuel as [|fuel].
    { cbn [Columns.numToColLoop] in Hrun.
      replace (0 <? v * 26 + (k - 64)) with true in Hrun
        by (symmetry; apply Z.ltb_lt; lia).
      discriminate. }
    rewrite numToColLoop_step in Hrun by lia.
    assert (Hdiv : (v * 26 + (k - 64) - 1) / 26 = v).
    { symmetry. apply (Z.div_unique _ 26 v (k - 65)); lia. }
    assert (Hrem : (v * 26 + (k - 64) - 1) mod 26 = k - 65).
    { symmetry. apply (Z.mod_unique _ 26 v (k - 65)); lia. }
    rewrite Hdiv, Hrem in Hrun.
    replace (65 + (k - 65)) with k in Hrun by lia.
    subst k. rewrite fromCharCode_charCode in Hrun.
    apply IH in Hrun; [|exact Hs|lia].
    rewrite Hrun, append_assoc. reflexivity.
Qed.

Lemma numToCol_letters (s : string) :
  Js.allChars Js.isUpper s = true -> (String.length s <= 11)%nat ->
  Columns.numToCol (Columns.lettersValue 0 s) = Some s.
Proof.
  intros Hs Hlen.
  pose proof (lettersValue_small s Hs Hlen) as Hv.
  assert (Hpow : 27 ^ Z.of_nat (String.length s) <= 27 ^ 11).
  { apply Z.pow_le_mono_r; lia. }
  change (27 ^ 11) with 5559060566555523 in Hpow.
  destruct (numToCol_returns (Columns.lettersValue 0 s) ltac:(lia)) as [out Hout].
  rewrite Hout. f_equal.
  unfold Columns.numToCol in Hout.
  apply numToColLoop_letters in Hout; [|exact Hs|exact Hlen].
  rewrite Hout. apply append_nil_r.
Qed.

Lemma columnIndexToLetter_numToCol (i : Z) :
  i < 2 ^ 53 -> Columns.columnIndexToLetter i = Columns.numToCol (i + 1).
Proof.
  intros Hi. unfold Columns.columnIndexToLetter, Columns.numToCol.
  apply columnIndexToLetterLoop_numToColLoop, Hi.
Qed.

Lemma colToNum1_numToCol (n : Z) (col : string) :
  0 <= n <= 2 ^ 53 -> Columns.numToCol n = Some col -> Columns.colToNum1 col = n.
Proof.
  intros Hn Hcol. unfold Columns.colToNum1.
  rewrite (numToColLoop_value _ n EmptyString col Hn Hcol). reflexivity.
Qed.

(** The letters of a column number from 1 on are not empty. *)
Lemma numToCol_nonempty (n : Z) (col : string) :
  0 < n <= 2 ^ 53 -> Columns.numToCol n = Some col -> col <> EmptyString.
Proof.
  intros Hn Hcol ->. apply colToNum1_numToCol in Hcol; [|lia].
  cbn in Hcol. lia.
Qed.

(** X1: for every whole number from 0 to [2 ^ 53 - 1] the letter loop of
    [numToCol] terminates, and [colToNum1Based] reads the number back
    from the letters; zero gives no letter at all. *)
Theorem numToCol_colToNum1Based_roundtrip (n : Z) :
  0 <= n < 2 ^ 53 ->
  exists col, Columns.numToCol n = Some col /\ Columns.colToNum1 col = n.
Proof.
  intros Hn. destruct (numToCol_returns n ltac:(lia)) as [col Hcol].
  exists col. split; [exact Hcol|]. apply colToNum1_numToCol; [lia|assumption].
Qed.

Lemma numToCol_colToNum1Based_roundtrip_witness :
  0 <= 703 < 2 ^ 53 /\
  exists col, Columns.numToCol 703 = Some col /\ Columns.colToNum1 col = 703.
Proof.
  split; [lia|]. apply (numToCol_colToNum1Based_roundtrip 703). lia.
Defined.

(** X2: on at most eleven capital letters, whose value stays below
    [2 ^ 53], [columnIndexToLetter] after [columnLetterToIndex] gives the
    same letters: a column has one name only. *)
Theorem column_letters_index_roundtrip (letters : string) :
  Js.allChars Js.isUpper letters = true -> (String.length letters <= 11)%nat ->
  Columns.columnIndexToLetter (Columns.columnLetterToIndex letters) = Some letters.
Proof.
  intros Hs Hlen.
  pose proof (lettersValue_small letters Hs Hlen) as Hv.
  assert (Hpow : 27 ^ Z.of_nat (String.length letters) <= 27 ^ 11).
  { apply Z.pow_le_mono_r; lia. }
  change (27 ^ 11) with 5559060566555523 in Hpow.
  unfold Columns.columnLetterToIndex.
  rewrite toDouble_exact by lia.
  rewrite columnIndexToLetter_numToCol by lia.
  replace (Columns.lettersValue 0 letters - 1 + 1) with (Columns.lettersValue 0 letters) by lia.
  apply numToCol_letters; assumption.
Qed.

Lemma column_letters_index_roundtrip_witness :
  Js.allChars Js.isUpper "XFD" = true /\ (String.length "XFD" <= 11)%nat /\
  Columns.columnIndexToLetter (Columns.columnLetterToIndex "XFD") = Some "XFD".
Proof.
  split; [reflexivity|]. split; [cbn; lia|].
  apply (column_letters_index_roundtrip "XFD"); [reflexivity|cbn; lia].
Defined.

(** X3: below [2 ^ 53] the 0-based [columnIndexToLetter] and the 1-based
    [numToCol] name the same columns, their loops being written
    differently. *)
Theorem letter_loops_agree (i : Z) :
  i < 2 ^ 53 -> Columns.columnIndexToLetter i = Columns.numToCol (i + 1).
Proof. apply columnIndexToLetter_numToCol. Qed.

Lemma letter_loops_agree_witness :
  701 < 2 ^ 53 /\ Columns.columnIndexToLetter 701 = Columns.numToCol (701 + 1).
Proof.
  split; [lia|]. apply (letter_loops_agree 701). lia.
Defined.

(** X4: on a reference object whose row and column are whole numbers below
    [2 ^ 53] in absolute value, [cellRefToA1] gives the address that
    [getCellAddress] gives for the 0-based position. *)
Theorem cellRefToA1_is_getCellAddress (row column : Z) :
  Z.abs row < 2 ^ 53 -> Z.abs column < 2 ^ 53 ->
  A1.cellRefToA1 {| A1.refRow := Some row; A1.refColumn := Some column |} =
  Some <$> A1.getCellAddress (row - 1) (column - 1).
Proof.
  intros Hrow Hcol.
  unfold A1.cellRefToA1, A1.getCellAddress. cbn [A1.refRow A1.refColumn].
  rewrite cellRefLoop_numToColLoop, columnIndexToLetter_numToCol by lia.
  replace (column - 1 + 1) with column by lia.
  replace (row - 1 + 1) with row by lia.
  rewrite toDouble_exact by lia.
  unfold Columns.numToCol.
  destruct (Columns.numToColLoop (Columns.loopFuel column) column EmptyString); reflexivity.
Qed.

Lemma cellRefToA1_is_getCellAddress_witness :
  Z.abs 12 < 2 ^ 53 /\ Z.abs 28 < 2 ^ 53 /\
  A1.cellRefToA1 {| A1.refRow := Some 12; A1.refColumn := Some 28 |} = Some (Some "AB12") /\
  A1.cellRefToA1 {| A1.refRow := Some 12; A1.refColumn := Some 28 |} =
  Some <$> A1.getCellAddress (12 - 1) (28 - 1).
Proof.
  split; [lia|]. split; [lia|]. split; [vm_compute; reflexivity|].
  apply (cellRefToA1_is_getCellAddress 12 28); lia.
Defined.

(** ** Addresses and ranges in A1 notation *)

Lemma suffixOf_allChars (P : ascii -> bool) (t s : string) :
  Matching.suffixOf t s -> Js.allChars P s = true -> Js.allChars P t = true.
Proof.
  induction 1 as [|t a s _ IH]; intros Hs; [exact Hs|].
  cbn in Hs. apply andb_prop in Hs as [_ Hs]. apply IH, Hs.
Qed.

Lemma searchFrom_here (r : Regex.regex) (whole : nat) (s : string) (m : Regex.result) :
  Regex.matchAt r whole s = Some m -> Regex.searchFrom r whole s = Some m.
Proof. intros Hm. destruct s; cbn [Regex.searchFrom]; rewrite Hm; reflexivity. Qed.

Lemma searchFrom_fails (r : Regex.regex) (whole : nat) (s : string) :
  (forall t, Matching.suffixOf t s -> Regex.matchAt r whole t = None) ->
  Regex.searchFrom r whole s = None.
Proof.
  induction s as [|a s IH]; intros Hall; cbn [Regex.searchFrom].
  - rewrite (Hall _ (Matching.suffix_here _)). reflexivity.
  - rewrite (Hall _ (Matching.suffix_here _)). apply IH. intros t Ht. apply Hall, Matching.suffix_later, Ht.
Qed.

(** A string that starts with characters of a class [Q] disjoint from
    [p] does not start with a character of [p]. *)
Lemma headFails_append (p Q : ascii -> bool) (a b : string) :
  a <> EmptyString -> Js.allChars Q a = true ->
  (forall c, Q c = true -> p c = false) ->
  Matching.headFails p (a +:+ b) = true.
Proof.
  intros Hne Ha HQ. destruct a as [|x a]; [congruence|].
  rewrite append_cons. cbn in Ha |- *. apply andb_prop in Ha as [Hx _].
  rewrite (HQ x Hx). reflexivity.
Qed.

Lemma headFails_class (p Q : ascii -> bool) (a : string) :
  a <> EmptyString -> Js.allChars Q a = true ->
  (forall c, Q c = true -> p c = false) ->
  Matching.headFails p a = true.
Proof.
  intros Hne Ha HQ. rewrite <- (append_nil_r a). eapply headFails_append; eassumption.
Qed.

Lemma headFails_cons (p : ascii -> bool) (x : ascii) (b : string) :
  p x = false -> Matching.headFails p (String x b) = true.
Proof. intros Hx. cbn. rewrite Hx. reflexivity. Qed.

(** A group over a class, followed by the rest of a sequence. *)
Lemma run_group_plus_then (i : nat) (p : ascii -> bool) (r2 : Regex.regex) {R : Type}
    (whole : nat) (a b : string) (c : Regex.captures)
    (k : string -> Regex.captures -> option R) (x : R) :
  a <> EmptyString -> Js.allChars p a = true -> Matching.headFails p b = true ->
  Regex.run r2 whole b ((i, a) :: c) k = Some x ->
  Regex.run (Regex.Seq (Regex.Group i (Regex.plus (Regex.Char p))) r2) whole (a +:+ b) c k = Some x.
Proof.
  intros Hne Ha Hb Hk. cbn [Regex.run].
  apply (group_plus_max i p whole a b c (fun s' c' => Regex.run r2 whole s' c' k) x); assumption.
Qed.

(** A group over a class that takes all of what is left. *)
Lemma group_plus_all (i : nat) (p : ascii -> bool) {R : Type} (whole : nat) (a : string)
    (c : Regex.captures) (k : string -> Regex.captures -> option R) (x : R) :
  a <> EmptyString -> Js.allChars p a = true ->
  k EmptyString ((i, a) :: c) = Some x ->
  Regex.run (Regex.Group i (Regex.plus (Regex.Char p))) whole a c k = Some x.
Proof.
  intros Hne Ha Hk.
  pose proof (group_plus_max i p whole a EmptyString c k x Hne Ha eq_refl Hk) as H.
  rewrite append_nil_r in H. exact H.
Qed.

(** A literal character, followed by the rest of a sequence. *)
Lemma run_chr_then (a : ascii) (r2 : Regex.regex) {R : Type} (whole : nat) (s : string)
    (c : Regex.captures) (k : string -> Regex.captures -> option R) :
  Regex.run (Regex.Seq (Regex.chr a) r2) whole (String a s) c k = Regex.run r2 whole s c k.
Proof.
  unfold Regex.chr. cbn [Regex.run]. rewrite Ascii.eqb_refl. reflexivity.
Qed.

Lemma digit_not_letter (c : ascii) : Js.isDigit c = true -> A1.isLetter c = false.
Proof.
  unfold Js.isDigit, A1.isLetter, Js.isUpper, Js.isLower.
  intros H. apply andb_prop in H as [H1 H2]. apply Z.leb_le in H1, H2.
  apply orb_false_intro; apply andb_false_intro1; apply Z.leb_gt; lia.
Qed.

Lemma letter_not_digit (c : ascii) : A1.isLetter c = true -> Js.isDigit c = false.
Proof.
  intros H. destruct (Js.isDigit c) eqn:E; [|reflexivity].
  apply digit_not_letter in E. congruence.
Qed.

Lemma upper_is_letter (c : ascii) : Js.isUpper c = true -> A1.isLetter c = true.
Proof. intros H. unfold A1.isLetter. rewrite H. reflexivity. Qed.

Lemma colon_not_digit : Js.isDigit ":" = false.
Proof. reflexivity. Qed.

Lemma colon_not_letter : A1.isLetter ":" = false.
Proof. reflexivity. Qed.

Lemma address_chars (L D : string) :
  Js.allChars A1.isLetter L = true -> Js.allChars Js.isDigit D = true ->
  Js.allChars A1.addressChar (L +:+ D) = true.
Proof.
  intros HL HD. rewrite allChars_app. apply andb_true_intro. split.
  - apply (allChars_weaken A1.isLetter); [|exact HL].
    intros c Hc. unfold A1.addressChar. rewrite Hc. reflexivity.
  - apply (allChars_weaken Js.isDigit); [|exact HD].
    intros c Hc. unfold A1.addressChar. rewrite Hc. apply orb_true_r.
Qed.

(** [split(' ')] leaves a string without a blank in one piece. *)
Lemma splitChar_whole (sep : ascii) (P : ascii -> bool) (s : string) :
  P sep = false -> Js.allChars P s = true -> A1.splitChar sep s = [s].
Proof.
  intros Hsep. induction s as [|c s IH]; intros Hs; [reflexivity|].
  cbn in Hs. apply andb_prop in Hs as [Hc Hs].
  cbn [A1.splitChar].
  destruct (Ascii.eqb c sep) eqn:E; [apply Ascii.eqb_eq in E; congruence|].
  rewrite (IH Hs). reflexivity.
Qed.

(** The pattern of a range finds nothing in a string of letters and
    digits: it needs a colon. *)
Lemma rangePart_needs_colon (s : string) :
  Js.allChars A1.addressChar s = true -> Regex.exec A1.rangePartRegex s = None.
Proof.
  intros Hs. unfold Regex.exec. apply searchFrom_fails. intros t Ht.
  unfold Regex.matchAt, A1.rangePartRegex. cbn [Regex.seqs Regex.run].
  apply run_fails. intros t1 c1 Ht1.
  apply run_fails. intros t2 c2 Ht2.
  assert (H2 : Js.allChars A1.addressChar t2 = true).
  { eapply suffixOf_allChars; [|exact Hs].
    eapply suffixOf_trans; [exact Ht2|]. eapply suffixOf_trans; [exact Ht1|exact Ht]. }
  destruct t2 as [|a t2]; [reflexivity|].
  cbn in H2. apply andb_prop in H2 as [Ha _].
  unfold Regex.chr. cbn [Regex.run].
  destruct (Ascii.eqb ":" a) eqn:E; [|reflexivity].
  apply Ascii.eqb_eq in E. subst a. discriminate.
Qed.

(** The pattern of a cell, on letters followed by digits. *)
Lemma cellPart_match (L D : string) :
  L <> EmptyString -> Js.allChars A1.isLetter L = true ->
  D <> EmptyString -> Js.allChars Js.isDigit D = true ->
  exists m, Regex.exec A1.cellPartRegex (L +:+ D) = Some m /\
            Regex.group m 1 = Some L /\ Regex.group m 2 = Some D.
Proof.
  intros HL1 HL2 HD1 HD2. eexists. split.
  - unfold Regex.exec. apply searchFrom_here.
    unfold Regex.matchAt, A1.cellPartRegex. cbn [Regex.seqs].
    apply run_group_plus_then; [exact HL1|exact HL2| |].
    { apply (headFails_class _ Js.isDigit); [exact HD1|exact HD2|apply digit_not_letter]. }
    apply group_plus_all; [exact HD1|exact HD2|reflexivity].
  - split; reflexivity.
Qed.

(** The pattern of a range, on two such addresses around a colon. *)
Lemma rangePart_match (L1 D1 L2 D2 : string) :
  L1 <> EmptyString -> Js.allChars A1.isLetter L1 = true ->
  D1 <> EmptyString -> Js.allChars Js.isDigit D1 = true ->
  L2 <> EmptyString -> Js.allChars A1.isLetter L2 = true ->
  D2 <> EmptyString -> Js.allChars Js.isDigit D2 = true ->
  exists m, Regex.exec A1.rangePartRegex (L1 +:+ D1 +:+ ":" +:+ L2 +:+ D2) = Some m /\
            Regex.group m 1 = Some L1 /\ Regex.group m 2 = Some D1 /\
            Regex.group m 3 = Some L2 /\ Regex.group m 4 = Some D2.
Proof.
  intros HL1 HL1' HD1 HD1' HL2 HL2' HD2 HD2'. eexists. split.
  - unfold Regex.exec. apply searchFrom_here.
    unfold Regex.matchAt, A1.rangePartRegex. cbn [Regex.seqs].
    apply run_group_plus_then; [exact HL1|exact HL1'| |].
    { apply (headFails_append _ Js.isDigit); [exact HD1|exact HD1'|apply digit_not_letter]. }
    apply run_group_plus_then; [exact HD1|exact HD1'|apply headFails_cons, colon_not_digit|].
    change (":" +:+ L2 +:+ D2) with (String ":" (L2 +:+ D2)).
    rewrite run_chr_then.
    apply run_group_plus_then; [exact HL2|exact HL2'| |].
    { apply (headFails_class _ Js.isDigit); [exact HD2|exact HD2'|apply digit_not_letter]. }
    apply group_plus_all; [exact HD2|exact HD2'|reflexivity].
  - repeat split; reflexivity.
Qed.

(** An address as [getCellAddress] writes it: capital letters whose
    value is the column, then the digits of the row. *)
Lemma getCellAddress_shape (row column : Z) (address : string) :
  0 <= row < 2 ^ 53 -> 0 <= column < 2 ^ 53 ->
  A1.getCellAddress row column = Some address ->
  exists L D,
    address = L +:+ D /\
    L <> EmptyString /\ Js.allChars Js.isUpper L = true /\
    Columns.columnLetterToIndex L = column /\
    D <> EmptyString /\ Js.allChars Js.isDigit D = true /\
    Js.parseInt D = Some (row + 1).
Proof.
  intros Hrow Hcol Haddr. unfold A1.getCellAddress in Haddr.
  rewrite columnIndexToLetter_numToCol in Haddr by lia.
  rewrite toDouble_exact in Haddr by lia.
  destruct (Columns.numToCol (column + 1)) as [L|] eqn:HL; [|discriminate].
  cbn in Haddr. injection Haddr as <-.
  exists L, (Js.numberToString (row + 1)).
  split; [reflexivity|]. split; [eapply numToCol_nonempty; [|exact HL]; lia|].
  split; [eapply numToCol_chars, HL|].
  split.
  { unfold Columns.columnLetterToIndex.
    pose proof (colToNum1_numToCol (column + 1) L ltac:(lia) HL) as Hv.
    unfold Columns.colToNum1 in Hv. rewrite Hv.
    replace (column + 1 - 1) with column by lia. apply toDouble_exact. lia. }
  split; [apply numberToString_nonempty|].
  split; [apply numberToString_digits; lia|apply parseInt_numberToString].
Qed.

(** X5: for rows and columns from 0 to [2 ^ 53 - 1], [parseRangeRef]
    reads the address that [getCellAddress] writes for a position as the
    range of that one cell, and two such addresses around a colon as the
    range from the first position to the second. *)
Theorem parseRangeRef_reads_addresses (r1 c1 r2 c2 : Z) (a1 a2 : string) :
  0 <= r1 < 2 ^ 53 -> 0 <= c1 < 2 ^ 53 -> 0 <= r2 < 2 ^ 53 -> 0 <= c2 < 2 ^ 53 ->
  A1.getCellAddress r1 c1 = Some a1 ->
  A1.getCellAddress r2 c2 = Some a2 ->
  A1.parseRangeRef a1 =
    [{| A1.startRow := r1; A1.endRow := r1; A1.startColumn := c1; A1.endColumn := c1 |}] /\
  A1.parseRangeRef (a1 +:+ ":" +:+ a2) =
    [{| A1.startRow := r1; A1.endRow := r2; A1.startColumn := c1; A1.endColumn := c2 |}].
Proof.
  intros Hr1 Hc1 Hr2 Hc2 Ha1 Ha2.
  destruct (getCellAddress_shape r1 c1 a1 Hr1 Hc1 Ha1)
    as (L1 & D1 & -> & HL1 & HU1 & HV1 & HD1 & HG1 & HP1).
  destruct (getCellAddress_shape r2 c2 a2 Hr2 Hc2 Ha2)
    as (L2 & D2 & -> & HL2 & HU2 & HV2 & HD2 & HG2 & HP2).
  pose proof (allChars_weaken _ _ L1 upper_is_letter HU1) as HA1.
  pose proof (allChars_weaken _ _ L2 upper_is_letter HU2) as HA2.
  unfold A1.parseRangeRef. split.
  - rewrite (splitChar_whole " " A1.addressChar) by (reflexivity || apply address_chars; assumption).
    cbn [flat_map]. rewrite app_nil_r. unfold A1.parseRangePart.
    rewrite rangePart_needs_colon by (apply address_chars; assumption).
    destruct (cellPart_match L1 D1 HL1 HA1 HD1 HG1) as (m & -> & G1 & G2).
    unfold A1.groupInt, A1.groupText. rewrite G1, G2. cbn [default mbind option_bind id].
    rewrite HP1, HV1. cbn [default id].
    replace (r1 + 1 - 1) with r1 by lia. reflexivity.
  - assert (Hchars : Js.allChars (fun c => A1.addressChar c || Ascii.eqb c ":")
                       ((L1 +:+ D1) +:+ ":" +:+ L2 +:+ D2) = true).
    { rewrite allChars_app. apply andb_true_intro. split.
      - apply (allChars_weaken A1.addressChar); [|apply address_chars; assumption].
        intros c Hc. rewrite Hc. reflexivity.
      - change (":" +:+ L2 +:+ D2) with (String ":" (L2 +:+ D2)). cbn [Js.allChars].
        apply (allChars_weaken A1.addressChar); [|apply address_chars; assumption].
        intros c Hc. rewrite Hc. reflexivity. }
    rewrite (splitChar_whole " " _ _ eq_refl Hchars).
    cbn [flat_map]. rewrite app_nil_r. unfold A1.parseRangePart.
    rewrite append_assoc.
    destruct (rangePart_match L1 D1 L2 D2 HL1 HA1 HD1 HG1 HL2 HA2 HD2 HG2)
      as (m & -> & G1 & G2 & G3 & G4).
    unfold A1.groupInt, A1.groupText. rewrite G1, G2, G3, G4. cbn [default mbind option_bind id].
    rewrite HP1, HP2, HV1, HV2. cbn [default id].
    replace (r1 + 1 - 1) with r1 by lia. replace (r2 + 1 - 1) with r2 by lia. reflexivity.
Qed.

Lemma parseRangeRef_reads_addresses_witness :
  A1.getCellAddress 4 27 = Some "AB5" /\
  A1.getCellAddress 11 701 = Some "ZZ12" /\
  A1.parseRangeRef "AB5" =
    [{| A1.startRow := 4; A1.endRow := 4; A1.startColumn := 27; A1.endColumn := 27 |}] /\
  A1.parseRangeRef "AB5:ZZ12" =
    [{| A1.startRow := 4; A1.endRow := 11; A1.startColumn := 27; A1.endColumn := 701 |}].
Proof.
  split; [reflexivity|]. split; [reflexivity|].
  apply (parseRangeRef_reads_addresses 4 27 11 701 "AB5" "ZZ12"); try lia; reflexivity.
Defined.

(** ** [clipRangeToBounds] *)

Lemma run_bol_then (r2 : Regex.regex) {R : Type} (s : string)
    (c : Regex.captures) (k : string -> Regex.captures -> option R) :
  Regex.run (Regex.Seq Regex.Bol r2) (String.length s) s c k =
  Regex.run r2 (String.length s) s c k.
Proof. cbn [Regex.run]. rewrite Nat.eqb_refl. reflexivity. Qed.

(** An optional part that is taken, and one that cannot be. *)
Lemma run_opt_then_taken (r r2 : Regex.regex) {R : Type} (whole : nat) (s : string)
    (c : Regex.captures) (k : string -> Regex.captures -> option R) (x : R) :
  Regex.run r whole s c (fun s' c' => Regex.run r2 whole s' c' k) = Some x ->
  Regex.run (Regex.Seq (Regex.opt r) r2) whole s c k = Some x.
Proof. intros H. unfold Regex.opt. cbn [Regex.run]. rewrite H. reflexivity. Qed.

Lemma run_opt_then_skipped (r r2 : Regex.regex) {R : Type} (whole : nat) (s : string)
    (c : Regex.captures) (k : string -> Regex.captures -> option R) :
  Regex.run r whole s c (fun s' c' => Regex.run r2 whole s' c' k) = None ->
  Regex.run (Regex.Seq (Regex.opt r) r2) whole s c k = Regex.run r2 whole s c k.
Proof. intros H. unfold Regex.opt. cbn [Regex.run]. rewrite H. reflexivity. Qed.

Lemma run_group_eq (i : nat) (r : Regex.regex) {R : Type} (whole : nat) (s : string)
    (c : Regex.captures) (k : string -> Regex.captures -> option R) :
  Regex.run (Regex.Group i r) whole s c k =
  Regex.run r whole s c
    (fun s' c' => k s' ((i, substring 0 (String.length s - String.length s') s) :: c')).
Proof. reflexivity. Qed.

Lemma toUpperCase_upper (s : string) :
  Js.allChars Js.isUpper s = true -> Js.toUpperCase s = s.
Proof.
  induction s as [|c s IH]; intros Hs; [reflexivity|].
  cbn in Hs. apply andb_prop in Hs as [Hc Hs].
  unfold Js.toUpperCase in *. cbn [Js.mapChars]. rewrite (IH Hs). f_equal.
  unfold Js.upperChar.
  destruct (Js.isLower c) eqn:E; [|reflexivity].
  unfold Js.isUpper, Js.isLower in *.
  apply andb_prop in Hc as [_ Hc]. apply andb_prop in E as [E _].
  apply Z.leb_le in Hc, E. lia.
Qed.

(** What the pattern of [clipRangeToBounds] finds in a range and in a
    single cell. *)
Lemma clipRegex_range (L1 D1 L2 D2 : string) :
  L1 <> EmptyString -> Js.allChars A1.isLetter L1 = true ->
  D1 <> EmptyString -> Js.allChars Js.isDigit D1 = true ->
  L2 <> EmptyString -> Js.allChars A1.isLetter L2 = true ->
  D2 <> EmptyString -> Js.allChars Js.isDigit D2 = true ->
  exists m, Regex.exec A1.clipRegex (L1 +:+ D1 +:+ ":" +:+ L2 +:+ D2) = Some m /\
            Regex.group m 1 = Some L1 /\ Regex.group m 2 = Some D1 /\
            Regex.group m 4 = Some L2 /\ Regex.group m 5 = Some D2.
Proof.
  intros HL1 HL1' HD1 HD1' HL2 HL2' HD2 HD2'. eexists. split.
  - unfold Regex.exec. apply searchFrom_here.
    unfold Regex.matchAt, A1.clipRegex. cbn [Regex.seqs].
    rewrite run_bol_then.
    apply run_group_plus_then; [exact HL1|exact HL1'| |].
    { apply (headFails_append _ Js.isDigit); [exact HD1|exact HD1'|apply digit_not_letter]. }
    apply run_group_plus_then; [exact HD1|exact HD1'|apply headFails_cons, colon_not_digit|].
    apply run_opt_then_taken.
    change (":" +:+ L2 +:+ D2) with (String ":" (L2 +:+ D2)).
    rewrite (run_group_eq 3), run_chr_then.
    apply run_group_plus_then; [exact HL2|exact HL2'| |].
    { apply (headFails_class _ Js.isDigit); [exact HD2|exact HD2'|apply digit_not_letter]. }
    apply group_plus_all; [exact HD2|exact HD2'|reflexivity].
  - repeat split; reflexivity.
Qed.

Lemma clipRegex_cell (L D : string) :
  L <> EmptyString -> Js.allChars A1.isLetter L = true ->
  D <> EmptyString -> Js.allChars Js.isDigit D = true ->
  exists m, Regex.exec A1.clipRegex (L +:+ D) = Some m /\
            Regex.group m 1 = Some L /\ Regex.group m 2 = Some D /\
            Regex.group m 4 = None /\ Regex.group m 5 = None.
Proof.
  intros HL HL' HD HD'. eexists. split.
  - unfold Regex.exec. apply searchFrom_here.
    unfold Regex.matchAt, A1.clipRegex. cbn [Regex.seqs].
    rewrite run_bol_then.
    apply run_group_plus_then; [exact HL|exact HL'| |].
    { apply (headFails_class _ Js.isDigit); [exact HD|exact HD'|apply digit_not_letter]. }
    rewrite <- (append_nil_r D) at 2.
    apply run_group_plus_then; [exact HD|exact HD'|reflexivity|].
    rewrite run_opt_then_skipped by reflexivity.
    reflexivity.
  - repeat split; reflexivity.
Qed.

Lemma orElse_nonempty (a : string) (b : option string) :
  a <> EmptyString -> Js.orElse (Some a) b = Some a.
Proof. destruct a; [congruence|reflexivity]. Qed.

Lemma clamp_inside (x max : Z) : 1 <= x -> 1 <= max -> A1.clamp x max = Z.min x max.
Proof. intros Hx Hm. unfold A1.clamp. lia. Qed.

Lemma clamp_bounds (x max : Z) : 1 <= max -> 1 <= A1.clamp x max <= max.
Proof. intros Hm. unfold A1.clamp. lia. Qed.

(** [clipRangeToBounds] after its pattern has matched. *)
Lemma clipRangeToBounds_matched (rangeStr : string) (maxRows maxCols : Z) (m : Regex.result) :
  rangeStr <> EmptyString ->
  Regex.exec A1.clipRegex rangeStr = Some m ->
  let startColStr := Js.toUpperCase (A1.groupText m 1) in
  let endColStr :=
    Js.toUpperCase (default startColStr (Js.orElse (Regex.group m 4) (Some startColStr))) in
  let c1 := A1.clamp (Columns.colToNum1 startColStr) maxCols in
  let c2 := A1.clamp (Columns.colToNum1 endColStr) maxCols in
  let r1 := A1.clamp (A1.groupInt m 2) maxRows in
  let r2 :=
    A1.clamp (default 0 (Js.orElse (Regex.group m 5) (Regex.group m 2) ≫= Js.parseInt))
             maxRows in
  A1.clipRangeToBounds rangeStr maxRows maxCols =
  if (r2 <? r1) || (c2 <? c1) then Some None else Some <$> A1.refText c1 r1 c2 r2.
Proof.
  intros Hne Hm. cbv zeta. unfold A1.clipRangeToBounds.
  destruct (String.eqb rangeStr "") eqn:E; [apply String.eqb_eq in E; congruence|].
  rewrite Hm.
  match goal with |- (if ?b then _ else _) = _ => destruct b; [reflexivity|] end.
  unfold A1.refText, A1.rangeText, A1.cellText.
  match goal with |- (if ?b then _ else _) = _ => destruct b end.
  - match goal with |- context [Columns.numToCol ?x] => destruct (Columns.numToCol x) end;
      reflexivity.
  - repeat match goal with
           | |- context [Columns.numToCol ?x] =>
               let o := fresh "o" in destruct (Columns.numToCol x) as [o|]
           end; try reflexivity.
    cbn. rewrite !append_assoc. reflexivity.
Qed.

Lemma refText_returns (c1 r1 c2 r2 : Z) :
  c1 <= 2 ^ 53 -> c2 <= 2 ^ 53 -> exists text, A1.refText c1 r1 c2 r2 = Some text.
Proof.
  intros H1 H2. unfold A1.refText, A1.rangeText, A1.cellText.
  destruct (numToCol_returns c1 H1) as [a ->], (numToCol_returns c2 H2) as [b ->].
  destruct ((r1 =? r2) && (c1 =? c2)); cbn; eauto.
Qed.

(** X6: with bounds from 1 to [2 ^ 53 - 1], [clipRangeToBounds] always
    returns, and a range that it returns lies within the bounds, its
    first corner before its last. *)
Theorem clipRangeToBounds_within_bounds (rangeStr : string) (maxRows maxCols : Z) :
  1 <= maxRows < 2 ^ 53 -> 1 <= maxCols < 2 ^ 53 ->
  exists res,
    A1.clipRangeToBounds rangeStr maxRows maxCols = Some res /\
    forall out, res = Some out ->
      exists c1 r1 c2 r2,
        1 <= c1 <= c2 /\ c2 <= maxCols /\ 1 <= r1 <= r2 /\ r2 <= maxRows /\
        A1.refText c1 r1 c2 r2 = Some out.
Proof.
  intros Hrows Hcols.
  destruct (String.eqb rangeStr "") eqn:E.
  { exists None. unfold A1.clipRangeToBounds. rewrite E. split; [reflexivity|discriminate]. }
  destruct (Regex.exec A1.clipRegex rangeStr) as [m|] eqn:Hm.
  2:{ exists None. unfold A1.clipRangeToBounds. rewrite E, Hm. split; [reflexivity|discriminate]. }
  assert (Hne : rangeStr <> EmptyString) by (intros ->; discriminate).
  pose proof (clipRangeToBounds_matched rangeStr maxRows maxCols m Hne Hm) as H.
  cbv zeta in H. rewrite H. clear H.
  match goal with
  | |- exists res, (if (?r2' <? ?r1') || (?c2' <? ?c1') then _ else _) = _ /\ _ =>
      set (r1 := r1'); set (r2 := r2'); set (c1 := c1'); set (c2 := c2')
  end.
  assert (Hc1 : 1 <= c1 <= maxCols) by (subst c1; apply clamp_bounds; lia).
  assert (Hc2 : 1 <= c2 <= maxCols) by (subst c2; apply clamp_bounds; lia).
  assert (Hr1 : 1 <= r1 <= maxRows) by (subst r1; apply clamp_bounds; lia).
  assert (Hr2 : 1 <= r2 <= maxRows) by (subst r2; apply clamp_bounds; lia).
  destruct ((r2 <? r1) || (c2 <? c1)) eqn:Hbad.
  { exists None. split; [reflexivity|discriminate]. }
  apply orb_false_elim in Hbad as [Hr Hc]. apply Z.ltb_ge in Hr, Hc.
  destruct (refText_returns c1 r1 c2 r2 ltac:(lia) ltac:(lia)) as [text Htext].
  exists (Some text). rewrite Htext. split; [reflexivity|].
  intros out [= <-]. exists c1, r1, c2, r2. repeat split; try lia. exact Htext.
Qed.

Lemma clipRangeToBounds_within_bounds_witness :
  1 <= 1000 < 2 ^ 53 /\ 1 <= 26 < 2 ^ 53 /\
  exists res,
    A1.clipRangeToBounds "K88:XFD90" 1000 26 = Some res /\
    forall out, res = Some out ->
      exists c1 r1 c2 r2,
        1 <= c1 <= c2 /\ c2 <= 26 /\ 1 <= r1 <= r2 /\ r2 <= 1000 /\
        A1.refText c1 r1 c2 r2 = Some out.
Proof.
  split; [lia|]. split; [lia|].
  apply (clipRangeToBounds_within_bounds "K88:XFD90" 1000 26); lia.
Defined.

Lemma numToCol_shape (c : Z) (L : string) :
  1 <= c <= 2 ^ 53 -> Columns.numToCol c = Some L ->
  L <> EmptyString /\ Js.allChars Js.isUpper L = true /\ Columns.colToNum1 L = c.
Proof.
  intros Hc HL. split; [eapply numToCol_nonempty; [|exact HL]; lia|].
  split; [eapply numToCol_chars, HL|apply colToNum1_numToCol; [lia|exact HL]].
Qed.

(** X7: on the text of a cell or of a range whose corners are in order,
    all numbers being below [2 ^ 53], [clipRangeToBounds] never gives
    [null]: it moves each corner that lies outside the bounds onto the
    last row or column, and writes the range again. *)
Theorem clipRangeToBounds_moves_corners (c1 r1 c2 r2 maxRows maxCols : Z) (cell range : string) :
  1 <= c1 <= c2 -> 1 <= r1 <= r2 -> c2 < 2 ^ 53 -> r2 < 2 ^ 53 ->
  1 <= maxRows < 2 ^ 53 -> 1 <= maxCols < 2 ^ 53 ->
  A1.cellText c1 r1 = Some cell ->
  A1.rangeText c1 r1 c2 r2 = Some range ->
  A1.clipRangeToBounds cell maxRows maxCols =
    Some <$> A1.cellText (Z.min c1 maxCols) (Z.min r1 maxRows) /\
  A1.clipRangeToBounds range maxRows maxCols =
    Some <$> A1.refText (Z.min c1 maxCols) (Z.min r1 maxRows)
                        (Z.min c2 maxCols) (Z.min r2 maxRows).
Proof.
  intros Hc Hr Hc2 Hr2 Hrows Hcols Hcell Hrange.
  unfold A1.rangeText in Hrange. rewrite Hcell in Hrange.
  destruct (A1.cellText c2 r2) as [cell2|] eqn:Hcell2; [|discriminate].
  injection Hrange as <-.
  unfold A1.cellText in Hcell, Hcell2.
  destruct (Columns.numToCol c1) as [L1|] eqn:HL1; [|discriminate].
  destruct (Columns.numToCol c2) as [L2|] eqn:HL2; [|discriminate].
  cbn in Hcell, Hcell2. injection Hcell as <-. injection Hcell2 as <-.
  destruct (numToCol_shape c1 L1 ltac:(lia) HL1) as (N1 & U1 & V1).
  destruct (numToCol_shape c2 L2 ltac:(lia) HL2) as (N2 & U2 & V2).
  pose proof (allChars_weaken _ _ L1 upper_is_letter U1) as A1'.
  pose proof (allChars_weaken _ _ L2 upper_is_letter U2) as A2'.
  pose proof (numberToString_nonempty r1) as D1.
  pose proof (numberToString_nonempty r2) as D2.
  pose proof (numberToString_digits r1 ltac:(lia)) as G1.
  pose proof (numberToString_digits r2 ltac:(lia)) as G2.
  split.
  - destruct (clipRegex_cell L1 (Js.numberToString r1) N1 A1' D1 G1)
      as (m & Hm & M1 & M2 & M4 & M5).
    assert (Hne : L1 +:+ Js.numberToString r1 <> EmptyString) by (destruct L1; [congruence|discriminate]).
    pose proof (clipRangeToBounds_matched _ maxRows maxCols m Hne Hm) as H.
    cbv zeta in H. rewrite H. clear H.
    unfold A1.groupText, A1.groupInt. rewrite M1, M2, M4, M5.
    cbn [default mbind option_bind id Js.orElse].
    rewrite parseInt_numberToString. cbn [default id].
    rewrite !toUpperCase_upper by (rewrite ?toUpperCase_upper by exact U1; exact U1).
    rewrite V1, !clamp_inside by lia.
    rewrite !Z.ltb_irrefl. cbn [orb]. unfold A1.refText.
    rewrite !Z.eqb_refl. reflexivity.
  - rewrite append_assoc.
    destruct (clipRegex_range L1 (Js.numberToString r1) L2 (Js.numberToString r2)
                N1 A1' D1 G1 N2 A2' D2 G2) as (m & Hm & M1 & M2 & M4 & M5).
    assert (Hne : L1 +:+ Js.numberToString r1 +:+ ":" +:+ L2 +:+ Js.numberToString r2 <> EmptyString) by (destruct L1; [congruence|discriminate]).
    pose proof (clipRangeToBounds_matched _ maxRows maxCols m Hne Hm) as H.
    cbv zeta in H. rewrite H. clear H.
    unfold A1.groupText, A1.groupInt. rewrite M1, M2, M4, M5.
    rewrite (orElse_nonempty L2) by exact N2.
    rewrite (orElse_nonempty (Js.numberToString r2)) by exact D2.
    cbn [default mbind option_bind id].
    rewrite !parseInt_numberToString. cbn [default id].
    rewrite (toUpperCase_upper L1 U1), (toUpperCase_upper L2 U2).
    rewrite V1, V2, !clamp_inside by lia.
    assert (Hb : (Z.min r2 maxRows <? Z.min r1 maxRows) || (Z.min c2 maxCols <? Z.min c1 maxCols) = false).
    { apply orb_false_intro; apply Z.ltb_ge; lia. }
    rewrite Hb. reflexivity.
Qed.

Lemma clipRangeToBounds_moves_corners_witness :
  (1 <= 11 <= 16384) /\ (1 <= 88 <= 90) /\ 16384 < 2 ^ 53 /\ 90 < 2 ^ 53 /\
  1 <= 50 < 2 ^ 53 /\ 1 <= 26 < 2 ^ 53 /\
  A1.cellText 11 88 = Some "K88" /\
  A1.rangeText 11 88 16384 90 = Some "K88:XFD90" /\
  A1.clipRangeToBounds "K88" 50 26 = Some <$> A1.cellText (Z.min 11 26) (Z.min 88 50) /\
  A1.clipRangeToBounds "K88:XFD90" 50 26 =
    Some <$> A1.refText (Z.min 11 26) (Z.min 88 50) (Z.min 16384 26) (Z.min 90 50).
Proof.
  split; [lia|]. split; [lia|]. split; [lia|]. split; [lia|].
  split; [lia|]. split; [lia|].
  split; [reflexivity|]. split; [reflexivity|].
  apply (clipRangeToBounds_moves_corners 11 88 16384 90 50 26 "K88" "K88:XFD90");
    try lia; reflexivity.
Defined.

(** ** The CSV reader *)

Lemma length_pad (m : nat) (row : list string) :
  (length row <= m)%nat -> length (Csv.pad m row) = m.
Proof.
  intros H. unfold Csv.pad. rewrite length_app, repeat_length. lia.
Qed.

(** The largest length of a row is at least the length of every row, and
    it is the length of one of them. *)
Lemma widest_bound (rows : list (list string)) (row : list string) :
  In row rows -> (length row <= fold_right Nat.max 0 (map (@length string) rows))%nat.
Proof.
  induction rows as [|r rows IH]; intros Hin; [destruct Hin|].
  cbn. destruct Hin as [->|Hin]; [lia|]. specialize (IH Hin). lia.
Qed.

Lemma widest_attained (rows : list (list string)) :
  rows <> [] ->
  exists row, In row rows /\
              length row = fold_right Nat.max 0%nat (map (@length string) rows).
Proof.
  induction rows as [|r rows IH]; intros Hne; [congruence|].
  destruct rows as [|r2 rows].
  - exists r. split; [left; reflexivity|]. cbn. lia.
  - destruct (IH ltac:(discriminate)) as (row & Hin & Hlen).
    cbn [map fold_right] in Hlen |- *.
    destruct (Nat.max_spec (length r)
                (Nat.max (length r2) (fold_right Nat.max 0%nat (map (@length string) rows))))
      as [[_ ->]|[_ ->]].
    + exists row. split; [right; exact Hin|exact Hlen].
    + exists r. split; [left; reflexivity|reflexivity].
Qed.

(** What [normalize] returns when it returns. *)
Lemma normalize_returns (argumentLimit : nat) (read rows : list (list string)) :
  Csv.normalize argumentLimit read = Some rows ->
  rows = map (Csv.pad (fold_right Nat.max 0%nat (map (@length string) read))) read.
Proof.
  unfold Csv.normalize, Csv.maxCols.
  destruct read as [|r read]; [intros [= <-]; reflexivity|].
  destruct (length (r :: read) <=? argumentLimit)%nat; [|discriminate].
  intros [= <-]. reflexivity.
Qed.

(** X8: when [parseCsvText] returns, its rows all have the same number of
    cells; each of them is the row that was read, followed by empty
    strings only; and that number is the length of the longest row
    read. *)
Theorem parseCsvText_rectangular (argumentLimit : nat) (text delimiter : string)
    (skipEmptyLines : bool) (rows : list (list string)) :
  Csv.parseCsvText argumentLimit text delimiter skipEmptyLines = Some rows ->
  exists width : nat,
    Forall (fun row => length row = width) rows /\
    Forall2 (fun read row => row = read ++ repeat EmptyString (width - length read))
            (Csv.readRows text delimiter skipEmptyLines) rows /\
    Forall (fun read => (length read <= width)%nat)
           (Csv.readRows text delimiter skipEmptyLines) /\
    (rows <> [] ->
     exists read, In read (Csv.readRows text delimiter skipEmptyLines) /\ length read = width).
Proof.
  unfold Csv.parseCsvText. set (read := Csv.readRows text delimiter skipEmptyLines).
  intros Hrun. apply normalize_returns in Hrun.
  set (width := fold_right Nat.max 0%nat (map (@length string) read)) in Hrun.
  exists width. subst rows.
  assert (Hbound : Forall (fun r => (length r <= width)%nat) read).
  { apply List.Forall_forall. intros r Hr. apply widest_bound, Hr. }
  split; [|split; [|split]].
  - apply List.Forall_forall. intros row Hrow.
    apply in_map_iff in Hrow as (r & <- & Hr).
    apply length_pad, widest_bound, Hr.
  - clear Hbound. clearbody width. clearbody read.
    induction read as [|r read' IH]; [constructor|].
    cbn [map]. constructor; [reflexivity|exact IH].
  - exact Hbound.
  - intros Hne. apply widest_attained. intros ->. apply Hne. reflexivity.
Qed.

Lemma parseCsvText_rectangular_witness :
  let text := "a,b,c" +:+ String Csv.LF "d" in
  Csv.parseCsvText 1000 text "," true
  = Some [["a"; "b"; "c"]; ["d"; EmptyString; EmptyString]] /\
  Csv.readRows text "," true = [["a"; "b"; "c"]; ["d"]] /\
  exists width : nat,
    Forall (fun row => length row = width) [["a"; "b"; "c"]; ["d"; EmptyString; EmptyString]] /\
    Forall2 (fun read row => row = read ++ repeat EmptyString (width - length read))
            (Csv.readRows text "," true)
            [["a"; "b"; "c"]; ["d"; EmptyString; EmptyString]] /\
    Forall (fun read => (length read <= width)%nat) (Csv.readRows text "," true) /\
    ([["a"; "b"; "c"]; ["d"; EmptyString; EmptyString]] <> [] ->
     exists read, In read (Csv.readRows text "," true) /\ length read = width).
Proof.
  cbv zeta.
  assert (Hrun : Csv.parseCsvText 1000 ("a,b,c" +:+ String Csv.LF "d") "," true
                 = Some [["a"; "b"; "c"]; ["d"; EmptyString; EmptyString]])
    by (vm_compute; reflexivity).
  split; [exact Hrun|]. split; [vm_compute; reflexivity|].
  exact (parseCsvText_rectangular _ _ _ _ _ Hrun).
Defined.

(** *** Rows that are skipped as empty *)

Lemma closeRow_filled (st : Csv.State) :
  Forall (fun row => Csv.someFilled row = true) (Csv.rows st) ->
  Forall (fun row => Csv.someFilled row = true) (Csv.closeRow true st).
Proof.
  intros H. unfold Csv.closeRow. cbn [negb orb].
  destruct (Csv.someFilled (Csv.currentRow st ++ [Csv.currentCell st])) eqn:E; [|exact H].
  apply Forall_app. split; [exact H|]. constructor; [exact E|constructor].
Qed.

(** The loop keeps what holds of the rows kept so far and is kept by the
    closing of a row. *)
Lemma scan_rows_invariant (P : list (list string) -> Prop) (delimiter : string)
    (skipEmptyLines : bool) :
  (forall st, P (Csv.rows st) -> P (Csv.closeRow skipEmptyLines st)) ->
  forall (n : nat) (text : string) (prev : option ascii) (st : Csv.State),
    (String.length text <= n)%nat ->
    P (Csv.rows st) ->
    P (Csv.rows (Csv.scan delimiter skipEmptyLines prev text st)).
Proof.
  intros Hclose. induction n as [|n IH]; intros text prev st Hlen Hst.
  - destruct text; [exact Hst|cbn in Hlen; lia].
  - destruct text as [|char rest]; [exact Hst|].
    cbn [String.length] in Hlen.
    assert (Hrest : (String.length rest <= n)%nat) by lia.
    cbn [Csv.scan].
    destruct (Ascii.eqb char Js.dquote).
    { destruct (Csv.inQuotes st).
      - destruct rest as [|nextChar rest'].
        + apply IH; [exact Hrest|exact Hst].
        + destruct (Ascii.eqb nextChar Js.dquote).
          * apply IH; [cbn in Hrest; lia|exact Hst].
          * apply IH; [exact Hrest|exact Hst].
      - destruct (String.eqb (Csv.currentCell st) "" || Csv.prevIsDelimiter delimiter prev);
          apply IH; assumption. }
    destruct (Csv.isDelimiter delimiter char && negb (Csv.inQuotes st)).
    { apply IH; assumption. }
    destruct ((Ascii.eqb char Csv.LF || Ascii.eqb char Csv.CR) && negb (Csv.inQuotes st)).
    { destruct rest as [|nextChar rest'].
      - apply IH; [exact Hrest|]. apply Hclose, Hst.
      - destruct (Ascii.eqb char Csv.CR && Ascii.eqb nextChar Csv.LF).
        + apply IH; [cbn in Hrest; lia|]. apply Hclose, Hst.
        + apply IH; [exact Hrest|]. apply Hclose, Hst. }
    apply IH; assumption.
Qed.

Lemma someFilled_pad (m : nat) (row : list string) :
  Csv.someFilled row = true -> Csv.someFilled (Csv.pad m row) = true.
Proof.
  intros H. unfold Csv.pad, Csv.someFilled in *. rewrite existsb_app, H. reflexivity.
Qed.

(** X9: when empty lines are skipped, every row that [parseCsvText]
    returns has a cell that is not empty. *)
Theorem parseCsvText_skips_empty_rows (argumentLimit : nat) (text delimiter : string)
    (rows : list (list string)) (row : list string) :
  Csv.parseCsvText argumentLimit text delimiter true = Some rows ->
  In row rows ->
  exists cell, In cell row /\ cell <> EmptyString.
Proof.
  intros Hrun Hin.
  assert (Hrows : Forall (fun row => Csv.someFilled row = true)
                    (Csv.finish true (Csv.scan delimiter true None text Csv.initial))).
  { unfold Csv.finish.
    assert (Hscan : Forall (fun row => Csv.someFilled row = true)
                      (Csv.rows (Csv.scan delimiter true None text Csv.initial))).
    { apply (scan_rows_invariant _ delimiter true closeRow_filled (String.length text));
        [lia|constructor]. }
    destruct (negb _ || _); [apply closeRow_filled|]; exact Hscan. }
  unfold Csv.parseCsvText, Csv.readRows in Hrun.
  apply normalize_returns in Hrun. subst rows.
  apply in_map_iff in Hin as (row0 & <- & Hin0).
  rewrite Forall_forall in Hrows. apply list_elem_of_In in Hin0. specialize (Hrows row0 Hin0).
  match goal with
  | |- exists cell, In cell (Csv.pad ?m row0) /\ _ => apply (someFilled_pad m) in Hrows
  end.
  unfold Csv.someFilled in Hrows. apply existsb_exists in Hrows as (cell & Hcell & Hne).
  exists cell. split; [exact Hcell|].
  intros ->. discriminate.
Qed.

Lemma parseCsvText_skips_empty_rows_witness :
  let text := "a,b" +:+ String Csv.LF (String Csv.LF ",") in
  Csv.parseCsvText 1000 text "," true = Some [["a"; "b"]] /\
  In ["a"; "b"] [["a"; "b"]] /\
  exists cell, In cell ["a"; "b"] /\ cell <> EmptyString.
Proof.
  cbv zeta.
  assert (Hrun : Csv.parseCsvText 1000 ("a,b" +:+ String Csv.LF (String Csv.LF ",")) "," true
                 = Some [["a"; "b"]]) by (vm_compute; reflexivity).
  assert (Hin : In ["a"; "b"] [["a"; "b"]]) by (left; reflexivity).
  split; [exact Hrun|]. split; [exact Hin|].
  exact (parseCsvText_skips_empty_rows _ _ _ _ _ Hrun Hin).
Defined.

(** *** Quoted fields *)

Section QuotedFields.

Variable d : ascii.
Variable skipEmptyLines : bool.
Hypothesis d_not_quote : Ascii.eqb d Js.dquote = false.
Hypothesis d_not_LF : Ascii.eqb d Csv.LF = false.
Hypothesis d_not_CR : Ascii.eqb d Csv.CR = false.

Local Abbreviation delimiter := (String d EmptyString).

Lemma isDelimiter_char (char : ascii) : Csv.isDelimiter delimiter char = Ascii.eqb char d.
Proof.
  unfold Csv.isDelimiter. cbn [String.eqb].
  destruct (Ascii.eqb char d); reflexivity.
Qed.

(** Inside the quotes, up to the closing one. *)
Lemma scan_quoted_body (field : string) :
  forall (acc rest : string) (prev : option ascii) (rs : list (list string)) (cr : list string),
    Csv.afterField rest ->
    Csv.scan delimiter skipEmptyLines prev
      (Csv.doubleQuotes field +:+ String Js.dquote rest)
      {| Csv.rows := rs; Csv.currentRow := cr; Csv.currentCell := acc; Csv.inQuotes := true |} =
    Csv.scan delimiter skipEmptyLines (Some Js.dquote) rest
      {| Csv.rows := rs; Csv.currentRow := cr; Csv.currentCell := acc +:+ field;
         Csv.inQuotes := false |}.
Proof.
  induction field as [|c field IH]; intros acc rest prev rs cr Hrest.
  - rewrite append_nil_r. cbn [Csv.doubleQuotes]. rewrite append_nil_l.
    cbn [Csv.scan Csv.inQuotes]. rewrite Ascii.eqb_refl.
    destruct rest as [|x rest]; [reflexivity|].
    unfold Csv.afterField in Hrest. rewrite Hrest. reflexivity.
  - cbn [Csv.doubleQuotes].
    destruct (Ascii.eqb c Js.dquote) eqn:E.
    + apply Ascii.eqb_eq in E. subst c.
      rewrite !append_cons. cbn [Csv.scan Csv.inQuotes]. rewrite !Ascii.eqb_refl.
      rewrite IH by exact Hrest. unfold Csv.addChar. cbn [Csv.rows Csv.currentRow Csv.currentCell].
      rewrite append_assoc. reflexivity.
    + rewrite append_cons. cbn [Csv.scan Csv.inQuotes]. rewrite E.
      cbn [negb]. rewrite !andb_false_r.
      rewrite IH by exact Hrest. unfold Csv.addChar. cbn [Csv.rows Csv.currentRow Csv.currentCell].
      rewrite append_assoc. reflexivity.
Qed.

(** A quoted field at the start of a cell. *)
Lemma scan_quoted_field (field rest : string) (prev : option ascii)
    (rs : list (list string)) (cr : list string) :
  Csv.afterField rest ->
  Csv.scan delimiter skipEmptyLines prev (Csv.quoteField field +:+ rest)
    {| Csv.rows := rs; Csv.currentRow := cr; Csv.currentCell := ""; Csv.inQuotes := false |} =
  Csv.scan delimiter skipEmptyLines (Some Js.dquote) rest
    {| Csv.rows := rs; Csv.currentRow := cr; Csv.currentCell := field; Csv.inQuotes := false |}.
Proof.
  intros Hrest. unfold Csv.quoteField.
  rewrite append_cons, append_cons, append_assoc, append_cons, append_nil_l.
  cbn [Csv.scan Csv.inQuotes Csv.currentCell]. rewrite Ascii.eqb_refl. cbn [String.eqb orb].
  rewrite scan_quoted_body by exact Hrest. reflexivity.
Qed.

(** A record and the line feed that ends it. *)
Lemma scan_record (fields : list string) :
  forall (rest : string) (prev : option ascii) (rs : list (list string)) (cr : list string),
    fields <> [] ->
    Csv.scan delimiter skipEmptyLines prev (Csv.recordText d fields +:+ String Csv.LF rest)
      {| Csv.rows := rs; Csv.currentRow := cr; Csv.currentCell := ""; Csv.inQuotes := false |} =
    Csv.scan delimiter skipEmptyLines (Some Csv.LF) rest
      {| Csv.rows := if negb skipEmptyLines || Csv.someFilled (cr ++ fields)
                     then rs ++ [cr ++ fields] else rs;
         Csv.currentRow := []; Csv.currentCell := ""; Csv.inQuotes := false |}.
Proof.
  induction fields as [|field fields IH]; intros rest prev rs cr Hne; [congruence|].
  destruct fields as [|field2 fields].
  - unfold Csv.recordText. cbn [map Csv.joinWith].
    rewrite scan_quoted_field by reflexivity.
    cbn [Csv.scan Csv.inQuotes].
    change (Ascii.eqb Csv.LF Js.dquote) with false. cbv iota.
    rewrite isDelimiter_char.
    assert (Hd : Ascii.eqb Csv.LF d = false) by (rewrite Ascii.eqb_sym; exact d_not_LF).
    rewrite Hd. cbn [andb]. rewrite Ascii.eqb_refl. cbn [orb negb andb].
    change (Ascii.eqb Csv.LF Csv.CR) with false. cbn [andb].
    unfold Csv.closeRow. cbn [Csv.rows Csv.currentRow Csv.currentCell Csv.inQuotes].
    destruct rest; reflexivity.
  - unfold Csv.recordText in *. cbn [map Csv.joinWith] in *.
    rewrite !append_assoc. 
    rewrite scan_quoted_field by exact d_not_quote.
    rewrite append_cons, append_nil_l.
    cbn [Csv.scan Csv.inQuotes]. rewrite d_not_quote.
    rewrite isDelimiter_char, Ascii.eqb_refl. cbn [negb andb].
    cbn [Csv.rows Csv.currentRow Csv.currentCell].
    rewrite IH by discriminate.
    rewrite <- app_assoc. reflexivity.
Qed.

Lemma scan_table (table : list (list string)) :
  forall (prev : option ascii) (rs : list (list string)),
    Forall (fun row => row <> []) table ->
    Csv.scan delimiter skipEmptyLines prev (Csv.tableText d table)
      {| Csv.rows := rs; Csv.currentRow := []; Csv.currentCell := ""; Csv.inQuotes := false |} =
    {| Csv.rows := rs ++ Csv.kept skipEmptyLines table; Csv.currentRow := []; Csv.currentCell := "";
       Csv.inQuotes := false |}.
Proof.
  induction table as [|row table IH]; intros prev rs Hall.
  - cbn. rewrite app_nil_r. reflexivity.
  - apply Forall_cons in Hall as [Hrow Hall].
    cbn [Csv.tableText fold_right].
    change (fold_right _ EmptyString table) with (Csv.tableText d table).
    rewrite scan_record by exact Hrow. rewrite app_nil_l.
    rewrite IH by exact Hall. cbn [Csv.kept List.filter].
    destruct (negb skipEmptyLines || Csv.someFilled row); [|reflexivity].
    rewrite <- app_assoc. reflexivity.
Qed.

End QuotedFields.

Lemma kept_all (skipEmptyLines : bool) (table : list (list string)) :
  (skipEmptyLines = true -> Forall (fun row => Csv.someFilled row = true) table) ->
  Csv.kept skipEmptyLines table = table.
Proof.
  intros H. unfold Csv.kept. destruct skipEmptyLines; cbn [negb orb].
  - specialize (H eq_refl). induction H as [|row table Hrow _ IH]; [reflexivity|].
    cbn [List.filter]. rewrite Hrow, IH. reflexivity.
  - clear H. induction table as [|row table IH]; [reflexivity|].
    cbn [List.filter]. rewrite IH. reflexivity.
Qed.

Lemma pad_rectangular (width : nat) (table : list (list string)) :
  Forall (fun row => length row = width) table -> map (Csv.pad width) table = table.
Proof.
  induction 1 as [|row table Hrow _ IH]; [reflexivity|].
  cbn [map]. rewrite IH. f_equal.
  unfold Csv.pad. rewrite Hrow, Nat.sub_diag. apply app_nil_r.
Qed.

Lemma widest_rectangular (width : nat) (table : list (list string)) :
  table <> [] -> Forall (fun row => length row = width) table ->
  fold_right Nat.max 0%nat (map (@length string) table) = width.
Proof.
  intros Hne H. induction H as [|row table Hrow Htable IH]; [congruence|].
  cbn. rewrite Hrow. destruct table as [|row2 table]; [cbn; lia|].
  rewrite IH by discriminate. lia.
Qed.

Lemma normalize_rectangular (argumentLimit width : nat) (table : list (list string)) :
  (length table <= argumentLimit)%nat ->
  Forall (fun row => length row = width) table ->
  Csv.normalize argumentLimit table = Some table.
Proof.
  intros Hfits H. unfold Csv.normalize, Csv.maxCols.
  destruct table as [|row0 table0]; [reflexivity|].
  replace (length (row0 :: table0) <=? argumentLimit)%nat with true
    by (symmetry; apply Nat.leb_le; exact Hfits).
  cbn [fmap option_fmap option_map].
  rewrite (widest_rectangular width) by (discriminate || exact H).
  f_equal. apply pad_rectangular, H.
Qed.

(** X10: a table written with every field between double quotes, the
    double quotes of a field doubled, the fields of a record joined by an
    ASCII delimiter and every record ended by a line feed, is read back
    as it was, when the engine takes as many arguments in a call as the
    table has rows. *)
Theorem parseCsvText_reads_quoted_table (argumentLimit : nat) (d : ascii)
    (skipEmptyLines : bool) (table : list (list string)) (width : nat) :
  Js.charCode d < 128 ->
  Ascii.eqb d Js.dquote = false -> Ascii.eqb d Csv.LF = false -> Ascii.eqb d Csv.CR = false ->
  (0 < width)%nat ->
  (length table <= argumentLimit)%nat ->
  Forall (fun row => length row = width) table ->
  (skipEmptyLines = true -> Forall (fun row => Csv.someFilled row = true) table) ->
  Csv.parseCsvText argumentLimit (Csv.tableText d table) (String d EmptyString) skipEmptyLines
  = Some table.
Proof.
  intros _ Hq Hlf Hcr Hwidth Hfits Hrect Hfilled.
  unfold Csv.parseCsvText, Csv.readRows, Csv.initial.
  rewrite (scan_table d skipEmptyLines Hq Hlf).
  2:{ eapply Forall_impl; [exact Hrect|]. intros row Hrow ->. cbn in Hrow. lia. }
  unfold Csv.finish. cbn [Csv.currentCell Csv.currentRow Csv.rows length].
  cbn [String.eqb negb orb Nat.ltb Nat.leb]. rewrite app_nil_l.
  rewrite kept_all by exact Hfilled.
  apply (normalize_rectangular argumentLimit width); assumption.
Qed.

Lemma parseCsvText_reads_quoted_table_witness :
  let table := [["a,b"; String Js.dquote "c"]; [EmptyString; String Csv.LF "x"]] in
  Js.charCode "," < 128 /\
  Ascii.eqb "," Js.dquote = false /\ Ascii.eqb "," Csv.LF = false /\
  Ascii.eqb "," Csv.CR = false /\ (0 < 2)%nat /\ (length table <= 1000)%nat /\
  Forall (fun row => length row = 2%nat) table /\
  (true = true -> Forall (fun row => Csv.someFilled row = true) table) /\
  Csv.parseCsvText 1000 (Csv.tableText "," table) "," true = Some table.
Proof.
  cbv zeta.
  assert (Hrect : Forall (fun row => length row = 2%nat)
                    [["a,b"; String Js.dquote "c"]; [EmptyString; String Csv.LF "x"]])
    by (repeat constructor).
  assert (Hfilled : true = true ->
                    Forall (fun row => Csv.someFilled row = true)
                      [["a,b"; String Js.dquote "c"]; [EmptyString; String Csv.LF "x"]])
    by (intros _; repeat constructor).
  repeat (split; [first [reflexivity | cbn; lia | exact Hrect | exact Hfilled]|]).
  apply (parseCsvText_reads_quoted_table 1000 "," true _ 2);
    first [reflexivity | cbn; lia | exact Hrect | exact Hfilled].
Defined.

(** *** Fields without quotes *)

Section PlainFields.

Variable d : ascii.
Variable skipEmptyLines : bool.
Hypothesis d_not_quote : Ascii.eqb d Js.dquote = false.
Hypothesis d_not_LF : Ascii.eqb d Csv.LF = false.

Local Abbreviation delimiter := (String d EmptyString).

(** The characters of a field are added to the cell one by one. *)
Lemma scan_plain_field (field : string) :
  forall (acc rest : string) (prev : option ascii) (rs : list (list string)) (cr : list string),
    Js.allChars (Csv.plainChar d) field = true ->
    exists prev',
      Csv.scan delimiter skipEmptyLines prev (field +:+ rest)
        {| Csv.rows := rs; Csv.currentRow := cr; Csv.currentCell := acc;
           Csv.inQuotes := false |} =
      Csv.scan delimiter skipEmptyLines prev' rest
        {| Csv.rows := rs; Csv.currentRow := cr; Csv.currentCell := acc +:+ field;
           Csv.inQuotes := false |}.
Proof.
  induction field as [|c field IH]; intros acc rest prev rs cr Hfield.
  - exists prev. rewrite append_nil_l, append_nil_r. reflexivity.
  - cbn [Js.allChars] in Hfield. apply andb_prop in Hfield as [Hc Hfield].
    unfold Csv.plainChar in Hc.
    apply andb_prop in Hc as [Hc Hcr]. apply andb_prop in Hc as [Hc Hlf].
    apply andb_prop in Hc as [Hd Hq].
    apply negb_true_iff in Hd, Hq, Hlf, Hcr.
    destruct (IH (Csv.addChar acc c) rest (Some c) rs cr Hfield) as [prev' Hscan].
    exists prev'. rewrite append_cons. cbn [Csv.scan Csv.inQuotes].
    rewrite Hq, (isDelimiter_char d), Hd, Hlf, Hcr. cbn [andb orb].
    cbn [Csv.rows Csv.currentRow Csv.currentCell].
    rewrite Hscan. unfold Csv.addChar. rewrite append_assoc. reflexivity.
Qed.

(** A record and the line feed that ends it. *)
Lemma scan_plain_record (fields : list string) :
  forall (rest : string) (prev : option ascii) (rs : list (list string)) (cr : list string),
    fields <> [] ->
    Forall (fun field => Js.allChars (Csv.plainChar d) field = true) fields ->
    Csv.scan delimiter skipEmptyLines prev (Csv.plainRecord d fields +:+ String Csv.LF rest)
      {| Csv.rows := rs; Csv.currentRow := cr; Csv.currentCell := ""; Csv.inQuotes := false |} =
    Csv.scan delimiter skipEmptyLines (Some Csv.LF) rest
      {| Csv.rows := if negb skipEmptyLines || Csv.someFilled (cr ++ fields)
                     then rs ++ [cr ++ fields] else rs;
         Csv.currentRow := []; Csv.currentCell := ""; Csv.inQuotes := false |}.
Proof.
  induction fields as [|field fields IH]; intros rest prev rs cr Hne Hplain; [congruence|].
  apply Forall_cons in Hplain as [Hfield Hplain].
  assert (Hd : Ascii.eqb Csv.LF d = false) by (rewrite Ascii.eqb_sym; exact d_not_LF).
  destruct fields as [|field2 fields].
  - unfold Csv.plainRecord. cbn [Csv.joinWith].
    destruct (scan_plain_field field "" (String Csv.LF rest) prev rs cr Hfield) as [prev' ->].
    rewrite append_nil_l.
    cbn [Csv.scan Csv.inQuotes].
    change (Ascii.eqb Csv.LF Js.dquote) with false. cbv iota.
    rewrite (isDelimiter_char d), Hd. cbn [andb]. rewrite Ascii.eqb_refl. cbn [orb negb andb].
    change (Ascii.eqb Csv.LF Csv.CR) with false. cbn [andb].
    unfold Csv.closeRow. cbn [Csv.rows Csv.currentRow Csv.currentCell Csv.inQuotes].
    destruct rest; reflexivity.
  - unfold Csv.plainRecord in *. cbn [Csv.joinWith] in *.
    rewrite !append_assoc.
    destruct (scan_plain_field field ""
                (delimiter +:+
                 match fields with
                 | [] => field2
                 | _ :: _ => field2 +:+ delimiter +:+ Csv.joinWith delimiter fields
                 end +:+ String Csv.LF rest) prev rs cr Hfield) as [prev' ->].
    rewrite append_nil_l, append_cons, append_nil_l.
    cbn [Csv.scan Csv.inQuotes].
    rewrite d_not_quote, (isDelimiter_char d), Ascii.eqb_refl. cbn [negb andb].
    cbn [Csv.rows Csv.currentRow Csv.currentCell].
    rewrite IH by (discriminate || exact Hplain).
    rewrite <- app_assoc. reflexivity.
Qed.

Lemma scan_plain_table (table : list (list string)) :
  forall (prev : option ascii) (rs : list (list string)),
    Forall (fun row => row <> []) table ->
    Forall (Forall (fun field => Js.allChars (Csv.plainChar d) field = true)) table ->
    Csv.scan delimiter skipEmptyLines prev (Csv.plainTable d table)
      {| Csv.rows := rs; Csv.currentRow := []; Csv.currentCell := ""; Csv.inQuotes := false |} =
    {| Csv.rows := rs ++ Csv.kept skipEmptyLines table; Csv.currentRow := []; Csv.currentCell := "";
       Csv.inQuotes := false |}.
Proof.
  induction table as [|row table IH]; intros prev rs Hall Hplain.
  - cbn. rewrite app_nil_r. reflexivity.
  - apply Forall_cons in Hall as [Hrow Hall].
    apply Forall_cons in Hplain as [Hfields Hplain].
    cbn [Csv.plainTable fold_right].
    change (fold_right _ EmptyString table) with (Csv.plainTable d table).
    rewrite scan_plain_record by assumption. rewrite app_nil_l.
    rewrite IH by assumption. cbn [Csv.kept List.filter].
    destruct (negb skipEmptyLines || Csv.someFilled row); [|reflexivity].
    rewrite <- app_assoc. reflexivity.
Qed.

End PlainFields.

(** X11: a table written without quotes, the fields of a record joined
    by an ASCII delimiter and every record ended by a line feed, is read
    back as it was, when no field holds the delimiter, a double quote or
    a line break and the engine takes as many arguments in a call as the
    table has rows. *)
Theorem parseCsvText_reads_plain_table (argumentLimit : nat) (d : ascii)
    (skipEmptyLines : bool) (table : list (list string)) (width : nat) :
  Js.charCode d < 128 ->
  Ascii.eqb d Js.dquote = false -> Ascii.eqb d Csv.LF = false ->
  (0 < width)%nat ->
  (length table <= argumentLimit)%nat ->
  Forall (fun row => length row = width) table ->
  Forall (Forall (fun field => Js.allChars (Csv.plainChar d) field = true)) table ->
  (skipEmptyLines = true -> Forall (fun row => Csv.someFilled row = true) table) ->
  Csv.parseCsvText argumentLimit (Csv.plainTable d table) (String d EmptyString) skipEmptyLines
  = Some table.
Proof.
  intros _ Hq Hlf Hwidth Hfits Hrect Hplain Hfilled.
  unfold Csv.parseCsvText, Csv.readRows, Csv.initial.
  rewrite (scan_plain_table d skipEmptyLines Hq Hlf).
  2:{ eapply Forall_impl; [exact Hrect|]. intros row Hrow ->. cbn in Hrow. lia. }
  2:{ exact Hplain. }
  unfold Csv.finish. cbn [Csv.currentCell Csv.currentRow Csv.rows length].
  cbn [String.eqb negb orb Nat.ltb Nat.leb]. rewrite app_nil_l.
  rewrite kept_all by exact Hfilled.
  apply (normalize_rectangular argumentLimit width); assumption.
Qed.

Lemma parseCsvText_reads_plain_table_witness :
  Csv.plainTable ";" [["name"; "price"]; ["tea"; "3,50"]; [EmptyString; "0"]] =
    "name;price" +:+ String Csv.LF ("tea;3,50" +:+ String Csv.LF (";0" +:+ String Csv.LF "")) /\
  Csv.parseCsvText 1000
    (Csv.plainTable ";" [["name"; "price"]; ["tea"; "3,50"]; [EmptyString; "0"]]) ";" true =
    Some [["name"; "price"]; ["tea"; "3,50"]; [EmptyString; "0"]].
Proof.
  split; [reflexivity|].
  apply (parseCsvText_reads_plain_table 1000 ";" true _ 2);
    first [reflexivity | cbn; lia | intros _; repeat constructor | repeat constructor].
Defined.

(** *** The delimiter *)

Lemma countChar_nonneg (delimiter : ascii) (line : string) : 0 <= Csv.countChar delimiter line.
Proof.
  induction line as [|c line IH]; cbn; [lia|].
  destruct (Ascii.eqb c delimiter); lia.
Qed.

(** Without an occurrence of the delimiter the tally stays at zero. *)
Lemma tally_zero (delimiter : ascii) (lines : list string) :
  forall t : Csv.Tally,
    Forall (fun line => Csv.countChar delimiter line = 0) lines ->
    Csv.score t = 0 -> Csv.firstLineCount t <= 0 ->
    let t' := fold_left (Csv.tallyLine delimiter) lines t in
    Csv.score t' = 0 /\ Csv.firstLineCount t' <= 0.
Proof.
  induction lines as [|line lines IH]; intros t Hall Hs Hf; cbn [fold_left]; [split; assumption|].
  apply Forall_cons in Hall as [Hline Hall].
  apply IH; [exact Hall|..]; unfold Csv.tallyLine;
    destruct (String.eqb (Js.trim line) ""); try assumption;
    cbn [Csv.score Csv.firstLineCount]; rewrite Hline; [lia|].
  destruct (Csv.firstLineCount t =? -1); lia.
Qed.

Lemma scoreOf_positive (lines : list string) (delimiter : ascii) :
  0 < Csv.scoreOf lines delimiter ->
  exists line, In line lines /\ 0 < Csv.countChar delimiter line.
Proof.
  intros Hpos.
  destruct (existsb (fun line => 0 <? Csv.countChar delimiter line) lines) eqn:E.
  - apply existsb_exists in E as (line & Hin & Hline).
    exists line. split; [exact Hin|]. apply Z.ltb_lt, Hline.
  - exfalso.
    assert (Hall : Forall (fun line => Csv.countChar delimiter line = 0) lines).
    { apply Forall_forall. intros line Hin. apply list_elem_of_In in Hin.
      pose proof (existsb_false_in _ _ line E Hin) as Hline. cbv beta in Hline.
      apply Z.ltb_ge in Hline. pose proof (countChar_nonneg delimiter line). lia. }
    unfold Csv.scoreOf in Hpos.
    destruct (tally_zero delimiter lines
                {| Csv.score := 0; Csv.consistentCount := true; Csv.firstLineCount := -1 |}
                Hall eq_refl ltac:(cbn; lia)) as [Hs Hf].
    cbv zeta in Hs, Hf. rewrite Hs in Hpos.
    destruct (Csv.consistentCount _ && (0 <? Csv.firstLineCount _)) eqn:Eb; [|lia].
    apply andb_prop in Eb as [_ Eb]. apply Z.ltb_lt in Eb. lia.
Qed.

(** The loop over the candidates keeps: the best score is not negative,
    and the delimiter held is the comma or a candidate with a positive
    score. *)
Lemma detect_loop (lines : list string) (candidates : list ascii) :
  forall (maxScore : Z) (detected : ascii),
    0 <= maxScore ->
    let out := snd (fold_left
                      (fun '(maxScore, detectedDelimiter) delimiter =>
                         let score := Csv.scoreOf lines delimiter in
                         if maxScore <? score then (score, delimiter)
                         else (maxScore, detectedDelimiter))
                      candidates (maxScore, detected)) in
    out = detected \/ (In out candidates /\ 0 < Csv.scoreOf lines out).
Proof.
  induction candidates as [|cand candidates IH]; intros maxScore detected Hmax;
    cbn [fold_left]; [left; reflexivity|].
  destruct (maxScore <? Csv.scoreOf lines cand) eqn:E.
  - apply Z.ltb_lt in E.
    destruct (IH (Csv.scoreOf lines cand) cand ltac:(lia)) as [H|[Hin Hpos]].
    + right. cbv zeta in H. rewrite H. split; [left; reflexivity|lia].
    + right. split; [right; exact Hin|exact Hpos].
  - destruct (IH maxScore detected Hmax) as [H|[Hin Hpos]].
    + left. exact H.
    + right. split; [right; exact Hin|exact Hpos].
Qed.

(** X12: [detectDelimiter] answers with one of its five candidates, and
    with another one than the comma only if that character occurs in one
    of the first five lines of the text. *)
Theorem detectDelimiter_occurs (text : string) :
  In (Csv.detectDelimiter text) Csv.delimiters /\
  (Csv.detectDelimiter text <> ","%char ->
   exists line,
     In line (take 5 (Csv.splitLines text)) /\
     0 < Csv.countChar (Csv.detectDelimiter text) line).
Proof.
  unfold Csv.detectDelimiter.
  destruct (detect_loop (take 5 (Csv.splitLines text)) Csv.delimiters 0 ","%char ltac:(lia))
    as [H|[Hin Hpos]]; cbv zeta in *.
  - rewrite H. split; [left; reflexivity|congruence].
  - split; [exact Hin|]. intros _. apply scoreOf_positive, Hpos.
Qed.

(** ** Rich text *)

Lemma utf16Length_nonneg (s : string) : 0 <= RichText.utf16Length s.
Proof.
  induction s as [|c s IH]; cbn [RichText.utf16Length]; [lia|].
  unfold RichText.unitsOfByte.
  destruct (Js.charCode c <? 128), (Js.charCode c <? 192), (Js.charCode c <? 240); lia.
Qed.

Lemma utf16Length_append (a b : string) :
  RichText.utf16Length (a +:+ b) = RichText.utf16Length a + RichText.utf16Length b.
Proof.
  induction a as [|c a IH]; [reflexivity|].
  rewrite append_cons. cbn [RichText.utf16Length]. rewrite IH. lia.
Qed.

Section RichTextProperties.

Context {Color Size : Type}.
Variable parseExcelColor : Color -> option string.
Variable sizeTruthy : Size -> bool.

Local Abbreviation step := (RichText.step parseExcelColor sizeTruthy).
Local Abbreviation convertRichText := (RichText.convertRichText parseExcelColor sizeTruthy).
Local Abbreviation Run := (@RichText.TextRun Size).

Lemma runsInOrder_longer (runs : list Run) :
  forall from len len' : Z,
    RichText.runsInOrder from len runs -> len <= len' -> RichText.runsInOrder from len' runs.
Proof.
  induction runs as [|r runs IH]; intros from len len' H Hle; cbn in *; [lia|].
  destruct H as (H1 & H2 & H3). repeat split; try assumption. eapply IH; eassumption.
Qed.

Lemma runsInOrder_snoc (runs : list Run) (r : Run) :
  forall from idx len : Z,
    RichText.runsInOrder from idx runs ->
    idx <= RichText.st r -> RichText.st r <= RichText.ed r -> RichText.ed r <= len ->
    RichText.runsInOrder from len (runs ++ [r]).
Proof.
  induction runs as [|r0 runs IH]; intros from idx len H H1 H2 H3; cbn in *.
  - repeat split; lia.
  - destruct H as (Ha & Hb & Hc). repeat split; try assumption. eapply IH; eassumption.
Qed.

(** The loop keeps: the index is the length of the stream, the stream is
    what it was followed by the texts read, and the runs lie in it one
    after the other. *)
Lemma fold_step (richText : list (@RichText.Piece Color Size)) :
  forall (body : RichText.Body) (idx : Z),
    idx = RichText.utf16Length (RichText.dataStream body) ->
    RichText.runsInOrder 0 idx (RichText.textRuns body) ->
    let '(body', idx') := fold_left step richText (body, idx) in
    idx' = RichText.utf16Length (RichText.dataStream body') /\
    RichText.dataStream body' = RichText.dataStream body +:+ RichText.plainText richText /\
    RichText.runsInOrder 0 idx' (RichText.textRuns body').
Proof.
  induction richText as [|rt richText IH]; intros body idx Hidx Hruns; cbn [fold_left].
  - split; [exact Hidx|]. split; [|exact Hruns].
    cbn. rewrite append_nil_r. reflexivity.
  - set (text := default "" (RichText.text rt)).
    pose proof (utf16Length_nonneg text) as Hlen.
    specialize (IH (fst (step (body, idx) rt)) (snd (step (body, idx) rt))).
    rewrite <- surjective_pairing in IH.
    destruct (fold_left step richText (step (body, idx) rt)) as [body' idx'].
    unfold RichText.step in IH. cbn [fst snd RichText.dataStream RichText.textRuns] in IH.
    fold text in IH.
    destruct IH as (H1 & H2 & H3).
    + rewrite utf16Length_append. lia.
    + destruct (RichText.font rt) as [f|].
      * cbn [RichText.ts].
        destruct (RichText.hasKeys (RichText.styleOf parseExcelColor sizeTruthy f)).
        -- eapply runsInOrder_snoc; [exact Hruns|cbn; lia..].
        -- eapply runsInOrder_longer; [exact Hruns|lia].
      * eapply runsInOrder_longer; [exact Hruns|lia].
    + split; [exact H1|]. split; [|exact H3].
      rewrite H2. cbn [RichText.plainText fold_right]. fold text.
      rewrite append_assoc. reflexivity.
Qed.

(** X13: the document that [convertRichText] returns holds the texts of
    the pieces one after the other, which is the plain value of the cell,
    and its runs lie inside that stream, in order and without overlap. *)
Theorem convertRichText_runs_in_stream (richText : list (@RichText.Piece Color Size))
    (body : RichText.Body) :
  convertRichText richText = Some body ->
  RichText.dataStream body = RichText.plainText richText /\
  RichText.runsInOrder 0 (RichText.utf16Length (RichText.dataStream body))
                       (RichText.textRuns body).
Proof.
  unfold RichText.convertRichText. intros H.
  destruct richText as [|rt richText]; [discriminate|].
  pose proof (fold_step (rt :: richText) {| RichText.dataStream := ""; RichText.textRuns := [] |} 0
                eq_refl ltac:(cbn; lia)) as Hfold.
  destruct (fold_left step (rt :: richText) _) as [body' idx'] eqn:E.
  cbn [fst] in H. destruct Hfold as (H1 & H2 & H3).
  destruct (RichText.textRuns body') eqn:Eruns; [discriminate|].
  injection H as <-. split.
  - rewrite H2. reflexivity.
  - rewrite <- H1, Eruns. exact H3.
Qed.

End RichTextProperties.

Lemma convertRichText_runs_in_stream_witness :
  let parse (c : string) := Some ("#" +:+ c) in
  let truthy (n : Z) := negb (n =? 0) in
  let plain := {| RichText.bold := false; RichText.italic := false; RichText.underline := false;
                  RichText.strike := false; RichText.size := None; RichText.name := None;
                  RichText.color := None |} in
  let bold := {| RichText.bold := true; RichText.italic := false; RichText.underline := false;
                 RichText.strike := false; RichText.size := Some 11; RichText.name := None;
                 RichText.color := Some "FF0000" |} in
  let richText := [ {| RichText.text := Some "Total: "; RichText.font := Some plain |};
                    {| RichText.text := Some "42"; RichText.font := Some bold |} ] in
  let body := {| RichText.dataStream := "Total: 42";
                 RichText.textRuns :=
                   [ {| RichText.st := 7; RichText.ed := 9;
                        RichText.ts := RichText.styleOf parse truthy bold |} ] |} in
  RichText.convertRichText parse truthy richText = Some body /\
  RichText.dataStream body = RichText.plainText richText /\
  RichText.runsInOrder 0 (RichText.utf16Length (RichText.dataStream body))
                       (RichText.textRuns body).
Proof.
  cbv zeta. split; [reflexivity|].
  apply (convertRichText_runs_in_stream (fun c : string => Some ("#" +:+ c))
           (fun n : Z => negb (n =? 0))).
  reflexivity.
Defined.

(** ** Colours *)

Lemma exec_anchored (r : Regex.regex) (s : string) :
  Regex.exec (Regex.Seq Regex.Bol r) s =
  Regex.matchAt (Regex.Seq Regex.Bol r) (String.length s) s.
Proof.
  unfold Regex.exec.
  assert (Hlater : forall t, (String.length t < String.length s)%nat ->
                     Regex.searchFrom (Regex.Seq Regex.Bol r) (String.length s) t = None).
  { induction t as [|a t IH]; intros Hlt.
    - cbn. destruct (String.length s); [lia|reflexivity].
    - cbn [Regex.searchFrom]. unfold Regex.matchAt at 1. cbn [Regex.run].
      destruct (String.length (String a t) =? String.length s)%nat eqn:E;
        [apply Nat.eqb_eq in E; lia|].
      apply IH. cbn in Hlt. lia. }
  destruct s as [|a s]; cbn [Regex.searchFrom].
  - destruct (Regex.matchAt _ _ _); reflexivity.
  - destruct (Regex.matchAt _ _ _); [reflexivity|]. apply Hlater. cbn. lia.
Qed.

(** The value of a hexadecimal digit, and the digit of a value. *)
Lemma hexValue_digit (c : ascii) :
  Colour.isHex c = true ->
  exists v, Colour.hexValue c = Some v /\ 0 <= v < 16 /\ Colour.hexDigit v = Js.lowerChar c.
Proof.
  unfold Colour.isHex, Colour.hexValue, Colour.hexDigit, Js.lowerChar, Js.isDigit, Js.isUpper.
  set (n := Js.charCode c). intros H.
  assert (Hc : c = Js.fromCharCode n) by (symmetry; apply fromCharCode_charCode).
  destruct ((48 <=? n) && (n <=? 57)) eqn:E1.
  { apply andb_prop in E1 as [H1 H2]. apply Z.leb_le in H1, H2.
    exists (n - 48). split; [reflexivity|]. split; [lia|].
    assert (E : (n - 48 <? 10) = true) by (apply Z.ltb_lt; lia). rewrite E.
    assert (E' : (65 <=? n) && (n <=? 90) = false) by (apply andb_false_intro1, Z.leb_gt; lia).
    rewrite E'. rewrite Hc. f_equal. lia. }
  destruct ((97 <=? n) && (n <=? 102)) eqn:E2.
  { apply andb_prop in E2 as [H1 H2]. apply Z.leb_le in H1, H2.
    exists (n - 87). split; [reflexivity|]. split; [lia|].
    assert (E : (n - 87 <? 10) = false) by (apply Z.ltb_ge; lia). rewrite E.
    assert (E' : (65 <=? n) && (n <=? 90) = false) by (apply andb_false_intro2, Z.leb_gt; lia).
    rewrite E'. rewrite Hc. f_equal. lia. }
  cbn [orb] in H. rewrite H.
  apply andb_prop in H as [H1 H2]. apply Z.leb_le in H1, H2.
  exists (n - 55). split; [reflexivity|]. split; [lia|].
  assert (E : (n - 55 <? 10) = false) by (apply Z.ltb_ge; lia). rewrite E.
  assert (E' : (65 <=? n) && (n <=? 90) = true)
    by (apply andb_true_intro; split; apply Z.leb_le; lia).
  rewrite E'. f_equal. lia.
Qed.

Lemma hexDigit_value (v : Z) :
  0 <= v < 16 ->
  Colour.isHex (Colour.hexDigit v) = true /\ Colour.hexValue (Colour.hexDigit v) = Some v.
Proof.
  intros Hv. unfold Colour.hexDigit, Colour.isHex, Colour.hexValue, Js.isDigit.
  destruct (v <? 10) eqn:E.
  - apply Z.ltb_lt in E. rewrite charCode_fromCharCode by lia.
    assert (E1 : (48 <=? 48 + v) && (48 + v <=? 57) = true)
      by (apply andb_true_intro; split; apply Z.leb_le; lia).
    rewrite E1. split; [reflexivity|]. f_equal. lia.
  - apply Z.ltb_ge in E. rewrite charCode_fromCharCode by lia.
    assert (E1 : (48 <=? 87 + v) && (87 + v <=? 57) = false)
      by (apply andb_false_intro2, Z.leb_gt; lia).
    assert (E2 : (97 <=? 87 + v) && (87 + v <=? 102) = true)
      by (apply andb_true_intro; split; apply Z.leb_le; lia).
    rewrite E1, E2. split; [reflexivity|]. f_equal. lia.
Qed.

(** Two hexadecimal digits, read and written. *)
Lemma parseInt16_pair (a b : ascii) :
  Colour.isHex a = true -> Colour.isHex b = true ->
  exists n, Colour.parseInt16 (String a (String b EmptyString)) = Some n /\
            Colour.channelHex n = String (Js.lowerChar a) (String (Js.lowerChar b) EmptyString).
Proof.
  intros Ha Hb.
  destruct (hexValue_digit a Ha) as (va & Eva & Hva & Hda).
  destruct (hexValue_digit b Hb) as (vb & Evb & Hvb & Hdb).
  exists (16 * va + vb). split.
  - unfold Colour.parseInt16. cbn [Colour.hexDigitsValue]. rewrite Eva, Evb.
    f_equal. lia.
  - unfold Colour.channelHex, Colour.toString16.
    rewrite Z.min_r, Z.max_r by lia.
    destruct (16 * va + vb <? 16) eqn:E.
    + apply Z.ltb_lt in E. assert (va = 0) by lia. subst va.
      cbn [String.length Nat.eqb]. rewrite <- Hda, <- Hdb.
      replace (16 * 0 + vb) with vb by lia. reflexivity.
    + apply Z.ltb_ge in E. cbn [String.length Nat.eqb].
      replace ((16 * va + vb) / 16) with va
        by (apply (Z.div_unique _ 16 va vb); lia).
      replace ((16 * va + vb) mod 16) with vb
        by (apply (Z.mod_unique _ 16 va vb); lia).
      rewrite Hda, Hdb. reflexivity.
Qed.

Lemma channelHex_pair (x : Z) :
  exists a b,
    Colour.channelHex x = String a (String b EmptyString) /\
    Colour.isHex a = true /\ Colour.isHex b = true /\
    Colour.parseInt16 (String a (String b EmptyString)) = Some (Z.max 0 (Z.min 255 x)).
Proof.
  unfold Colour.channelHex, Colour.toString16.
  set (n := Z.max 0 (Z.min 255 x)).
  assert (Hn : 0 <= n <= 255) by (subst n; lia).
  destruct (n <? 16) eqn:E.
  - apply Z.ltb_lt in E. cbn [String.length Nat.eqb].
    destruct (hexDigit_value n ltac:(lia)) as [H1 H2].
    exists "0"%char, (Colour.hexDigit n). split; [reflexivity|].
    split; [reflexivity|]. split; [exact H1|].
    unfold Colour.parseInt16. cbn [Colour.hexDigitsValue].
    change (Colour.hexValue "0") with (Some 0). cbv iota. rewrite H2. f_equal.
  - apply Z.ltb_ge in E. cbn [String.length Nat.eqb].
    pose proof (Z.div_mod n 16 ltac:(lia)) as Hdm.
    pose proof (Z.mod_pos_bound n 16 ltac:(lia)) as Hm.
    assert (Hq : 0 <= n / 16 < 16).
    { split; [apply Z.div_pos; lia|apply Z.div_lt_upper_bound; lia]. }
    destruct (hexDigit_value (n / 16) Hq) as [H1 H2].
    destruct (hexDigit_value (n mod 16) Hm) as [H3 H4].
    exists (Colour.hexDigit (n / 16)), (Colour.hexDigit (n mod 16)).
    split; [reflexivity|]. split; [exact H1|]. split; [exact H3|].
    unfold Colour.parseInt16. cbn [Colour.hexDigitsValue]. rewrite H2, H4.
    f_equal. lia.
Qed.

(** What the pattern of [hexToRgb] finds in six hexadecimal digits, with
    or without the sign in front. *)
Lemma hexRegex_match (sharp : bool) (a1 a2 b1 b2 c1 c2 : ascii) :
  Colour.isHex a1 = true -> Colour.isHex a2 = true -> Colour.isHex b1 = true ->
  Colour.isHex b2 = true -> Colour.isHex c1 = true -> Colour.isHex c2 = true ->
  let digits :=
    String a1 (String a2 (String b1 (String b2 (String c1 (String c2 EmptyString))))) in
  exists m,
    Regex.exec Colour.hexRegex (if sharp then String "#" digits else digits) = Some m /\
    Regex.group m 1 = Some (String a1 (String a2 EmptyString)) /\
    Regex.group m 2 = Some (String b1 (String b2 EmptyString)) /\
    Regex.group m 3 = Some (String c1 (String c2 EmptyString)).
Proof.
  intros Ha1 Ha2 Hb1 Hb2 Hc1 Hc2 digits. subst digits.
  unfold Colour.hexRegex. cbn [Regex.seqs]. rewrite exec_anchored.
  unfold Regex.matchAt, Regex.opt, Colour.hex2, Regex.chr.
  destruct sharp.
  - cbn [Regex.run String.length Nat.eqb Ascii.eqb Bool.eqb].
    rewrite Ha1, Ha2, Hb1, Hb2, Hc1, Hc2.
    eexists. split; [reflexivity|]. repeat split; reflexivity.
  - cbn [Regex.run String.length Nat.eqb].
    destruct (Ascii.eqb "#" a1) eqn:E.
    { apply Ascii.eqb_eq in E. subst a1. discriminate. }
    rewrite Ha1, Ha2, Hb1, Hb2, Hc1, Hc2.
    eexists. split; [reflexivity|]. repeat split; reflexivity.
Qed.

(** X14: [hexToRgb] reads back what [rgbToHex] writes: each channel, held
    between 0 and 255. *)
Theorem hexToRgb_rgbToHex (r g b : Z) :
  Colour.hexToRgb (Colour.rgbToHex r g b) =
  {| Colour.r := Z.max 0 (Z.min 255 r);
     Colour.g := Z.max 0 (Z.min 255 g);
     Colour.b := Z.max 0 (Z.min 255 b) |}.
Proof.
  destruct (channelHex_pair r) as (a1 & a2 & Er & Ha1 & Ha2 & Pr).
  destruct (channelHex_pair g) as (b1 & b2 & Eg & Hb1 & Hb2 & Pg).
  destruct (channelHex_pair b) as (c1 & c2 & Eb & Hc1 & Hc2 & Pb).
  unfold Colour.rgbToHex. rewrite Er, Eg, Eb.
  destruct (hexRegex_match true a1 a2 b1 b2 c1 c2 Ha1 Ha2 Hb1 Hb2 Hc1 Hc2)
    as (m & Hm & G1 & G2 & G3).
  cbv zeta in Hm. unfold Colour.hexToRgb.
  change (String "#" (String a1 (String a2 "") +:+ String b1 (String b2 "") +:+
                      String c1 (String c2 "")))
    with (String "#" (String a1 (String a2 (String b1 (String b2 (String c1 (String c2 ""))))))).
  rewrite Hm, G1, G2, G3. cbn [mbind option_bind]. rewrite Pr, Pg, Pb. reflexivity.
Qed.

(** X15: on six hexadecimal digits, with or without the sign in front,
    [rgbToHex] after [hexToRgb] writes the same digits, the letters in
    lower case. *)
Theorem rgbToHex_hexToRgb (sharp : bool) (digits : string) :
  String.length digits = 6%nat -> Js.allChars Colour.isHex digits = true ->
  let rgb := Colour.hexToRgb (if sharp then String "#" digits else digits) in
  Colour.rgbToHex (Colour.r rgb) (Colour.g rgb) (Colour.b rgb) =
  String "#" (Js.toLowerCase digits).
Proof.
  intros Hlen Hhex.
  destruct digits as [|a1 [|a2 [|b1 [|b2 [|c1 [|c2 [|x rest]]]]]]]; try discriminate.
  cbn in Hhex.
  repeat match type of Hhex with
         | _ && _ = true => apply andb_prop in Hhex as [? Hhex]
         end.
  destruct (hexRegex_match sharp a1 a2 b1 b2 c1 c2) as (m & Hm & G1 & G2 & G3); try assumption.
  cbv zeta in Hm |- *. unfold Colour.hexToRgb. rewrite Hm, G1, G2, G3.
  cbn [mbind option_bind Colour.r Colour.g Colour.b].
  destruct (parseInt16_pair a1 a2) as (n1 & -> & E1); try assumption.
  destruct (parseInt16_pair b1 b2) as (n2 & -> & E2); try assumption.
  destruct (parseInt16_pair c1 c2) as (n3 & -> & E3); try assumption.
  cbn [default id]. unfold Colour.rgbToHex. rewrite E1, E2, E3. reflexivity.
Qed.

Lemma rgbToHex_hexToRgb_witness :
  String.length "4472C4" = 6%nat /\ Js.allChars Colour.isHex "4472C4" = true /\
  let rgb := Colour.hexToRgb "4472C4" in
  Colour.rgbToHex (Colour.r rgb) (Colour.g rgb) (Colour.b rgb) =
  String "#" (Js.toLowerCase "4472C4").
Proof.
  split; [reflexivity|]. split; [reflexivity|].
  apply (rgbToHex_hexToRgb false "4472C4"); reflexivity.
Defined.

(** X16: a string of any other length than six or seven characters is not
    a colour for [hexToRgb], which answers black. *)
Theorem hexToRgb_other_length (hex : string) :
  String.length hex <> 6%nat -> String.length hex <> 7%nat ->
  Colour.hexToRgb hex = {| Colour.r := 0; Colour.g := 0; Colour.b := 0 |}.
Proof.
  intros H6 H7. unfold Colour.hexToRgb.
  assert (Hnone : Regex.exec Colour.hexRegex hex = None); [|rewrite Hnone; reflexivity].
  unfold Colour.hexRegex. cbn [Regex.seqs]. rewrite exec_anchored.
  unfold Regex.matchAt, Regex.opt, Colour.hex2, Regex.chr.
  destruct hex as [|x1 [|x2 [|x3 [|x4 [|x5 [|x6 [|x7 [|x8 rest]]]]]]]];
    try (cbn in H6; congruence); try (cbn in H7; congruence);
    cbn [Regex.run]; rewrite Nat.eqb_refl;
    repeat match goal with
           | |- context [if ?b then _ else _] => destruct b
           end; reflexivity.
Qed.

Lemma hexToRgb_other_length_witness :
  String.length "FF4472C4" <> 6%nat /\ String.length "FF4472C4" <> 7%nat /\
  Colour.hexToRgb "FF4472C4" = {| Colour.r := 0; Colour.g := 0; Colour.b := 0 |}.
Proof.
  split; [discriminate|]. split; [discriminate|].
  apply (hexToRgb_other_length "FF4472C4"); discriminate.
Defined.

(** ** Lookup tables *)

(** X17: for every key but the names of the members of
    [Object.prototype], [mapCfvoType] answers with one of the six types of
    Univer, which it maps to itself; for such a name it answers with
    the member. *)
Theorem mapCfvoType_closed (excelType : string) :
  (Tables.isInherited excelType = false ->
   exists univerType,
     Tables.mapCfvoType excelType = Tables.Value univerType /\
     In univerType Tables.univerTypes /\
     Tables.mapCfvoType univerType = Tables.Value univerType) /\
  (Tables.isInherited excelType = true ->
   Tables.mapCfvoType excelType = Tables.Member excelType).
Proof.
  unfold Tables.mapCfvoType, Tables.lookupOr, Tables.typeMap, Tables.univerTypes.
  cbn [List.find fst snd].
  repeat match goal with
         | |- context [String.eqb ?k excelType] =>
             let E := fresh "E" in
             destruct (String.eqb k excelType) eqn:E;
             [apply String.eqb_eq in E; subst excelType;
              split; [intros _; eexists; split; [reflexivity|]; split; [cbn; tauto|reflexivity]
                     |intros H; discriminate H]
             |]
         end.
  split.
  - intros ->. exists "num". split; [reflexivity|]. split; [cbn; tauto|reflexivity].
  - intros ->. reflexivity.
Qed.

(** X18: for every extension but the names of the members of
    [Object.prototype], [getImageMimeType] answers with the type of an
    image. *)
Theorem getImageMimeType_image (extension : string) :
  Tables.isInherited (Js.toLowerCase extension) = false ->
  exists mime,
    Tables.getImageMimeType extension = Tables.Value mime /\
    Js.startsWith mime "image/" = true.
Proof.
  unfold Tables.getImageMimeType, Tables.lookupOr, Tables.mimeMap.
  generalize (Js.toLowerCase extension). intros key Hkey.
  cbn [List.find fst snd].
  repeat match goal with
         | |- context [String.eqb ?k key] =>
             destruct (String.eqb k key); [eexists; split; reflexivity|]
         end.
  rewrite Hkey. eexists. split; reflexivity.
Qed.

Lemma getImageMimeType_image_witness :
  Tables.isInherited (Js.toLowerCase "JPG") = false /\
  exists mime,
    Tables.getImageMimeType "JPG" = Tables.Value mime /\
    Js.startsWith mime "image/" = true.
Proof.
  split; [reflexivity|]. apply (getImageMimeType_image "JPG"). reflexivity.
Defined.

(** ** Number formats *)

(** A row of the table of built-in formats sets no flag that the scan of
    its key does not find. *)
Lemma builtIn_rows_agree (key : string) (row : NumFmt.FormatInfo) :
  In (key, row) NumFmt.builtInFormats ->
  let result := NumFmt.scan key in
  let merged := NumFmt.spread row result in
  NumFmt.flag (NumFmt.isPercent merged) = NumFmt.flag (NumFmt.isPercent result) /\
  NumFmt.flag (NumFmt.isCurrency merged) = NumFmt.flag (NumFmt.isCurrency result) /\
  NumFmt.flag (NumFmt.isScientific merged) = NumFmt.flag (NumFmt.isScientific result) /\
  NumFmt.flag (NumFmt.hasThousandsSeparator merged) =
    NumFmt.flag (NumFmt.hasThousandsSeparator result) /\
  NumFmt.flag (NumFmt.isDateTime merged) = NumFmt.flag (NumFmt.isDateTime result) /\
  NumFmt.flag (NumFmt.hasNegativeFormat merged) = NumFmt.flag (NumFmt.hasNegativeFormat result) /\
  NumFmt.decimalPlaces merged = NumFmt.decimalPlaces result.
Proof.
  intros Hin. unfold NumFmt.builtInFormats in Hin.
  repeat (destruct Hin as [[= <- <-]|Hin]; [vm_compute; repeat split; reflexivity|]).
  destruct Hin.
Qed.

Lemma flag_setIf (cond : bool) : NumFmt.flag (NumFmt.setIf cond) = cond.
Proof. destruct cond; reflexivity. Qed.

(** X19: [parseNumFormat] returns an object for every format string, with
    a number of decimal places that is not negative, and the flags of
    that object say what characters the string contains: the table of
    built-in formats adds a type and a currency symbol, and changes no
    flag. *)
Theorem parseNumFormat_flags_follow_text (numFmt : string) :
  exists info,
    NumFmt.parseNumFormat numFmt = Some info /\
    (exists d, NumFmt.decimalPlaces info = Some d /\ 0 <= d) /\
    NumFmt.flag (NumFmt.isPercent info) = Js.includes numFmt "%" /\
    NumFmt.flag (NumFmt.hasThousandsSeparator info) = Js.includes numFmt "," /\
    NumFmt.flag (NumFmt.isCurrency info) =
      (Js.includes numFmt "$" || Js.includes numFmt "¥" ||
       Js.includes numFmt "€" || Js.includes numFmt "£") /\
    NumFmt.flag (NumFmt.isScientific info) =
      (Js.includes (Js.toUpperCase numFmt) "E+" || Js.includes (Js.toUpperCase numFmt) "E-") /\
    NumFmt.flag (NumFmt.hasNegativeFormat info) =
      (Js.includes numFmt "[Red]" || (Js.includes numFmt "(" && Js.includes numFmt ")")).
Proof.
  assert (Hscan :
    (exists d, NumFmt.decimalPlaces (NumFmt.scan numFmt) = Some d /\ 0 <= d) /\
    NumFmt.flag (NumFmt.isPercent (NumFmt.scan numFmt)) = Js.includes numFmt "%" /\
    NumFmt.flag (NumFmt.hasThousandsSeparator (NumFmt.scan numFmt)) = Js.includes numFmt "," /\
    NumFmt.flag (NumFmt.isCurrency (NumFmt.scan numFmt)) =
      (Js.includes numFmt "$" || Js.includes numFmt "¥" ||
       Js.includes numFmt "€" || Js.includes numFmt "£") /\
    NumFmt.flag (NumFmt.isScientific (NumFmt.scan numFmt)) =
      (Js.includes (Js.toUpperCase numFmt) "E+" || Js.includes (Js.toUpperCase numFmt) "E-") /\
    NumFmt.flag (NumFmt.hasNegativeFormat (NumFmt.scan numFmt)) =
      (Js.includes numFmt "[Red]" || (Js.includes numFmt "(" && Js.includes numFmt ")"))).
  { unfold NumFmt.scan.
    cbn [NumFmt.decimalPlaces NumFmt.isPercent NumFmt.hasThousandsSeparator NumFmt.isCurrency
         NumFmt.isScientific NumFmt.hasNegativeFormat].
    rewrite !flag_setIf. split; [|repeat split; reflexivity].
    destruct (Regex.exec NumFmt.decimalRegex numFmt); eexists; (split; [reflexivity|lia]). }
  unfold NumFmt.parseNumFormat. cbv zeta.
  destruct (NumFmt.lookupBuiltIn numFmt) as [row|] eqn:Hrow.
  - eexists. split; [reflexivity|].
    unfold NumFmt.lookupBuiltIn in Hrow.
    destruct (List.find _ NumFmt.builtInFormats) as [[key row']|] eqn:Hfind; [|discriminate].
    cbn in Hrow. injection Hrow as ->.
    apply List.find_some in Hfind as [Hin Hkey]. cbn in Hkey.
    apply String.eqb_eq in Hkey. subst key.
    destruct (builtIn_rows_agree numFmt row Hin) as (A1 & A2 & A3 & A4 & A5 & A6 & A7).
    cbv zeta in *. rewrite A1, A2, A3, A4, A6, A7. exact Hscan.
  - assert (Hkeys : NumFmt.hasKeys (NumFmt.scan numFmt) = true).
    { destruct Hscan as [(d & Hd & _) _]. unfold NumFmt.hasKeys. rewrite Hd.
      destruct (NumFmt.present (NumFmt.type_ (NumFmt.scan numFmt))); reflexivity. }
    rewrite Hkeys. eexists. split; [reflexivity|exact Hscan].
Qed.

(** X20: on the keys of the table of built-in formats, [isDateFormat]
    says yes exactly for the rows that the table marks as dates or
    times. *)
Theorem isDateFormat_agrees_with_table (key : string) (row : NumFmt.FormatInfo) :
  In (key, row) NumFmt.builtInFormats ->
  DateFormat.isDateFormat key = NumFmt.flag (NumFmt.isDateTime row).
Proof.
  intros Hin. unfold NumFmt.builtInFormats in Hin.
  repeat (destruct Hin as [[= <- <-]|Hin]; [vm_compute; reflexivity|]).
  destruct Hin.
Qed.

Lemma isDateFormat_agrees_with_table_witness :
  In ("d-mmm-yy", NumFmt.temporal "date") NumFmt.builtInFormats /\
  DateFormat.isDateFormat "d-mmm-yy" = NumFmt.flag (NumFmt.isDateTime (NumFmt.temporal "date")).
Proof.
  assert (Hin : In ("d-mmm-yy", NumFmt.temporal "date") NumFmt.builtInFormats)
    by (unfold NumFmt.builtInFormats; do 32 right; left; reflexivity).
  split; [exact Hin|]. exact (isDateFormat_agrees_with_table _ _ Hin).
Defined.

(** ** Further properties of the cell mapper *)

Section SheetShape.

Context {Color OtherStyle OtherKeys Content Obj RichDoc : Type}.
Variable parseExcelColor : Color -> option string.
Variable convertOther : OtherStyle -> option OtherKeys.
Variable getCellValue : @Sheets.Cell Color OtherStyle Content -> @Sheets.JsValue Obj.
Variable getOriginalCellValue : @Sheets.Cell Color OtherStyle Content -> @Sheets.JsValue Obj.
Variable convertRichText : Content -> RichDoc.
Variable hyperlinkOf : Content -> string * string.
Variable nanoid : nat -> string.
Variable tokensDrawn : @Sheets.Worksheet Color OtherStyle Content -> nat.

Local Abbreviation CellMap := (gmap Z (gmap Z (@Sheets.CellData OtherKeys Obj RichDoc))).
Local Abbreviation processCell :=
  (Sheets.processCell parseExcelColor convertOther getCellValue getOriginalCellValue
     convertRichText hyperlinkOf).
Local Abbreviation processRow :=
  (Sheets.processRow parseExcelColor convertOther getCellValue getOriginalCellValue
     convertRichText hyperlinkOf).
Local Abbreviation buildCellValue :=
  (Sheets.buildCellValue parseExcelColor convertOther convertRichText hyperlinkOf).
Local Abbreviation applyMergeBorder :=
  (Sheets.applyMergeBorder (OtherKeys:=OtherKeys) (Obj:=Obj) (RichDoc:=RichDoc) parseExcelColor).
Local Abbreviation processMerge :=
  (Sheets.processMerge (OtherKeys:=OtherKeys) (Obj:=Obj) (RichDoc:=RichDoc) parseExcelColor).
Local Abbreviation convertSheet :=
  (Sheets.convertSheet parseExcelColor convertOther getCellValue getOriginalCellValue
     convertRichText hyperlinkOf).
Local Abbreviation forEachFrom :=
  (Sheets.forEachFrom parseExcelColor convertOther getCellValue getOriginalCellValue
     convertRichText hyperlinkOf nanoid tokensDrawn).
Local Abbreviation importSheets :=
  (Sheets.importSheets parseExcelColor convertOther getCellValue getOriginalCellValue
     convertRichText hyperlinkOf nanoid tokensDrawn).

(** *** What holds of every cell record *)

Section CellInvariant.

(** A property of cell records that holds of a record with a style
    only and of the record built for a cell, and that does not depend on the
    style of a record. *)
Variable P : @Sheets.CellData OtherKeys Obj RichDoc -> Prop.
Hypothesis P_style_only :
  forall style, P {| Sheets.v := None; Sheets.t := None; Sheets.f := None; Sheets.p := None;
                     Sheets.link := None; Sheets.s := Some style |}.
Hypothesis P_built : forall cell rawValue, P (buildCellValue cell rawValue).
Hypothesis P_restyled :
  forall cell style,
    P cell ->
    P {| Sheets.v := Sheets.v cell; Sheets.t := Sheets.t cell; Sheets.f := Sheets.f cell;
         Sheets.p := Sheets.p cell; Sheets.link := Sheets.link cell; Sheets.s := Some style |}.

Lemma allCells_putCell (cd : CellMap) (row col : Z) (cell : Sheets.CellData) :
  SheetFacts.allCells P cd -> P cell ->
  SheetFacts.allCells P (Sheets.putCell row col cell (Sheets.ensureRow row cd)).
Proof.
  intros Hcd Hcell r c cell'. rewrite lookupCell_putCell, lookupCell_ensureRow.
  case_decide; [intros [= <-]; exact Hcell|apply Hcd].
Qed.

Lemma allCells_processCell (cd : CellMap) (row col : Z) (cell : Sheets.Cell) :
  SheetFacts.allCells P cd -> SheetFacts.allCells P (processCell row col cell cd).
Proof.
  intros Hcd. unfold Sheets.processCell.
  destruct (Sheets.isType (Sheets.type cell) Sheets.Null).
  { destruct (Sheets.cellStyle cell ≫= _) as [style|]; [|exact Hcd].
    apply allCells_putCell; [exact Hcd|apply P_style_only]. }
  destruct (_ && Sheets.isDispImg _); [exact Hcd|]. cbv zeta.
  destruct (negb _ && negb _); [exact Hcd|].
  destruct (Sheets.hasKeys _).
  - apply allCells_putCell; [exact Hcd|apply P_built].
  - intros r c cell'. rewrite lookupCell_ensureRow. apply Hcd.
Qed.

Lemma allCells_setCellEdge (cd : CellMap) (e : Sheets.Edge) (x : Sheets.UBorder) (row col : Z) :
  SheetFacts.allCells P cd -> SheetFacts.allCells P (Sheets.setCellEdge e x row col cd).
Proof.
  intros Hcd r c cell. rewrite lookupCell_setCellEdge.
  case_decide; [|apply Hcd].
  intros [= <-]. cbv zeta.
  destruct (Sheets.lookupCell cd row col) as [old|] eqn:Eold; cbn [default].
  - apply P_restyled. eapply Hcd, Eold.
  - apply P_style_only.
Qed.

Lemma allCells_edge_loop (e : Sheets.Edge) (x : Sheets.UBorder)
    (at_ : Z -> Z * Z) (indices : list Z) (cd : CellMap) :
  SheetFacts.allCells P cd ->
  SheetFacts.allCells P
    (fold_left (fun cd i => Sheets.setCellEdge e x (fst (at_ i)) (snd (at_ i)) cd) indices cd).
Proof.
  revert cd. induction indices as [|i indices IH]; intros cd Hcd; cbn [fold_left]; [exact Hcd|].
  apply IH, allCells_setCellEdge, Hcd.
Qed.

Lemma allCells_applyMergeBorder (border : @Sheets.Borders Color) (g : Sheets.MergeRegion)
    (cd : CellMap) :
  SheetFacts.allCells P cd -> SheetFacts.allCells P (applyMergeBorder border g cd).
Proof.
  intros Hcd. unfold Sheets.applyMergeBorder. cbv zeta.
  destruct (Sheets.bright border) as [b4|].
  1: apply (allCells_edge_loop Sheets.right _ (fun row => (row, Sheets.endColumn g))).
  all: destruct (Sheets.bleft border) as [b3|].
  all: try apply (allCells_edge_loop Sheets.left _ (fun row => (row, Sheets.startColumn g))).
  all: destruct (Sheets.bbottom border) as [b2|].
  all: try apply (allCells_edge_loop Sheets.bottom _ (fun col => (Sheets.endRow g, col))).
  all: destruct (Sheets.btop border) as [b1|].
  all: try apply (allCells_edge_loop Sheets.top _ (fun col => (Sheets.startRow g, col))).
  all: exact Hcd.
Qed.

Lemma allCells_convertSheet (sheetKey : string) (sheetIndex : nat)
    (ws : @Sheets.Worksheet Color OtherStyle Content) :
  SheetFacts.allCells P (Sheets.cellData (convertSheet sheetKey sheetIndex ws)).
Proof.
  unfold Sheets.convertSheet. cbn [Sheets.cellData].
  assert (Hrows : SheetFacts.allCells P
                    (fold_left (fun cd row => processRow row cd) (Sheets.rows ws) ∅)).
  { generalize (Sheets.rows ws). intros rows.
    assert (Hgen : forall cd, SheetFacts.allCells P cd ->
              SheetFacts.allCells P (fold_left (fun cd row => processRow row cd) rows cd)).
    { induction rows as [|row rows IH]; intros cd Hcd; cbn [fold_left]; [exact Hcd|].
      apply IH. unfold Sheets.processRow. generalize (Sheets.cells row). intros cells.
      revert cd Hcd. induction cells as [|[colNumber cell] cells IHc]; intros cd Hcd;
        cbn [fold_left]; [exact Hcd|].
      apply IHc, allCells_processCell, Hcd. }
    apply Hgen. intros r c cell. unfold Sheets.lookupCell. rewrite lookup_empty. discriminate. }
  revert Hrows. generalize (fold_left (fun cd row => processRow row cd) (Sheets.rows ws) ∅).
  generalize (Sheets.merges ws) at 1. intros merges.
  induction merges as [|m merges IH]; intros cd Hcd; cbn [fold_left]; [exact Hcd|].
  apply IH. unfold Sheets.processMerge.
  destruct (Sheets.masterBorder ws m); [apply allCells_applyMergeBorder|]; exact Hcd.
Qed.

End CellInvariant.

(** *** Formulas and type codes *)

Lemma startsWith_equals (text : string) :
  Js.startsWith (if Js.startsWith text "=" then text else "=" +:+ text) "=" = true.
Proof.
  destruct (Js.startsWith text "=") eqn:E; [exact E|].
  rewrite append_cons. destruct text; reflexivity.
Qed.

Lemma getCellType_code (cell : @Sheets.Cell Color OtherStyle Content)
    (actualValue : @Sheets.JsValue Obj) (code : Z) :
  Sheets.getCellType cell actualValue = Some code -> code = 1 \/ code = 2 \/ code = 3.
Proof.
  unfold Sheets.getCellType.
  repeat match goal with
         | |- context [if ?b then _ else _] => destruct b
         | |- context [match ?x with _ => _ end] => destruct x
         end; intros [= <-]; auto.
Qed.

Lemma buildCellValue_well_formed (cell : @Sheets.Cell Color OtherStyle Content)
    (rawValue : @Sheets.JsValue Obj) :
  SheetFacts.formulaMarked (buildCellValue cell rawValue) /\
  SheetFacts.typedValue (buildCellValue cell rawValue).
Proof.
  split.
  - intros text. unfold Sheets.buildCellValue. cbn [Sheets.f].
    destruct (Sheets.isType (Sheets.type cell) Sheets.Formula); [|discriminate].
    destruct (Sheets.formula cell) as [[|a formula]|]; try discriminate.
    intros [= <-]. exact (startsWith_equals (String a formula)).
  - intros code. unfold Sheets.buildCellValue, Sheets.hasValue. cbn [Sheets.t Sheets.v].
    destruct (Sheets.nonEmpty rawValue) eqn:Ev; [|discriminate].
    intros Hcode. split; [eapply getCellType_code, Hcode|].
    cbn [orb]. eauto.
Qed.

(** X21: in every sheet that the import produces, the formula of a cell
    record starts with the equals sign, and a record has a type code only
    together with a value, the code being 1, 2 or 3. *)
Theorem cell_records_well_formed (worksheets : list (option Sheets.Worksheet))
    (key : string) (sheet : Sheets.Sheet) (r c : Z) (cell : Sheets.CellData) :
  Sheets.sheets (importSheets worksheets) !! key = Some sheet ->
  Sheets.lookupCell (Sheets.cellData sheet) r c = Some cell ->
  (forall text, Sheets.f cell = Some text -> Js.startsWith text "=" = true) /\
  (forall code, Sheets.t cell = Some code ->
     (code = 1 \/ code = 2 \/ code = 3) /\ Sheets.hasValue cell).
Proof.
  intros Hsheet Hcell.
  apply (forEachFrom_sheets_origin parseExcelColor convertOther getCellValue
           getOriginalCellValue convertRichText hyperlinkOf nanoid tokensDrawn)
    in Hsheet as [Hold|(i & ws & ->)].
  { cbn in Hold. rewrite lookup_empty in Hold. discriminate. }
  apply (allCells_convertSheet
           (fun cell => SheetFacts.formulaMarked cell /\ SheetFacts.typedValue cell))
    in Hcell; [exact Hcell|..].
  - intros style. split; intros x; discriminate.
  - apply buildCellValue_well_formed.
  - intros old style [Hf Ht]. split; [exact Hf|].
    intros code Hcode. destruct (Ht code Hcode) as [H1 H2]. split; [exact H1|exact H2].
Qed.

(** *** The keys of the workbook and the shape of a sheet *)

Lemma nameOrDefault_nonempty (ws : @Sheets.Worksheet Color OtherStyle Content) (sheetIndex : nat) :
  Sheets.escapeSheetName (Sheets.nameOrDefault ws sheetIndex) <> EmptyString.
Proof.
  unfold Sheets.escapeSheetName, Sheets.nameOrDefault.
  destruct (String.eqb (Sheets.name ws) "") eqn:E.
  - rewrite append_cons. cbn [String.eqb]. discriminate.
  - rewrite E. intros Heq. rewrite Heq in E. discriminate.
Qed.

Lemma forEachFrom_keys (worksheets : list (option Sheets.Worksheet)) :
  forall (sheetIndex : nat) (wb : @Sheets.Workbook OtherKeys Obj RichDoc),
    (forall key, In key (Sheets.sheetOrder wb) <-> is_Some (Sheets.sheets wb !! key)) ->
    forall key,
      In key (Sheets.sheetOrder (forEachFrom sheetIndex worksheets wb)) <->
      is_Some (Sheets.sheets (forEachFrom sheetIndex worksheets wb) !! key).
Proof.
  induction worksheets as [|[ws|] worksheets IH]; intros sheetIndex wb Hwb; cbn [Sheets.forEachFrom].
  - exact Hwb.
  - apply IH. intros key. cbn [Sheets.processWorksheet Sheets.sheetOrder Sheets.sheets].
    rewrite in_app_iff, lookup_insert. cbn [In].
    case_decide as Hkey.
    + split; [eauto|]. intros _. right. left. exact Hkey.
    + rewrite <- Hwb. split; [intros [H|[H|[]]]; [exact H|congruence]|auto].
  - apply IH, Hwb.
Qed.

(** X22: the keys listed in [sheetOrder] are the keys under which a
    sheet is stored; a sheet is stored under its own [id], its name is
    not empty, and it has at least the default numbers of rows and of
    columns. *)
Theorem workbook_keys_and_sheets (worksheets : list (option Sheets.Worksheet)) (key : string) :
  (In key (Sheets.sheetOrder (importSheets worksheets)) <->
   is_Some (Sheets.sheets (importSheets worksheets) !! key)) /\
  (forall sheet,
     Sheets.sheets (importSheets worksheets) !! key = Some sheet ->
     Sheets.id sheet = key /\ Sheets.sheetName sheet <> EmptyString /\
     Sheets.DEFAULT_ROW_COUNT <= Sheets.rowCount sheet /\
     Sheets.DEFAULT_COLUMN_COUNT <= Sheets.columnCount sheet).
Proof.
  split.
  - apply forEachFrom_keys. intros key'. cbn. rewrite lookup_empty.
    split; [intros []|intros [x Hx]; discriminate].
  - intros sheet Hsheet.
    apply (forEachFrom_sheets_origin parseExcelColor convertOther getCellValue
             getOriginalCellValue convertRichText hyperlinkOf nanoid tokensDrawn)
      in Hsheet as [Hold|(i & ws & ->)].
    { cbn in Hold. rewrite lookup_empty in Hold. discriminate. }
    unfold Sheets.convertSheet.
    cbn [Sheets.id Sheets.sheetName Sheets.rowCount Sheets.columnCount].
    split; [reflexivity|]. split; [apply nameOrDefault_nonempty|]. lia.
Qed.

(** *** Where the cell records are *)

Section Positions.

(** A set of positions [area] that [cellData] stays inside. *)
Variable area : Z -> Z -> Prop.

Local Abbreviation inside := (SheetFacts.inside area).

Lemma inside_processCell (cd : CellMap) (row col : Z) (cell : Sheets.Cell) :
  area row col -> inside cd -> inside (processCell row col cell cd).
Proof.
  intros Hpos Hcd. unfold Sheets.processCell.
  assert (Hput : forall x, inside (Sheets.putCell row col x (Sheets.ensureRow row cd))).
  { intros x r c cell'. rewrite lookupCell_putCell, lookupCell_ensureRow.
    case_decide as Heq; [intros _; destruct Heq as [<- <-]; exact Hpos|apply Hcd]. }
  destruct (Sheets.isType (Sheets.type cell) Sheets.Null).
  { destruct (Sheets.cellStyle cell ≫= _) as [style|]; [apply Hput|exact Hcd]. }
  destruct (_ && Sheets.isDispImg _); [exact Hcd|]. cbv zeta.
  destruct (negb _ && negb _); [exact Hcd|].
  destruct (Sheets.hasKeys _); [apply Hput|].
  intros r c cell'. rewrite lookupCell_ensureRow. apply Hcd.
Qed.

Lemma inside_edge_loop (e : Sheets.Edge) (x : Sheets.UBorder)
    (at_ : Z -> Z * Z) (indices : list Z) (cd : CellMap) :
  (forall i, In i indices -> area (fst (at_ i)) (snd (at_ i))) ->
  inside cd ->
  inside (fold_left (fun cd i => Sheets.setCellEdge e x (fst (at_ i)) (snd (at_ i)) cd)
                    indices cd).
Proof.
  revert cd. induction indices as [|i indices IH]; intros cd Hpos Hcd; cbn [fold_left];
    [exact Hcd|].
  apply IH; [intros j Hj; apply Hpos; right; exact Hj|].
  intros r c cell. rewrite lookupCell_setCellEdge.
  case_decide as Heq; [|apply Hcd].
  intros _. destruct Heq as [<- <-]. apply Hpos. left. reflexivity.
Qed.

End Positions.

Lemma maxRowOf_bound (rows : list (@Sheets.Row Color OtherStyle Content)) :
  forall (m : Z) (row : Sheets.Row),
    In row rows ->
    Sheets.rowNumber row - 1 <= fold_left (fun m row => Z.max m (Sheets.rowNumber row - 1)) rows m.
Proof.
  assert (Hmono : forall rows m,
             m <= fold_left (fun m (row : @Sheets.Row Color OtherStyle Content) =>
                               Z.max m (Sheets.rowNumber row - 1)) rows m).
  { intros rows'. induction rows' as [|row0 rows' IH]; intros m; cbn [fold_left]; [lia|].
    specialize (IH (Z.max m (Sheets.rowNumber row0 - 1))). lia. }
  induction rows as [|row0 rows IH]; intros m row Hin; [destruct Hin|].
  cbn [fold_left]. destruct Hin as [->|Hin]; [|apply IH, Hin].
  specialize (Hmono rows (Z.max m (Sheets.rowNumber row - 1))). lia.
Qed.

Lemma maxColOf_bound (rows : list (@Sheets.Row Color OtherStyle Content)) :
  forall (m : Z) (row : Sheets.Row) (colNumber : Z) (cell : Sheets.Cell),
    In row rows -> In (colNumber, cell) (Sheets.cells row) ->
    colNumber - 1 <=
    fold_left (fun m row =>
                 fold_left (fun m' x => Z.max m' (fst x - 1)) (Sheets.cells row) m)
              rows m.
Proof.
  assert (Hcells : forall (cells : list (Z * @Sheets.Cell Color OtherStyle Content)) m,
             m <= fold_left (fun m' x => Z.max m' (fst x - 1)) cells m).
  { intros cells. induction cells as [|x cells IH]; intros m; cbn [fold_left]; [lia|].
    specialize (IH (Z.max m (fst x - 1))). lia. }
  assert (Hcell : forall (cells : list (Z * @Sheets.Cell Color OtherStyle Content)) m x,
             In x cells -> fst x - 1 <= fold_left (fun m' x => Z.max m' (fst x - 1)) cells m).
  { intros cells. induction cells as [|y cells IH]; intros m x Hin; [destruct Hin|].
    cbn [fold_left]. destruct Hin as [->|Hin]; [|apply IH, Hin].
    specialize (Hcells cells (Z.max m (fst x - 1))). lia. }
  assert (Hmono : forall rows m,
             m <= fold_left (fun m (row : @Sheets.Row Color OtherStyle Content) =>
                               fold_left (fun m' x => Z.max m' (fst x - 1)) (Sheets.cells row) m)
                            rows m).
  { intros rows'. induction rows' as [|row0 rows' IH]; intros m; cbn [fold_left]; [lia|].
    specialize (IH (fold_left (fun m' x => Z.max m' (fst x - 1)) (Sheets.cells row0) m)).
    specialize (Hcells (Sheets.cells row0) m). lia. }
  induction rows as [|row0 rows IH]; intros m row colNumber cell Hrow Hin; [destruct Hrow|].
  cbn [fold_left]. destruct Hrow as [->|Hrow]; [|eapply IH; eassumption].
  specialize (Hcell (Sheets.cells row) m (colNumber, cell) Hin). cbn [fst] in Hcell.
  specialize (Hmono rows (fold_left (fun m' x => Z.max m' (fst x - 1)) (Sheets.cells row) m)).
  lia.
Qed.

(** X23: a cell record of a sheet lies inside the sheet, that is before
    its [rowCount] and its [columnCount], or in a merged region. *)
Theorem cell_records_inside_sheet (sheetKey : string) (sheetIndex : nat)
    (ws : @Sheets.Worksheet Color OtherStyle Content) (r c : Z) (cell : Sheets.CellData) :
  Forall Sheets.wellFormed (Sheets.merges ws) ->
  let sheet := convertSheet sheetKey sheetIndex ws in
  Sheets.lookupCell (Sheets.cellData sheet) r c = Some cell ->
  (r < Sheets.rowCount sheet /\ c < Sheets.columnCount sheet) \/
  (exists m, In m (Sheets.merges ws) /\ Sheets.inRegion (Sheets.regionOf m) r c).
Proof.
  intros Hwf sheet. subst sheet. unfold Sheets.convertSheet.
  cbn [Sheets.cellData Sheets.rowCount Sheets.columnCount].
  set (area := fun r c : Z =>
         (r < Z.max Sheets.DEFAULT_ROW_COUNT (Sheets.maxRowOf ws + 1) /\
          c < Z.max Sheets.DEFAULT_COLUMN_COUNT (Sheets.maxColOf ws + 1)) \/
         (exists m, In m (Sheets.merges ws) /\ Sheets.inRegion (Sheets.regionOf m) r c)).
  assert (Hrows : SheetFacts.inside area (fold_left (fun cd row => processRow row cd) (Sheets.rows ws) ∅)).
  { assert (Hgen : forall rows cd,
               (forall row, In row rows -> In row (Sheets.rows ws)) ->
               SheetFacts.inside area cd -> SheetFacts.inside area (fold_left (fun cd row => processRow row cd) rows cd)).
    { induction rows as [|row rows IH]; intros cd Hsub Hcd; cbn [fold_left]; [exact Hcd|].
      apply IH; [intros row' Hin; apply Hsub; right; exact Hin|].
      assert (Hrow : In row (Sheets.rows ws)) by (apply Hsub; left; reflexivity).
      unfold Sheets.processRow.
      assert (Hcells : forall cells cd,
                 (forall x, In x cells -> In x (Sheets.cells row)) ->
                 SheetFacts.inside area cd ->
                 SheetFacts.inside area (fold_left
                             (fun cd '(colNumber, cell) =>
                                processCell (Sheets.rowNumber row - 1) (colNumber - 1) cell cd)
                             cells cd)).
      { induction cells as [|[colNumber cell0] cells IHc]; intros cd0 Hsubc Hcd0;
          cbn [fold_left]; [exact Hcd0|].
        apply IHc; [intros x Hin; apply Hsubc; right; exact Hin|].
        apply inside_processCell; [|exact Hcd0].
        left. unfold Sheets.maxRowOf, Sheets.maxColOf.
        pose proof (maxRowOf_bound (Sheets.rows ws) 0 row Hrow).
        pose proof (maxColOf_bound (Sheets.rows ws) 0 row colNumber cell0 Hrow
                      (Hsubc _ (or_introl eq_refl))).
        lia. }
      apply Hcells; [auto|exact Hcd]. }
    apply Hgen; [auto|].
    intros r0 c0 cell0. unfold Sheets.lookupCell. rewrite lookup_empty. discriminate. }
  revert Hrows. generalize (fold_left (fun cd row => processRow row cd) (Sheets.rows ws) ∅).
  assert (Hgen : forall merges (cd : CellMap),
             (forall m, In m merges -> In m (Sheets.merges ws)) ->
             SheetFacts.inside area cd -> SheetFacts.inside area (fold_left (fun cd m => processMerge ws m cd) merges cd)).
  { induction merges as [|m merges IH]; intros cd Hsub Hcd; cbn [fold_left]; [exact Hcd|].
    apply IH; [intros m' Hin; apply Hsub; right; exact Hin|].
    assert (Hm : In m (Sheets.merges ws)) by (apply Hsub; left; reflexivity).
    assert (Hwfm : Sheets.wellFormed m).
    { rewrite Forall_forall in Hwf. apply Hwf, list_elem_of_In, Hm. }
    unfold Sheets.wellFormed in Hwfm.
    assert (Hin : forall r0 c0, Sheets.inRegion (Sheets.regionOf m) r0 c0 -> area r0 c0).
    { intros r0 c0 Hreg. right. exists m. split; [exact Hm|exact Hreg]. }
    unfold Sheets.processMerge. destruct (Sheets.masterBorder ws m) as [border|]; [|exact Hcd].
    unfold Sheets.applyMergeBorder. cbv zeta.
    set (g := Sheets.regionOf m) in *.
    assert (Hg : Sheets.startRow g <= Sheets.endRow g /\ Sheets.startColumn g <= Sheets.endColumn g).
    { subst g. unfold Sheets.regionOf. cbn. lia. }
    clearbody g.
    destruct (Sheets.bright border) as [b4|].
    1: apply (inside_edge_loop area Sheets.right _ (fun row => (row, Sheets.endColumn g)));
       [intros i Hi; apply In_range in Hi; apply Hin; unfold Sheets.inRegion; cbn; lia|].
    all: destruct (Sheets.bleft border) as [b3|].
    all: try (apply (inside_edge_loop area Sheets.left _ (fun row => (row, Sheets.startColumn g)));
              [intros i Hi; apply In_range in Hi; apply Hin; unfold Sheets.inRegion; cbn; lia|]).
    all: destruct (Sheets.bbottom border) as [b2|].
    all: try (apply (inside_edge_loop area Sheets.bottom _ (fun col => (Sheets.endRow g, col)));
              [intros i Hi; apply In_range in Hi; apply Hin; unfold Sheets.inRegion; cbn; lia|]).
    all: destruct (Sheets.btop border) as [b1|].
    all: try (apply (inside_edge_loop area Sheets.top _ (fun col => (Sheets.startRow g, col)));
              [intros i Hi; apply In_range in Hi; apply Hin; unfold Sheets.inRegion; cbn; lia|]).
    all: exact Hcd. }
  intros cd Hcd Hcell. exact (Hgen (Sheets.merges ws) cd (fun m H => H) Hcd r c cell Hcell).
Qed.

End SheetShape.

Lemma cell_records_well_formed_witness :
  exists sheet cell,
    Sheets.sheets Ledger.imported !! "sheet-0" = Some sheet /\
    Sheets.lookupCell (Sheets.cellData sheet) 1 2 = Some cell /\
    Sheets.f cell = Some "=SUM(C1:C1)" /\
    Sheets.t cell = Some 2 /\
    (forall text, Sheets.f cell = Some text -> Js.startsWith text "=" = true) /\
    (forall code, Sheets.t cell = Some code ->
       (code = 1 \/ code = 2 \/ code = 3) /\ Sheets.hasValue cell).
Proof.
  destruct (Sheets.sheets Ledger.imported !! "sheet-0") as [sheet|] eqn:Hsheet;
    [|vm_compute in Hsheet; discriminate].
  destruct (Sheets.lookupCell (Sheets.cellData sheet) 1 2) as [cell|] eqn:Hcell;
    [|vm_compute in Hsheet; injection Hsheet as <-; vm_compute in Hcell; discriminate].
  exists sheet, cell. split; [reflexivity|]. split; [exact Hcell|].
  split; [vm_compute in Hsheet; injection Hsheet as <-; vm_compute in Hcell;
          injection Hcell as <-; reflexivity|].
  split; [vm_compute in Hsheet; injection Hsheet as <-; vm_compute in Hcell;
          injection Hcell as <-; reflexivity|].
  exact (cell_records_well_formed Samples.parseExcelColor Samples.convertOther
           Samples.getCellValue Samples.getCellValue Samples.convertRichText
           Samples.hyperlinkOf Samples.nanoid Samples.tokensDrawn
           [Some Ledger.worksheet] "sheet-0" sheet 1 2 cell Hsheet Hcell).
Defined.

Lemma cell_records_inside_sheet_witness :
  let sheet := Sheets.convertSheet Samples.parseExcelColor Samples.convertOther
                 Samples.getCellValue Samples.getCellValue Samples.convertRichText
                 Samples.hyperlinkOf "sheet-0" 0 Samples.worksheet in
  Forall Sheets.wellFormed (Sheets.merges Samples.worksheet) /\
  exists cell,
    Sheets.lookupCell (Sheets.cellData sheet) 0 1 = Some cell /\
    ((0 < Sheets.rowCount sheet /\ 1 < Sheets.columnCount sheet) \/
     (exists m, In m (Sheets.merges Samples.worksheet) /\
                Sheets.inRegion (Sheets.regionOf m) 0 1)).
Proof.
  intros sheet.
  assert (Hwf : Forall Sheets.wellFormed (Sheets.merges Samples.worksheet)).
  { repeat constructor; simpl; lia. }
  split; [exact Hwf|].
  destruct (Sheets.lookupCell (Sheets.cellData sheet) 0 1) as [cell|] eqn:Hcell;
    [|vm_compute in Hcell; discriminate].
  exists cell. split; [reflexivity|].
  exact (cell_records_inside_sheet Samples.parseExcelColor Samples.convertOther
           Samples.getCellValue Samples.getCellValue Samples.convertRichText
           Samples.hyperlinkOf "sheet-0" 0 Samples.worksheet 0 1 cell Hwf Hcell).
Defined.

(** ** Serial numbers: from a serial to a date and back *)

(** X24: the date that [excelSerialToDate] gives for a whole serial is
    the UTC midnight of a day; if its local year lies in 1900..2100,
    [dateToExcelSerial] gives the serial back in a zone at or east of UTC
    (an offset from 0 to 24 hours, 24 excluded), and the serial before in
    a zone west of UTC: in general the serial plus the whole days of the
    offset, rounded down. *)
Theorem serial_date_serial_roundtrip (offsetAtUTC : Z -> Z) (n t : Z) :
  DateEngine.excelSerialToDate (DateEngine.Int n) = Some t ->
  (exists y, DateEngine.getFullYear offsetAtUTC (Some t) = Some y /\ 1900 <= y <= 2100) ->
  DateEngine.dateToExcelSerial offsetAtUTC (Some t) =
    DateEngine.Int (n + offsetAtUTC t / DateEngine.msPerDay) /\
  (0 <= offsetAtUTC t < DateEngine.msPerDay ->
   DateEngine.dateToExcelSerial offsetAtUTC (Some t) = DateEngine.Int n) /\
  (- DateEngine.msPerDay <= offsetAtUTC t < 0 ->
   DateEngine.dateToExcelSerial offsetAtUTC (Some t) = DateEngine.Int (n - 1)).
Proof.
  intros Hdate (y & Hy & Hrange).
  unfold DateEngine.excelSerialToDate in Hdate. rewrite excelEpoch_value in Hdate.
  unfold DateEngine.TimeClip in Hdate.
  destruct (Z.abs (-2209161600000 + n * DateEngine.msPerDay) <=? 8640000000000000);
    [|discriminate].
  injection Hdate as Ht.
  unfold DateEngine.getFullYear in Hy. cbn [fmap option_fmap option_map] in Hy.
  apply (inj Some) in Hy.
  assert (Hyear : 1900 <= fst (fst (DateEngine.civilFromDays
                     (DateEngine.Day (DateEngine.LocalTime offsetAtUTC t)))) <= 2100) by lia.
  pose proof (dateToExcelSerial_day offsetAtUTC t Hyear) as Hserial. cbv zeta in Hserial.
  assert (Hday : DateEngine.Day (DateEngine.LocalTime offsetAtUTC t) + 25569 =
                 n + offsetAtUTC t / DateEngine.msPerDay).
  { unfold DateEngine.Day, DateEngine.LocalTime. subst t.
    replace (-2209161600000 + n * DateEngine.msPerDay + offsetAtUTC (-2209161600000 + n * DateEngine.msPerDay))
      with (offsetAtUTC (-2209161600000 + n * DateEngine.msPerDay) + (n - 25569) * DateEngine.msPerDay)
      by (unfold DateEngine.msPerDay; lia).
    rewrite Z.div_add by (unfold DateEngine.msPerDay; lia). lia. }
  rewrite Hserial, Hday. split; [reflexivity|]. split; intros Hoff; f_equal.
  - rewrite Z.div_small by exact Hoff. lia.
  - assert (offsetAtUTC t / DateEngine.msPerDay = -1); [|lia].
    symmetry. apply (Z.div_unique _ _ _ (offsetAtUTC t + DateEngine.msPerDay)).
    + left. lia.
    + lia.
Qed.

Lemma serial_date_serial_roundtrip_witness :
  DateEngine.excelSerialToDate (DateEngine.Int 45306) = Some 1705276800000 /\
  DateEngine.dateToExcelSerial Samples.westOfUTC (Some 1705276800000) = DateEngine.Int 45305 /\
  DateEngine.dateToExcelSerial (fun _ => 28800000) (Some 1705276800000) = DateEngine.Int 45306.
Proof.
  split; [reflexivity|]. split.
  - apply (serial_date_serial_roundtrip Samples.westOfUTC 45306 1705276800000).
    + reflexivity.
    + exists 2024. split; [reflexivity|lia].
    + unfold Samples.westOfUTC, DateEngine.msPerDay. lia.
  - apply (serial_date_serial_roundtrip (fun _ => 28800000) 45306 1705276800000).
    + reflexivity.
    + exists 2024. split; [reflexivity|lia].
    + unfold DateEngine.msPerDay. lia.
Defined.

(** ** Dates written with numbers *)

(** *** [trim] on a text without white space *)

Lemma whiteSpaceWidth_ink (c : ascii) (s : string) :
  DateFacts.inkChar c = true -> Js.whiteSpaceWidth (String c s) = 0%nat.
Proof.
  unfold DateFacts.inkChar. intros [Hw Hlead]%andb_prop.
  apply negb_true_iff in Hw, Hlead. cbn [existsb] in Hlead.
  repeat (apply orb_false_elim in Hlead as [? Hlead]).
  cbn [Js.whiteSpaceWidth]. rewrite Hw.
  destruct s as [|b [|c' s]]; [reflexivity|..].
  - destruct (Js.charCode c =? 194) eqn:E; [congruence|reflexivity].
  - cbv zeta.
    repeat match goal with
           | H : (Js.charCode c =? ?k) = false |- _ => rewrite H; clear H
           end.
    reflexivity.
Qed.

Lemma trimStart_ink (c : ascii) (s : string) :
  DateFacts.inkChar c = true -> Js.trimStart (String c s) = String c s.
Proof.
  intros Hc. unfold Js.trimStart. cbn [String.length Js.trimStartFuel].
  rewrite whiteSpaceWidth_ink by exact Hc. reflexivity.
Qed.

Lemma trimEnd_ink (s : string) :
  Js.allChars DateFacts.inkChar s = true -> Js.trimEnd s = s.
Proof.
  induction s as [|c s IH]; [reflexivity|].
  cbn [Js.allChars]. intros [Hc Hs]%andb_prop.
  cbn [Js.trimEnd]. unfold Js.allWhiteSpace. rewrite trimStart_ink by exact Hc.
  rewrite IH by exact Hs. reflexivity.
Qed.

Lemma trim_ink (s : string) :
  Js.allChars DateFacts.inkChar s = true -> Js.trim s = s.
Proof.
  intros Hs. unfold Js.trim. destruct s as [|c s]; [reflexivity|].
  pose proof Hs as Hs'. cbn [Js.allChars] in Hs'. apply andb_prop in Hs' as [Hc _].
  rewrite trimStart_ink by exact Hc. apply trimEnd_ink, Hs.
Qed.

Lemma digit_ink (c : ascii) : Js.isDigit c = true -> DateFacts.inkChar c = true.
Proof.
  unfold Js.isDigit, DateFacts.inkChar, Js.whiteSpace1. cbn [existsb].
  intros [H1 H2]%andb_prop. apply Z.leb_le in H1, H2.
  repeat match goal with
         | |- context [?a <=? ?b] => destruct (Z.leb_spec a b); try lia
         | |- context [?a =? ?b] => destruct (Z.eqb_spec a b); try lia
         end.
  all: try reflexivity.
Qed.


(** *** The three patterns on a year, a month and a day *)

Lemma fourDigits_inv (s : string) :
  DateFacts.fourDigits s = true ->
  exists a b c d,
    s = String a (String b (String c (String d EmptyString))) /\
    Js.isDigit a = true /\ Js.isDigit b = true /\ Js.isDigit c = true /\ Js.isDigit d = true.
Proof.
  unfold DateFacts.fourDigits. intros [Hall Hlen]%andb_prop.
  destruct s as [|a [|b [|c [|d [|e s]]]]]; try discriminate.
  cbn [Js.allChars] in Hall.
  repeat (apply andb_prop in Hall as [? Hall]).
  exists a, b, c, d. auto.
Qed.

Lemma oneOrTwoDigits_inv (s : string) :
  DateFacts.oneOrTwoDigits s = true ->
  (exists a, s = String a EmptyString /\ Js.isDigit a = true) \/
  (exists a b, s = String a (String b EmptyString) /\
               Js.isDigit a = true /\ Js.isDigit b = true).
Proof.
  unfold DateFacts.oneOrTwoDigits. intros [Hall Hlen]%andb_prop.
  destruct s as [|a [|b [|c s]]]; try discriminate.
  - left. cbn [Js.allChars] in Hall. apply andb_prop in Hall as [? _]. eauto.
  - right. cbn [Js.allChars] in Hall. repeat (apply andb_prop in Hall as [? Hall]). eauto 6.
Qed.

(** The matcher is run on a text whose digits are not known: each test of
    a digit is answered by a hypothesis. *)
Ltac run_on_digits :=
  repeat (cbn;
          match goal with
          | H : ?p ?x = _ |- context [?p ?x] => rewrite H
          end);
  cbn.

Ltac unknown_digits :=
  unfold DateEngine.pattern1, DateEngine.pattern2, DateEngine.pattern3,
    DateEngine.num4, DateEngine.num12, Regex.digit, DateFacts.written;
  cbv [String.append];
  assert (Hsep1 : Js.isDigit "/" = false) by reflexivity;
  assert (Hsep2 : Js.isDigit "-" = false) by reflexivity;
  assert (Hsep3 : Js.isDigit "229" = false) by reflexivity;
  assert (Hsep4 : Js.isDigit "230" = false) by reflexivity;
  repeat match goal with
         | H : Js.isDigit _ = _ |- _ => revert H
         end;
  generalize Js.isDigit; intros p; intros.

Lemma patterns_on_written (n : DateFacts.Notation) (year month day : string) :
  DateFacts.fourDigits year = true ->
  DateFacts.oneOrTwoDigits month = true ->
  DateFacts.oneOrTwoDigits day = true ->
  let text := DateFacts.written n year month day in
  match n with
  | DateFacts.Slashes => DateFacts.reads DateEngine.pattern1 text year month day
  | DateFacts.Dashes =>
      Regex.exec DateEngine.pattern1 text = None /\
      DateFacts.reads DateEngine.pattern2 text year month day
  | DateFacts.Glyphs =>
      Regex.exec DateEngine.pattern1 text = None /\
      Regex.exec DateEngine.pattern2 text = None /\
      DateFacts.reads DateEngine.pattern3 text year month day
  end.
Proof.
  intros (a & b & c & d & -> & Ha & Hb & Hc & Hd)%fourDigits_inv Hm Hd'.
  apply oneOrTwoDigits_inv in Hm as [(e & -> & He)|(e & f & -> & He & Hf)];
    apply oneOrTwoDigits_inv in Hd' as [(g & -> & Hg)|(g & h & -> & Hg & Hh)];
    cbv zeta; unfold DateFacts.reads; destruct n;
    unknown_digits; run_on_digits;
    repeat split; try reflexivity;
    (eexists; split; [reflexivity|]; cbn; auto).
Qed.


(** *** The numbers that [parseInt] reads from digits *)

Lemma parseInt_fourDigits (s : string) :
  DateFacts.fourDigits s = true -> exists v, Js.parseInt s = Some v /\ 0 <= v < 10000.
Proof.
  unfold DateFacts.fourDigits. intros [Hall Hlen]%andb_prop. apply Nat.eqb_eq in Hlen.
  destruct (parseInt_digits s) as (v & Hv & Hr); [intros ->; discriminate|exact Hall|].
  rewrite Hlen in Hr. exists v. split; [exact Hv|exact Hr].
Qed.

Lemma parseInt_oneOrTwoDigits (s : string) :
  DateFacts.oneOrTwoDigits s = true -> exists v, Js.parseInt s = Some v /\ 0 <= v < 100.
Proof.
  unfold DateFacts.oneOrTwoDigits. intros [Hall Hlen]%andb_prop.
  destruct (parseInt_digits s) as (v & Hv & Hr); [intros ->; discriminate|exact Hall|].
  exists v. split; [exact Hv|].
  apply orb_prop in Hlen as [Hlen|Hlen]; apply Nat.eqb_eq in Hlen; rewrite Hlen in Hr;
    change (10 ^ Z.of_nat 1) with 10 in Hr; change (10 ^ Z.of_nat 2) with 100 in Hr; lia.
Qed.

(** *** [new Date(year, month, day)] on such numbers *)

Lemma daysFromCivil_bounds (y m d : Z) :
  -1 <= y <= 10010 -> 1 <= m <= 12 -> 0 <= d <= 100 ->
  -720000 <= DateEngine.daysFromCivil y m d <= 3000000.
Proof.
  intros Hy Hm Hd. unfold DateEngine.daysFromCivil. cbv zeta.
  destruct (m <=? 2) eqn:E1; destruct (2 <? m) eqn:E2;
    try apply Z.leb_le in E1; try apply Z.leb_gt in E1;
    try apply Z.ltb_lt in E2; try apply Z.ltb_ge in E2; try lia;
    Z.div_mod_to_equations; lia.
Qed.

Lemma newDate_valid (offsetAtLocal : Z -> Z) (y m d : Z) :
  (forall u, - DateEngine.msPerDay <= offsetAtLocal u <= DateEngine.msPerDay) ->
  0 <= y < 10000 -> 0 <= m < 100 -> 0 <= d < 100 ->
  exists t, DateEngine.newDate offsetAtLocal y (m - 1) d = Some t.
Proof.
  intros Hoff Hy Hm Hd. unfold DateEngine.newDate, DateEngine.TimeClip.
  set (day := DateEngine.MakeDay (DateEngine.fullYear y) (m - 1) d).
  assert (Hday : -730000 <= day <= 3100000).
  { subst day. unfold DateEngine.MakeDay.
    assert (Hfull : 0 <= DateEngine.fullYear y < 10000).
    { unfold DateEngine.fullYear. destruct ((0 <=? y) && (y <=? 99)) eqn:E; [|lia].
      apply andb_prop in E as [E1 E2]. apply Z.leb_le in E1, E2. lia. }
    pose proof (daysFromCivil_bounds (DateEngine.fullYear y + (m - 1) / 12)
                  ((m - 1) mod 12 + 1) 1) as Hb.
    assert (-1 <= (m - 1) / 12 <= 8) by (Z.div_mod_to_equations; lia).
    assert (0 <= (m - 1) mod 12 < 12) by (apply Z.mod_pos_bound; lia).
    specialize (Hb ltac:(lia) ltac:(lia) ltac:(lia)). lia. }
  unfold DateEngine.UTC, DateEngine.MakeDate. fold day.
  specialize (Hoff (day * DateEngine.msPerDay + 0)).
  unfold DateEngine.msPerDay in *.
  destruct (Z.leb_spec (Z.abs (day * (24 * 60 * 60 * 1000) + 0 -
                               offsetAtLocal (day * (24 * 60 * 60 * 1000) + 0)))
                       8640000000000000); [eauto|lia].
Qed.


(** *** [parseDateString] on a year, a month and a day *)

Lemma written_chars (P : ascii -> bool) (n : DateFacts.Notation) (year month day : string) :
  (forall c, Js.isDigit c = true -> P c = true) ->
  Js.allChars P "/-年月日" = true ->
  DateFacts.fourDigits year = true ->
  DateFacts.oneOrTwoDigits month = true ->
  DateFacts.oneOrTwoDigits day = true ->
  Js.allChars P (DateFacts.written n year month day) = true.
Proof.
  intros Hdigit Hsep [Hy _]%andb_prop [Hm _]%andb_prop [Hd _]%andb_prop.
  apply (allChars_weaken _ P _ Hdigit) in Hy, Hm, Hd.
  cbn [Js.allChars] in Hsep.
  repeat (apply andb_prop in Hsep as [? Hsep]).
  destruct n; unfold DateFacts.written; rewrite !allChars_app, Hy, Hm, Hd;
    cbn [Js.allChars andb];
    repeat match goal with
           | H : P ?c = true |- context [P ?c] => rewrite H
           end;
    reflexivity.
Qed.

Lemma written_nonempty (n : DateFacts.Notation) (year month day : string) :
  DateFacts.fourDigits year = true ->
  DateFacts.written n year month day <> EmptyString.
Proof.
  intros (a & b & c & d & -> & _)%fourDigits_inv.
  destruct n; unfold DateFacts.written; rewrite append_cons; discriminate.
Qed.

Lemma trim_written (n : DateFacts.Notation) (year month day : string) :
  DateFacts.fourDigits year = true ->
  DateFacts.oneOrTwoDigits month = true ->
  DateFacts.oneOrTwoDigits day = true ->
  Js.trim (DateFacts.written n year month day) = DateFacts.written n year month day.
Proof.
  intros Hy Hm Hd. apply trim_ink, written_chars; try assumption.
  - apply digit_ink.
  - reflexivity.
Qed.

Lemma tryPattern_reads (offsetAtLocal : Z -> Z) (r : Regex.regex)
    (text year month day : string) (y m d : Z) :
  DateFacts.reads r text year month day ->
  Js.parseInt year = Some y -> Js.parseInt month = Some m -> Js.parseInt day = Some d ->
  DateEngine.tryPattern offsetAtLocal r 1 2 3 text = DateEngine.newDate offsetAtLocal y (m - 1) d.
Proof.
  intros (res & Hexec & G1 & G2 & G3) Hy Hm Hd.
  unfold DateEngine.tryPattern. rewrite Hexec, G1, G2, G3.
  cbn [mbind option_bind]. rewrite Hy, Hm, Hd. reflexivity.
Qed.

Lemma tryPattern_no_match (offsetAtLocal : Z -> Z) (r : Regex.regex) (gy gm gd : nat)
    (text : string) :
  Regex.exec r text = None -> DateEngine.tryPattern offsetAtLocal r gy gm gd text = None.
Proof. intros H. unfold DateEngine.tryPattern. rewrite H. reflexivity. Qed.

Lemma parseDateString_written (offsetAtUTC offsetAtLocal : Z -> Z)
    (dateParse : string -> option Z) (n : DateFacts.Notation) (year month day : string)
    (y m d t : Z) :
  DateFacts.fourDigits year = true ->
  DateFacts.oneOrTwoDigits month = true ->
  DateFacts.oneOrTwoDigits day = true ->
  Js.parseInt year = Some y -> Js.parseInt month = Some m -> Js.parseInt day = Some d ->
  DateEngine.newDate offsetAtLocal y (m - 1) d = Some t ->
  DateEngine.parseDateString offsetAtUTC offsetAtLocal dateParse
    (Some (DateFacts.written n year month day)) = DateEngine.Return (Some t).
Proof.
  intros Hyear Hmonth Hday Hy Hm Hd Ht.
  pose proof (patterns_on_written n year month day Hyear Hmonth Hday) as Hread.
  cbv zeta in Hread.
  pose proof (trim_written n year month day Hyear Hmonth Hday) as Htrim.
  pose proof (written_nonempty n year month day Hyear) as Hne.
  unfold DateEngine.parseDateString.
  destruct (DateFacts.written n year month day) as [|c text] eqn:Etext; [congruence|].
  cbv zeta. rewrite Htrim.
  destruct n.
  - rewrite (tryPattern_reads offsetAtLocal _ _ _ _ _ y m d Hread Hy Hm Hd), Ht. reflexivity.
  - destruct Hread as [H1 Hread].
    rewrite (tryPattern_no_match _ _ _ _ _ _ H1).
    rewrite (tryPattern_reads offsetAtLocal _ _ _ _ _ y m d Hread Hy Hm Hd), Ht. reflexivity.
  - destruct Hread as (H1 & H2 & Hread).
    rewrite (tryPattern_no_match _ _ _ _ _ _ H1), (tryPattern_no_match _ _ _ _ _ _ H2).
    rewrite (tryPattern_reads offsetAtLocal _ _ _ _ _ y m d Hread Hy Hm Hd), Ht. reflexivity.
Qed.

(** X25: on four digits, one or two digits and one or two digits,
    written with slashes, with dashes or with the glyphs for year, month
    and day, [parseDateString] gives [new Date(year, month - 1, day)]
    for the numbers that the digits spell, in every time zone whose offset
    is no more than a day: a Date that is valid, whatever the month and the
    day, and without a call of the native parser. *)
Theorem parseDateString_reads_numbers (offsetAtUTC offsetAtLocal : Z -> Z)
    (dateParse : string -> option Z) (n : DateFacts.Notation) (year month day : string) :
  (forall u, - DateEngine.msPerDay <= offsetAtLocal u <= DateEngine.msPerDay) ->
  DateFacts.fourDigits year = true ->
  DateFacts.oneOrTwoDigits month = true ->
  DateFacts.oneOrTwoDigits day = true ->
  exists y m d t,
    Js.parseInt year = Some y /\ Js.parseInt month = Some m /\ Js.parseInt day = Some d /\
    DateEngine.newDate offsetAtLocal y (m - 1) d = Some t /\
    DateEngine.parseDateString offsetAtUTC offsetAtLocal dateParse
      (Some (DateFacts.written n year month day)) = DateEngine.Return (Some t).
Proof.
  intros Hoff Hyear Hmonth Hday.
  destruct (parseInt_fourDigits year Hyear) as (y & Hy & Hyr).
  destruct (parseInt_oneOrTwoDigits month Hmonth) as (m & Hm & Hmr).
  destruct (parseInt_oneOrTwoDigits day Hday) as (d & Hd & Hdr).
  destruct (newDate_valid offsetAtLocal y m d Hoff Hyr Hmr Hdr) as [t Ht].
  exists y, m, d, t. repeat (split; [assumption|]).
  apply parseDateString_written with (y := y) (m := m) (d := d); assumption.
Qed.

Lemma parseDateString_reads_numbers_witness :
  DateFacts.written DateFacts.Glyphs "2024" "02" "31" = "2024年02月31日" /\
  exists t,
    DateEngine.newDate Samples.westOfUTC 2024 1 31 = Some t /\
    DateEngine.getMonth Samples.westOfUTC (Some t) = Some 2 /\
    DateEngine.getDate Samples.westOfUTC (Some t) = Some 2 /\
    DateEngine.parseDateString Samples.westOfUTC Samples.westOfUTC (fun _ => None)
      (Some "2024年02月31日") = DateEngine.Return (Some t).
Proof.
  split; [reflexivity|].
  destruct (parseDateString_reads_numbers Samples.westOfUTC Samples.westOfUTC (fun _ => None)
              DateFacts.Glyphs "2024" "02" "31")
    as (y & m & d & t & Hy & Hm & Hd & Ht & Hparse).
  - intros u. unfold Samples.westOfUTC, DateEngine.msPerDay. lia.
  - reflexivity.
  - reflexivity.
  - reflexivity.
  - injection Hy as <-. injection Hm as <-. injection Hd as <-.
    exists t. split; [exact Ht|].
    vm_compute in Ht. injection Ht as <-.
    split; [reflexivity|]. split; [reflexivity|]. exact Hparse.
Defined.


(** *** From a date to its text and back *)

Lemma civilFromDays_day (z : Z) : 1 <= snd (DateEngine.civilFromDays z) <= 31.
Proof.
  unfold DateEngine.civilFromDays. cbv zeta. cbn [snd].
  Z.div_mod_to_equations. lia.
Qed.

Lemma MakeDay_civil (z : Z) :
  1900 <= fst (fst (DateEngine.civilFromDays z)) <= 2100 ->
  1 <= snd (fst (DateEngine.civilFromDays z)) <= 12 /\
  DateEngine.MakeDay (DateEngine.fullYear (fst (fst (DateEngine.civilFromDays z))))
                     (snd (fst (DateEngine.civilFromDays z)) - 1)
                     (snd (DateEngine.civilFromDays z)) = z.
Proof.
  intros Hy. pose proof (civilRoundTrip_in_range z Hy) as Hrt.
  unfold DateEngine.civilRoundTrip in Hrt.
  destruct (DateEngine.civilFromDays z) as [[y m] d].
  cbn [fst snd] in *.
  apply andb_prop in Hrt as [Hm Hback]. apply andb_prop in Hm as [Hm1 Hm12].
  apply Z.leb_le in Hm1, Hm12. apply Z.eqb_eq in Hback.
  split; [lia|].
  unfold DateEngine.fullYear.
  replace ((0 <=? y) && (y <=? 99)) with false
    by (symmetry; apply andb_false_intro2, Z.leb_gt; lia).
  unfold DateEngine.MakeDay.
  rewrite Z.div_small, Z.mod_small by lia.
  replace (y + 0) with y by lia. replace (m - 1 + 1) with m by lia.
  rewrite <- Hback. unfold DateEngine.daysFromCivil. lia.
Qed.

Lemma holds_on_range (p : Z -> bool) (lo len : Z) :
  forallb p (seqZ lo len) = true -> forall z, lo <= z < lo + len -> p z = true.
Proof.
  intros Hall z Hz. rewrite forallb_forall in Hall. apply Hall.
  apply list_elem_of_In, elem_of_seqZ. exact Hz.
Qed.

Lemma year_text (y : Z) :
  1900 <= y <= 2100 -> DateFacts.fourDigits (DateEngine.str y) = true.
Proof.
  intros Hy.
  apply (holds_on_range (fun y => DateFacts.fourDigits (DateEngine.str y)) 1900 201);
    [vm_compute; reflexivity|lia].
Qed.

Lemma field_text (padded : bool) (m : Z) :
  1 <= m <= 31 ->
  let text := (if padded then DateEngine.pad2 else DateEngine.str) m in
  DateFacts.oneOrTwoDigits text = true /\ Js.parseInt text = Some m.
Proof.
  intros Hm. cbv zeta.
  pose proof (holds_on_range
                (fun m => DateFacts.oneOrTwoDigits (DateEngine.str m) &&
                          DateFacts.oneOrTwoDigits (DateEngine.pad2 m) &&
                          match Js.parseInt (DateEngine.pad2 m) with
                          | Some v => v =? m
                          | None => false
                          end)
                1 31 ltac:(vm_compute; reflexivity) m ltac:(lia)) as Hp.
  cbv beta in Hp. apply andb_prop in Hp as [Hp H3]. apply andb_prop in Hp as [H1 H2].
  destruct padded.
  - split; [exact H2|].
    destruct (Js.parseInt (DateEngine.pad2 m)) as [v|]; [|discriminate].
    apply Z.eqb_eq in H3. congruence.
  - split; [exact H1|apply parseInt_numberToString].
Qed.

Lemma safeFormat_written (n : DateFacts.Notation) (year month day : string) :
  DateFacts.fourDigits year = true ->
  DateFacts.oneOrTwoDigits month = true ->
  DateFacts.oneOrTwoDigits day = true ->
  DateEngine.safeFormat (DateFacts.written n year month day) =
  DateFacts.written n year month day.
Proof.
  intros Hy Hm Hd.
  pose proof (written_chars
                (fun c => negb (Ascii.eqb c "N" || Ascii.eqb c "u" || Ascii.eqb c "n"))
                n year month day) as Hchars.
  cbv beta in Hchars.
  assert (Hall : Js.allChars
                   (fun c => negb (Ascii.eqb c "N" || Ascii.eqb c "u" || Ascii.eqb c "n"))
                   (DateFacts.written n year month day) = true).
  { apply Hchars; try assumption; [|reflexivity].
    intros c Hc. destruct c as [[] [] [] [] [] [] [] []]; try discriminate Hc; reflexivity. }
  unfold DateEngine.safeFormat.
  rewrite (includes_excluded _ _ "N"%char "aN" Hall eq_refl).
  rewrite (includes_excluded _ _ "u"%char "ndefined" Hall eq_refl).
  rewrite (includes_excluded _ _ "n"%char "ull" Hall eq_refl).
  pose proof (written_nonempty n year month day Hy) as Hne.
  destruct (DateFacts.written n year month day); [congruence|reflexivity].
Qed.

(** The text that [formatWith] gives for a format that asks neither
    for a time of day nor for a year of two digits. *)
Lemma formatWith_written (toLocaleDateString : Z -> DateEngine.Completion string)
    (t : Z) (numFmt : string) (year month day hours minutes seconds : Z) :
  DateFacts.writesTime numFmt = false ->
  DateFacts.writesShortYear numFmt = false ->
  exists (n : DateFacts.Notation) (padded : bool),
    let text := DateFacts.written n (DateEngine.str year)
                  ((if padded then DateEngine.pad2 else DateEngine.str) month)
                  ((if padded then DateEngine.pad2 else DateEngine.str) day) in
    DateEngine.formatWith toLocaleDateString t numFmt year month day hours minutes seconds =
      DateEngine.Return (DateEngine.safeFormat text) \/
    DateEngine.formatWith toLocaleDateString t numFmt year month day hours minutes seconds =
      DateEngine.Return text.
Proof.
  unfold DateFacts.writesTime, DateFacts.writesShortYear, DateEngine.formatWith. cbv zeta.
  pose proof (default_rendering_clean year month day) as Hclean.
  intros Htime Hshort.
  destruct (Js.includes numFmt "yyyy"), (Js.includes numFmt "/");
    cbn [andb orb negb] in *.
  - rewrite Htime.
    destruct (Js.includes numFmt "mm" && Js.includes numFmt "dd");
      [exists DateFacts.Slashes, true|exists DateFacts.Slashes, false]; left; reflexivity.
  - destruct (Js.includes numFmt "-"); cbn [andb orb negb] in *.
    + destruct (Js.includes numFmt "mm" && Js.includes numFmt "dd");
        [exists DateFacts.Dashes, true|exists DateFacts.Dashes, false]; left; reflexivity.
    + apply orb_false_elim in Hshort as [-> ->].
      destruct (Js.includes numFmt "年" && Js.includes numFmt "月" && Js.includes numFmt "日").
      * exists DateFacts.Glyphs, false. left. reflexivity.
      * rewrite Hclean. exists DateFacts.Slashes, false. right. reflexivity.
  - apply orb_false_elim in Hshort as [-> ->].
    destruct (Js.includes numFmt "年" && Js.includes numFmt "月" && Js.includes numFmt "日").
    + exists DateFacts.Glyphs, false. left. reflexivity.
    + rewrite Hclean. exists DateFacts.Slashes, false. right. reflexivity.
  - apply orb_false_elim in Hshort as [-> ->].
    destruct (Js.includes numFmt "年" && Js.includes numFmt "月" && Js.includes numFmt "日").
    + exists DateFacts.Glyphs, false. left. reflexivity.
    + rewrite Hclean. exists DateFacts.Slashes, false. right. reflexivity.
Qed.


(** The text of a date of the years 1900..2100, for a missing format
    and for a format that asks neither for a time of day nor for a year of
    two digits. *)
Lemma formatDateByPattern_written (offsetAtUTC : Z -> Z)
    (toLocaleDateString : Z -> DateEngine.Completion string) (t : Z) (numFmt : option string)
    (y m d : Z) :
  DateEngine.civilFromDays (DateEngine.Day (DateEngine.LocalTime offsetAtUTC t)) = (y, m, d) ->
  1900 <= y <= 2100 -> 1 <= m <= 12 -> 1 <= d <= 31 ->
  (forall fmt, numFmt = Some fmt ->
     DateFacts.writesTime fmt = false /\ DateFacts.writesShortYear fmt = false) ->
  exists (n : DateFacts.Notation) (padded : bool),
    DateEngine.formatDateByPattern offsetAtUTC toLocaleDateString
      (DateEngine.ADate (Some t)) numFmt =
    DateEngine.Return
      (DateFacts.written n (DateEngine.str y)
         ((if padded then DateEngine.pad2 else DateEngine.str) m)
         ((if padded then DateEngine.pad2 else DateEngine.str) d)).
Proof.
  intros Ecivil Hy Hm Hd Hfmt.
  unfold DateEngine.formatDateByPattern, DateEngine.formatBody,
    DateEngine.getFullYear, DateEngine.getMonth, DateEngine.getDate,
    DateEngine.getHours, DateEngine.getMinutes, DateEngine.getSeconds.
  cbn [fmap option_fmap option_map]. rewrite Ecivil. cbn [fst snd]. cbv zeta.
  replace (m - 1 + 1) with m by lia.
  replace ((y <? 1900) || (2100 <? y) || (m <? 1) || (12 <? m) || (d <? 1) || (31 <? d))
    with false
    by (symmetry; repeat (apply orb_false_intro); apply Z.ltb_ge; lia).
  assert (Hplain : DateEngine.safeFormat
                     (DateEngine.str y +:+ "/" +:+ DateEngine.str m +:+ "/" +:+
                      DateEngine.str d) =
                   DateFacts.written DateFacts.Slashes (DateEngine.str y)
                     (DateEngine.str m) (DateEngine.str d)).
  { apply (safeFormat_written DateFacts.Slashes).
    - apply year_text. lia.
    - apply (field_text false m). lia.
    - apply (field_text false d). lia. }
  destruct numFmt as [fmt|].
  - destruct (String.eqb fmt "" || String.eqb fmt "General").
    + exists DateFacts.Slashes, false. cbn [DateEngine.tryCatch]. rewrite Hplain. reflexivity.
    + destruct (Hfmt fmt eq_refl) as [Htime Hshort].
      destruct (formatWith_written toLocaleDateString t fmt y m d
                  ((DateEngine.LocalTime offsetAtUTC t / DateEngine.msPerHour) mod 24)
                  ((DateEngine.LocalTime offsetAtUTC t / DateEngine.msPerMinute) mod 60)
                  ((DateEngine.LocalTime offsetAtUTC t / DateEngine.msPerSecond) mod 60)
                  Htime Hshort) as (n & padded & Hwith).
      cbv zeta in Hwith. exists n, padded.
      destruct Hwith as [-> | ->]; cbn [DateEngine.tryCatch]; [|reflexivity].
      rewrite safeFormat_written; [reflexivity|..].
      * apply year_text. lia.
      * apply (field_text padded m). lia.
      * apply (field_text padded d). lia.
  - exists DateFacts.Slashes, false. cbn [DateEngine.tryCatch]. rewrite Hplain. reflexivity.
Qed.


(** X26: a Date whose local year lies in 1900..2100 is written by
    [formatDateByPattern], for a missing format and for every format that
    asks neither for a time of day nor for a year of two digits, as a text
    that [parseDateString] reads as
    [new Date(date.getFullYear(), date.getMonth(), date.getDate())]: the
    local midnight of the same day. *)
Theorem parseDateString_reads_formatted_date (offsetAtUTC offsetAtLocal : Z -> Z)
    (dateParse : string -> option Z) (toLocaleDateString : Z -> DateEngine.Completion string)
    (t : Z) (numFmt : option string) :
  (exists year, DateEngine.getFullYear offsetAtUTC (Some t) = Some year /\
                1900 <= year <= 2100) ->
  (forall u, - DateEngine.msPerDay <= offsetAtLocal u <= DateEngine.msPerDay) ->
  (forall fmt, numFmt = Some fmt ->
     DateFacts.writesTime fmt = false /\ DateFacts.writesShortYear fmt = false) ->
  exists text y m d t',
    DateEngine.getFullYear offsetAtUTC (Some t) = Some y /\
    DateEngine.getMonth offsetAtUTC (Some t) = Some m /\
    DateEngine.getDate offsetAtUTC (Some t) = Some d /\
    DateEngine.formatDateByPattern offsetAtUTC toLocaleDateString
      (DateEngine.ADate (Some t)) numFmt = DateEngine.Return text /\
    DateEngine.newDate offsetAtLocal y m d = Some t' /\
    t' = DateEngine.UTC offsetAtLocal
           (DateEngine.Day (DateEngine.LocalTime offsetAtUTC t) * DateEngine.msPerDay) /\
    DateEngine.parseDateString offsetAtUTC offsetAtLocal dateParse (Some text) =
      DateEngine.Return (Some t').
Proof.
  intros (year & Hyear & Hrange) Hoff Hfmt.
  unfold DateEngine.getFullYear, DateEngine.getMonth, DateEngine.getDate in *.
  cbn [fmap option_fmap option_map] in *.
  apply (inj Some) in Hyear.
  remember (DateEngine.Day (DateEngine.LocalTime offsetAtUTC t)) as z eqn:Ez.
  assert (Hy : 1900 <= fst (fst (DateEngine.civilFromDays z)) <= 2100) by lia.
  destruct (MakeDay_civil z Hy) as [Hmonth Hmake].
  pose proof (civilFromDays_day z) as Hday.
  destruct (DateEngine.civilFromDays z) as [[y m] d] eqn:Ecivil.
  cbn [fst snd] in *. clear year Hyear Hrange.
  destruct (formatDateByPattern_written offsetAtUTC toLocaleDateString t numFmt y m d)
    as (n & padded & Htext); [rewrite <- Ez; exact Ecivil|lia|lia|lia|exact Hfmt|].
  destruct (newDate_valid offsetAtLocal y m d Hoff ltac:(lia) ltac:(lia) ltac:(lia)) as [t' Ht'].
  exists (DateFacts.written n (DateEngine.str y)
            ((if padded then DateEngine.pad2 else DateEngine.str) m)
            ((if padded then DateEngine.pad2 else DateEngine.str) d)),
    y, (m - 1), d, t'.
  split; [reflexivity|]. split; [reflexivity|]. split; [reflexivity|].
  split; [exact Htext|]. split; [exact Ht'|]. split.
  - unfold DateEngine.newDate in Ht'. rewrite Hmake in Ht'.
    unfold DateEngine.TimeClip in Ht'.
    destruct (Z.abs (DateEngine.UTC offsetAtLocal (DateEngine.MakeDate z 0)) <=?
              8640000000000000); [|discriminate].
    injection Ht' as <-. unfold DateEngine.MakeDate. rewrite Z.add_0_r. reflexivity.
  - apply parseDateString_written with (y := y) (m := m) (d := d).
    + apply year_text. lia.
    + apply (field_text padded m). lia.
    + apply (field_text padded d). lia.
    + apply parseInt_numberToString.
    + apply (field_text padded m). lia.
    + apply (field_text padded d). lia.
    + exact Ht'.
Qed.

Lemma parseDateString_reads_formatted_date_witness :
  exists text midnight,
    DateEngine.formatDateByPattern Samples.westOfUTC (fun _ => DateEngine.Throw)
      (DateEngine.ADate (Some 1705347000000)) (Some "yyyy-mm-dd") = DateEngine.Return text /\
    text = "2024-01-15" /\
    Samples.localMidnight = Some midnight /\
    DateEngine.parseDateString Samples.westOfUTC Samples.westOfUTC (fun _ => None)
      (Some text) = DateEngine.Return (Some midnight).
Proof.
  destruct (parseDateString_reads_formatted_date Samples.westOfUTC Samples.westOfUTC
              (fun _ => None) (fun _ => DateEngine.Throw) 1705347000000 (Some "yyyy-mm-dd"))
    as (text & y & m & d & t' & Hy & Hm & Hd & Htext & Hnew & Ht' & Hparse).
  - exists 2024. split; [vm_compute; reflexivity|lia].
  - intros u. unfold Samples.westOfUTC, DateEngine.msPerDay. lia.
  - intros fmt [= <-]. split; vm_compute; reflexivity.
  - exists text, t'. split; [exact Htext|].
    vm_compute in Htext. injection Htext as <-.
    split; [reflexivity|]. split; [|exact Hparse].
    rewrite Ht'. vm_compute. reflexivity.
Defined.

(** ** Chart references: [parseExcelRange] *)

(** *** The sheet name: a lazy run of the dot *)

Lemma run_dot {R : Type} (whole : nat) (a : ascii) (s : string) (c : Regex.captures)
    (k : string -> Regex.captures -> option R) :
  ChartFacts.nameByte a = true -> Regex.run Regex.dot whole (String a s) c k = k s c.
Proof.
  unfold ChartFacts.nameByte. intros H.
  apply andb_prop in H as [H H226]. apply andb_prop in H as [H HCR].
  apply andb_prop in H as [_ HLF].
  apply negb_true_iff in H226, HCR, HLF.
  unfold Regex.dot. cbn [Regex.run Regex.lit Regex.chr Js.ofBytes fold_right].
  assert (E : Ascii.eqb (Js.fromCharCode 226) a = false).
  { destruct (Ascii.eqb (Js.fromCharCode 226) a) eqn:E; [|reflexivity].
    apply Ascii.eqb_eq in E. subst a. discriminate. }
  rewrite E, HLF, HCR. reflexivity.
Qed.

Lemma run_starLazy_dot_step {R : Type} (whole : nat) (a : ascii) (s : string)
    (c : Regex.captures) (k : string -> Regex.captures -> option R) :
  ChartFacts.nameByte a = true ->
  Regex.run (Regex.Star false Regex.dot) whole (String a s) c k =
  match k (String a s) c with
  | Some x => Some x
  | None => Regex.run (Regex.Star false Regex.dot) whole s c k
  end.
Proof.
  intros Ha. cbn [Regex.run String.length].
  rewrite run_dot by exact Ha.
  assert (Hlt : (String.length s <? S (String.length s))%nat = true)
    by (apply Nat.ltb_lt; lia).
  rewrite Hlt. reflexivity.
Qed.

Lemma run_starLazy_here {R : Type} (r : Regex.regex) (whole : nat) (s : string)
    (c : Regex.captures) (k : string -> Regex.captures -> option R) (x : R) :
  k s c = Some x -> Regex.run (Regex.Star false r) whole s c k = Some x.
Proof.
  intros Hk. cbn [Regex.run]. destruct (String.length s); cbn; rewrite Hk; reflexivity.
Qed.

(** A lazy run of the dot stops as soon as the rest of the pattern
    matches: here after the whole name, the rest of the pattern failing
    inside it. *)
Lemma starLazy_dot_shortest {R : Type} (whole : nat) (name rest : string)
    (c : Regex.captures) (k : string -> Regex.captures -> option R) (x : R) :
  Js.allChars ChartFacts.nameByte name = true ->
  (forall a tail, Matching.suffixOf (String a tail) name -> k (String a tail +:+ rest) c = None) ->
  k rest c = Some x ->
  Regex.run (Regex.Star false Regex.dot) whole (name +:+ rest) c k = Some x.
Proof.
  intros Hname Hfail Hk. induction name as [|a name IH].
  - rewrite append_nil_l. apply run_starLazy_here, Hk.
  - cbn [Js.allChars] in Hname. apply andb_prop in Hname as [Ha Hname].
    rewrite append_cons, run_starLazy_dot_step by exact Ha.
    rewrite <- append_cons, (Hfail a name (Matching.suffix_here _)).
    apply IH; [exact Hname|].
    intros b tail Hsuffix. apply Hfail, Matching.suffix_later, Hsuffix.
Qed.

(** *** The dollar signs *)

Lemma run_opt_mark (absolute : bool) (r2 : Regex.regex) {R : Type} (whole : nat) (s : string)
    (c : Regex.captures) (k : string -> Regex.captures -> option R) (x : R) :
  Matching.headFails (Ascii.eqb "$") s = true ->
  Regex.run r2 whole s c k = Some x ->
  Regex.run (Regex.Seq (Regex.opt (Regex.chr "$")) r2) whole (ChartFacts.mark absolute +:+ s) c k =
  Some x.
Proof.
  intros Hhead Hrun. destruct absolute; unfold ChartFacts.mark.
  - apply run_opt_then_taken. rewrite append_cons, append_nil_l.
    cbn [Regex.run Regex.chr]. exact Hrun.
  - rewrite append_nil_l. rewrite run_opt_then_skipped; [exact Hrun|].
    destruct s as [|a s]; [reflexivity|].
    cbn [Matching.headFails] in Hhead. apply negb_true_iff in Hhead.
    cbn [Regex.run Regex.chr]. rewrite Hhead. reflexivity.
Qed.

Lemma headFails_mark (p : ascii -> bool) (absolute : bool) (s : string) :
  p "$"%char = false -> Matching.headFails p s = true ->
  Matching.headFails p (ChartFacts.mark absolute +:+ s) = true.
Proof.
  intros Hp Hs. destruct absolute; unfold ChartFacts.mark.
  - rewrite append_cons. cbn [Matching.headFails]. rewrite Hp. reflexivity.
  - rewrite append_nil_l. exact Hs.
Qed.

Lemma upper_not_dollar (c : ascii) : Js.isUpper c = true -> Ascii.eqb "$" c = false.
Proof.
  intros Hc. destruct (Ascii.eqb "$" c) eqn:E; [|reflexivity].
  apply Ascii.eqb_eq in E. subst c. discriminate.
Qed.

Lemma digit_not_dollar (c : ascii) : Js.isDigit c = true -> Ascii.eqb "$" c = false.
Proof.
  intros Hc. destruct (Ascii.eqb "$" c) eqn:E; [|reflexivity].
  apply Ascii.eqb_eq in E. subst c. discriminate.
Qed.

Lemma digit_not_upper (c : ascii) : Js.isDigit c = true -> Js.isUpper c = false.
Proof.
  unfold Js.isDigit, Js.isUpper. intros [H1 H2]%andb_prop. apply Z.leb_le in H1, H2.
  apply andb_false_intro1, Z.leb_gt. lia.
Qed.

(** *** The pattern on a reference with its sheet *)

(** The rest of the pattern after the sheet name starts with the
    exclamation mark. *)
Lemma after_name_fails {R : Type} (r2 : Regex.regex) (whole : nat) (a : ascii) (s : string)
    (c : Regex.captures) (k : string -> Regex.captures -> option R) :
  ChartFacts.nameByte a = true ->
  Regex.run (Regex.Seq (Regex.chr "!") r2) whole (String a s) c k = None.
Proof.
  unfold ChartFacts.nameByte. intros H.
  repeat (apply andb_prop in H as [H _]). apply negb_true_iff in H.
  cbn [Regex.run Regex.chr].
  rewrite Ascii.eqb_sym, H. reflexivity.
Qed.

Lemma run_name_then {R : Type} (r2 : Regex.regex) (whole : nat) (name rest : string)
    (c : Regex.captures) (k : string -> Regex.captures -> option R) (x : R) :
  name <> EmptyString -> Js.allChars ChartFacts.nameByte name = true ->
  Regex.run r2 whole rest ((1%nat, name) :: c) k = Some x ->
  Regex.run (Regex.Seq (Regex.Group 1 (Regex.plusLazy Regex.dot))
                       (Regex.Seq (Regex.chr "!") r2))
    whole (name +:+ String "!" rest) c k = Some x.
Proof.
  intros Hne Hname Hrun. destruct name as [|a name]; [congruence|].
  cbn [Js.allChars] in Hname. apply andb_prop in Hname as [Ha Hname].
  unfold Regex.plusLazy.
  change (Regex.run (Regex.Seq (Regex.Group 1 (Regex.Seq Regex.dot (Regex.Star false Regex.dot)))
                               (Regex.Seq (Regex.chr "!") r2))
            whole (String a name +:+ String "!" rest) c k)
    with (Regex.run Regex.dot whole (String a (name +:+ String "!" rest)) c
            (fun s' c' =>
               Regex.run (Regex.Star false Regex.dot) whole s' c'
                 (fun s'' c'' =>
                    Regex.run (Regex.Seq (Regex.chr "!") r2) whole s''
                      ((1%nat, substring 0 (String.length (String a name +:+ String "!" rest) -
                                            String.length s'')
                                 (String a name +:+ String "!" rest)) :: c'') k))).
  rewrite run_dot by exact Ha.
  apply starLazy_dot_shortest; [exact Hname| |].
  - intros b tail Hsuffix. rewrite append_cons. apply after_name_fails.
    pose proof (suffixOf_allChars _ _ _ Hsuffix Hname) as Hb.
    cbn [Js.allChars] in Hb. apply andb_prop in Hb as [Hb _]. exact Hb.
  - rewrite substring_prefix, run_chr_then. exact Hrun.
Qed.

Lemma rangeRegex_cell (sheet L D : string) (absCol absRow : bool) :
  sheet <> EmptyString -> Js.allChars ChartFacts.nameByte sheet = true ->
  L <> EmptyString -> Js.allChars Js.isUpper L = true ->
  D <> EmptyString -> Js.allChars Js.isDigit D = true ->
  exists m,
    Regex.exec ChartRange.rangeRegex
      (sheet +:+ String "!" (ChartFacts.mark absCol +:+ L +:+ ChartFacts.mark absRow +:+ D)) =
      Some m /\
    Regex.group m 1 = Some sheet /\ Regex.group m 2 = Some L /\ Regex.group m 3 = Some D /\
    Regex.group m 4 = None /\ Regex.group m 5 = None.
Proof.
  intros Hs Hs' HL HL' HD HD'. eexists. split.
  - unfold Regex.exec. apply searchFrom_here.
    unfold Regex.matchAt, ChartRange.rangeRegex. cbn [Regex.seqs].
    rewrite run_bol_then.
    apply run_name_then; [exact Hs|exact Hs'|].
    apply run_opt_mark.
    { apply (headFails_append _ Js.isUpper); [exact HL|exact HL'|apply upper_not_dollar]. }
    apply run_group_plus_then; [exact HL|exact HL'| |].
    { apply headFails_mark; [reflexivity|].
      apply (headFails_class _ Js.isDigit); [exact HD|exact HD'|apply digit_not_upper]. }
    apply run_opt_mark.
    { apply (headFails_class _ Js.isDigit); [exact HD|exact HD'|apply digit_not_dollar]. }
    rewrite <- (append_nil_r D) at 2.
    apply run_group_plus_then; [exact HD|exact HD'|reflexivity|].
    rewrite run_opt_then_skipped by reflexivity.
    reflexivity.
  - repeat split; reflexivity.
Qed.

Lemma rangeRegex_range (sheet L1 D1 L2 D2 : string) (a1 a2 a3 a4 : bool) :
  sheet <> EmptyString -> Js.allChars ChartFacts.nameByte sheet = true ->
  L1 <> EmptyString -> Js.allChars Js.isUpper L1 = true ->
  D1 <> EmptyString -> Js.allChars Js.isDigit D1 = true ->
  L2 <> EmptyString -> Js.allChars Js.isUpper L2 = true ->
  D2 <> EmptyString -> Js.allChars Js.isDigit D2 = true ->
  exists m,
    Regex.exec ChartRange.rangeRegex
      (sheet +:+ String "!" (ChartFacts.mark a1 +:+ L1 +:+ ChartFacts.mark a2 +:+ D1 +:+
                             String ":" (ChartFacts.mark a3 +:+ L2 +:+ ChartFacts.mark a4 +:+ D2))) =
      Some m /\
    Regex.group m 1 = Some sheet /\ Regex.group m 2 = Some L1 /\ Regex.group m 3 = Some D1 /\
    Regex.group m 4 = Some L2 /\ Regex.group m 5 = Some D2.
Proof.
  intros Hs Hs' HL1 HL1' HD1 HD1' HL2 HL2' HD2 HD2'. eexists. split.
  - unfold Regex.exec. apply searchFrom_here.
    unfold Regex.matchAt, ChartRange.rangeRegex. cbn [Regex.seqs].
    rewrite run_bol_then.
    apply run_name_then; [exact Hs|exact Hs'|].
    apply run_opt_mark.
    { apply (headFails_append _ Js.isUpper); [exact HL1|exact HL1'|apply upper_not_dollar]. }
    apply run_group_plus_then; [exact HL1|exact HL1'| |].
    { apply headFails_mark; [reflexivity|].
      apply (headFails_append _ Js.isDigit); [exact HD1|exact HD1'|apply digit_not_upper]. }
    apply run_opt_mark.
    { apply (headFails_append _ Js.isDigit); [exact HD1|exact HD1'|apply digit_not_dollar]. }
    apply run_group_plus_then; [exact HD1|exact HD1'|apply headFails_cons, colon_not_digit|].
    apply run_opt_then_taken.
    rewrite run_chr_then.
    apply run_opt_mark.
    { apply (headFails_append _ Js.isUpper); [exact HL2|exact HL2'|apply upper_not_dollar]. }
    apply run_group_plus_then; [exact HL2|exact HL2'| |].
    { apply headFails_mark; [reflexivity|].
      apply (headFails_class _ Js.isDigit); [exact HD2|exact HD2'|apply digit_not_upper]. }
    apply run_opt_mark.
    { apply (headFails_class _ Js.isDigit); [exact HD2|exact HD2'|apply digit_not_dollar]. }
    apply group_plus_all; [exact HD2|exact HD2'|reflexivity].
  - repeat split; reflexivity.
Qed.

Lemma truthy_nonempty (s : string) : s <> EmptyString -> Js.truthy (Some s) = true.
Proof. destruct s; [congruence|reflexivity]. Qed.

(** X27: [parseExcelRange] reads a reference that is written from
    numbers: a sheet name, the exclamation mark, and one cell or two
    cells around a colon, the column letters as [numToCol] writes them and
    each column and row with or without the dollar sign.  It finds the
    column and row numbers again; a single cell counts as both corners.
    The sheet name is one without exclamation mark and line break, and
    the numbers are below [2 ^ 53]. *)
Theorem parseExcelRange_reads_reference (sheet : string) (c1 r1 c2 r2 : Z) (L1 L2 : string)
    (a1 a2 a3 a4 : bool) :
  sheet <> EmptyString -> Js.allChars ChartFacts.nameByte sheet = true ->
  0 < c1 < 2 ^ 53 -> 0 <= r1 < 2 ^ 53 -> 0 < c2 < 2 ^ 53 -> 0 <= r2 < 2 ^ 53 ->
  Columns.numToCol c1 = Some L1 -> Columns.numToCol c2 = Some L2 ->
  ChartRange.parseExcelRange (sheet +:+ "!" +:+ ChartFacts.cellRef a1 a2 L1 r1) =
    Some {| ChartRange.sheetName := Regex.replaceAll ChartRange.quoteRegex "" sheet;
            ChartRange.startCol := c1; ChartRange.startRow := r1;
            ChartRange.endCol := c1; ChartRange.endRow := r1 |} /\
  ChartRange.parseExcelRange
    (sheet +:+ "!" +:+ ChartFacts.cellRef a1 a2 L1 r1 +:+ ":" +:+ ChartFacts.cellRef a3 a4 L2 r2) =
    Some {| ChartRange.sheetName := Regex.replaceAll ChartRange.quoteRegex "" sheet;
            ChartRange.startCol := c1; ChartRange.startRow := r1;
            ChartRange.endCol := c2; ChartRange.endRow := r2 |}.
Proof.
  intros Hs Hs' Hc1 Hr1 Hc2 Hr2 HL1 HL2.
  pose proof (numToCol_nonempty c1 L1 ltac:(lia) HL1) as HL1ne.
  pose proof (numToCol_nonempty c2 L2 ltac:(lia) HL2) as HL2ne.
  pose proof (numToCol_chars c1 L1 HL1) as HL1up.
  pose proof (numToCol_chars c2 L2 HL2) as HL2up.
  pose proof (colToNum1_numToCol c1 L1 ltac:(lia) HL1) as Hv1.
  pose proof (colToNum1_numToCol c2 L2 ltac:(lia) HL2) as Hv2.
  pose proof (numberToString_nonempty r1) as HD1ne.
  pose proof (numberToString_nonempty r2) as HD2ne.
  pose proof (numberToString_digits r1 ltac:(lia)) as HD1.
  pose proof (numberToString_digits r2 ltac:(lia)) as HD2.
  unfold ChartFacts.cellRef. split.
  - destruct (rangeRegex_cell sheet L1 (Js.numberToString r1) a1 a2
                Hs Hs' HL1ne HL1up HD1ne HD1) as (m & Hm & G1 & G2 & G3 & G4 & G5).
    rewrite append_cons, append_nil_l.
    unfold ChartRange.parseExcelRange. rewrite Hm, G1, G2, G3, G4, G5.
    rewrite parseInt_numberToString. cbn [Js.orElse Js.truthy default id]. rewrite Hv1.
    reflexivity.
  - destruct (rangeRegex_range sheet L1 (Js.numberToString r1) L2 (Js.numberToString r2)
                a1 a2 a3 a4 Hs Hs' HL1ne HL1up HD1ne HD1 HL2ne HL2up HD2ne HD2)
      as (m & Hm & G1 & G2 & G3 & G4 & G5).
    rewrite append_cons, append_nil_l.
    rewrite !append_assoc. rewrite append_cons, append_nil_l.
    unfold ChartRange.parseExcelRange. rewrite Hm, G1, G2, G3, G4, G5.
    rewrite parseInt_numberToString.
    rewrite (orElse_nonempty L2 _ HL2ne), (truthy_nonempty _ HD2ne).
    cbn [default mbind option_bind id]. rewrite parseInt_numberToString. cbn [default id].
    rewrite Hv1, Hv2. reflexivity.
Qed.

Lemma parseExcelRange_reads_reference_witness :
  ChartRange.parseExcelRange "'My Data'!$B$1:$D$6" =
    Some {| ChartRange.sheetName := "My Data";
            ChartRange.startCol := 2; ChartRange.startRow := 1;
            ChartRange.endCol := 4; ChartRange.endRow := 6 |}.
Proof.
  apply (parseExcelRange_reads_reference "'My Data'" 2 1 4 6 "B" "D" true true true true);
    try lia; try reflexivity; discriminate.
Defined.

(** ** The bounding box of the references of a chart *)

Lemma minimalBox_single (p : ChartRange.ParsedRange) :
  ChartRange.minimalBox [p]
    (Z.min (ChartRange.startCol p) (ChartRange.endCol p))
    (Z.min (ChartRange.startRow p) (ChartRange.endRow p))
    (Z.max (ChartRange.startCol p) (ChartRange.endCol p))
    (Z.max (ChartRange.startRow p) (ChartRange.endRow p)).
Proof.
  split.
  - constructor; [|constructor]. unfold ChartRange.covers. lia.
  - intros c1' r1' c2' r2' Hall. inversion Hall as [|? ? Hp _]; subst.
    unfold ChartRange.covers in Hp. lia.
Qed.

Lemma minimalBox_snoc (ps : list ChartRange.ParsedRange) (p : ChartRange.ParsedRange)
    (c1 r1 c2 r2 : Z) :
  ChartRange.minimalBox ps c1 r1 c2 r2 ->
  ChartRange.minimalBox (ps ++ [p])
    (Z.min (Z.min c1 (ChartRange.startCol p)) (ChartRange.endCol p))
    (Z.min (Z.min r1 (ChartRange.startRow p)) (ChartRange.endRow p))
    (Z.max (Z.max c2 (ChartRange.startCol p)) (ChartRange.endCol p))
    (Z.max (Z.max r2 (ChartRange.startRow p)) (ChartRange.endRow p)).
Proof.
  intros [Hcov Hmin]. split.
  - apply Forall_app. split.
    + eapply Forall_impl; [exact Hcov|]. intros q. unfold ChartRange.covers. lia.
    + constructor; [|constructor]. unfold ChartRange.covers. lia.
  - intros c1' r1' c2' r2' Hall. apply Forall_app in Hall as [Hps Hp].
    specialize (Hmin _ _ _ _ Hps). inversion Hp as [|? ? Hp' _]; subst.
    unfold ChartRange.covers in Hp'. lia.
Qed.

(** One turn of the loop keeps the invariant, with the reference of this
    turn added when it parses. *)
Lemma mergeStep_invariant (ps : list ChartRange.ParsedRange) (b : ChartRange.Bounds)
    (range : string) :
  ChartRange.boundsInvariant ps b ->
  ChartRange.boundsInvariant (ps ++ ChartRange.parsedRanges [range])
                             (ChartRange.mergeStep b range).
Proof.
  intros Hinv. unfold ChartRange.parsedRanges, ChartRange.mergeStep. simpl.
  destruct (ChartRange.parseExcelRange range) as [p|]; simpl.
  2: { rewrite app_nil_r. exact Hinv. }
  destruct ps as [|q ps].
  - destruct Hinv as (-> & -> & -> & ->). simpl.
    do 4 eexists. do 4 (split; [reflexivity|]). apply minimalBox_single.
  - destruct Hinv as (c1 & r1 & c2 & r2 & -> & -> & -> & -> & Hbox). simpl.
    do 4 eexists. do 4 (split; [reflexivity|]).
    apply (minimalBox_snoc (q :: ps) p), Hbox.
Qed.

Lemma parsedRanges_cons (range : string) (ranges : list string) :
  ChartRange.parsedRanges (range :: ranges)
  = ChartRange.parsedRanges [range] ++ ChartRange.parsedRanges ranges.
Proof.
  unfold ChartRange.parsedRanges. simpl.
  destruct (ChartRange.parseExcelRange range); reflexivity.
Qed.

Lemma mergeLoop_invariant (ranges : list string) :
  forall (ps : list ChartRange.ParsedRange) (b : ChartRange.Bounds),
    ChartRange.boundsInvariant ps b ->
    ChartRange.boundsInvariant (ps ++ ChartRange.parsedRanges ranges)
                               (fold_left ChartRange.mergeStep ranges b).
Proof.
  induction ranges as [|range ranges IH]; intros ps b Hinv.
  - unfold ChartRange.parsedRanges. simpl. rewrite app_nil_r. exact Hinv.
  - simpl fold_left. rewrite parsedRanges_cons, app_assoc.
    apply IH, mergeStep_invariant, Hinv.
Qed.

Lemma formatBounds_no_sheet (c1 r1 c2 r2 : Z) (out : string) :
  ChartRange.formatBounds c1 r1 c2 r2 = Some out ->
  Js.allChars ChartRange.rangeChar out = true.
Proof.
  unfold ChartRange.formatBounds.
  destruct (Columns.numToCol c1) as [a|] eqn:Ha; [|discriminate].
  destruct (Columns.numToCol c2) as [b|] eqn:Hb; [|discriminate].
  intros [= <-].
  assert (Hup : forall x, Js.allChars Js.isUpper x = true ->
                          Js.allChars ChartRange.rangeChar x = true).
  { intros x. apply allChars_weaken. intros c Hc. unfold ChartRange.rangeChar.
    rewrite Hc. reflexivity. }
  assert (Hnum : forall n, Js.allChars ChartRange.rangeChar (Js.numberToString n) = true).
  { intros n. apply (allChars_weaken Js.decimalChar); [|apply numberToString_chars].
    intros c Hc. unfold ChartRange.rangeChar. rewrite Hc, orb_true_r. reflexivity. }
  rewrite !allChars_app, !Hnum, (Hup _ (numToCol_chars _ _ Ha)),
    (Hup _ (numToCol_chars _ _ Hb)). reflexivity.
Qed.

(** The box is made of corners of the references. *)
Lemma minimalBox_below (ps : list ChartRange.ParsedRange) (c1 r1 c2 r2 limit : Z) :
  ChartRange.minimalBox ps c1 r1 c2 r2 ->
  Forall (fun p => ChartRange.startCol p <= limit /\ ChartRange.endCol p <= limit) ps ->
  ps <> [] ->
  c1 <= limit /\ c2 <= limit.
Proof.
  intros [Hcov Hmin] Hall Hne.
  assert (Hcov' : Forall (ChartRange.covers c1 r1 (Z.min c2 limit) r2) ps).
  { rewrite List.Forall_forall in Hcov, Hall. apply List.Forall_forall. intros p Hp.
    specialize (Hcov p Hp). specialize (Hall p Hp).
    unfold ChartRange.covers in *. lia. }
  specialize (Hmin _ _ _ _ Hcov').
  destruct ps as [|p ps]; [congruence|].
  apply Forall_inv in Hcov. apply Forall_inv in Hall.
  unfold ChartRange.covers in Hcov. lia.
Qed.

(** X30: for a list of chart references of which at least one parses, the
    columns and rows of those that parse being below [2 ^ 53], the merged
    data range is the minimal bounding rectangle of the references that
    parse, written in A1 style (column letters, row number, a colon,
    column letters, row number) without a sheet name. *)
Theorem merged_chart_range_is_bounding_box (ranges : list string) :
  ChartRange.parsedRanges ranges <> [] ->
  Forall (fun p => ChartRange.startCol p < 2 ^ 53 /\ ChartRange.endCol p < 2 ^ 53 /\
                   ChartRange.startRow p < 2 ^ 53 /\ ChartRange.endRow p < 2 ^ 53)
         (ChartRange.parsedRanges ranges) ->
  exists c1 r1 c2 r2 left right,
    ChartRange.minimalBox (ChartRange.parsedRanges ranges) c1 r1 c2 r2 /\
    Columns.numToCol c1 = Some left /\
    Columns.numToCol c2 = Some right /\
    ChartRange.mergeChartDataRanges ranges
    = Some (left +:+ Js.numberToString r1 +:+ ":" +:+ right +:+ Js.numberToString r2) /\
    Js.includes (left +:+ Js.numberToString r1 +:+ ":" +:+ right +:+ Js.numberToString r2) "!"
    = false.
Proof.
  intros Hsome Hsafe.
  destruct ranges as [|first rest]; [exfalso; apply Hsome; reflexivity|].
  pose proof (mergeLoop_invariant (first :: rest) [] ChartRange.initialBounds) as Hinv.
  rewrite app_nil_l in Hinv. specialize (Hinv ltac:(repeat split)).
  unfold ChartRange.mergeChartDataRanges.
  set (b := fold_left ChartRange.mergeStep (first :: rest) ChartRange.initialBounds) in *.
  destruct (ChartRange.parsedRanges (first :: rest)) as [|p ps] eqn:Eps; [congruence|].
  cbn [ChartRange.boundsInvariant] in Hinv.
  destruct Hinv as (c1 & r1 & c2 & r2 & Hc1 & Hr1 & Hc2 & Hr2 & Hbox).
  rewrite Hc1, Hr1, Hc2, Hr2. cbn [ChartRange.isPosInfinity orb].
  destruct (minimalBox_below (p :: ps) c1 r1 c2 r2 (2 ^ 53) Hbox) as [Hlo Hhi];
    [|discriminate|].
  { eapply Forall_impl; [exact Hsafe|]. intros q Hq. cbv beta in Hq. lia. }
  destruct (numToCol_returns c1 Hlo) as [left Hleft].
  destruct (numToCol_returns c2 Hhi) as [right Hright].
  exists c1, r1, c2, r2, left, right.
  assert (Hfmt : ChartRange.formatBounds c1 r1 c2 r2
                 = Some (left +:+ Js.numberToString r1 +:+ ":" +:+ right
                         +:+ Js.numberToString r2)).
  { unfold ChartRange.formatBounds. rewrite Hleft, Hright. reflexivity. }
  split; [exact Hbox|]. split; [exact Hleft|]. split; [exact Hright|].
  split; [exact Hfmt|].
  apply (includes_excluded ChartRange.rangeChar); [|reflexivity].
  apply (formatBounds_no_sheet c1 r1 c2 r2), Hfmt.
Qed.

(** The example of the specification: the two references merge into A1:D6. *)
Lemma merged_chart_range_is_bounding_box_witness :
  ChartRange.mergeChartDataRanges Samples.chartRanges = Some "A1:D6" /\
  exists c1 r1 c2 r2 left right,
    ChartRange.minimalBox (ChartRange.parsedRanges Samples.chartRanges) c1 r1 c2 r2 /\
    Columns.numToCol c1 = Some left /\
    Columns.numToCol c2 = Some right /\
    ChartRange.mergeChartDataRanges Samples.chartRanges
    = Some (left +:+ Js.numberToString r1 +:+ ":" +:+ right +:+ Js.numberToString r2) /\
    Js.includes (left +:+ Js.numberToString r1 +:+ ":" +:+ right +:+ Js.numberToString r2) "!"
    = false.
Proof.
  split; [vm_compute; reflexivity|].
  assert (Hparsed : ChartRange.parsedRanges Samples.chartRanges =
            [ {| ChartRange.sheetName := "Sheet1";
                 ChartRange.startCol := 1; ChartRange.startRow := 1;
                 ChartRange.endCol := 1; ChartRange.endRow := 6 |};
              {| ChartRange.sheetName := "Sheet1";
                 ChartRange.startCol := 2; ChartRange.startRow := 1;
                 ChartRange.endCol := 4; ChartRange.endRow := 6 |} ])
    by (vm_compute; reflexivity).
  apply (merged_chart_range_is_bounding_box Samples.chartRanges).
  - rewrite Hparsed. discriminate.
  - rewrite Hparsed. repeat constructor.
Defined.

(** ** What a group over a class captures *)

(** A greedy star over a class hands to the rest of the pattern what is
    left after a run of the class. *)
Lemma star_class_inv (p : ascii -> bool) {R : Type} (whole : nat) (s : string)
    (c : Regex.captures) (k : string -> Regex.captures -> option R) (x : R) :
  Regex.run (Regex.Star true (Regex.Char p)) whole s c k = Some x ->
  exists a s', s = a +:+ s' /\ Js.allChars p a = true /\ k s' c = Some x.
Proof.
  induction s as [|a0 s IH].
  - rewrite run_star_class_nil. intros Hk. exists EmptyString, EmptyString. auto.
  - rewrite run_star_class. destruct (p a0) eqn:Ea.
    + destruct (Regex.run (Regex.Star true (Regex.Char p)) whole s c k) as [y|] eqn:Erun.
      * intros [= <-]. destruct (IH eq_refl) as (a & s' & -> & Ha & Hk).
        exists (String a0 a), s'. rewrite append_cons. cbn [Js.allChars]. rewrite Ea. auto.
      * intros Hk. exists EmptyString, (String a0 s). auto.
    + intros Hk. exists EmptyString, (String a0 s). auto.
Qed.

Lemma plus_class_inv (p : ascii -> bool) {R : Type} (whole : nat) (s : string)
    (c : Regex.captures) (k : string -> Regex.captures -> option R) (x : R) :
  Regex.run (Regex.plus (Regex.Char p)) whole s c k = Some x ->
  exists a s', s = a +:+ s' /\ a <> EmptyString /\ Js.allChars p a = true /\ k s' c = Some x.
Proof.
  unfold Regex.plus. destruct s as [|a0 s]; [discriminate|].
  change (Regex.run (Regex.Seq (Regex.Char p) (Regex.Star true (Regex.Char p))) whole
            (String a0 s) c k)
    with (if p a0 then Regex.run (Regex.Star true (Regex.Char p)) whole s c k else None).
  destruct (p a0) eqn:Ea; [|discriminate].
  intros (a & s' & -> & Ha & Hk)%star_class_inv.
  exists (String a0 a), s'. rewrite append_cons. cbn [Js.allChars]. rewrite Ea.
  repeat split; [discriminate|exact Ha|exact Hk].
Qed.

Lemma classCaptured_other (i j : nat) (p : ascii -> bool) (s : string) (c : Regex.captures) :
  j <> i -> Matching.classCaptured i p c -> Matching.classCaptured i p ((j, s) :: c).
Proof.
  intros Hj Hc t [Heq|Hin]; [congruence|apply Hc, Hin].
Qed.

Lemma classCaptured_class (i : nat) (p : ascii -> bool) (a : string) (c : Regex.captures) :
  a <> EmptyString -> Js.allChars p a = true ->
  Matching.classCaptured i p c -> Matching.classCaptured i p ((i, a) :: c).
Proof.
  intros Hne Ha Hc t [Heq|Hin]; [|apply Hc, Hin].
  injection Heq as <-. auto.
Qed.

(** The captures that a pattern hands on: when the group [i] is [(p+)]
    wherever it stands, its captures stay runs of [p]. *)
Lemma run_classCaptured (i : nat) (p : ascii -> bool) (r : Regex.regex) :
  Matching.groupIsClass i p r ->
  forall (R : Type) (whole : nat) (s : string) (c : Regex.captures)
         (k : string -> Regex.captures -> option R) (x : R),
    Matching.classCaptured i p c ->
    Regex.run r whole s c k = Some x ->
    exists s' c', Matching.classCaptured i p c' /\ k s' c' = Some x.
Proof.
  induction r as [|q|r1 IH1 r2 IH2|r1 IH1 r2 IH2|g r1 IH1|j r1 IH1| | |r1 IH1];
    intros Hr R whole s c k x Hc Hrun.
  - eauto.
  - destruct s as [|a s]; [discriminate|]. cbn in Hrun.
    destruct (q a); [eauto|discriminate].
  - destruct Hr as [Hr1 Hr2]. cbn [Regex.run] in Hrun.
    destruct (IH1 Hr1 _ _ _ _ _ _ Hc Hrun) as (s1 & c1 & Hc1 & Hrun1).
    exact (IH2 Hr2 _ _ _ _ _ _ Hc1 Hrun1).
  - destruct Hr as [Hr1 Hr2]. cbn [Regex.run] in Hrun.
    destruct (Regex.run r1 whole s c k) as [y|] eqn:E1.
    + injection Hrun as <-. exact (IH1 Hr1 _ _ _ _ _ _ Hc E1).
    + exact (IH2 Hr2 _ _ _ _ _ _ Hc Hrun).
  - cbn [Matching.groupIsClass] in Hr. cbn [Regex.run] in Hrun.
    revert Hrun.
    match goal with
    | |- ?F (String.length s) s c = Some x -> _ =>
        assert (HF : forall fuel s c,
                   Matching.classCaptured i p c -> F fuel s c = Some x ->
                   exists s' c', Matching.classCaptured i p c' /\ k s' c' = Some x)
    end.
    { induction fuel as [|fuel IHf]; intros s0 c0 Hc0 Hrun0.
      - cbn -[Nat.ltb] in Hrun0. destruct g.
        + eauto.
        + destruct (k s0 c0) eqn:Ek; [injection Hrun0 as <-; eauto|discriminate].
      - cbn -[Nat.ltb] in Hrun0. destruct g.
        + match type of Hrun0 with
          | match ?t with _ => _ end = _ => destruct t as [y|] eqn:Et
          end; [|eauto].
          injection Hrun0 as <-.
          destruct (IH1 Hr _ _ _ _ _ _ Hc0 Et) as (s1 & c1 & Hc1 & Hrun1).
          destruct (String.length s1 <? String.length s0)%nat; [|discriminate].
          exact (IHf s1 c1 Hc1 Hrun1).
        + destruct (k s0 c0) eqn:Ek; [injection Hrun0 as <-; eauto|].
          destruct (IH1 Hr _ _ _ _ _ _ Hc0 Hrun0) as (s1 & c1 & Hc1 & Hrun1).
          destruct (String.length s1 <? String.length s0)%nat; [|discriminate].
          exact (IHf s1 c1 Hc1 Hrun1). }
    intros Hrun. exact (HF _ _ _ Hc Hrun).
  - destruct Hr as [Hsame Hother]. rewrite run_group_eq in Hrun.
    destruct (Nat.eq_dec j i) as [->|Hj].
    + rewrite (Hsame eq_refl) in Hrun.
      apply plus_class_inv in Hrun as (a & s' & -> & Hne & Ha & Hk).
      rewrite substring_prefix in Hk.
      exists s', ((i, a) :: c). split; [apply classCaptured_class; assumption|exact Hk].
    + destruct (IH1 (Hother Hj) _ _ _ _ _ _ Hc Hrun) as (s1 & c1 & Hc1 & Hk).
      eexists _, _. split; [|exact Hk]. apply classCaptured_other; assumption.
  - cbn [Regex.run] in Hrun. destruct (String.length s =? whole)%nat; [eauto|discriminate].
  - cbn [Regex.run] in Hrun. destruct s; [eauto|discriminate].
  - cbn [Regex.run] in Hrun.
    destruct (Regex.run r1 whole s c (fun _ _ => Some ())); [discriminate|eauto].
Qed.

Lemma searchFrom_matchAt (r : Regex.regex) (whole : nat) (s : string) (m : Regex.result) :
  Regex.searchFrom r whole s = Some m ->
  exists t, Regex.matchAt r whole t = Some m.
Proof.
  induction s as [|a s IH]; cbn [Regex.searchFrom].
  - destruct (Regex.matchAt r whole EmptyString) eqn:E; [|discriminate].
    intros [= <-]. eauto.
  - destruct (Regex.matchAt r whole (String a s)) eqn:E.
    + intros [= <-]. eauto.
    + exact IH.
Qed.

(** The group [i] of a match of such a pattern is a run of [p]. *)
Lemma matchAt_group_class (i : nat) (p : ascii -> bool) (r : Regex.regex) (whole : nat)
    (t : string) (m : Regex.result) (g : string) :
  Matching.groupIsClass i p r ->
  Regex.matchAt r whole t = Some m -> Regex.group m i = Some g ->
  g <> EmptyString /\ Js.allChars p g = true.
Proof.
  intros Hr Hm Hg. unfold Regex.matchAt in Hm.
  destruct (run_classCaptured i p r Hr _ _ _ _ _ _ (fun _ (H : In _ []) => match H with end) Hm)
    as (s' & c' & Hc' & Hres).
  injection Hres as <-. unfold Regex.group in Hg. cbn [Regex.caps] in Hg.
  destruct (find (fun q => (fst q =? i)%nat) c') as [[j g']|] eqn:Efind; [|discriminate].
  cbn in Hg. injection Hg as ->.
  apply find_some in Efind as [Hin Hj]. cbn in Hj. apply Nat.eqb_eq in Hj. subst j.
  apply Hc', Hin.
Qed.

Lemma exec_group_class (i : nat) (p : ascii -> bool) (r : Regex.regex) (s : string)
    (m : Regex.result) (g : string) :
  Matching.groupIsClass i p r ->
  Regex.exec r s = Some m -> Regex.group m i = Some g ->
  g <> EmptyString /\ Js.allChars p g = true.
Proof.
  intros Hr Hexec Hg. unfold Regex.exec in Hexec.
  apply searchFrom_matchAt in Hexec as [t Hm].
  exact (matchAt_group_class i p r _ t m g Hr Hm Hg).
Qed.

(** The same for each of the successive matches of a pattern. *)
Lemma allFrom_matchAt (fuel : nat) (r : Regex.regex) (whole : nat) :
  forall (s : string) (m : Regex.result),
    In m (Regex.allFrom fuel r whole s) -> exists t, Regex.matchAt r whole t = Some m.
Proof.
  induction fuel as [|fuel IH]; intros s m Hin; [destruct Hin|].
  cbn [Regex.allFrom] in Hin.
  destruct (Regex.searchFrom r whole s) as [m0|] eqn:Esearch; [|destruct Hin].
  destruct Hin as [<-|Hin]; [exact (searchFrom_matchAt _ _ _ _ Esearch)|].
  destruct (Regex.matched m0), (Regex.rest m0); try (destruct Hin; fail);
    exact (IH _ _ Hin).
Qed.

Lemma matchAll_group_class (i : nat) (p : ascii -> bool) (r : Regex.regex) (s : string)
    (m : Regex.result) (g : string) :
  Matching.groupIsClass i p r ->
  In m (Regex.matchAll r s) -> Regex.group m i = Some g ->
  g <> EmptyString /\ Js.allChars p g = true.
Proof.
  intros Hr Hin Hg. unfold Regex.matchAll in Hin.
  apply allFrom_matchAt in Hin as [t Hm].
  exact (matchAt_group_class i p r _ t m g Hr Hm Hg).
Qed.

(** ** The position and the size of a chart *)

Lemma groupIsClass_lit (i : nat) (p : ascii -> bool) (s : string) :
  Matching.groupIsClass i p (Regex.lit s).
Proof.
  induction s as [|a s IH]; [exact I|].
  destruct s as [|b s]; [exact I|]. split; [exact I|exact IH].
Qed.

Lemma groupIsClass_fromRegex (tag : string) :
  Matching.groupIsClass 1 Js.isDigit (Charts.fromRegex tag).
Proof.
  unfold Charts.fromRegex. cbn [Regex.seqs Matching.groupIsClass].
  pose proof (groupIsClass_lit 1 Js.isDigit tag) as Htag.
  repeat split; trivial; try (intros; congruence); try apply groupIsClass_lit.
Qed.

Lemma groupIsClass_extRegex (i : nat) :
  Matching.groupIsClass i Js.isDigit Charts.extRegex.
Proof.
  unfold Charts.extRegex. cbn [Regex.seqs Matching.groupIsClass].
  repeat split; trivial; try (intros; reflexivity); try apply groupIsClass_lit;
    try (intros; exact I).
Qed.

(** The number in a group of digits is never [NaN] and never negative. *)
Lemma group_digits_number (i : nat) (r : Regex.regex) (s : string) (m : Regex.result) :
  Matching.groupIsClass i Js.isDigit r -> Regex.exec r s = Some m ->
  0 <= default 0 (Regex.group m i ≫= Js.parseInt) /\
  (forall g, Regex.group m i = Some g -> exists n, Js.parseInt g = Some n /\ 0 <= n).
Proof.
  intros Hr Hexec.
  assert (Hg : forall g, Regex.group m i = Some g -> exists n, Js.parseInt g = Some n /\ 0 <= n).
  { intros g Hg. destruct (exec_group_class i Js.isDigit r s m g Hr Hexec Hg) as [Hne Hall].
    destruct (parseInt_digits g Hne Hall) as (n & Hn & Hrange). exists n. split; [exact Hn|lia]. }
  split; [|exact Hg].
  destruct (Regex.group m i) as [g|]; [|cbn; lia].
  destruct (Hg g eq_refl) as (n & Hn & Hpos). cbn [mbind option_bind]. rewrite Hn. exact Hpos.
Qed.

Lemma intOfMatch_nonneg (tag anchorContent : string) :
  forall n, Charts.intOfMatch (Regex.exec (Charts.fromRegex tag) anchorContent) = Some n ->
            0 <= n.
Proof.
  intros n. unfold Charts.intOfMatch.
  destruct (Regex.exec (Charts.fromRegex tag) anchorContent) as [m|] eqn:Hexec; [|discriminate].
  cbn [mbind option_bind].
  destruct (Regex.group m 1) as [g|] eqn:Hg; [|discriminate]. cbn [mbind option_bind].
  destruct (group_digits_number 1 _ _ m (groupIsClass_fromRegex tag) Hexec) as [_ Hnum].
  destruct (Hnum g Hg) as (n' & Hn' & Hpos). rewrite Hn'. intros [= <-]. exact Hpos.
Qed.

Lemma roundDiv_nonneg (n : Z) : 0 <= n -> 0 <= Charts.roundDiv n 9525.
Proof. intros Hn. unfold Charts.roundDiv. apply Z.div_pos; lia. Qed.

Lemma fromNumber_nonneg (tag anchorContent : string) :
  0 <= default 0 (Charts.intOfMatch (Regex.exec (Charts.fromRegex tag) anchorContent)) /\
  0 <= default 0 ((fun n => Charts.roundDiv n 9525) <$>
                  Charts.intOfMatch (Regex.exec (Charts.fromRegex tag) anchorContent)).
Proof.
  pose proof (intOfMatch_nonneg tag anchorContent) as Hn.
  destruct (Charts.intOfMatch _) as [n|]; [|cbn; lia].
  specialize (Hn n eq_refl). cbn. split; [exact Hn|apply roundDiv_nonneg, Hn].
Qed.

Lemma positionOf_nonneg (anchorContent : string) :
  0 <= Charts.row (Charts.positionOf anchorContent) /\
  0 <= Charts.column_ (Charts.positionOf anchorContent) /\
  0 <= Charts.rowOffset (Charts.positionOf anchorContent) /\
  0 <= Charts.columnOffset (Charts.positionOf anchorContent).
Proof.
  unfold Charts.positionOf. cbv zeta.
  cbn [Charts.row Charts.column_ Charts.rowOffset Charts.columnOffset].
  repeat split; apply fromNumber_nonneg.
Qed.

Lemma sizeOf_nonneg (anchorContent : string) :
  0 <= Charts.width (Charts.sizeOf anchorContent) /\
  0 <= Charts.height (Charts.sizeOf anchorContent).
Proof.
  unfold Charts.sizeOf.
  destruct (Regex.exec Charts.extRegex anchorContent) as [m|] eqn:Hexec; [|cbn; lia].
  cbn [Charts.width Charts.height].
  destruct (group_digits_number 1 _ _ m (groupIsClass_extRegex 1) Hexec) as [H1 _].
  destruct (group_digits_number 2 _ _ m (groupIsClass_extRegex 2) Hexec) as [H2 _].
  split; apply roundDiv_nonneg; assumption.
Qed.

(** X28: the position and the size of a chart that the extractor emits
    are never negative, whatever the anchor holds: each number is read
    from a run of digits, on which [parseInt] gives no [NaN], or is the
    default. *)
Theorem chart_position_and_size_not_negative (zip chartRIdMap : gmap string string)
    (sheetId sheetName nanoid anchorContent : string) (chart : Charts.ImportedChart) :
  Charts.chartFromAnchor zip chartRIdMap sheetId sheetName nanoid anchorContent = Some chart ->
  0 <= Charts.row (Charts.position chart) /\
  0 <= Charts.column_ (Charts.position chart) /\
  0 <= Charts.rowOffset (Charts.position chart) /\
  0 <= Charts.columnOffset (Charts.position chart) /\
  0 <= Charts.width (Charts.size chart) /\
  0 <= Charts.height (Charts.size chart).
Proof.
  unfold Charts.chartFromAnchor.
  destruct (Charts.chartPathOf chartRIdMap anchorContent) as [chartPath|]; [|discriminate].
  cbv zeta.
  pose proof (positionOf_nonneg anchorContent) as (H1 & H2 & H3 & H4).
  pose proof (sizeOf_nonneg anchorContent) as (H5 & H6).
  destruct (zip !! ("xl/" +:+ chartPath)) as [chartXml|].
  - destruct (Charts.isPivotChart chartXml); [discriminate|].
    intros [= <-]. cbn [Charts.position Charts.size]. auto 10.
  - intros [= <-]. cbn [Charts.position Charts.size]. auto 10.
Qed.

Lemma chart_position_and_size_not_negative_witness :
  exists chart,
    Charts.chartFromAnchor Samples.plainZip Samples.chartRIdMap "sheet-1" "Sheet1" "V1StGXR8"
      Samples.anchor = Some chart /\
    Charts.position chart =
      {| Charts.row := 5; Charts.column_ := 3; Charts.rowOffset := 1; Charts.columnOffset := 2 |} /\
    Charts.size chart = {| Charts.width := 480; Charts.height := 288 |} /\
    0 <= Charts.row (Charts.position chart) /\
    0 <= Charts.column_ (Charts.position chart) /\
    0 <= Charts.rowOffset (Charts.position chart) /\
    0 <= Charts.columnOffset (Charts.position chart) /\
    0 <= Charts.width (Charts.size chart) /\
    0 <= Charts.height (Charts.size chart).
Proof.
  destruct (Charts.chartFromAnchor Samples.plainZip Samples.chartRIdMap "sheet-1" "Sheet1"
              "V1StGXR8" Samples.anchor) as [chart|] eqn:Hchart;
    [|vm_compute in Hchart; discriminate].
  exists chart. split; [reflexivity|].
  split; [vm_compute in Hchart; injection Hchart as <-; reflexivity|].
  split; [vm_compute in Hchart; injection Hchart as <-; reflexivity|].
  exact (chart_position_and_size_not_negative _ _ _ _ _ _ chart Hchart).
Defined.

(** ** The field indices of a pivot table *)

Lemma groupIsClass_numAttrRegex (tag attr : string) :
  Matching.groupIsClass 1 Js.isDigit (Pivot.numAttrRegex false tag attr).
Proof.
  unfold Pivot.numAttrRegex. cbn [Regex.seqs Matching.groupIsClass].
  repeat split; trivial; try (intros; congruence); try apply groupIsClass_lit.
Qed.

Lemma fieldsOf_nonneg (signed : bool) (block item attr pivotTableXml : string) :
  Forall (fun i => 0 <= i) (Pivot.fieldsOf signed block item attr pivotTableXml).
Proof.
  unfold Pivot.fieldsOf.
  destruct (Regex.exec (Pivot.blockRegex block) pivotTableXml) as [m|]; [|constructor].
  cbv zeta. destruct signed.
  - apply Forall_forall. intros i Hi. apply list_elem_of_filter in Hi as [Hi _]. exact Hi.
  - apply Forall_forall. intros i Hi.
    apply list_elem_of_omap in Hi as (f & Hf & Hparse).
    apply list_elem_of_In in Hf.
    destruct (Regex.group f 1) as [g|] eqn:Hg; [|discriminate].
    cbn [mbind option_bind] in Hparse.
    destruct (matchAll_group_class 1 Js.isDigit _ _ f g
                (groupIsClass_numAttrRegex _ attr) Hf Hg) as [Hne Hall].
    destruct (parseInt_digits g Hne Hall) as (n & Hn & Hrange).
    rewrite Hn in Hparse. injection Hparse as <-. lia.
Qed.

(** X29: the field indices of a pivot table that the extractor emits
    are never negative: the row and column fields because negative
    indices are dropped, the value and filter fields because their
    pattern takes digits only. *)
Theorem pivot_field_indices_not_negative (pivotCacheMap : gmap string Pivot.CacheInfo)
    (sheetNameToIdMap : gmap string string) (sheetId sheetName nanoid pivotTableXml : string)
    (pt : Pivot.ImportedPivotTable) :
  Pivot.pivotTableFromXml pivotCacheMap sheetNameToIdMap sheetId sheetName nanoid
    pivotTableXml = Some pt ->
  Forall (fun i => 0 <= i) (Pivot.rowFields (Pivot.fields pt)) /\
  Forall (fun i => 0 <= i) (Pivot.colFields (Pivot.fields pt)) /\
  Forall (fun i => 0 <= i) (Pivot.valueFields (Pivot.fields pt)) /\
  Forall (fun i => 0 <= i) (Pivot.filterFields (Pivot.fields pt)).
Proof.
  unfold Pivot.pivotTableFromXml. cbv zeta.
  destruct (pivotCacheMap !! _) as [cacheInfo|]; [|discriminate].
  intros [= <-]. cbn [Pivot.fields Pivot.rowFields Pivot.colFields Pivot.valueFields
                      Pivot.filterFields].
  repeat split; apply fieldsOf_nonneg.
Qed.

Lemma pivot_field_indices_not_negative_witness :
  exists pt,
    Pivot.pivotTableFromXml Samples.pivotCacheMap Samples.sheetNameToIdMap
      "sheet-b" "Pivot" "V1StGXR8" Samples.pivotTableXml = Some pt /\
    Pivot.fields pt =
      {| Pivot.rowFields := [0]; Pivot.colFields := []; Pivot.valueFields := [2];
         Pivot.filterFields := [3; 1] |} /\
    Forall (fun i => 0 <= i) (Pivot.rowFields (Pivot.fields pt)) /\
    Forall (fun i => 0 <= i) (Pivot.colFields (Pivot.fields pt)) /\
    Forall (fun i => 0 <= i) (Pivot.valueFields (Pivot.fields pt)) /\
    Forall (fun i => 0 <= i) (Pivot.filterFields (Pivot.fields pt)).
Proof.
  destruct (Pivot.pivotTableFromXml Samples.pivotCacheMap Samples.sheetNameToIdMap
              "sheet-b" "Pivot" "V1StGXR8" Samples.pivotTableXml) as [pt|] eqn:Hrun;
    [|vm_compute in Hrun; discriminate].
  exists pt. split; [reflexivity|].
  split; [vm_compute in Hrun; injection Hrun as <-; reflexivity|].
  exact (pivot_field_indices_not_negative _ _ _ _ _ _ pt Hrun).
Defined.
